(** * Batch normalization host reference (driver/miopen_BatchNormHost.hpp)
      and the HIP inference kernels (src/kernels/MIOpenBatchNormFwdInfer*HIP.cpp)

    The six host entry points and the two device thread functions are embedded
    as functions over an abstract arithmetic [Scalar]: the C++ [double]
    operations [+ - * / sqrt fabs] and the conversion from [int] are fields of
    a class, so that the same definitions can be

    - reasoned about for every interpretation of the operations (lemmas that
      only follow the data flow of the code),
    - read in the field of real numbers (instance [Scalar_R]), where the
      algebraic identities of the contract are stated, and
    - run on IEEE-754 binary64 (instance [Scalar_double], the kernel's
      primitive floats), where concrete calls are evaluated.

    Buffers are the flat arrays behind the C pointers, addressed by the
    [unsigned int] index the code computes (wrap-around modulo 2^32 written
    out).  The element type [T] of the templates is a parameter, promoted to
    the accumulator type at each read, as the C++ conversions do.

    What the embedding takes for granted: the arrays passed to a call do not
    overlap; the [int] products [channels*height*width] and
    [width*row + column] do not overflow (undefined in C++); the text
    compiled is the one under [MIO_HEIRARCH_SEL == 0], as the header defines
    it; the [printf] of the per-activation inference is not an effect on
    memory.  Scalar locals that the code resets before each use
    ([mean_accum], [variance_accum], [elemStd], ...) are [let]-bound.

    The development also embeds, in the same style, the launch of the
    inference kernels by the test (test/gtest/bn_fwd_infer_ocl_hip.cpp), the
    kernels and the host reference of the where operation
    (src/kernels/MIOpenWhere.cpp, driver/where_driver.hpp), the strides and
    the lengths the drivers build (driver/nllloss_driver.hpp,
    driver/unfold_driver.hpp, test/gtest/kldivloss.hpp) and the Adam
    reference (test/cpu_adam.hpp).  A launch of a kernel is the
    sequence of its threads; a pointer that may be null is an [option]. *)

From Stdlib Require Import Floats.
From Stdlib Require Import ZArith List Lia Bool Reals Lra.
Import ListNotations.
Local Open Scope Z_scope.

(** ** Arithmetic *)

Class Scalar (F : Type) : Type := {
  szero : F;
  sone : F;
  sadd : F -> F -> F;
  ssub : F -> F -> F;
  smul : F -> F -> F;
  sdiv : F -> F -> F;
  sopp : F -> F;
  ssqrt : F -> F;
  sabs : F -> F;
  of_int : Z -> F
}.

#[global] Instance Scalar_R : Scalar R := {
  szero := 0%R;
  sone := 1%R;
  sadd := Rplus;
  ssub := Rminus;
  smul := Rmult;
  sdiv := Rdiv;
  sopp := Ropp;
  ssqrt := R_sqrt.sqrt;
  sabs := Rbasic_fun.Rabs;
  of_int := IZR
}.

(** Conversion of a C integer to [double]; exact below 2^53. *)
Definition double_of_int (z : Z) : float :=
  if z <? 0 then PrimFloat.opp (PrimFloat.of_uint63 (Uint63.of_Z (- z)))
  else PrimFloat.of_uint63 (Uint63.of_Z z).

#[global] Instance Scalar_double : Scalar float := {
  szero := 0%float;
  sone := 1%float;
  sadd := PrimFloat.add;
  ssub := PrimFloat.sub;
  smul := PrimFloat.mul;
  sdiv := PrimFloat.div;
  sopp := PrimFloat.opp;
  ssqrt := PrimFloat.sqrt;
  sabs := PrimFloat.abs;
  of_int := double_of_int
}.

(** ** Buffers and index arithmetic *)

(** The array behind a pointer: contents by element index. *)
Definition buffer (A : Type) : Type := Z -> A.

Definition upd {A : Type} (b : buffer A) (i : Z) (v : A) : buffer A :=
  fun j => if j =? i then v else b j.

(** Value of an [unsigned int] expression. *)
Definition u32 (z : Z) : Z := z mod 2 ^ 32.

(** ** Loops *)

(** [for (int i = 0; i < n; i++) s = body i s], by the number of iterations. *)
Fixpoint for_loop {S : Type} (n : nat) (body : Z -> S -> S) (s : S) : S :=
  match n with
  | O => s
  | Datatypes.S k => body (Z.of_nat k) (for_loop k body s)
  end.

Definition for_int {S : Type} (n : Z) (body : Z -> S -> S) (s : S) : S :=
  for_loop (Z.to_nat n) body s.

(** The loop nest [for i < n1: for j < n2: for k < n3]. *)
Definition for3 {S : Type} (n1 n2 n3 : Z) (body : Z -> Z -> Z -> S -> S) (s : S) : S :=
  for_int n1 (fun i => for_int n2 (fun j => for_int n3 (fun k => body i j k))) s.

(** Indices [0 .. n-1] in loop order. *)
Definition zrange (n : Z) : list Z := map Z.of_nat (seq 0 (Z.to_nat n)).

(** Sum of a list of reals. *)
Definition Rsum (l : list R) : R := fold_right Rplus 0%R l.

(** ** Memory of the entry points *)

(** The arrays a training forward call may write. *)
Module Fwd.
Record mem (F : Type) : Type := Mem {
  out_ptr : buffer F;
  saveMean : buffer F;
  saveInvVariance : buffer F;
  runningMean : buffer F;
  runningVariance : buffer F
}.
Arguments Mem {F}.
Arguments out_ptr {F}.
Arguments saveMean {F}.
Arguments saveInvVariance {F}.
Arguments runningMean {F}.
Arguments runningVariance {F}.

Definition set_out_ptr {F} (m : mem F) (b : buffer F) : mem F :=
  Mem b (saveMean m) (saveInvVariance m) (runningMean m) (runningVariance m).
Definition set_saveMean {F} (m : mem F) (b : buffer F) : mem F :=
  Mem (out_ptr m) b (saveInvVariance m) (runningMean m) (runningVariance m).
Definition set_saveInvVariance {F} (m : mem F) (b : buffer F) : mem F :=
  Mem (out_ptr m) (saveMean m) b (runningMean m) (runningVariance m).
Definition set_runningMean {F} (m : mem F) (b : buffer F) : mem F :=
  Mem (out_ptr m) (saveMean m) (saveInvVariance m) b (runningVariance m).
Definition set_runningVariance {F} (m : mem F) (b : buffer F) : mem F :=
  Mem (out_ptr m) (saveMean m) (saveInvVariance m) (runningMean m) b.
End Fwd.

(** The [double*] arrays an inference call receives. *)
Module Inf.
Record mem (F : Type) : Type := Mem {
  out_ptr : buffer F;
  estimatedMean : buffer F;
  estimatedVariance : buffer F
}.
Arguments Mem {F}.
Arguments out_ptr {F}.
Arguments estimatedMean {F}.
Arguments estimatedVariance {F}.

Definition set_out_ptr {F} (m : mem F) (b : buffer F) : mem F :=
  Mem b (estimatedMean m) (estimatedVariance m).
End Inf.

(** The arrays a backward call writes, with its local [xhat] vector. *)
Module Bwd.
Record mem (F : Type) : Type := Mem {
  dx_ptr : buffer F;
  dscale_ptr : buffer F;
  dbias_ptr : buffer F;
  xhat : buffer F
}.
Arguments Mem {F}.
Arguments dx_ptr {F}.
Arguments dscale_ptr {F}.
Arguments dbias_ptr {F}.
Arguments xhat {F}.

Definition set_dx_ptr {F} (m : mem F) (b : buffer F) : mem F :=
  Mem b (dscale_ptr m) (dbias_ptr m) (xhat m).
Definition set_dscale_ptr {F} (m : mem F) (b : buffer F) : mem F :=
  Mem (dx_ptr m) b (dbias_ptr m) (xhat m).
Definition set_dbias_ptr {F} (m : mem F) (b : buffer F) : mem F :=
  Mem (dx_ptr m) (dscale_ptr m) b (xhat m).
Definition set_xhat {F} (m : mem F) (b : buffer F) : mem F :=
  Mem (dx_ptr m) (dscale_ptr m) (dbias_ptr m) b.
End Bwd.

(** ** The host entry points *)

Section Host.
Context {F : Type} {SF : Scalar F} {T : Type}.
(** Conversion of a [T] element to [double] at a read. *)
Variable promote : T -> F.
Variables n_batchs channels height width : Z.

(** [unsigned int in_nstride = channels*height*width] and
    [unsigned int in_cstride = height*width]. *)
Definition in_nstride : Z := u32 (channels * height * width).
Definition in_cstride : Z := u32 (height * width).

(** [adjIndex = in_cstride*cidx + width*row + column] *)
Definition adjIndex_at (cidx row column : Z) : Z :=
  u32 (in_cstride * cidx + width * row + column).

(** [index = in_nstride*bidx + adjIndex] *)
Definition index_at (bidx adjIndex : Z) : Z :=
  u32 (in_nstride * bidx + adjIndex).

(** [xhat_index = in_cstride*bidx + (width*row + column)] *)
Definition xhat_index_at (bidx row column : Z) : Z :=
  u32 (in_cstride * bidx + (width * row + column)).

(** *** Statistics of a per-activation group (lines 71-98, repeated at
    374-394 and 675-695): the batch loop for the mean, then the batch loop
    for the variance around that mean. *)
Section PerActivationStatistics.
Variable x_ptr : buffer T.
Variable adjIndex : Z.

Definition pa_mean : F :=
  let mean_accum :=
    for_int n_batchs
      (fun bidx mean_accum => sadd mean_accum (promote (x_ptr (index_at bidx adjIndex))))
      szero in
  sdiv mean_accum (of_int n_batchs).

Definition pa_variance : F :=
  let mean_accum := pa_mean in
  let variance_accum :=
    for_int n_batchs
      (fun bidx variance_accum =>
         let elemStd := ssub (promote (x_ptr (index_at bidx adjIndex))) mean_accum in
         sadd variance_accum (smul elemStd elemStd))
      szero in
  sdiv variance_accum (of_int n_batchs).
End PerActivationStatistics.

(** *** miopenBNFwdTrainPerActivationRunHost *)
Section FwdTrainPerActivation.
Variables in_ptr scale_ptr bias_ptr : buffer T.
Variable epsilon : F.
Variables savemeanvar runningmeanvar : bool.
Variable expAvgFactor : F.

(** Body of the column loop, lines 71-121. *)
Definition fwd_train_pa_group (adjIndex : Z) (m : Fwd.mem F) : Fwd.mem F :=
  let mean_accum := pa_mean in_ptr adjIndex in
  let m := if savemeanvar
           then Fwd.set_saveMean m (upd (Fwd.saveMean m) adjIndex mean_accum)
           else m in
  let m := if runningmeanvar
           then
             let newRunMean := smul (Fwd.runningMean m adjIndex) (ssub sone expAvgFactor) in
             Fwd.set_runningMean m
               (upd (Fwd.runningMean m) adjIndex (sadd (smul mean_accum expAvgFactor) newRunMean))
           else m in
  let variance_accum := pa_variance in_ptr adjIndex in
  let m := if runningmeanvar
           then
             let adjust :=
               if n_batchs =? 1 then variance_accum
               else smul (sdiv (of_int n_batchs) (of_int (n_batchs - 1))) variance_accum in
             Fwd.set_runningVariance m
               (upd (Fwd.runningVariance m) adjIndex
                  (sadd (smul expAvgFactor (Fwd.runningVariance m adjIndex))
                        (smul (ssub sone expAvgFactor) adjust)))
           else m in
  let elemInvVar := sdiv sone (ssqrt (sadd variance_accum epsilon)) in
  let m := if savemeanvar
           then Fwd.set_saveInvVariance m (upd (Fwd.saveInvVariance m) adjIndex elemInvVar)
           else m in
  for_int n_batchs
    (fun bidx m =>
       let index := index_at bidx adjIndex in
       let elemStd := ssub (promote (in_ptr index)) mean_accum in
       let inhat := smul elemStd elemInvVar in
       Fwd.set_out_ptr m
         (upd (Fwd.out_ptr m) index
            (sadd (smul (promote (scale_ptr adjIndex)) inhat) (promote (bias_ptr adjIndex)))))
    m.

Definition miopenBNFwdTrainPerActivationRunHost (m : Fwd.mem F) : Fwd.mem F :=
  for3 channels height width
    (fun cidx row column => fwd_train_pa_group (adjIndex_at cidx row column)) m.
End FwdTrainPerActivation.

(** *** miopenBNFwdTrainSpatialRunHost (the [MIO_HEIRARCH_SEL==0] text) *)
Section FwdTrainSpatial.
Variables in_ptr scale_ptr bias_ptr : buffer T.
Variable epsilon : F.
Variables savemeanvar runningmeanvar : bool.
Variable expAvgFactor : F.

(** [auto NHW = double(in_cstride*n_batchs)] *)
Definition fwd_NHW : F := of_int (u32 (in_cstride * n_batchs)).

(** The guarded row/column/batch nest of lines 183-196, 229-244, 284-300:
    [imgIndex = width*row + column; adjIndex = in_cstride*cidx + imgIndex;
     if(imgIndex < in_cstride) for(bidx...)]. *)
Definition guarded_nest {S : Type} (cidx : Z) (body : Z -> S -> S) (s : S) : S :=
  for_int height
    (fun row s =>
       for_int width
         (fun column s =>
            let imgIndex := u32 (width * row + column) in
            let adjIndex := u32 (in_cstride * cidx + imgIndex) in
            if imgIndex <? in_cstride
            then for_int n_batchs (fun bidx s => body (index_at bidx adjIndex) s) s
            else s)
         s)
    s.

Definition fwd_train_sp_mean (cidx : Z) : F :=
  let mean_accum :=
    guarded_nest cidx
      (fun index mean_accum => sadd mean_accum (promote (in_ptr index))) szero in
  sdiv mean_accum fwd_NHW.

(** Pass 2 (lines 229-244): [(x - mean)] is stored in the output buffer
    while its square is accumulated. *)
Definition fwd_train_sp_pass2 (cidx : Z) (mean_accum : F) (out : buffer F)
  : buffer F * F :=
  guarded_nest cidx
    (fun index (st : buffer F * F) =>
       let elemStd := ssub (promote (in_ptr index)) mean_accum in
       (upd (fst st) index elemStd, sadd (snd st) (smul elemStd elemStd)))
    (out, szero).

(** Body of the channel loop, lines 173-300. *)
Definition fwd_train_sp_channel (cidx : Z) (m : Fwd.mem F) : Fwd.mem F :=
  let mean_accum := fwd_train_sp_mean cidx in
  let m := if savemeanvar
           then Fwd.set_saveMean m (upd (Fwd.saveMean m) cidx mean_accum)
           else m in
  let m := if runningmeanvar
           then
             let newRunMean := smul (Fwd.runningMean m cidx) (ssub sone expAvgFactor) in
             Fwd.set_runningMean m
               (upd (Fwd.runningMean m) cidx (sadd (smul mean_accum expAvgFactor) newRunMean))
           else m in
  let p2 := fwd_train_sp_pass2 cidx mean_accum (Fwd.out_ptr m) in
  let m := Fwd.set_out_ptr m (fst p2) in
  let variance_accum := sdiv (snd p2) fwd_NHW in
  let m := if runningmeanvar
           then
             let adjust :=
               if u32 (n_batchs * in_cstride) =? 1 then variance_accum
               else smul (sdiv fwd_NHW (ssub fwd_NHW sone)) variance_accum in
             Fwd.set_runningVariance m
               (upd (Fwd.runningVariance m) cidx
                  (sadd (smul expAvgFactor (Fwd.runningVariance m cidx))
                        (smul (ssub sone expAvgFactor) adjust)))
           else m in
  let invertVar := sdiv sone (ssqrt (sadd variance_accum epsilon)) in
  let m := if savemeanvar
           then Fwd.set_saveInvVariance m (upd (Fwd.saveInvVariance m) cidx invertVar)
           else m in
  Fwd.set_out_ptr m
    (guarded_nest cidx
       (fun index out =>
          upd out index
            (sadd (smul (promote (scale_ptr cidx)) (smul invertVar (out index)))
                  (promote (bias_ptr cidx))))
       (Fwd.out_ptr m)).

Definition miopenBNFwdTrainSpatialRunHost (m : Fwd.mem F) : Fwd.mem F :=
  for_int channels fwd_train_sp_channel m.
End FwdTrainSpatial.

(** *** miopenBNFwdInferPerActivationRunHost *)
Section FwdInferPerActivation.
Variables in_ptr scale_ptr bias_ptr : buffer T.
Variable epsilon : F.
Variable estmeanvar : bool.

(** Lines 349-361: supplied estimates. *)
Definition fwd_infer_pa_est_group (adjIndex : Z) (m : Inf.mem F) : Inf.mem F :=
  let mean := Inf.estimatedMean m adjIndex in
  let variance := Inf.estimatedVariance m adjIndex in
  let elemInvVar := sdiv sone (ssqrt (sadd variance epsilon)) in
  for_int n_batchs
    (fun bidx m =>
       let index := index_at bidx adjIndex in
       let elemStd := ssub (promote (in_ptr index)) mean in
       let inhat := smul elemStd elemInvVar in
       Inf.set_out_ptr m
         (upd (Inf.out_ptr m) index
            (sadd (smul (promote (scale_ptr adjIndex)) inhat) (promote (bias_ptr adjIndex)))))
    m.

(** Lines 374-409: statistics of the batch. *)
Definition fwd_infer_pa_batch_group (adjIndex : Z) (m : Inf.mem F) : Inf.mem F :=
  let mean_accum := pa_mean in_ptr adjIndex in
  let variance_accum := pa_variance in_ptr adjIndex in
  let elemInvVar := sdiv sone (ssqrt (sadd variance_accum epsilon)) in
  for_int n_batchs
    (fun bidx m =>
       let index := index_at bidx adjIndex in
       let elemStd := ssub (promote (in_ptr index)) mean_accum in
       let inhat := smul elemStd elemInvVar in
       Inf.set_out_ptr m
         (upd (Inf.out_ptr m) index
            (sadd (smul (promote (scale_ptr adjIndex)) inhat) (promote (bias_ptr adjIndex)))))
    m.

Definition miopenBNFwdInferPerActivationRunHost (m : Inf.mem F) : Inf.mem F :=
  if estmeanvar
  then for3 channels height width
         (fun cidx row column => fwd_infer_pa_est_group (adjIndex_at cidx row column)) m
  else for3 channels height width
         (fun cidx row column => fwd_infer_pa_batch_group (adjIndex_at cidx row column)) m.
End FwdInferPerActivation.

(** *** miopenBNFwdInferSpatialRunHost (the [MIO_HEIRARCH_SEL==0] text) *)
Section FwdInferSpatial.
Variables in_ptr scale_ptr bias_ptr : buffer T.
Variable epsilon : F.
Variable estmeanvar : bool.

(** Lines 452-466: supplied estimates. *)
Definition fwd_infer_sp_est_channel (cidx : Z) (m : Inf.mem F) : Inf.mem F :=
  let mean := Inf.estimatedMean m cidx in
  let variance := Inf.estimatedVariance m cidx in
  let invertVar := sdiv sone (ssqrt (sadd variance epsilon)) in
  for3 height width n_batchs
    (fun row column bidx m =>
       let adjIndex := adjIndex_at cidx row column in
       let index := index_at bidx adjIndex in
       let elemStd := ssub (promote (in_ptr index)) mean in
       let inhat := smul elemStd invertVar in
       Inf.set_out_ptr m
         (upd (Inf.out_ptr m) index
            (sadd (smul (promote (scale_ptr cidx)) inhat) (promote (bias_ptr cidx)))))
    m.

(** [double(in_cstride*n_batchs)] *)
Definition inf_NHW : F := of_int (u32 (in_cstride * n_batchs)).

Definition fwd_infer_sp_mean (cidx : Z) : F :=
  let mean_accum :=
    for3 height width n_batchs
      (fun row column bidx mean_accum =>
         let adjIndex := adjIndex_at cidx row column in
         let index := index_at bidx adjIndex in
         sadd mean_accum (promote (in_ptr index)))
      szero in
  sdiv mean_accum inf_NHW.

(** Lines 525-537: [(x - mean)] goes to the output buffer. *)
Definition fwd_infer_sp_pass2 (cidx : Z) (mean_accum : F) (out : buffer F)
  : buffer F * F :=
  for3 height width n_batchs
    (fun row column bidx (st : buffer F * F) =>
       let adjIndex := adjIndex_at cidx row column in
       let index := index_at bidx adjIndex in
       let elemStd := ssub (promote (in_ptr index)) mean_accum in
       (upd (fst st) index elemStd, sadd (snd st) (smul elemStd elemStd)))
    (out, szero).

(** Lines 485-578. *)
Definition fwd_infer_sp_batch_channel (cidx : Z) (m : Inf.mem F) : Inf.mem F :=
  let mean_accum := fwd_infer_sp_mean cidx in
  let p2 := fwd_infer_sp_pass2 cidx mean_accum (Inf.out_ptr m) in
  let m := Inf.set_out_ptr m (fst p2) in
  let variance_accum := sdiv (snd p2) inf_NHW in
  let invertVar := sdiv sone (ssqrt (sadd variance_accum epsilon)) in
  for3 height width n_batchs
    (fun row column bidx m =>
       let adjIndex := adjIndex_at cidx row column in
       let index := index_at bidx adjIndex in
       let elemStd := Inf.out_ptr m index in
       let inhat := smul elemStd invertVar in
       Inf.set_out_ptr m
         (upd (Inf.out_ptr m) index
            (sadd (smul (promote (scale_ptr cidx)) inhat) (promote (bias_ptr cidx)))))
    m.

Definition miopenBNFwdInferSpatialRunHost (m : Inf.mem F) : Inf.mem F :=
  if estmeanvar
  then for_int channels fwd_infer_sp_est_channel m
  else for_int channels fwd_infer_sp_batch_channel m.
End FwdInferSpatial.

(** *** miopenBNBwdPerActivationRunHost *)
Section BwdPerActivation.
Variables x_ptr dy_ptr scale_ptr : buffer T.
Variable epsilon : F.
Variable savedmeanvar : bool.
Variables savedMean savedInvVariance : buffer F.

(** First batch loop of a group (lines 641-653, repeated at 703-715);
    the state carries the arrays with [dxhat] and [dxhathat]. *)
Definition bwd_pa_pass1 (adjIndex row column : Z) (mean elemInvVar : F)
    (m : Bwd.mem F) : Bwd.mem F * (F * F) :=
  for_int n_batchs
    (fun bidx (st : Bwd.mem F * (F * F)) =>
       let m := fst st in
       let dxhat := fst (snd st) in
       let dxhathat := snd (snd st) in
       let index := index_at bidx adjIndex in
       let xhat_index := xhat_index_at bidx row column in
       let elemStd := ssub (promote (x_ptr index)) mean in
       let m := Bwd.set_xhat m (upd (Bwd.xhat m) xhat_index (smul elemStd elemInvVar)) in
       let dyelem := promote (dy_ptr index) in
       let m := Bwd.set_dbias_ptr m
                  (upd (Bwd.dbias_ptr m) adjIndex (sadd (Bwd.dbias_ptr m adjIndex) dyelem)) in
       let m := Bwd.set_dscale_ptr m
                  (upd (Bwd.dscale_ptr m) adjIndex
                     (sadd (Bwd.dscale_ptr m adjIndex)
                           (smul (Bwd.xhat m xhat_index) dyelem))) in
       let tmp1 := smul (promote (scale_ptr adjIndex)) dyelem in
       let dxhat := sadd dxhat tmp1 in
       let dxhathat := sadd dxhathat (smul tmp1 (Bwd.xhat m xhat_index)) in
       (m, (dxhat, dxhathat)))
    (m, (szero, szero)).

(** Second batch loop of a group (lines 656-663, repeated at 718-725). *)
Definition bwd_pa_pass2 (adjIndex row column : Z) (elemInvVar dxhat dxhathat : F)
    (m : Bwd.mem F) : Bwd.mem F :=
  for_int n_batchs
    (fun bidx m =>
       let index := index_at bidx adjIndex in
       let xhat_index := xhat_index_at bidx row column in
       let tmp1 := sadd (smul (Bwd.xhat m xhat_index) dxhathat) dxhat in
       let tmp2 := ssub (smul (of_int n_batchs) dxhat) tmp1 in
       let tmp3 := sdiv elemInvVar (of_int n_batchs) in
       Bwd.set_dx_ptr m (upd (Bwd.dx_ptr m) index (smul tmp3 tmp2)))
    m.

(** Lines 639-663 (and 701-725): the gradients of one group. *)
Definition bwd_pa_grad (adjIndex row column : Z) (mean elemInvVar : F)
    (m : Bwd.mem F) : Bwd.mem F :=
  let p1 := bwd_pa_pass1 adjIndex row column mean elemInvVar m in
  let m := fst p1 in
  let dxhat := fst (snd p1) in
  let dxhathat := snd (snd p1) in
  let m := Bwd.set_dscale_ptr m
             (upd (Bwd.dscale_ptr m) adjIndex
                (sdiv (Bwd.dscale_ptr m adjIndex) (of_int n_batchs))) in
  bwd_pa_pass2 adjIndex row column elemInvVar dxhat dxhathat m.

Definition bwd_pa_saved_group (cidx row column : Z) (m : Bwd.mem F) : Bwd.mem F :=
  let adjIndex := adjIndex_at cidx row column in
  let mean := savedMean adjIndex in
  let elemInvVar := savedInvVariance adjIndex in
  bwd_pa_grad adjIndex row column mean elemInvVar m.

Definition bwd_pa_recompute_group (cidx row column : Z) (m : Bwd.mem F) : Bwd.mem F :=
  let adjIndex := adjIndex_at cidx row column in
  let mean := pa_mean x_ptr adjIndex in
  let variance := pa_variance x_ptr adjIndex in
  let elemInvVar := sdiv sone (ssqrt (sadd variance epsilon)) in
  bwd_pa_grad adjIndex row column mean elemInvVar m.

(** Mean and inverse deviation the two branches hand to the gradient block
    (named for the statements below). *)
Definition bwd_pa_stats (adjIndex : Z) : F * F :=
  if savedmeanvar
  then (savedMean adjIndex, savedInvVariance adjIndex)
  else (pa_mean x_ptr adjIndex,
        sdiv sone (ssqrt (sadd (pa_variance x_ptr adjIndex) epsilon))).

(** [std::vector<double> xhat(n_batchs*in_cstride)] starts at zero. *)
Definition miopenBNBwdPerActivationRunHost (m : Bwd.mem F) : Bwd.mem F :=
  let m := Bwd.set_xhat m (fun _ => szero) in
  if savedmeanvar
  then for3 channels height width bwd_pa_saved_group m
  else for3 channels height width bwd_pa_recompute_group m.
End BwdPerActivation.

(** *** miopenBNBwdSpatialRunHost (the [MIO_HEIRARCH_SEL==0] text) *)
Section BwdSpatial.
Variables x_ptr dy_ptr scale_ptr : buffer T.
Variable epsilon : F.
Variable savedmeanvar : bool.
Variables savedMean savedInvVariance : buffer F.

(** [double NHW = double(n_batchs*in_cstride)] *)
Definition bwd_NHW : F := of_int (u32 (n_batchs * in_cstride)).

(** [Csubindex = in_cstride*cidx; adjIndex = Csubindex + width*row + column] *)
Definition bwd_adjIndex_at (cidx row column : Z) : Z :=
  let Csubindex := u32 (in_cstride * cidx) in
  u32 (Csubindex + width * row + column).

(** Lines 777-793: the accumulation nest with saved statistics. *)
Definition bwd_sp_saved_accumulate (cidx : Z) (mean invVar : F) (m : Bwd.mem F)
  : Bwd.mem F :=
  for3 height width n_batchs
    (fun row column bidx m =>
       let adjIndex := bwd_adjIndex_at cidx row column in
       let index := index_at bidx adjIndex in
       let elemStd := ssub (promote (x_ptr index)) mean in
       let dyelem := promote (dy_ptr index) in
       let m := Bwd.set_dbias_ptr m
                  (upd (Bwd.dbias_ptr m) cidx (sadd (Bwd.dbias_ptr m cidx) dyelem)) in
       Bwd.set_dscale_ptr m
         (upd (Bwd.dscale_ptr m) cidx
            (sadd (Bwd.dscale_ptr m cidx) (smul (smul elemStd invVar) dyelem))))
    m.

(** Lines 796-810: the gradient nest with saved statistics. *)
Definition bwd_sp_saved_gradient (cidx : Z) (mean invVar : F) (m : Bwd.mem F)
  : Bwd.mem F :=
  for3 height width n_batchs
    (fun row column bidx m =>
       let adjIndex := bwd_adjIndex_at cidx row column in
       let index := index_at bidx adjIndex in
       let elemStd := ssub (promote (x_ptr index)) mean in
       let tmp1 := ssub (smul bwd_NHW (promote (dy_ptr index))) (Bwd.dbias_ptr m cidx) in
       let tmp2 := smul (smul (sopp elemStd) invVar) (Bwd.dscale_ptr m cidx) in
       let tmp3 := sdiv (smul (promote (scale_ptr cidx)) invVar) bwd_NHW in
       Bwd.set_dx_ptr m (upd (Bwd.dx_ptr m) index (smul tmp3 (sadd tmp2 tmp1))))
    m.

(** Lines 775-810: saved statistics. *)
Definition bwd_sp_saved_channel (cidx : Z) (m : Bwd.mem F) : Bwd.mem F :=
  let mean := savedMean cidx in
  let invVar := savedInvVariance cidx in
  let m := bwd_sp_saved_accumulate cidx mean invVar m in
  let m := Bwd.set_dscale_ptr m
             (upd (Bwd.dscale_ptr m) cidx (sdiv (Bwd.dscale_ptr m cidx) bwd_NHW)) in
  bwd_sp_saved_gradient cidx mean invVar m.

(** Lines 839-873 and 875-913: statistics of the channel. *)
Definition bwd_sp_mean (cidx : Z) : F :=
  let mean :=
    for3 height width n_batchs
      (fun row column bidx mean =>
         let adjIndex := bwd_adjIndex_at cidx row column in
         let index := index_at bidx adjIndex in
         sadd mean (promote (x_ptr index)))
      szero in
  sdiv mean bwd_NHW.

Definition bwd_sp_variance (cidx : Z) : F :=
  let mean := bwd_sp_mean cidx in
  let variance :=
    for3 height width n_batchs
      (fun row column bidx variance =>
         let adjIndex := bwd_adjIndex_at cidx row column in
         let index := index_at bidx adjIndex in
         let elemStd := ssub (promote (x_ptr index)) mean in
         sadd variance (smul elemStd elemStd))
      szero in
  sdiv variance bwd_NHW.

(** Lines 921-936: the accumulation nest, caching [xhat]. *)
Definition bwd_sp_recompute_accumulate (cidx : Z) (mean invVar : F) (m : Bwd.mem F)
  : Bwd.mem F :=
  for3 height width n_batchs
    (fun row column bidx m =>
       let adjIndex := bwd_adjIndex_at cidx row column in
       let index := index_at bidx adjIndex in
       let xhat_index := xhat_index_at bidx row column in
       let elemStd := ssub (promote (x_ptr index)) mean in
       let m := Bwd.set_xhat m (upd (Bwd.xhat m) xhat_index (smul elemStd invVar)) in
       let dyelem := promote (dy_ptr index) in
       let m := Bwd.set_dbias_ptr m
                  (upd (Bwd.dbias_ptr m) cidx (sadd (Bwd.dbias_ptr m cidx) dyelem)) in
       Bwd.set_dscale_ptr m
         (upd (Bwd.dscale_ptr m) cidx
            (sadd (Bwd.dscale_ptr m cidx) (smul (Bwd.xhat m xhat_index) dyelem))))
    m.

(** Lines 962-975: the gradient nest from the cached [xhat]. *)
Definition bwd_sp_recompute_gradient (cidx : Z) (invVar : F) (m : Bwd.mem F)
  : Bwd.mem F :=
  for3 height width n_batchs
    (fun row column bidx m =>
       let adjIndex := bwd_adjIndex_at cidx row column in
       let index := index_at bidx adjIndex in
       let xhat_index := xhat_index_at bidx row column in
       let tmp1 := ssub (smul bwd_NHW (promote (dy_ptr index))) (Bwd.dbias_ptr m cidx) in
       let tmp2 := smul (sopp (Bwd.xhat m xhat_index)) (Bwd.dscale_ptr m cidx) in
       let tmp3 := sdiv (smul (promote (scale_ptr cidx)) invVar) bwd_NHW in
       Bwd.set_dx_ptr m (upd (Bwd.dx_ptr m) index (smul tmp3 (sadd tmp2 tmp1))))
    m.

(** Lines 827-995: statistics recomputed from [x]. *)
Definition bwd_sp_recompute_channel (cidx : Z) (m : Bwd.mem F) : Bwd.mem F :=
  let mean := bwd_sp_mean cidx in
  let variance := bwd_sp_variance cidx in
  let invVar := sdiv sone (ssqrt (sadd variance epsilon)) in
  let m := Bwd.set_dscale_ptr m (upd (Bwd.dscale_ptr m) cidx szero) in
  let m := Bwd.set_dbias_ptr m (upd (Bwd.dbias_ptr m) cidx szero) in
  let m := bwd_sp_recompute_accumulate cidx mean invVar m in
  let m := Bwd.set_dscale_ptr m
             (upd (Bwd.dscale_ptr m) cidx (sdiv (Bwd.dscale_ptr m cidx) bwd_NHW)) in
  bwd_sp_recompute_gradient cidx invVar m.

(** In the recomputing branch [std::vector<double> xhat(n_batchs*in_cstride)]
    starts at zero; the other branch has no [xhat]. *)
Definition miopenBNBwdSpatialRunHost (m : Bwd.mem F) : Bwd.mem F :=
  if savedmeanvar
  then for_int channels bwd_sp_saved_channel m
  else for_int channels bwd_sp_recompute_channel (Bwd.set_xhat m (fun _ => szero)).
End BwdSpatial.
End Host.

(** ** The HIP inference kernels, one thread *)

(** Value of a [size_t] expression. *)
Definition u64 (z : Z) : Z := z mod 2 ^ 64.

(** [for (i = start; i < stop; i += step)] with [step >= 1] (the product
    [gridDim.y * blockDim.y] of a launch), by its number of iterations; the
    counter is taken not to wrap. *)
Definition for_stride {S : Type} (start stop step : Z) (body : Z -> S -> S) (s : S) : S :=
  for_int ((stop - start + step - 1) / step) (fun j => body (start + j * step)) s.

Section Kernel.
Context {F : Type} {SF : Scalar F} {TIO : Type}.
(** [static_cast<TPREC>] of an input element and [static_cast<TIO>] of a
    result. *)
Variable to_prec : TIO -> F.
Variable to_io : F -> TIO.
(** [rsqrt] and [fma] of the device library, which is not part of the
    repository: parameters of the model. *)
Variable rsqrt : F -> F.
Variable fma : F -> F -> F -> F.

Variable in_ : buffer TIO.
Variables estimatedMean estimatedVariance scale bias : buffer F.
Variable epsilon : F.
Variables batchSize imageDims batchStride : Z.

(** [bn_fwd_infer_per_activation] for the thread with
    [grpid = blockIdx.x], [yidx = blockIdx.y*blockDim.y + threadIdx.y] and
    [ystep = gridDim.y*blockDim.y]. *)
Definition bn_fwd_infer_per_activation (grpid yidx ystep : Z) (out : buffer TIO)
  : buffer TIO :=
  for_stride yidx imageDims ystep
    (fun img_offset out =>
       let adjIndex := u64 (grpid * imageDims + img_offset) in
       let mean := estimatedMean adjIndex in
       let variance := estimatedVariance adjIndex in
       let invVariance := rsqrt (sabs (sadd variance epsilon)) in
       let pvt_scale := scale adjIndex in
       let pvt_bias := bias adjIndex in
       for_int batchSize
         (fun n out =>
            let index := u64 (batchStride * n + adjIndex) in
            let inhat := smul (ssub (to_prec (in_ index)) mean) invVariance in
            upd out index (to_io (fma pvt_scale inhat pvt_bias)))
         out)
    out.

(** [bn_fwd_infer_spatial] for the thread with
    [xidx = blockIdx.x*blockDim.x + threadIdx.x], [yidx] and [ystep] as
    above.  The loop counter [idx] is an [unsigned int]: the definition
    describes the thread while [idx + ystep] does not wrap, that is for
    [imageDims + ystep <= 2^32]. *)
Definition bn_fwd_infer_spatial (xidx yidx ystep : Z) (out : buffer TIO)
  : buffer TIO :=
  let mean := estimatedMean xidx in
  let variance := estimatedVariance xidx in
  let pscale := scale xidx in
  let pbias := bias xidx in
  let invVariance := rsqrt (sabs (sadd variance epsilon)) in
  for_stride yidx imageDims ystep
    (fun idx out =>
       for_int batchSize
         (fun n out =>
            let index := u32 (n * batchStride + xidx * imageDims + idx) in
            let inhat := smul (ssub (to_prec (in_ index)) mean) invVariance in
            upd out index (to_io (fma pscale inhat pbias)))
         out)
    out.
End Kernel.

(** ** Launch of the HIP inference kernels
    (test/gtest/bn_fwd_infer_ocl_hip.cpp, [BatchNormForwardInferencGPU]) *)

(** Lines 67-75: [unsigned int in_cstride = h * w],
    [unsigned int in_nstride = c * in_cstride], [size_t ylocalsize = 256] and
    [size_t ygridsize = ylocalsize * ((in_cstride + ylocalsize - 1) / ylocalsize)]. *)
Definition ylocalsize : Z := 256.

Definition launch_in_cstride (h w : Z) : Z := u32 (h * w).

Definition launch_in_nstride (c h w : Z) : Z := u32 (c * launch_in_cstride h w).

Definition ygridsize (in_cstride : Z) : Z :=
  u64 (ylocalsize * (u64 (u64 (in_cstride + ylocalsize) - 1) / ylocalsize)).

Section Launch.
Context {F : Type} {SF : Scalar F} {TIO : Type}.
Variable to_prec : TIO -> F.
Variable to_io : F -> TIO.
Variable rsqrt : F -> F.
Variable fma : F -> F -> F -> F.

(** The effect on [y] of the launch of lines 121-148 with [use_hip]: global
    sizes [{c, ygridsize, 1}], local sizes [{1, 256, 1}], arguments
    [(x, y, estimatedMean, estimatedVariance, bnScale, bnBias, epsilon, n,
    in_cstride, in_nstride)].  One thread per point of the global sizes
    ([blockDim.x = 1], so [blockIdx.x] is the first coordinate, and
    [gridDim.y*blockDim.y = ygridsize]); the threads are run one after the
    other (no two of them write the same element, so every order leaves the
    same array).  [spatial] stands for [bn_mode == miopenBNSpatial]. *)
Definition BatchNormForwardInferencGPU (spatial : bool) (n c h w : Z)
    (x : buffer TIO) (bnScale bnBias estimatedMean estimatedVariance : buffer F)
    (epsilon : F) (y : buffer TIO) : buffer TIO :=
  let in_cstride := launch_in_cstride h w in
  let in_nstride := launch_in_nstride c h w in
  let xgridsize := c in
  let ygrid := ygridsize in_cstride in
  let zgridsize := 1 in
  for3 xgridsize ygrid zgridsize
    (fun gx gy _ y =>
       if spatial
       then bn_fwd_infer_spatial to_prec to_io rsqrt fma x estimatedMean estimatedVariance
              bnScale bnBias epsilon n in_cstride in_nstride gx gy ygrid y
       else bn_fwd_infer_per_activation to_prec to_io rsqrt fma x estimatedMean
              estimatedVariance bnScale bnBias epsilon n in_cstride in_nstride gx gy ygrid y)
    y.
End Launch.

(** ** The contract, in the words of the specification *)

Section Contract.
Context {F : Type} {SF : Scalar F}.

(** [invVariance = 1/sqrt(variance + epsilon)] *)
Definition invVariance_contract (variance epsilon : F) : F :=
  sdiv sone (ssqrt (sadd variance epsilon)).

(** [y = scale * (x - mean) * invVariance + bias] *)
Definition y_contract (scale x mean invVariance bias : F) : F :=
  sadd (smul (smul scale (ssub x mean)) invVariance) bias.

(** [xhat = (x - mean) * invVar] *)
Definition xhat_contract (x mean invVar : F) : F := smul (ssub x mean) invVar.

(** [dx = (invVar/M) * (M*scale*dy - scale*dbias - xhat*scale*dscale)] *)
Definition dx_contract (invVar M scale dy dbias dscale xhat : F) : F :=
  smul (sdiv invVar M)
    (ssub (ssub (smul (smul M scale) dy) (smul scale dbias))
          (smul (smul xhat scale) dscale)).

(** [newRunningMean = runningMean*(1-momentum) + mean*momentum] *)
Definition running_mean_contract (runningMean momentum mean : F) : F :=
  sadd (smul runningMean (ssub sone momentum)) (smul mean momentum).

(** [adjustedVariance = variance * M/(M-1)] for [M > 1], [variance] for [M = 1] *)
Definition adjusted_variance_contract (M : Z) (variance : F) : F :=
  if M =? 1 then variance
  else sdiv (smul variance (of_int M)) (ssub (of_int M) sone).

(** [newRunningVariance = momentum*runningVariance + (1-momentum)*adjustedVariance] *)
Definition running_variance_contract (runningVariance momentum adjustedVariance : F) : F :=
  sadd (smul momentum runningVariance) (smul (ssub sone momentum) adjustedVariance).
End Contract.

(** ** Tensor view of the specification *)

Section TensorView.
Variables n_batchs channels height width : Z.

(** Element [(n, c, h, w)] of the row-major [(N, C, H, W)] tensor. *)
Definition lin (n c h w : Z) : Z :=
  n * (channels * height * width) + c * (height * width) + h * width + w.

(** Dimensions for which the [int] products of the code do not overflow and
    every element index fits an [unsigned int]. *)
Definition dims_ok : Prop :=
  0 <= n_batchs /\ 0 <= channels /\ 0 <= height /\ 0 <= width /\
  channels * height * width < 2 ^ 31 /\
  n_batchs * (channels * height * width) < 2 ^ 32.

(** Members of the per-activation group [(c, h, w)], in batch order. *)
Definition pa_members (c h w : Z) : list Z :=
  map (fun n => lin n c h w) (zrange n_batchs).

(** Members of the spatial group [c], in the order of the loop nest. *)
Definition sp_members (c : Z) : list Z :=
  flat_map (fun h => flat_map (fun w => map (fun n => lin n c h w) (zrange n_batchs))
                       (zrange width))
           (zrange height).
End TensorView.

(** ** Expressions of the code, named for the statements below *)

Section CodeExpressions.
Context {F : Type} {SF : Scalar F} {T : Type}.
Variable promote : T -> F.

(** The value the normalization loops of lines 113-121, 353-361, 401-409 and
    459-464 store: [scale*((x - mean)*invVar) + bias]. *)
Definition fwd_pa_y (x_ptr scale_ptr bias_ptr : buffer T) (mean_accum elemInvVar : F)
    (adjIndex idx : Z) : F :=
  sadd (smul (promote (scale_ptr adjIndex))
             (smul (ssub (promote (x_ptr idx)) mean_accum) elemInvVar))
       (promote (bias_ptr adjIndex)).

(** The value the spatial training loop of lines 284-300 stores:
    [(scale*(invertVar*(x - mean))) + bias]. *)
Definition fwd_sp_train_y (x_ptr scale_ptr bias_ptr : buffer T) (mean_accum invertVar : F)
    (cidx idx : Z) : F :=
  sadd (smul (promote (scale_ptr cidx))
             (smul invertVar (ssub (promote (x_ptr idx)) mean_accum)))
       (promote (bias_ptr cidx)).

(** [acc += f(i)] over the elements [l] in order, from [a]. *)
Definition accum_from (a : F) (f : Z -> F) (l : list Z) : F :=
  fold_left (fun acc i => sadd acc (f i)) l a.

(** [mean = (sum of x over the group) / M], [M] as the code converts it. *)
Definition group_mean (x_ptr : buffer T) (l : list Z) (M : Z) : F :=
  sdiv (accum_from szero (fun i => promote (x_ptr i)) l) (of_int M).

(** [variance = (sum of (x - mean)^2 over the group) / M], second pass. *)
Definition group_variance (x_ptr : buffer T) (l : list Z) (M : Z) : F :=
  let mean := group_mean x_ptr l M in
  sdiv (accum_from szero
          (fun i => smul (ssub (promote (x_ptr i)) mean) (ssub (promote (x_ptr i)) mean)) l)
       (of_int M).

(** The value a kernel thread stores (lines 68-77 of each kernel):
    [fma(scale, (x - mean) * rsqrt(fabs(variance + epsilon)), bias)]. *)
Definition kernel_y (rsqrt : F -> F) (fma : F -> F -> F -> F)
    (x mean variance epsilon scale bias : F) : F :=
  fma scale (smul (ssub x mean) (rsqrt (sabs (sadd variance epsilon)))) bias.

(** The value the second per-activation backward loop stores (lines 659-662):
    [(elemInvVar/N) * (N*dxhat - (xhat*dxhathat + dxhat))]. *)
Definition bwd_pa_dx (N : Z) (elemInvVar xhatv dxhat dxhathat : F) : F :=
  smul (sdiv elemInvVar (of_int N))
       (ssub (smul (of_int N) dxhat) (sadd (smul xhatv dxhathat) dxhat)).

(** The value the second spatial backward loop stores with saved statistics
    (lines 803-807): [((scale*invVar)/NHW) * ((-elemStd*invVar*dscale) + (NHW*dy - dbias))]. *)
Definition bwd_sp_saved_dx (NHW scale invVar elemStd dy dbias dscale : F) : F :=
  smul (sdiv (smul scale invVar) NHW)
       (sadd (smul (smul (sopp elemStd) invVar) dscale) (ssub (smul NHW dy) dbias)).

(** The same with recomputed statistics (lines 969-972):
    [((scale*invVar)/NHW) * ((-xhat*dscale) + (NHW*dy - dbias))]. *)
Definition bwd_sp_recompute_dx (NHW scale invVar xhatv dy dbias dscale : F) : F :=
  smul (sdiv (smul scale invVar) NHW)
       (sadd (smul (sopp xhatv) dscale) (ssub (smul NHW dy) dbias)).
End CodeExpressions.

(** ** The two sums of the first per-activation backward loop *)

Section GradientSumsOfTheCode.
Context {F : Type} {SF : Scalar F} {T : Type}.
Variable promote : T -> F.
Variables x_ptr dy_ptr scale_ptr : buffer T.

(** [dxhat] after the first batch loop: the group sum of [scale*dy]. *)
Definition bwd_pa_dxhat (g : Z) (l : list Z) : F :=
  accum_from szero (fun i => smul (promote (scale_ptr g)) (promote (dy_ptr i))) l.

(** [dxhathat] after the first batch loop: the group sum of
    [(scale*dy)*xhat]. *)
Definition bwd_pa_dxhathat (g : Z) (mu iv : F) (l : list Z) : F :=
  accum_from szero
    (fun i => smul (smul (promote (scale_ptr g)) (promote (dy_ptr i)))
                   (xhat_contract (promote (x_ptr i)) mu iv)) l.
End GradientSumsOfTheCode.

(** ** Concrete calls on binary64 *)

(** The array holding the listed doubles, zero elsewhere. *)
Definition dbuf (l : list float) : buffer float :=
  fun i => if i <? 0 then 0%float else nth (Z.to_nat i) l 0%float.

Definition did (x : float) : float := x.

(** [rsqrt] and [fma] by their definitions, each operation rounded; on the
    inputs below every intermediate value is a small integer or a power of
    two, so no rounding takes place. *)
Definition rsqrt_double (r : float) : float := PrimFloat.div 1%float (PrimFloat.sqrt r).
Definition fma_double (a b c : float) : float := PrimFloat.add (PrimFloat.mul a b) c.

(** A backward call on one group of two samples: [x = [0, 2]], [dy = [1, 0]],
    [scale = [1]], [epsilon = 0], saved mean [1] and saved inverse deviation
    [1] (the statistics of [x]), with the given initial [dx], [dscale] and
    [dbias]; [N = 2], [C = H = W = 1]. *)
Definition bwd_example_pa (savedmeanvar : bool) (dx0 dscale0 dbias0 : list float)
  : Bwd.mem float :=
  miopenBNBwdPerActivationRunHost did 2 1 1 1
    (dbuf [0; 2]%float) (dbuf [1; 0]%float) (dbuf [1]%float) 0%float
    savedmeanvar (dbuf [1]%float) (dbuf [1]%float)
    (Bwd.Mem (dbuf dx0) (dbuf dscale0) (dbuf dbias0) (dbuf [])).

Definition bwd_example_sp (savedmeanvar : bool) (dx0 dscale0 dbias0 : list float)
  : Bwd.mem float :=
  miopenBNBwdSpatialRunHost did 2 1 1 1
    (dbuf [0; 2]%float) (dbuf [1; 0]%float) (dbuf [1]%float) 0%float
    savedmeanvar (dbuf [1]%float) (dbuf [1]%float)
    (Bwd.Mem (dbuf dx0) (dbuf dscale0) (dbuf dbias0) (dbuf [])).

(** A training forward call with an empty batch: [N = 0], [C = H = W = 1],
    saving and tracking enabled, every statistics array holding [5]. *)
Definition fwd_example_empty_batch : Fwd.mem float :=
  miopenBNFwdTrainPerActivationRunHost did 0 1 1 1
    (dbuf []) (dbuf [1]%float) (dbuf [0]%float) 1%float true true 0.5%float
    (Fwd.Mem (dbuf [7]%float) (dbuf [5]%float) (dbuf [5]%float) (dbuf [5]%float)
       (dbuf [5]%float)).

(** A training forward call that saves the statistics of one group of two
    samples [x = [100000000, 100000001]], with [epsilon = 0]. *)
Definition fwd_example_two_pass : Fwd.mem float :=
  miopenBNFwdTrainPerActivationRunHost did 2 1 1 1
    (dbuf [100000000; 100000001]%float) (dbuf [1]%float) (dbuf [0]%float) 0%float true false
    0%float (Fwd.Mem (dbuf []) (dbuf []) (dbuf []) (dbuf []) (dbuf [])).

(** A training forward call on a single sample [x = 3] ([N = C = H = W = 1])
    with tracking enabled, momentum [1/2] and running statistics [4]. *)
Definition fwd_example_single_sample (spatial : bool) : Fwd.mem float :=
  let m := Fwd.Mem (dbuf []) (dbuf []) (dbuf []) (dbuf [4]%float) (dbuf [4]%float) in
  if spatial
  then miopenBNFwdTrainSpatialRunHost did 1 1 1 1
         (dbuf [3]%float) (dbuf [1]%float) (dbuf [0]%float) 0%float false true 0.5%float m
  else miopenBNFwdTrainPerActivationRunHost did 1 1 1 1
         (dbuf [3]%float) (dbuf [1]%float) (dbuf [0]%float) 0%float false true 0.5%float m.

(** One thread of the per-activation kernel and the host inference on one
    element [x = 3] with estimated mean [1], estimated variance [-2],
    [epsilon = 1], [scale = 1], [bias = 0]. *)
Definition infer_example_kernel : buffer float :=
  bn_fwd_infer_per_activation did did rsqrt_double fma_double
    (dbuf [3]%float) (dbuf [1]%float) (dbuf [-2]%float) (dbuf [1]%float) (dbuf [0]%float)
    1%float 1 1 1 0 0 1 (dbuf [0]%float).

Definition infer_example_kernel_spatial : buffer float :=
  bn_fwd_infer_spatial did did rsqrt_double fma_double
    (dbuf [3]%float) (dbuf [1]%float) (dbuf [-2]%float) (dbuf [1]%float) (dbuf [0]%float)
    1%float 1 1 1 0 0 1 (dbuf [0]%float).

Definition infer_example_host (spatial : bool) : Inf.mem float :=
  let m := Inf.Mem (dbuf [0]%float) (dbuf [1]%float) (dbuf [-2]%float) in
  if spatial
  then miopenBNFwdInferSpatialRunHost did 1 1 1 1
         (dbuf [3]%float) (dbuf [1]%float) (dbuf [0]%float) 1%float true m
  else miopenBNFwdInferPerActivationRunHost did 1 1 1 1
         (dbuf [3]%float) (dbuf [1]%float) (dbuf [0]%float) 1%float true m.

(** ** The where operation: kernels (src/kernels/MIOpenWhere.cpp) and host
    reference (driver/where_driver.hpp) *)

(** A tensor descriptor as the host reference reads it: the vectors
    [GetLengths()] and [GetStrides()], of [ndim] entries each. *)
Record tensor_desc : Type := TensorDesc {
  ndim : Z;
  lengths : buffer Z;
  strides : buffer Z
}.

(** [GetElementSize()] of the tensor library, which is not part of the
    repository: the product of the lengths. *)
Definition GetElementSize (d : tensor_desc) : Z :=
  for_int (ndim d) (fun i acc => acc * lengths d i) 1.

(** Value of an [int64_t] expression. *)
Definition s64 (z : Z) : Z := (z + 2 ^ 63) mod 2 ^ 64 - 2 ^ 63.

(** Value of an [int] expression; an overflow, undefined in C++, wraps as
    it does on the machines the code is built for. *)
Definition s32 (z : Z) : Z := (z + 2 ^ 31) mod 2 ^ 32 - 2 ^ 31.

(** The loop of [check_broadcasted_contiguous] (lines 57-69) with [k]
    iterations left, [i = k - 1]; [num_elems] is converted to [size_t] for
    the comparison with a stride. *)
Fixpoint check_broadcasted_contiguous_from (d : tensor_desc) (k : nat) (num_elems : Z) : Z :=
  match k with
  | O => num_elems
  | Datatypes.S k' =>
      let i := Z.of_nat k' in
      if negb (strides d i =? 0) && negb (strides d i =? u64 num_elems) then 0
      else if strides d i =? 0
           then if forallb (fun j => strides d j =? 0) (zrange (i + 1)) then num_elems else 0
           else check_broadcasted_contiguous_from d k' (s64 (num_elems * lengths d i))
  end.

Definition check_broadcasted_contiguous (d : tensor_desc) : Z :=
  check_broadcasted_contiguous_from d (Z.to_nat (ndim d)) 1.

(** [findMax] (lines 74-98). *)
Definition findMax (a b c : Z) : Z :=
  if a >=? b
  then if a >=? c then a else c
  else if b >=? c then b else c.

Section WhereForward.
Context {TI TO : Type}.
(** Conversion of the assignment [output[...] = input[...]]. *)
Variable to_out : TI -> TO.

(** [WhereBroadcastedContiguousForward_Kernel] for the thread with
    [gid = blockIdx.x*blockDim.x + threadIdx.x]; [condition] holds [char]s. *)
Definition WhereBroadcastedContiguousForward_Kernel
    (condition : buffer Z) (input other : buffer TI)
    (size condition_off input_off other_off output_off
     condition_size input_size other_size : Z)
    (gid : Z) (output : buffer TO) : buffer TO :=
  if gid >=? size then output
  else if negb (condition (u64 (gid mod condition_size + condition_off)) =? 0)
       then upd output (u64 (gid + output_off))
              (to_out (input (u64 (gid mod input_size + input_off))))
       else upd output (u64 (gid + output_off))
              (to_out (other (u64 (gid mod other_size + other_off)))).

(** [WhereConditionBroadcastedContiguousForward_Kernel] (lines 89-123).  The
    counter [idx] of its loops is an [int]: the definition describes the
    thread while [idx + condition_size] does not overflow, that is for
    [size + condition_size <= 2^31]. *)
Definition WhereConditionBroadcastedContiguousForward_Kernel
    (condition : buffer Z) (input other : buffer TI)
    (size condition_off input_off other_off output_off
     condition_size input_size other_size : Z)
    (gid : Z) (output : buffer TO) : buffer TO :=
  if gid >=? condition_size then output
  else
    let cond := condition (u64 (gid mod condition_size + condition_off)) in
    if negb (cond =? 0)
    then for_stride gid size condition_size
           (fun idx output =>
              upd output (u64 (idx + output_off))
                (to_out (input (u64 (idx mod input_size + input_off)))))
           output
    else for_stride gid size condition_size
           (fun idx output =>
              upd output (u64 (idx + output_off))
                (to_out (other (u64 (idx mod other_size + other_off)))))
           output.

(** [mloWhereForwardRunHost] (lines 100-131); [nonzero] is the test
    [if(condition[...])] on a [Tgpu] value.  The definition describes the
    call for positive contiguous sizes: [o % 0] is undefined in C++. *)
Definition mloWhereForwardRunHost (nonzero : TI -> bool)
    (inputDesc : tensor_desc) (input : buffer TI)
    (otherDesc : tensor_desc) (other : buffer TI)
    (conditionDesc : tensor_desc) (condition : buffer TI)
    (outputDesc : tensor_desc) (outputHost : buffer TO) : buffer TO :=
  let input_contig_size := check_broadcasted_contiguous inputDesc in
  let other_contig_size := check_broadcasted_contiguous otherDesc in
  let cond_contig_size := check_broadcasted_contiguous conditionDesc in
  let output_numel := GetElementSize outputDesc in
  for_int output_numel
    (fun o outputHost =>
       if nonzero (condition (o mod cond_contig_size))
       then upd outputHost o (to_out (input (o mod input_contig_size)))
       else upd outputHost o (to_out (other (o mod other_contig_size))))
    outputHost.
End WhereForward.

Section WhereBackward.
Context {F : Type} {SF : Scalar F} {TI TO : Type}.
(** Promotion of a [TI] gradient to the type of the product, and the
    conversion of the product at the store. *)
Variable to_prec : TI -> F.
Variable to_out : F -> TO.

(** [WhereContiguousBackward_Kernel] (lines 276-293); a null pointer is
    [None]. *)
Definition WhereContiguousBackward_Kernel
    (condition : buffer Z) (output_grad : buffer TI) (size : Z) (gid : Z)
    (grads : option (buffer TO) * option (buffer TO))
  : option (buffer TO) * option (buffer TO) :=
  if gid >=? size then grads
  else
    let input_grad :=
      match fst grads with
      | Some input_grad =>
          Some (upd input_grad gid
                  (to_out (smul (to_prec (output_grad gid)) (of_int (condition gid)))))
      | None => None
      end in
    let other_grad :=
      match snd grads with
      | Some other_grad =>
          Some (upd other_grad gid
                  (to_out (smul (to_prec (output_grad gid)) (of_int (1 - condition gid)))))
      | None => None
      end in
    (input_grad, other_grad).

(** [WhereBroadcastedContiguousBackward_Kernel] (lines 152-182). *)
Definition WhereBroadcastedContiguousBackward_Kernel
    (condition : buffer Z) (output_grad : buffer TI)
    (size output_grad_off condition_off input_grad_off other_grad_off
     condition_size input_size other_size : Z)
    (gid : Z) (grads : option (buffer TO) * option (buffer TO))
  : option (buffer TO) * option (buffer TO) :=
  if gid >=? size then grads
  else
    let cond := condition (u64 (gid mod condition_size + condition_off)) in
    let og := to_prec (output_grad (u64 (gid + output_grad_off))) in
    let input_grad :=
      match fst grads with
      | Some input_grad =>
          Some (upd input_grad (u64 (gid mod input_size + input_grad_off))
                  (to_out (smul og (of_int cond))))
      | None => None
      end in
    let other_grad :=
      match snd grads with
      | Some other_grad =>
          Some (upd other_grad (u64 (gid mod other_size + other_grad_off))
                  (to_out (smul og (of_int (1 - cond)))))
      | None => None
      end in
    (input_grad, other_grad).
End WhereBackward.

Section WhereBackwardHost.
Context {F : Type} {SF : Scalar F} {Tgpu Tcheck : Type}.
Variable to_prec : Tgpu -> F.
Variable to_check : F -> Tcheck.

(** [mloWhereBackwardRunHost] (lines 133-163).  The definition describes the
    call for positive contiguous sizes (of the condition, and of each
    gradient whose pointer is not null): [o % 0] is undefined in C++. *)
Definition mloWhereBackwardRunHost
    (outputGradDesc : tensor_desc) (outputGrad : buffer Tgpu)
    (conditionDesc : tensor_desc) (condition : buffer Tgpu)
    (inputGradDesc otherGradDesc : tensor_desc)
    (grads : option (buffer Tcheck) * option (buffer Tcheck))
  : option (buffer Tcheck) * option (buffer Tcheck) :=
  let input_grad_contig_size := check_broadcasted_contiguous inputGradDesc in
  let other_grad_contig_size := check_broadcasted_contiguous otherGradDesc in
  let cond_contig_size := check_broadcasted_contiguous conditionDesc in
  let output_grad_numel := GetElementSize outputGradDesc in
  for_int output_grad_numel
    (fun o grads =>
       let cond := to_prec (condition (o mod cond_contig_size)) in
       let inputGrad :=
         match fst grads with
         | Some inputGrad =>
             Some (upd inputGrad (o mod input_grad_contig_size)
                     (to_check (smul (to_prec (outputGrad o)) cond)))
         | None => None
         end in
       let otherGrad :=
         match snd grads with
         | Some otherGrad =>
             Some (upd otherGrad (o mod other_grad_contig_size)
                     (to_check (smul (to_prec (outputGrad o)) (ssub sone cond))))
         | None => None
         end in
       (inputGrad, otherGrad))
    grads.
End WhereBackwardHost.

(** The element the forward kernels select for the output index [o]. *)
Definition where_select {TI TO : Type} (to_out : TI -> TO) (condition : buffer Z)
    (input other : buffer TI) (condition_off input_off other_off : Z)
    (condition_size input_size other_size : Z) (o : Z) : TO :=
  if negb (condition (o mod condition_size + condition_off) =? 0)
  then to_out (input (o mod input_size + input_off))
  else to_out (other (o mod other_size + other_off)).

(** Element of an array a pointer may not point to. *)
Definition at_index {A : Type} (p : option (buffer A)) (i : Z) : option A :=
  match p with
  | Some b => Some (b i)
  | None => None
  end.

(** Storage offset of the element with multi-index [idx] and its position
    in row-major order, for the statements on descriptors. *)
Definition tensor_offset (d : tensor_desc) (idx : buffer Z) : Z :=
  for_int (ndim d) (fun i acc => acc + idx i * strides d i) 0.

Definition row_major_index (d : tensor_desc) (idx : buffer Z) : Z :=
  for_int (ndim d) (fun i acc => acc * lengths d i + idx i) 0.

Definition valid_index (d : tensor_desc) (idx : buffer Z) : Prop :=
  forall i, 0 <= i < ndim d -> 0 <= idx i < lengths d i.

Section WhereConditionBackward.
Context {F : Type} {SF : Scalar F} {TI TO : Type}.
Variable to_prec : TI -> F.
Variable to_out : F -> TO.

(** [WhereConditionBroadcastedContiguousBackward_Kernel] (lines 211-246).
    The counter [idx] of its loops is an [int]: the definition describes
    the thread while [idx + condition_size] does not overflow, that is for
    [input_size + condition_size <= 2^31] and
    [other_size + condition_size <= 2^31]. *)
Definition WhereConditionBroadcastedContiguousBackward_Kernel
    (condition : buffer Z) (output_grad : buffer TI)
    (size output_grad_off condition_off input_grad_off other_grad_off
     condition_size input_size other_size : Z)
    (gid : Z) (grads : option (buffer TO) * option (buffer TO))
  : option (buffer TO) * option (buffer TO) :=
  if gid >=? condition_size then grads
  else
    let cond := condition (u64 (gid mod condition_size + condition_off)) in
    let input_grad :=
      match fst grads with
      | Some input_grad =>
          Some (for_stride gid input_size condition_size
                  (fun idx input_grad =>
                     upd input_grad (u64 (idx + input_grad_off))
                       (to_out (smul (to_prec (output_grad (u64 (idx mod size + output_grad_off))))
                                     (of_int cond))))
                  input_grad)
      | None => None
      end in
    let other_grad :=
      match snd grads with
      | Some other_grad =>
          Some (for_stride gid other_size condition_size
                  (fun idx other_grad =>
                     upd other_grad (u64 (idx + other_grad_off))
                       (to_out (smul (to_prec (output_grad (u64 (idx mod size + output_grad_off))))
                                     (of_int (1 - cond)))))
                  other_grad)
      | None => None
      end in
    (input_grad, other_grad).
End WhereConditionBackward.

(** The output lengths that [WhereDriver::GetandSetData] computes from the
    lengths of its three inputs (where_driver.hpp, lines 284-297): the rank
    [out_sz] and the vector [out_len], which starts filled with zeros. *)
Definition GetandSetData_out_len (in_sz : Z) (in_len : buffer Z) (other_sz : Z)
    (other_len : buffer Z) (cond_sz : Z) (cond_len : buffer Z) : Z * buffer Z :=
  let out_sz := findMax in_sz other_sz cond_sz in
  let out_len : buffer Z := fun _ => 0 in
  (out_sz,
   for_int out_sz
     (fun i out_len =>
        let InVal := if in_sz - 1 - i >=? 0 then in_len (in_sz - 1 - i) else 1 in
        let OtherVal := if other_sz - 1 - i >=? 0 then other_len (other_sz - 1 - i) else 1 in
        let CondVal := if cond_sz - 1 - i >=? 0 then cond_len (cond_sz - 1 - i) else 1 in
        upd out_len (out_sz - 1 - i) (findMax InVal OtherVal CondVal))
     out_len).

(** Length of axis [j] of an output of rank [out_sz] in an input of rank
    [sz]: the input's axes are the last [sz] ones, a missing axis counts as
    1. *)
Definition aligned_length (out_sz sz : Z) (len : buffer Z) (j : Z) : Z :=
  if sz - out_sz + j >=? 0 then len (sz - out_sz + j) else 1.

(** ** Strides of a packed tensor (driver/nllloss_driver.hpp,
    test/gtest/kldivloss.hpp) *)

(** [for (int i = n - 1; i >= 0; --i) s = body i s], by the number of
    iterations. *)
Fixpoint for_down {S : Type} (n : nat) (body : Z -> S -> S) (s : S) : S :=
  match n with
  | O => s
  | Datatypes.S k => for_down k body (body (Z.of_nat k) s)
  end.

(** [std::swap(v.front(), v.back())] on a vector of [n] entries. *)
Definition swap_front_back (n : Z) (v : buffer Z) : buffer Z :=
  upd (upd v 0 (v (n - 1))) (n - 1) (v 0).

Module NLLLossDriver.
(** [GetStrides] of the driver (nllloss_driver.hpp, lines 46-59) on a vector
    of [n >= 1] lengths; the message on [std::cerr] is no effect on the
    result, the products are [int] products, and the vector [strides]
    starts filled with zeros. *)
Definition GetStrides (n : Z) (lengths : buffer Z) (contiguous : Z) : buffer Z :=
  let lengths := if contiguous =? 0 then swap_front_back n lengths else lengths in
  let strides : buffer Z := fun _ => 0 in
  let strides := upd strides (n - 1) 1 in
  let strides :=
    for_down (Z.to_nat (n - 1))
      (fun i strides => upd strides i (s32 (strides (i + 1) * lengths (i + 1))))
      strides in
  if contiguous =? 0 then swap_front_back n strides else strides.
End NLLLossDriver.

Module KLDivLossTest.
(** [GetStrides] of the test (kldivloss.hpp, lines 94-106), on [size_t]. *)
Definition GetStrides (n : Z) (input : buffer Z) (contiguous : bool) : buffer Z :=
  let input := if negb contiguous then swap_front_back n input else input in
  let strides : buffer Z := fun _ => 0 in
  let strides := upd strides (n - 1) 1 in
  let strides :=
    for_down (Z.to_nat (n - 1))
      (fun i strides => upd strides i (u64 (strides (i + 1) * input (i + 1))))
      strides in
  if negb contiguous then swap_front_back n strides else strides.
End KLDivLossTest.

(** ** The Adam reference (test/cpu_adam.hpp) *)

(** The locals [param], [exp_avg], [exp_avg_sq] and [max_exp_avg_sq] of one
    element. *)
Record adam_locals (F : Type) : Type := AdamLocals {
  param : F;
  exp_avg : F;
  exp_avg_sq : F;
  max_exp_avg_sq : F
}.
Arguments AdamLocals {F} _ _ _ _.
Arguments param {F} _.
Arguments exp_avg {F} _.
Arguments exp_avg_sq {F} _.
Arguments max_exp_avg_sq {F} _.

Section Adam.
Context {F : Type} {SF : Scalar F} {T2 : Type}.
(** The conversion of [T1 grad = grads[i]], [pow] of a [float] and an
    [int], and the comparisons [>] and [!=].  The arithmetic of [T1] and of
    [float] is the one of [F]: the roundings of the [float] locals
    [bias_correction1], [bias_correction2] and [denom] to single precision
    are not modelled, and no statement below depends on the values they
    take. *)
Variable to_prec : T2 -> F.
Variable spow : F -> Z -> F.
Variable sgt : F -> F -> bool.
Variable sne : F -> F -> bool.

(** Body of the loop over [step] (lines 58-89) for the gradient [grads[i]]. *)
Definition adam_step (grads_i : T2) (lr beta1 beta2 weight_decay eps : F)
    (amsgrad maximize is_amp : bool) (grad_scale : Z) (step : Z) (st : adam_locals F)
  : adam_locals F :=
  let grad := to_prec grads_i in
  let grad := if maximize then smul grad (of_int (-1)) else grad in
  let grad := if is_amp then sdiv grad (of_int grad_scale) else grad in
  let bias_correction1 := ssub (of_int 1) (spow beta1 step) in
  let bias_correction2 := ssub (of_int 1) (spow beta2 step) in
  let grad :=
    if sne weight_decay (of_int 0) then sadd grad (smul (param st) weight_decay) else grad in
  let exp_avg := sadd (smul (exp_avg st) beta1) (smul grad (ssub (of_int 1) beta1)) in
  let exp_avg_sq :=
    sadd (smul (exp_avg_sq st) beta2) (smul (smul grad grad) (ssub (of_int 1) beta2)) in
  let max_exp_avg_sq :=
    if amsgrad
    then if sgt exp_avg_sq (max_exp_avg_sq st) then exp_avg_sq else max_exp_avg_sq st
    else max_exp_avg_sq st in
  let denom :=
    if amsgrad
    then sadd (sdiv (ssqrt max_exp_avg_sq) (ssqrt bias_correction2)) eps
    else sadd (sdiv (ssqrt exp_avg_sq) (ssqrt bias_correction2)) eps in
  let param := ssub (param st) (sdiv (smul (sdiv lr bias_correction1) exp_avg) denom) in
  AdamLocals param exp_avg exp_avg_sq max_exp_avg_sq.

(** [cpu_adam] (lines 31-93) on tensors of [size = params.GetSize()]
    elements; the result is the contents of [params], the only tensor
    written.  [par_ford] of the test library runs its body for every index
    below [size]; an iteration reads and writes element [i] only. *)
Definition cpu_adam (size : Z) (params : buffer F) (grads : buffer T2)
    (exp_avgs exp_avg_sqs max_exp_avg_sqs : buffer F)
    (lr beta1 beta2 weight_decay eps : F) (amsgrad maximize is_amp : bool)
    (grad_scale : Z) (found_inf : bool) (step_count : Z) : buffer F :=
  if is_amp && found_inf then params
  else
    for_int size
      (fun i params =>
         let locals :=
           AdamLocals (params i) (exp_avgs i) (exp_avg_sqs i)
             (if amsgrad then max_exp_avg_sqs i else of_int 0) in
         let locals :=
           for_stride 1 (step_count + 1) 1
             (adam_step (grads i) lr beta1 beta2 weight_decay eps amsgrad maximize is_amp
                grad_scale)
             locals in
         upd params i (param locals))
      params.
End Adam.

(** The operations of [cpu_adam] that [Scalar] lacks, in the real numbers. *)
Definition Rgtb (a b : R) : bool := if Rgt_dec a b then true else false.
Definition Rneb (a b : R) : bool := if Req_dec_T a b then false else true.

(** ** The output lengths of the unfold driver (driver/unfold_driver.hpp) *)

(** The lengths [UnfoldDriver::GetandSetData] computes (lines 143-159) from
    an [input_length] of [input_length_size] entries: the vector
    [output_length] and the local vector [ls].  The arithmetic is the one of
    [int64_t] (an overflow, undefined in C++, wraps), the division truncates
    toward zero, and the three entries of [output_length] are narrowed to
    [int].  The definition describes the call for non-zero strides: a
    division by [stride[i] = 0] is undefined. *)
Definition GetandSetData_output_length (input_length_size : Z)
    (input_length kernel_size stride padding dilation : buffer Z) : list Z * list Z :=
  let spatial_dim_size := input_length_size - 2 in
  let N := input_length 0 in
  let C := input_length 1 in
  let '(P, L, ls) :=
    for_int spatial_dim_size
      (fun i '(P, L, ls) =>
         let P := s64 (P * kernel_size i) in
         let l :=
           s64 (s64 (input_length (i + 2) + 2 * padding i - dilation i * (kernel_size i - 1)
                     - 1)
                  ÷ stride i
                + 1) in
         let L := s64 (L * l) in
         (P, L, ls ++ [l]))
      (1, 1, []) in
  ([s32 N; s32 (s64 (C * P)); s32 L], ls).

(** The values an [int] holds. *)
Definition is_int (z : Z) : Prop := - 2 ^ 31 <= z < 2 ^ 31.

(** * Loop lemmas *)

Lemma upd_same {A : Type} (b : buffer A) (i : Z) (v : A) : upd b i v i = v.
Proof. unfold upd. now rewrite Z.eqb_refl. Qed.

Lemma upd_other {A : Type} (b : buffer A) (i j : Z) (v : A) :
  j <> i -> upd b i v j = b j.
Proof. intros Hne. unfold upd. now destruct (Z.eqb_spec j i). Qed.

(** Two loops whose bodies keep a relation between their states. *)
Lemma for_loop_rel {S S' : Type} (Rel : S -> S' -> Prop)
    (n : nat) (body : Z -> S -> S) (body' : Z -> S' -> S') (s : S) (s' : S') :
  Rel s s' ->
  (forall i t t', 0 <= i < Z.of_nat n -> Rel t t' -> Rel (body i t) (body' i t')) ->
  Rel (for_loop n body s) (for_loop n body' s').
Proof.
  intros H0 Hstep. induction n as [|k IH]; simpl.
  - exact H0.
  - apply Hstep; [lia|]. apply IH. intros i t t' Hi. apply Hstep. lia.
Qed.

Lemma for_int_rel {S S' : Type} (Rel : S -> S' -> Prop)
    (n : Z) (body : Z -> S -> S) (body' : Z -> S' -> S') (s : S) (s' : S') :
  Rel s s' ->
  (forall i t t', 0 <= i < n -> Rel t t' -> Rel (body i t) (body' i t')) ->
  Rel (for_int n body s) (for_int n body' s').
Proof.
  intros H0 Hstep. unfold for_int. apply for_loop_rel; [exact H0|].
  intros i t t' Hi. apply Hstep. lia.
Qed.

Lemma for3_rel {S S' : Type} (Rel : S -> S' -> Prop) (n1 n2 n3 : Z)
    (body : Z -> Z -> Z -> S -> S) (body' : Z -> Z -> Z -> S' -> S') (s : S) (s' : S') :
  Rel s s' ->
  (forall i j k t t', 0 <= i < n1 -> 0 <= j < n2 -> 0 <= k < n3 ->
                      Rel t t' -> Rel (body i j k t) (body' i j k t')) ->
  Rel (for3 n1 n2 n3 body s) (for3 n1 n2 n3 body' s').
Proof.
  intros H0 Hstep. unfold for3.
  apply for_int_rel; [exact H0|]. intros i t t' Hi Ht.
  apply for_int_rel; [exact Ht|]. intros j u u' Hj Hu.
  apply for_int_rel; [exact Hu|]. intros k v v' Hk Hv.
  now apply Hstep.
Qed.

(** An invariant of the loop. *)
Lemma for_int_inv {S : Type} (P : S -> Prop) (n : Z) (body : Z -> S -> S) (s : S) :
  P s ->
  (forall i t, 0 <= i < n -> P t -> P (body i t)) ->
  P (for_int n body s).
Proof.
  intros H0 Hstep.
  apply (for_int_rel (fun t (_ : unit) => P t) n body (fun _ u => u) s tt H0).
  intros i t _ Hi. now apply Hstep.
Qed.

Lemma for_int_ext {S : Type} (n : Z) (body body' : Z -> S -> S) (s : S) :
  (forall i t, 0 <= i < n -> body i t = body' i t) ->
  for_int n body s = for_int n body' s.
Proof.
  intros Hext. apply (for_int_rel eq); [reflexivity|].
  intros i t t' Hi ->. now apply Hext.
Qed.

(** An observation that every iteration transforms by [body']. *)
Lemma for_int_proj {S O : Type} (obs : S -> O) (n : Z)
    (body : Z -> S -> S) (body' : Z -> O -> O) (s : S) :
  (forall i t, 0 <= i < n -> obs (body i t) = body' i (obs t)) ->
  obs (for_int n body s) = for_int n body' (obs s).
Proof.
  intros Hstep. apply (for_int_rel (fun t o => obs t = o)); [reflexivity|].
  intros i t o Hi <-. now apply Hstep.
Qed.

Lemma for3_proj {S O : Type} (obs : S -> O) (n1 n2 n3 : Z)
    (body : Z -> Z -> Z -> S -> S) (body' : Z -> Z -> Z -> O -> O) (s : S) :
  (forall i j k t, 0 <= i < n1 -> 0 <= j < n2 -> 0 <= k < n3 ->
                   obs (body i j k t) = body' i j k (obs t)) ->
  obs (for3 n1 n2 n3 body s) = for3 n1 n2 n3 body' (obs s).
Proof.
  intros Hstep. apply (for3_rel (fun t o => obs t = o)); [reflexivity|].
  intros i j k t o Hi Hj Hk <-. now apply Hstep.
Qed.

(** An observation that no iteration changes. *)
Lemma for_int_frame {S O : Type} (obs : S -> O) (n : Z) (body : Z -> S -> S) (s : S) :
  (forall i t, 0 <= i < n -> obs (body i t) = obs t) ->
  obs (for_int n body s) = obs s.
Proof.
  intros Hstep. apply (for_int_inv (fun t => obs t = obs s)); [reflexivity|].
  intros i t Hi <-. now apply Hstep.
Qed.

Lemma for3_frame {S O : Type} (obs : S -> O) (n1 n2 n3 : Z)
    (body : Z -> Z -> Z -> S -> S) (s : S) :
  (forall i j k t, 0 <= i < n1 -> 0 <= j < n2 -> 0 <= k < n3 ->
                   obs (body i j k t) = obs t) ->
  obs (for3 n1 n2 n3 body s) = obs s.
Proof.
  intros Hstep. unfold for3.
  apply for_int_frame. intros i t Hi.
  apply for_int_frame. intros j u Hj.
  apply for_int_frame. intros k v Hk. now apply Hstep.
Qed.

(** An observation that exactly one iteration changes, by [g]. *)
Lemma for_loop_hit {S O : Type} (obs : S -> O) (g : O -> O) (i0 : Z)
    (n : nat) (body : Z -> S -> S) (s : S) :
  0 <= i0 < Z.of_nat n ->
  (forall i t, 0 <= i < Z.of_nat n -> i <> i0 -> obs (body i t) = obs t) ->
  (forall t, obs (body i0 t) = g (obs t)) ->
  obs (for_loop n body s) = g (obs s).
Proof.
  intros Hi0 Hframe Hhit. induction n as [|k IH]; [lia|]. simpl.
  destruct (Z.eq_dec (Z.of_nat k) i0) as [Heq|Hne].
  - rewrite Heq, Hhit. f_equal.
    pose proof (for_int_frame obs (Z.of_nat k) body s) as Hfr.
    unfold for_int in Hfr. rewrite Nat2Z.id in Hfr.
    apply Hfr. intros i t Hi. apply Hframe; lia.
  - rewrite Hframe by lia. apply IH; [lia|].
    intros i t Hi. apply Hframe. lia.
Qed.

Lemma for_int_hit {S O : Type} (obs : S -> O) (g : O -> O) (i0 : Z)
    (n : Z) (body : Z -> S -> S) (s : S) :
  0 <= i0 < n ->
  (forall i t, 0 <= i < n -> i <> i0 -> obs (body i t) = obs t) ->
  (forall t, obs (body i0 t) = g (obs t)) ->
  obs (for_int n body s) = g (obs s).
Proof.
  intros Hi0 Hframe Hhit. unfold for_int.
  apply for_loop_hit with (i0 := i0); [lia| |exact Hhit].
  intros i t Hi. apply Hframe. lia.
Qed.

Lemma for3_hit {S O : Type} (obs : S -> O) (g : O -> O) (i0 j0 k0 : Z)
    (n1 n2 n3 : Z) (body : Z -> Z -> Z -> S -> S) (s : S) :
  0 <= i0 < n1 -> 0 <= j0 < n2 -> 0 <= k0 < n3 ->
  (forall i j k t, 0 <= i < n1 -> 0 <= j < n2 -> 0 <= k < n3 ->
                   (i <> i0 \/ j <> j0 \/ k <> k0) -> obs (body i j k t) = obs t) ->
  (forall t, obs (body i0 j0 k0 t) = g (obs t)) ->
  obs (for3 n1 n2 n3 body s) = g (obs s).
Proof.
  intros Hi0 Hj0 Hk0 Hframe Hhit. unfold for3.
  apply for_int_hit with (i0 := i0); [exact Hi0| |].
  - intros i t Hi Hne.
    apply for_int_frame. intros j u Hj.
    apply for_int_frame. intros k v Hk. apply Hframe; auto.
  - intros t. apply for_int_hit with (i0 := j0); [exact Hj0| |].
    + intros j u Hj Hne.
      apply for_int_frame. intros k v Hk. apply Hframe; auto.
    + intros u. apply for_int_hit with (i0 := k0); [exact Hk0| |].
      * intros k v Hk Hne. apply Hframe; auto.
      * exact Hhit.
Qed.

(** * Index arithmetic *)

Lemma u32_small (z : Z) : 0 <= z < 2 ^ 32 -> u32 z = z.
Proof. intros Hz. unfold u32. now apply Z.mod_small. Qed.

Lemma u32_add_idemp_l (a b : Z) : u32 (u32 a + b) = u32 (a + b).
Proof. unfold u32. now rewrite Zplus_mod_idemp_l. Qed.

Section IndexFacts.
Variables n_batchs channels height width : Z.
Hypothesis Hdims : dims_ok n_batchs channels height width.

Local Abbreviation ix := (lin channels height width).

Lemma plane_bound (h w : Z) :
  0 <= h < height -> 0 <= w < width ->
  0 <= h * width + w < height * width.
Proof.
  intros Hh Hw.
  assert (h * width + width <= height * width) by nia.
  nia.
Qed.

Lemma image_bound (c h w : Z) :
  0 <= c < channels -> 0 <= h < height -> 0 <= w < width ->
  0 <= c * (height * width) + h * width + w < channels * height * width.
Proof.
  intros Hc Hh Hw.
  pose proof (plane_bound h w Hh Hw) as Hp.
  assert (c * (height * width) + height * width <= channels * (height * width)) by nia.
  nia.
Qed.

Lemma lin_bound (n c h w : Z) :
  0 <= n < n_batchs -> 0 <= c < channels -> 0 <= h < height -> 0 <= w < width ->
  0 <= ix n c h w < n_batchs * (channels * height * width).
Proof.
  intros Hn Hc Hh Hw. unfold lin.
  pose proof (image_bound c h w Hc Hh Hw) as Hi.
  assert (n * (channels * height * width) + channels * height * width
          <= n_batchs * (channels * height * width)) by nia.
  nia.
Qed.

Lemma lin_inj (n c h w n' c' h' w' : Z) :
  0 <= c < channels -> 0 <= h < height -> 0 <= w < width ->
  0 <= c' < channels -> 0 <= h' < height -> 0 <= w' < width ->
  ix n c h w = ix n' c' h' w' ->
  n = n' /\ c = c' /\ h = h' /\ w = w'.
Proof.
  intros Hc Hh Hw Hc' Hh' Hw' Heq. unfold lin in Heq.
  pose proof (image_bound c h w Hc Hh Hw) as Hi.
  pose proof (image_bound c' h' w' Hc' Hh' Hw') as Hi'.
  pose proof (plane_bound h w Hh Hw) as Hp.
  pose proof (plane_bound h' w' Hh' Hw') as Hp'.
  assert (Hn : n = n') by nia. subst n'.
  assert (Hcc : c = c') by nia. subst c'.
  assert (Hhh : h = h') by nia. subst h'.
  repeat split; lia.
Qed.

Lemma in_cstride_eq (c : Z) :
  0 <= c < channels -> in_cstride height width = height * width.
Proof.
  intros Hc. unfold in_cstride. apply u32_small.
  destruct Hdims as (Hn & HC & HH & HW & Hchw & Hall).
  assert (0 <= height * width) by nia.
  assert (height * width <= channels * height * width) by nia.
  lia.
Qed.

Lemma in_nstride_eq : in_nstride channels height width = channels * height * width.
Proof.
  unfold in_nstride. apply u32_small.
  destruct Hdims as (Hn & HC & HH & HW & Hchw & Hall).
  assert (0 <= channels * height * width) by nia.
  lia.
Qed.

Lemma adjIndex_at_lin (c h w : Z) :
  0 <= c < channels -> 0 <= h < height -> 0 <= w < width ->
  adjIndex_at height width c h w = ix 0 c h w.
Proof.
  intros Hc Hh Hw. unfold adjIndex_at. rewrite (in_cstride_eq c Hc).
  pose proof (image_bound c h w Hc Hh Hw) as Hi.
  destruct Hdims as (Hn & HC & HH & HW & Hchw & Hall).
  unfold lin. rewrite u32_small by lia. ring.
Qed.

Lemma bwd_adjIndex_at_eq (c h w : Z) :
  bwd_adjIndex_at height width c h w = adjIndex_at height width c h w.
Proof.
  unfold bwd_adjIndex_at, adjIndex_at.
  rewrite <- Z.add_assoc, u32_add_idemp_l. f_equal. ring.
Qed.

Lemma index_at_lin (n c h w : Z) :
  0 <= n < n_batchs -> 0 <= c < channels -> 0 <= h < height -> 0 <= w < width ->
  index_at channels height width n (ix 0 c h w) = ix n c h w.
Proof.
  intros Hn Hc Hh Hw. unfold index_at. rewrite in_nstride_eq.
  pose proof (lin_bound n c h w Hn Hc Hh Hw) as Hb.
  destruct Hdims as (_ & _ & _ & _ & _ & Hall).
  replace (channels * height * width * n + ix 0 c h w) with (ix n c h w)
    by (unfold lin; ring).
  apply u32_small. lia.
Qed.

Lemma xhat_index_at_eq (n c h w : Z) :
  0 <= n < n_batchs -> 0 <= c < channels -> 0 <= h < height -> 0 <= w < width ->
  xhat_index_at height width n h w = n * (height * width) + h * width + w.
Proof.
  intros Hn Hc Hh Hw. unfold xhat_index_at. rewrite (in_cstride_eq c Hc).
  pose proof (plane_bound h w Hh Hw) as Hp.
  destruct Hdims as (_ & HC & HH & HW & Hchw & Hall).
  assert (n * (height * width) + height * width <= n_batchs * (height * width)) by nia.
  assert (n_batchs * (height * width) <= n_batchs * (channels * height * width)) by nia.
  rewrite u32_small by nia. ring.
Qed.
End IndexFacts.

(** * Training forward, per-activation: what each call leaves in memory *)

Section FwdTrainPerActivationFacts.
Context {F : Type} {SF : Scalar F} {T : Type}.
Variable promote : T -> F.
Variables n_batchs channels height width : Z.
Variables in_ptr scale_ptr bias_ptr : buffer T.
Variable epsilon : F.
Variables savemeanvar runningmeanvar : bool.
Variable expAvgFactor : F.

Local Abbreviation group :=
  (fwd_train_pa_group promote n_batchs channels height width in_ptr scale_ptr bias_ptr
     epsilon savemeanvar runningmeanvar expAvgFactor).
Local Abbreviation run :=
  (miopenBNFwdTrainPerActivationRunHost promote n_batchs channels height width in_ptr
     scale_ptr bias_ptr epsilon savemeanvar runningmeanvar expAvgFactor).
Local Abbreviation mean := (pa_mean promote n_batchs channels height width in_ptr).
Local Abbreviation variance := (pa_variance promote n_batchs channels height width in_ptr).
Local Abbreviation index := (index_at channels height width).

Lemma fwd_train_pa_group_out_frame (adjIndex j : Z) (m : Fwd.mem F) :
  (forall b, 0 <= b < n_batchs -> index b adjIndex <> j) ->
  Fwd.out_ptr (group adjIndex m) j = Fwd.out_ptr m j.
Proof.
  intros Hj. unfold fwd_train_pa_group.
  rewrite (for_int_frame (fun t => Fwd.out_ptr t j)).
  - destruct savemeanvar, runningmeanvar; reflexivity.
  - intros b t Hb. simpl. apply upd_other. intros Heq. now apply (Hj b Hb).
Qed.

Lemma fwd_train_pa_group_out_hit (adjIndex b : Z) (m : Fwd.mem F) :
  0 <= b < n_batchs ->
  (forall b', 0 <= b' < n_batchs -> b' <> b -> index b' adjIndex <> index b adjIndex) ->
  Fwd.out_ptr (group adjIndex m) (index b adjIndex)
  = fwd_pa_y promote in_ptr scale_ptr bias_ptr (mean adjIndex)
      (sdiv sone (ssqrt (sadd (variance adjIndex) epsilon))) adjIndex (index b adjIndex).
Proof.
  intros Hb Hinj. unfold fwd_train_pa_group.
  rewrite (for_int_hit (fun t => Fwd.out_ptr t (index b adjIndex))
             (fun _ => fwd_pa_y promote in_ptr scale_ptr bias_ptr (mean adjIndex)
                         (sdiv sone (ssqrt (sadd (variance adjIndex) epsilon)))
                         adjIndex (index b adjIndex)) b); auto.
  - intros b' t Hb' Hne. simpl. apply upd_other. intros Heq.
    now apply (Hinj b' Hb' Hne).
  - intros t. simpl. now rewrite upd_same.
Qed.

Lemma fwd_train_pa_group_saveMean (adjIndex : Z) (m : Fwd.mem F) :
  Fwd.saveMean (group adjIndex m)
  = if savemeanvar then upd (Fwd.saveMean m) adjIndex (mean adjIndex) else Fwd.saveMean m.
Proof.
  unfold fwd_train_pa_group.
  rewrite (for_int_frame Fwd.saveMean) by reflexivity.
  destruct savemeanvar, runningmeanvar; reflexivity.
Qed.

Lemma fwd_train_pa_group_saveInvVariance (adjIndex : Z) (m : Fwd.mem F) :
  Fwd.saveInvVariance (group adjIndex m)
  = if savemeanvar
    then upd (Fwd.saveInvVariance m) adjIndex
           (sdiv sone (ssqrt (sadd (variance adjIndex) epsilon)))
    else Fwd.saveInvVariance m.
Proof.
  unfold fwd_train_pa_group.
  rewrite (for_int_frame Fwd.saveInvVariance) by reflexivity.
  destruct savemeanvar, runningmeanvar; reflexivity.
Qed.

Lemma fwd_train_pa_group_runningMean (adjIndex : Z) (m : Fwd.mem F) :
  Fwd.runningMean (group adjIndex m)
  = if runningmeanvar
    then upd (Fwd.runningMean m) adjIndex
           (sadd (smul (mean adjIndex) expAvgFactor)
                 (smul (Fwd.runningMean m adjIndex) (ssub sone expAvgFactor)))
    else Fwd.runningMean m.
Proof.
  unfold fwd_train_pa_group.
  rewrite (for_int_frame Fwd.runningMean) by reflexivity.
  destruct savemeanvar, runningmeanvar; reflexivity.
Qed.

Lemma fwd_train_pa_group_runningVariance (adjIndex : Z) (m : Fwd.mem F) :
  Fwd.runningVariance (group adjIndex m)
  = if runningmeanvar
    then upd (Fwd.runningVariance m) adjIndex
           (sadd (smul expAvgFactor (Fwd.runningVariance m adjIndex))
                 (smul (ssub sone expAvgFactor)
                       (if n_batchs =? 1 then variance adjIndex
                        else smul (sdiv (of_int n_batchs) (of_int (n_batchs - 1)))
                                  (variance adjIndex))))
    else Fwd.runningVariance m.
Proof.
  unfold fwd_train_pa_group.
  rewrite (for_int_frame Fwd.runningVariance) by reflexivity.
  destruct savemeanvar, runningmeanvar; reflexivity.
Qed.

Hypothesis Hdims : dims_ok n_batchs channels height width.
Local Abbreviation ix := (lin channels height width).

Lemma index_ne_other_batch (n n' c h w : Z) :
  0 <= n < n_batchs -> 0 <= n' < n_batchs ->
  0 <= c < channels -> 0 <= h < height -> 0 <= w < width ->
  n' <> n -> index n' (ix 0 c h w) <> index n (ix 0 c h w).
Proof.
  intros Hn Hn' Hc Hh Hw Hne.
  rewrite !(index_at_lin n_batchs channels height width Hdims) by assumption.
  intros Heq. apply lin_inj in Heq; tauto.
Qed.

Lemma index_ne_other_group (n n' c h w c' h' w' : Z) :
  0 <= n' < n_batchs ->
  0 <= c < channels -> 0 <= h < height -> 0 <= w < width ->
  0 <= c' < channels -> 0 <= h' < height -> 0 <= w' < width ->
  c' <> c \/ h' <> h \/ w' <> w ->
  index n' (ix 0 c' h' w') <> ix n c h w.
Proof.
  intros Hn' Hc Hh Hw Hc' Hh' Hw' Hne.
  rewrite (index_at_lin n_batchs channels height width Hdims) by assumption.
  intros Heq. apply lin_inj in Heq; try assumption.
  lia.
Qed.

Lemma group_ne (c h w c' h' w' : Z) :
  0 <= c < channels -> 0 <= h < height -> 0 <= w < width ->
  0 <= c' < channels -> 0 <= h' < height -> 0 <= w' < width ->
  c' <> c \/ h' <> h \/ w' <> w ->
  ix 0 c h w <> ix 0 c' h' w'.
Proof.
  intros Hc Hh Hw Hc' Hh' Hw' Hne Heq.
  apply lin_inj in Heq; try assumption. lia.
Qed.

Lemma fwd_train_pa_out (m : Fwd.mem F) (n c h w : Z) :
  0 <= n < n_batchs -> 0 <= c < channels -> 0 <= h < height -> 0 <= w < width ->
  Fwd.out_ptr (run m) (ix n c h w)
  = fwd_pa_y promote in_ptr scale_ptr bias_ptr (mean (ix 0 c h w))
      (sdiv sone (ssqrt (sadd (variance (ix 0 c h w)) epsilon)))
      (ix 0 c h w) (ix n c h w).
Proof.
  intros Hn Hc Hh Hw. unfold miopenBNFwdTrainPerActivationRunHost.
  rewrite (for3_hit (fun t => Fwd.out_ptr t (ix n c h w))
             (fun _ => fwd_pa_y promote in_ptr scale_ptr bias_ptr (mean (ix 0 c h w))
                         (sdiv sone (ssqrt (sadd (variance (ix 0 c h w)) epsilon)))
                         (ix 0 c h w) (ix n c h w)) c h w); auto.
  - intros c' h' w' t Hc' Hh' Hw' Hne.
    rewrite (adjIndex_at_lin n_batchs channels height width Hdims) by assumption.
    apply fwd_train_pa_group_out_frame. intros b Hb.
    now apply index_ne_other_group.
  - intros t.
    rewrite (adjIndex_at_lin n_batchs channels height width Hdims) by assumption.
    rewrite <- (index_at_lin n_batchs channels height width Hdims n c h w) by assumption.
    apply fwd_train_pa_group_out_hit; [assumption|].
    intros b' Hb' Hne. now apply index_ne_other_batch.
Qed.

Lemma fwd_train_pa_saveMean (m : Fwd.mem F) (c h w : Z) :
  0 <= c < channels -> 0 <= h < height -> 0 <= w < width ->
  Fwd.saveMean (run m) (ix 0 c h w)
  = if savemeanvar then mean (ix 0 c h w) else Fwd.saveMean m (ix 0 c h w).
Proof.
  intros Hc Hh Hw. unfold miopenBNFwdTrainPerActivationRunHost.
  rewrite (for3_hit (fun t => Fwd.saveMean t (ix 0 c h w))
             (fun old => if savemeanvar then mean (ix 0 c h w) else old) c h w); auto.
  - intros c' h' w' t Hc' Hh' Hw' Hne.
    rewrite (adjIndex_at_lin n_batchs channels height width Hdims) by assumption.
    rewrite fwd_train_pa_group_saveMean. destruct savemeanvar; [|reflexivity].
    apply upd_other. now apply group_ne.
  - intros t.
    rewrite (adjIndex_at_lin n_batchs channels height width Hdims) by assumption.
    rewrite fwd_train_pa_group_saveMean. destruct savemeanvar; [|reflexivity].
    apply upd_same.
Qed.

Lemma fwd_train_pa_saveInvVariance (m : Fwd.mem F) (c h w : Z) :
  0 <= c < channels -> 0 <= h < height -> 0 <= w < width ->
  Fwd.saveInvVariance (run m) (ix 0 c h w)
  = if savemeanvar then sdiv sone (ssqrt (sadd (variance (ix 0 c h w)) epsilon))
    else Fwd.saveInvVariance m (ix 0 c h w).
Proof.
  intros Hc Hh Hw. unfold miopenBNFwdTrainPerActivationRunHost.
  rewrite (for3_hit (fun t => Fwd.saveInvVariance t (ix 0 c h w))
             (fun old => if savemeanvar
                         then sdiv sone (ssqrt (sadd (variance (ix 0 c h w)) epsilon))
                         else old) c h w); auto.
  - intros c' h' w' t Hc' Hh' Hw' Hne.
    rewrite (adjIndex_at_lin n_batchs channels height width Hdims) by assumption.
    rewrite fwd_train_pa_group_saveInvVariance. destruct savemeanvar; [|reflexivity].
    apply upd_other. now apply group_ne.
  - intros t.
    rewrite (adjIndex_at_lin n_batchs channels height width Hdims) by assumption.
    rewrite fwd_train_pa_group_saveInvVariance. destruct savemeanvar; [|reflexivity].
    apply upd_same.
Qed.

Lemma fwd_train_pa_runningMean (m : Fwd.mem F) (c h w : Z) :
  0 <= c < channels -> 0 <= h < height -> 0 <= w < width ->
  Fwd.runningMean (run m) (ix 0 c h w)
  = if runningmeanvar
    then sadd (smul (mean (ix 0 c h w)) expAvgFactor)
              (smul (Fwd.runningMean m (ix 0 c h w)) (ssub sone expAvgFactor))
    else Fwd.runningMean m (ix 0 c h w).
Proof.
  intros Hc Hh Hw. unfold miopenBNFwdTrainPerActivationRunHost.
  rewrite (for3_hit (fun t => Fwd.runningMean t (ix 0 c h w))
             (fun old => if runningmeanvar
                         then sadd (smul (mean (ix 0 c h w)) expAvgFactor)
                                   (smul old (ssub sone expAvgFactor))
                         else old) c h w); auto.
  - intros c' h' w' t Hc' Hh' Hw' Hne.
    rewrite (adjIndex_at_lin n_batchs channels height width Hdims) by assumption.
    rewrite fwd_train_pa_group_runningMean. destruct runningmeanvar; [|reflexivity].
    apply upd_other. now apply group_ne.
  - intros t.
    rewrite (adjIndex_at_lin n_batchs channels height width Hdims) by assumption.
    rewrite fwd_train_pa_group_runningMean. destruct runningmeanvar; [|reflexivity].
    apply upd_same.
Qed.

Lemma fwd_train_pa_runningVariance (m : Fwd.mem F) (c h w : Z) :
  0 <= c < channels -> 0 <= h < height -> 0 <= w < width ->
  Fwd.runningVariance (run m) (ix 0 c h w)
  = if runningmeanvar
    then sadd (smul expAvgFactor (Fwd.runningVariance m (ix 0 c h w)))
              (smul (ssub sone expAvgFactor)
                    (if n_batchs =? 1 then variance (ix 0 c h w)
                     else smul (sdiv (of_int n_batchs) (of_int (n_batchs - 1)))
                               (variance (ix 0 c h w))))
    else Fwd.runningVariance m (ix 0 c h w).
Proof.
  intros Hc Hh Hw. unfold miopenBNFwdTrainPerActivationRunHost.
  rewrite (for3_hit (fun t => Fwd.runningVariance t (ix 0 c h w))
             (fun old => if runningmeanvar
                         then sadd (smul expAvgFactor old)
                                (smul (ssub sone expAvgFactor)
                                   (if n_batchs =? 1 then variance (ix 0 c h w)
                                    else smul (sdiv (of_int n_batchs) (of_int (n_batchs - 1)))
                                              (variance (ix 0 c h w))))
                         else old) c h w); auto.
  - intros c' h' w' t Hc' Hh' Hw' Hne.
    rewrite (adjIndex_at_lin n_batchs channels height width Hdims) by assumption.
    rewrite fwd_train_pa_group_runningVariance. destruct runningmeanvar; [|reflexivity].
    apply upd_other. now apply group_ne.
  - intros t.
    rewrite (adjIndex_at_lin n_batchs channels height width Hdims) by assumption.
    rewrite fwd_train_pa_group_runningVariance. destruct runningmeanvar; [|reflexivity].
    apply upd_same.
Qed.

Lemma fwd_train_pa_out_frame (m : Fwd.mem F) (j : Z) :
  (forall n c h w, 0 <= n < n_batchs -> 0 <= c < channels -> 0 <= h < height ->
                   0 <= w < width -> ix n c h w <> j) ->
  Fwd.out_ptr (run m) j = Fwd.out_ptr m j.
Proof.
  intros Hj. unfold miopenBNFwdTrainPerActivationRunHost.
  rewrite (for3_frame (fun t => Fwd.out_ptr t j)); [reflexivity|].
  intros c h w t Hc Hh Hw. apply fwd_train_pa_group_out_frame. intros b Hb.
  rewrite (adjIndex_at_lin n_batchs channels height width Hdims) by assumption.
  rewrite (index_at_lin n_batchs channels height width Hdims) by assumption.
  now apply Hj.
Qed.
End FwdTrainPerActivationFacts.

(** * Loops as folds over the members of a group *)

Lemma for3_ext {S : Type} (n1 n2 n3 : Z) (body body' : Z -> Z -> Z -> S -> S) (s : S) :
  (forall i j k t, 0 <= i < n1 -> 0 <= j < n2 -> 0 <= k < n3 ->
                   body i j k t = body' i j k t) ->
  for3 n1 n2 n3 body s = for3 n1 n2 n3 body' s.
Proof.
  intros Hext. apply (for3_rel eq); [reflexivity|].
  intros i j k t t' Hi Hj Hk ->. now apply Hext.
Qed.

Lemma for_int_fold {S : Type} (n : Z) (body : Z -> S -> S) (s : S) :
  for_int n body s = fold_left (fun t i => body i t) (zrange n) s.
Proof.
  unfold for_int, zrange. induction (Z.to_nat n) as [|k IH]; [reflexivity|].
  rewrite seq_S, map_app, fold_left_app. simpl. now rewrite IH.
Qed.

Lemma fold_left_map_index {S : Type} (body : Z -> S -> S) (g : Z -> Z) (l : list Z) (s : S) :
  fold_left (fun t i => body i t) (map g l) s = fold_left (fun t i => body (g i) t) l s.
Proof.
  revert s. induction l as [|a l IH]; intros s; simpl; [reflexivity|]. apply IH.
Qed.

Lemma fold_left_flat_map {S : Type} (body : Z -> S -> S) (g : Z -> list Z) (l : list Z) (s : S) :
  fold_left (fun t i => body i t) (flat_map g l) s
  = fold_left (fun t a => fold_left (fun t i => body i t) (g a) t) l s.
Proof.
  revert s. induction l as [|a l IH]; intros s; simpl; [reflexivity|].
  rewrite fold_left_app. apply IH.
Qed.

Lemma fold_left_ext {S A : Type} (f g : S -> A -> S) (l : list A) (s : S) :
  (forall t a, f t a = g t a) -> fold_left f l s = fold_left g l s.
Proof.
  intros Hext. revert s. induction l as [|a l IH]; intros s; simpl; [reflexivity|].
  now rewrite Hext, IH.
Qed.

Section MemberFolds.
Variables n_batchs channels height width : Z.
Local Abbreviation ix := (lin channels height width).

(** The batch loop of a per-activation group visits [pa_members]. *)
Lemma for_int_pa_members {S : Type} (body : Z -> S -> S) (c h w : Z) (s : S) :
  for_int n_batchs (fun n => body (ix n c h w)) s
  = fold_left (fun t i => body i t) (pa_members n_batchs channels height width c h w) s.
Proof.
  rewrite for_int_fold. unfold pa_members. now rewrite fold_left_map_index.
Qed.

(** The row/column/batch nest of a channel visits [sp_members]. *)
Lemma for3_sp_members {S : Type} (body : Z -> S -> S) (c : Z) (s : S) :
  for3 height width n_batchs (fun h w n => body (ix n c h w)) s
  = fold_left (fun t i => body i t) (sp_members n_batchs channels height width c) s.
Proof.
  unfold for3, sp_members.
  rewrite for_int_fold, fold_left_flat_map.
  apply fold_left_ext. intros t h.
  rewrite for_int_fold, fold_left_flat_map.
  apply fold_left_ext. intros u w.
  rewrite for_int_fold. now rewrite fold_left_map_index.
Qed.
End MemberFolds.

(** * The loop nests of a group in terms of the tensor view *)

Section GroupNests.
Context {F : Type} {SF : Scalar F} {T : Type}.
Variable promote : T -> F.
Variables n_batchs channels height width : Z.
Hypothesis Hdims : dims_ok n_batchs channels height width.
Local Abbreviation ix := (lin channels height width).
Local Abbreviation index := (index_at channels height width).

Lemma plain_nest_index (n c h w : Z) :
  0 <= n < n_batchs -> 0 <= c < channels -> 0 <= h < height -> 0 <= w < width ->
  index n (adjIndex_at height width c h w) = ix n c h w.
Proof.
  intros Hn Hc Hh Hw.
  rewrite (adjIndex_at_lin n_batchs channels height width Hdims) by assumption.
  now apply index_at_lin with (n_batchs := n_batchs).
Qed.

Lemma bwd_nest_index (n c h w : Z) :
  0 <= n < n_batchs -> 0 <= c < channels -> 0 <= h < height -> 0 <= w < width ->
  index n (bwd_adjIndex_at height width c h w) = ix n c h w.
Proof.
  intros Hn Hc Hh Hw. rewrite bwd_adjIndex_at_eq. now apply plain_nest_index.
Qed.

Lemma guarded_nest_for3 {S : Type} (c : Z) (body : Z -> S -> S) (s : S) :
  0 <= c < channels ->
  guarded_nest n_batchs channels height width c body s
  = for3 height width n_batchs (fun h w n => body (ix n c h w)) s.
Proof.
  intros Hc. unfold guarded_nest, for3.
  apply for_int_ext. intros h t Hh.
  apply for_int_ext. intros w u Hw.
  pose proof (plane_bound height width h w Hh Hw) as Hp.
  pose proof (image_bound channels height width c h w Hc Hh Hw) as Hi.
  pose proof (in_cstride_eq n_batchs channels height width Hdims c Hc) as Hcs.
  destruct Hdims as (Hn & HC & HH & HW & Hchw & Hall).
  assert (Himg : u32 (width * h + w) = h * width + w).
  { rewrite u32_small by nia. ring. }
  cbv zeta. rewrite Himg, Hcs.
  destruct (Z.ltb_spec (h * width + w) (height * width)) as [_|Hge]; [|lia].
  apply for_int_ext. intros n v Hn'.
  f_equal.
  replace (u32 (height * width * c + (h * width + w))) with (ix 0 c h w).
  - apply index_at_lin with (n_batchs := n_batchs); try assumption.
  - unfold lin. rewrite u32_small by lia. ring.
Qed.

Lemma pa_mean_members (x_ptr : buffer T) (c h w : Z) :
  0 <= c < channels -> 0 <= h < height -> 0 <= w < width ->
  pa_mean promote n_batchs channels height width x_ptr (ix 0 c h w)
  = group_mean promote x_ptr (pa_members n_batchs channels height width c h w) n_batchs.
Proof.
  intros Hc Hh Hw. unfold pa_mean, group_mean, accum_from. f_equal.
  rewrite <- (for_int_pa_members n_batchs channels height width
                (fun i acc => sadd acc (promote (x_ptr i)))).
  apply for_int_ext. intros n t Hn.
  now rewrite (index_at_lin n_batchs channels height width Hdims).
Qed.

Lemma pa_variance_members (x_ptr : buffer T) (c h w : Z) :
  0 <= c < channels -> 0 <= h < height -> 0 <= w < width ->
  pa_variance promote n_batchs channels height width x_ptr (ix 0 c h w)
  = group_variance promote x_ptr (pa_members n_batchs channels height width c h w) n_batchs.
Proof.
  intros Hc Hh Hw. unfold pa_variance, group_variance, accum_from. cbv zeta.
  rewrite pa_mean_members by assumption. f_equal.
  rewrite <- (for_int_pa_members n_batchs channels height width
                (fun i acc => sadd acc (smul (ssub (promote (x_ptr i)) _)
                                             (ssub (promote (x_ptr i)) _)))).
  apply for_int_ext. intros n t Hn.
  now rewrite (index_at_lin n_batchs channels height width Hdims).
Qed.

(** A pass that stores [e] at each member while accumulating [q]. *)
Lemma scratch_pass_snd (c : Z) (e q : Z -> F) (out : buffer F) (a : F) :
  snd (for3 height width n_batchs
         (fun h w n (st : buffer F * F) =>
            (upd (fst st) (ix n c h w) (e (ix n c h w)), sadd (snd st) (q (ix n c h w))))
         (out, a))
  = accum_from a q (sp_members n_batchs channels height width c).
Proof.
  rewrite (for3_proj snd _ _ _ _ (fun h w n acc => sadd acc (q (ix n c h w))))
    by reflexivity.
  simpl. unfold accum_from.
  apply (for3_sp_members n_batchs channels height width (fun i acc => sadd acc (q i))).
Qed.

Lemma member_ne (n c h w n' h' w' : Z) :
  0 <= c < channels -> 0 <= h < height -> 0 <= w < width ->
  0 <= h' < height -> 0 <= w' < width ->
  h' <> h \/ w' <> w \/ n' <> n ->
  ix n' c h' w' <> ix n c h w.
Proof.
  intros Hc Hh Hw Hh' Hw' Hne Heq. apply lin_inj in Heq; try assumption. lia.
Qed.

Lemma channel_ne (n c h w n' c' h' w' : Z) :
  0 <= c < channels -> 0 <= h < height -> 0 <= w < width ->
  0 <= c' < channels -> 0 <= h' < height -> 0 <= w' < width ->
  c' <> c -> ix n' c' h' w' <> ix n c h w.
Proof.
  intros Hc Hh Hw Hc' Hh' Hw' Hne Heq. apply lin_inj in Heq; try assumption. lia.
Qed.

Lemma scratch_pass_fst_hit (c : Z) (e q : Z -> F) (out : buffer F) (a : F) (n h w : Z) :
  0 <= n < n_batchs -> 0 <= c < channels -> 0 <= h < height -> 0 <= w < width ->
  fst (for3 height width n_batchs
         (fun h w n (st : buffer F * F) =>
            (upd (fst st) (ix n c h w) (e (ix n c h w)), sadd (snd st) (q (ix n c h w))))
         (out, a)) (ix n c h w)
  = e (ix n c h w).
Proof.
  intros Hn Hc Hh Hw.
  rewrite (for3_hit (fun st : buffer F * F => fst st (ix n c h w))
             (fun _ => e (ix n c h w)) h w n); auto.
  - intros h' w' n' t Hh' Hw' Hn' Hne. simpl. apply upd_other.
    intros Heq. symmetry in Heq. revert Heq. now apply member_ne.
  - intros t. simpl. apply upd_same.
Qed.

Lemma scratch_pass_fst_frame (c : Z) (e q : Z -> F) (out : buffer F) (a : F) (j : Z) :
  (forall n h w, 0 <= n < n_batchs -> 0 <= h < height -> 0 <= w < width ->
                 ix n c h w <> j) ->
  fst (for3 height width n_batchs
         (fun h w n (st : buffer F * F) =>
            (upd (fst st) (ix n c h w) (e (ix n c h w)), sadd (snd st) (q (ix n c h w))))
         (out, a)) j
  = out j.
Proof.
  intros Hj.
  rewrite (for3_frame (fun st : buffer F * F => fst st j)); [reflexivity|].
  intros h w n t Hh Hw Hn. simpl. apply upd_other.
  intros Heq. now apply (Hj n h w).
Qed.

(** A pass that rewrites each member in place by [y]. *)
Lemma inplace_pass_hit (c : Z) (y : Z -> F -> F) (out : buffer F) (n h w : Z) :
  0 <= n < n_batchs -> 0 <= c < channels -> 0 <= h < height -> 0 <= w < width ->
  for3 height width n_batchs
    (fun h w n (o : buffer F) => upd o (ix n c h w) (y (ix n c h w) (o (ix n c h w))))
    out (ix n c h w)
  = y (ix n c h w) (out (ix n c h w)).
Proof.
  intros Hn Hc Hh Hw.
  rewrite (for3_hit (fun o : buffer F => o (ix n c h w))
             (fun old => y (ix n c h w) old) h w n); auto.
  - intros h' w' n' t Hh' Hw' Hn' Hne. apply upd_other.
    intros Heq. symmetry in Heq. revert Heq. now apply member_ne.
  - intros t. apply upd_same.
Qed.

Lemma inplace_pass_frame (c : Z) (y : Z -> F -> F) (out : buffer F) (j : Z) :
  (forall n h w, 0 <= n < n_batchs -> 0 <= h < height -> 0 <= w < width ->
                 ix n c h w <> j) ->
  for3 height width n_batchs
    (fun h w n (o : buffer F) => upd o (ix n c h w) (y (ix n c h w) (o (ix n c h w))))
    out j
  = out j.
Proof.
  intros Hj.
  rewrite (for3_frame (fun o : buffer F => o j)); [reflexivity|].
  intros h w n t Hh Hw Hn. apply upd_other.
  intros Heq. now apply (Hj n h w).
Qed.
End GroupNests.

(** * Training forward, spatial: what each call leaves in memory *)

Section FwdTrainSpatialFacts.
Context {F : Type} {SF : Scalar F} {T : Type}.
Variable promote : T -> F.
Variables n_batchs channels height width : Z.
Variables in_ptr scale_ptr bias_ptr : buffer T.
Variable epsilon : F.
Variables savemeanvar runningmeanvar : bool.
Variable expAvgFactor : F.
Hypothesis Hdims : dims_ok n_batchs channels height width.

Local Abbreviation ix := (lin channels height width).
Local Abbreviation channel :=
  (fwd_train_sp_channel promote n_batchs channels height width in_ptr scale_ptr bias_ptr
     epsilon savemeanvar runningmeanvar expAvgFactor).
Local Abbreviation run :=
  (miopenBNFwdTrainSpatialRunHost promote n_batchs channels height width in_ptr
     scale_ptr bias_ptr epsilon savemeanvar runningmeanvar expAvgFactor).
Local Abbreviation members := (sp_members n_batchs channels height width).
Local Abbreviation M := (n_batchs * (height * width)).
Local Abbreviation mean := (fun c => group_mean promote in_ptr (members c) M).
Local Abbreviation variance := (fun c => group_variance promote in_ptr (members c) M).

Lemma NHW_eq (c : Z) :
  0 <= c < channels -> u32 (in_cstride height width * n_batchs) = M.
Proof.
  intros Hc. rewrite (in_cstride_eq n_batchs channels height width Hdims c Hc).
  destruct Hdims as (Hn & HC & HH & HW & Hchw & Hall).
  assert (0 <= height * width) by nia.
  assert (n_batchs * (height * width) <= n_batchs * (channels * height * width)) by nia.
  rewrite u32_small by nia. ring.
Qed.

Lemma NHW_eq' (c : Z) :
  0 <= c < channels -> u32 (n_batchs * in_cstride height width) = M.
Proof. intros Hc. rewrite Z.mul_comm. now apply NHW_eq with (c := c). Qed.

Lemma fwd_train_sp_mean_members (c : Z) :
  0 <= c < channels ->
  fwd_train_sp_mean promote n_batchs channels height width in_ptr c = mean c.
Proof.
  intros Hc. unfold fwd_train_sp_mean, group_mean, accum_from, fwd_NHW.
  rewrite (NHW_eq c Hc). f_equal.
  rewrite (guarded_nest_for3 n_batchs channels height width Hdims) by assumption.
  apply (for3_sp_members n_batchs channels height width
           (fun i acc => sadd acc (promote (in_ptr i)))).
Qed.

Lemma fwd_train_sp_pass2_for3 (c : Z) (mu : F) (out : buffer F) :
  0 <= c < channels ->
  fwd_train_sp_pass2 promote n_batchs channels height width in_ptr c mu out
  = for3 height width n_batchs
      (fun h w n (st : buffer F * F) =>
         (upd (fst st) (ix n c h w) (ssub (promote (in_ptr (ix n c h w))) mu),
          sadd (snd st) (smul (ssub (promote (in_ptr (ix n c h w))) mu)
                              (ssub (promote (in_ptr (ix n c h w))) mu))))
      (out, szero).
Proof.
  intros Hc. unfold fwd_train_sp_pass2.
  now rewrite (guarded_nest_for3 n_batchs channels height width Hdims) by assumption.
Qed.

Lemma fwd_train_sp_variance_members (c : Z) (out : buffer F) :
  0 <= c < channels ->
  sdiv (snd (fwd_train_sp_pass2 promote n_batchs channels height width in_ptr c (mean c) out))
       (fwd_NHW n_batchs height width)
  = variance c.
Proof.
  intros Hc. rewrite fwd_train_sp_pass2_for3 by assumption.
  unfold group_variance, fwd_NHW. rewrite (NHW_eq c Hc). f_equal.
  apply (scratch_pass_snd n_batchs channels height width c
           (fun i => ssub (promote (in_ptr i)) (mean c))
           (fun i => smul (ssub (promote (in_ptr i)) (mean c))
                          (ssub (promote (in_ptr i)) (mean c)))).
Qed.

Lemma fwd_train_sp_channel_out_hit (c n h w : Z) (m : Fwd.mem F) :
  0 <= n < n_batchs -> 0 <= c < channels -> 0 <= h < height -> 0 <= w < width ->
  Fwd.out_ptr (channel c m) (ix n c h w)
  = fwd_sp_train_y promote in_ptr scale_ptr bias_ptr (mean c)
      (sdiv sone (ssqrt (sadd (variance c) epsilon))) c (ix n c h w).
Proof.
  intros Hn Hc Hh Hw. unfold fwd_train_sp_channel. cbv zeta.
  rewrite (fwd_train_sp_mean_members c Hc).
  assert (Hout : forall p (m1 : Fwd.mem F),
             Fwd.out_ptr
               (if savemeanvar then Fwd.set_saveInvVariance m1 p else m1)
             = Fwd.out_ptr m1) by (intros; destruct savemeanvar; reflexivity).
  assert (Hout2 : forall (g : Fwd.mem F -> buffer F) (m1 : Fwd.mem F),
             Fwd.out_ptr
               (if runningmeanvar then Fwd.set_runningVariance m1 (g m1) else m1)
             = Fwd.out_ptr m1) by (intros; destruct runningmeanvar; reflexivity).
  unfold Fwd.set_out_ptr at 1. cbn [Fwd.out_ptr].
  rewrite (guarded_nest_for3 n_batchs channels height width Hdims) by assumption.
  rewrite (inplace_pass_hit n_batchs channels height width c
             (fun _ old => sadd (smul (promote (scale_ptr c))
                                      (smul (sdiv sone (ssqrt (sadd _ epsilon))) old))
                                (promote (bias_ptr c)))) by assumption.
  rewrite Hout.
  destruct runningmeanvar; cbn [Fwd.out_ptr Fwd.set_runningVariance Fwd.set_out_ptr].
  all: rewrite !fwd_train_sp_variance_members by assumption.
  all: rewrite fwd_train_sp_pass2_for3 by assumption.
  all: rewrite (scratch_pass_fst_hit n_batchs channels height width c
                  (fun i => ssub (promote (in_ptr i)) (mean c))
                  (fun i => smul (ssub (promote (in_ptr i)) (mean c))
                                 (ssub (promote (in_ptr i)) (mean c)))) by assumption.
  all: reflexivity.
Qed.

Lemma fwd_train_sp_channel_out_frame (c j : Z) (m : Fwd.mem F) :
  0 <= c < channels ->
  (forall n h w, 0 <= n < n_batchs -> 0 <= h < height -> 0 <= w < width ->
                 ix n c h w <> j) ->
  Fwd.out_ptr (channel c m) j = Fwd.out_ptr m j.
Proof.
  intros Hc Hj. unfold fwd_train_sp_channel. cbv zeta.
  unfold Fwd.set_out_ptr at 1. cbn [Fwd.out_ptr].
  rewrite (guarded_nest_for3 n_batchs channels height width Hdims) by assumption.
  rewrite (inplace_pass_frame n_batchs channels height width c
             (fun _ old => sadd (smul (promote (scale_ptr c))
                                      (smul (sdiv sone (ssqrt (sadd _ epsilon))) old))
                                (promote (bias_ptr c)))) by assumption.
  destruct savemeanvar, runningmeanvar;
    cbn [Fwd.out_ptr Fwd.set_runningVariance Fwd.set_out_ptr Fwd.set_saveInvVariance
         Fwd.set_saveMean Fwd.set_runningMean].
  all: rewrite fwd_train_sp_pass2_for3 by assumption.
  all: now rewrite (scratch_pass_fst_frame n_batchs channels height width c
                      (fun i => ssub (promote (in_ptr i)) _)
                      (fun i => smul (ssub (promote (in_ptr i)) _)
                                     (ssub (promote (in_ptr i)) _))) by assumption.
Qed.

Lemma fwd_train_sp_channel_saveMean (c : Z) (m : Fwd.mem F) :
  0 <= c < channels ->
  Fwd.saveMean (channel c m)
  = if savemeanvar then upd (Fwd.saveMean m) c (mean c) else Fwd.saveMean m.
Proof.
  intros Hc. unfold fwd_train_sp_channel. cbv zeta.
  rewrite (fwd_train_sp_mean_members c Hc).
  destruct savemeanvar, runningmeanvar; reflexivity.
Qed.

Lemma fwd_train_sp_channel_saveInvVariance (c : Z) (m : Fwd.mem F) :
  0 <= c < channels ->
  Fwd.saveInvVariance (channel c m)
  = if savemeanvar
    then upd (Fwd.saveInvVariance m) c (sdiv sone (ssqrt (sadd (variance c) epsilon)))
    else Fwd.saveInvVariance m.
Proof.
  intros Hc. unfold fwd_train_sp_channel. cbv zeta.
  rewrite (fwd_train_sp_mean_members c Hc).
  destruct savemeanvar, runningmeanvar;
    cbn [Fwd.out_ptr Fwd.saveInvVariance Fwd.set_runningVariance Fwd.set_out_ptr
         Fwd.set_saveInvVariance Fwd.set_saveMean Fwd.set_runningMean];
    try reflexivity.
  all: now rewrite fwd_train_sp_variance_members by assumption.
Qed.

Lemma fwd_train_sp_channel_runningMean (c : Z) (m : Fwd.mem F) :
  0 <= c < channels ->
  Fwd.runningMean (channel c m)
  = if runningmeanvar
    then upd (Fwd.runningMean m) c
           (sadd (smul (mean c) expAvgFactor)
                 (smul (Fwd.runningMean m c) (ssub sone expAvgFactor)))
    else Fwd.runningMean m.
Proof.
  intros Hc. unfold fwd_train_sp_channel. cbv zeta.
  rewrite (fwd_train_sp_mean_members c Hc).
  destruct savemeanvar, runningmeanvar; reflexivity.
Qed.

Lemma fwd_train_sp_channel_runningVariance (c : Z) (m : Fwd.mem F) :
  0 <= c < channels ->
  Fwd.runningVariance (channel c m)
  = if runningmeanvar
    then upd (Fwd.runningVariance m) c
           (sadd (smul expAvgFactor (Fwd.runningVariance m c))
                 (smul (ssub sone expAvgFactor)
                       (if M =? 1 then variance c
                        else smul (sdiv (of_int M) (ssub (of_int M) sone)) (variance c))))
    else Fwd.runningVariance m.
Proof.
  intros Hc. unfold fwd_train_sp_channel. cbv zeta.
  rewrite (fwd_train_sp_mean_members c Hc).
  destruct savemeanvar, runningmeanvar;
    cbn [Fwd.out_ptr Fwd.runningVariance Fwd.set_runningVariance Fwd.set_out_ptr
         Fwd.set_saveInvVariance Fwd.set_saveMean Fwd.set_runningMean];
    try reflexivity.
  all: rewrite !fwd_train_sp_variance_members by assumption.
  all: unfold fwd_NHW; now rewrite (NHW_eq c Hc), (NHW_eq' c Hc).
Qed.

Lemma fwd_train_sp_out (m : Fwd.mem F) (n c h w : Z) :
  0 <= n < n_batchs -> 0 <= c < channels -> 0 <= h < height -> 0 <= w < width ->
  Fwd.out_ptr (run m) (ix n c h w)
  = fwd_sp_train_y promote in_ptr scale_ptr bias_ptr (mean c)
      (sdiv sone (ssqrt (sadd (variance c) epsilon))) c (ix n c h w).
Proof.
  intros Hn Hc Hh Hw. unfold miopenBNFwdTrainSpatialRunHost.
  rewrite (for_int_hit (fun t => Fwd.out_ptr t (ix n c h w))
             (fun _ => fwd_sp_train_y promote in_ptr scale_ptr bias_ptr (mean c)
                         (sdiv sone (ssqrt (sadd (variance c) epsilon))) c (ix n c h w)) c);
    auto.
  - intros c' t Hc' Hne. apply fwd_train_sp_channel_out_frame; [assumption|].
    intros n' h' w' Hn' Hh' Hw'. now apply channel_ne.
  - intros t. now apply fwd_train_sp_channel_out_hit.
Qed.

Lemma fwd_train_sp_saveMean (m : Fwd.mem F) (c : Z) :
  0 <= c < channels ->
  Fwd.saveMean (run m) c = if savemeanvar then mean c else Fwd.saveMean m c.
Proof.
  intros Hc. unfold miopenBNFwdTrainSpatialRunHost.
  rewrite (for_int_hit (fun t => Fwd.saveMean t c)
             (fun old => if savemeanvar then mean c else old) c); auto.
  - intros c' t Hc' Hne. rewrite fwd_train_sp_channel_saveMean by assumption.
    destruct savemeanvar; [|reflexivity]. apply upd_other. lia.
  - intros t. rewrite fwd_train_sp_channel_saveMean by assumption.
    destruct savemeanvar; [|reflexivity]. apply upd_same.
Qed.

Lemma fwd_train_sp_saveInvVariance (m : Fwd.mem F) (c : Z) :
  0 <= c < channels ->
  Fwd.saveInvVariance (run m) c
  = if savemeanvar then sdiv sone (ssqrt (sadd (variance c) epsilon))
    else Fwd.saveInvVariance m c.
Proof.
  intros Hc. unfold miopenBNFwdTrainSpatialRunHost.
  rewrite (for_int_hit (fun t => Fwd.saveInvVariance t c)
             (fun old => if savemeanvar
                         then sdiv sone (ssqrt (sadd (variance c) epsilon)) else old) c);
    auto.
  - intros c' t Hc' Hne. rewrite fwd_train_sp_channel_saveInvVariance by assumption.
    destruct savemeanvar; [|reflexivity]. apply upd_other. lia.
  - intros t. rewrite fwd_train_sp_channel_saveInvVariance by assumption.
    destruct savemeanvar; [|reflexivity]. apply upd_same.
Qed.

Lemma fwd_train_sp_runningMean (m : Fwd.mem F) (c : Z) :
  0 <= c < channels ->
  Fwd.runningMean (run m) c
  = if runningmeanvar
    then sadd (smul (mean c) expAvgFactor)
              (smul (Fwd.runningMean m c) (ssub sone expAvgFactor))
    else Fwd.runningMean m c.
Proof.
  intros Hc. unfold miopenBNFwdTrainSpatialRunHost.
  rewrite (for_int_hit (fun t => Fwd.runningMean t c)
             (fun old => if runningmeanvar
                         then sadd (smul (mean c) expAvgFactor)
                                   (smul old (ssub sone expAvgFactor))
                         else old) c); auto.
  - intros c' t Hc' Hne. rewrite fwd_train_sp_channel_runningMean by assumption.
    destruct runningmeanvar; [|reflexivity]. apply upd_other. lia.
  - intros t. rewrite fwd_train_sp_channel_runningMean by assumption.
    destruct runningmeanvar; [|reflexivity]. apply upd_same.
Qed.

Lemma fwd_train_sp_runningVariance (m : Fwd.mem F) (c : Z) :
  0 <= c < channels ->
  Fwd.runningVariance (run m) c
  = if runningmeanvar
    then sadd (smul expAvgFactor (Fwd.runningVariance m c))
              (smul (ssub sone expAvgFactor)
                    (if M =? 1 then variance c
                     else smul (sdiv (of_int M) (ssub (of_int M) sone)) (variance c)))
    else Fwd.runningVariance m c.
Proof.
  intros Hc. unfold miopenBNFwdTrainSpatialRunHost.
  rewrite (for_int_hit (fun t => Fwd.runningVariance t c)
             (fun old => if runningmeanvar
                         then sadd (smul expAvgFactor old)
                                (smul (ssub sone expAvgFactor)
                                   (if M =? 1 then variance c
                                    else smul (sdiv (of_int M) (ssub (of_int M) sone))
                                              (variance c)))
                         else old) c); auto.
  - intros c' t Hc' Hne. rewrite fwd_train_sp_channel_runningVariance by assumption.
    destruct runningmeanvar; [|reflexivity]. apply upd_other. lia.
  - intros t. rewrite fwd_train_sp_channel_runningVariance by assumption.
    destruct runningmeanvar; [|reflexivity]. apply upd_same.
Qed.

Lemma fwd_train_sp_out_frame (m : Fwd.mem F) (j : Z) :
  (forall n c h w, 0 <= n < n_batchs -> 0 <= c < channels -> 0 <= h < height ->
                   0 <= w < width -> ix n c h w <> j) ->
  Fwd.out_ptr (run m) j = Fwd.out_ptr m j.
Proof.
  intros Hj. unfold miopenBNFwdTrainSpatialRunHost.
  rewrite (for_int_frame (fun t => Fwd.out_ptr t j)); [reflexivity|].
  intros c t Hc. apply fwd_train_sp_channel_out_frame; [assumption|].
  intros n h w Hn Hh Hw. now apply Hj.
Qed.

(** The output buffer after one channel, as the in-place pass over the
    staged deviations. *)
Lemma fwd_train_sp_channel_out (c : Z) (m : Fwd.mem F) :
  0 <= c < channels ->
  Fwd.out_ptr (channel c m)
  = for3 height width n_batchs
      (fun h w n (o : buffer F) =>
         upd o (ix n c h w)
           (sadd (smul (promote (scale_ptr c))
                    (smul (sdiv sone (ssqrt (sadd (variance c) epsilon))) (o (ix n c h w))))
                 (promote (bias_ptr c))))
      (fst (fwd_train_sp_pass2 promote n_batchs channels height width in_ptr c (mean c)
              (Fwd.out_ptr m))).
Proof.
  intros Hc. unfold fwd_train_sp_channel. cbv zeta.
  rewrite (fwd_train_sp_mean_members c Hc).
  unfold Fwd.set_out_ptr at 1. cbn [Fwd.out_ptr].
  rewrite (guarded_nest_for3 n_batchs channels height width Hdims) by assumption.
  destruct savemeanvar, runningmeanvar;
    cbn [Fwd.out_ptr Fwd.set_runningVariance Fwd.set_out_ptr Fwd.set_saveInvVariance
         Fwd.set_saveMean Fwd.set_runningMean].
  all: now rewrite !fwd_train_sp_variance_members by assumption.
Qed.
End FwdTrainSpatialFacts.

(** * Inference forward: what each call leaves in memory *)

Section FwdInferFacts.
Context {F : Type} {SF : Scalar F} {T : Type}.
Variable promote : T -> F.
Variables n_batchs channels height width : Z.
Variables in_ptr scale_ptr bias_ptr : buffer T.
Variable epsilon : F.
Hypothesis Hdims : dims_ok n_batchs channels height width.

Local Abbreviation ix := (lin channels height width).
Local Abbreviation index := (index_at channels height width).
Local Abbreviation run_pa :=
  (miopenBNFwdInferPerActivationRunHost promote n_batchs channels height width in_ptr
     scale_ptr bias_ptr epsilon).
Local Abbreviation run_sp :=
  (miopenBNFwdInferSpatialRunHost promote n_batchs channels height width in_ptr
     scale_ptr bias_ptr epsilon).
Local Abbreviation est_group :=
  (fwd_infer_pa_est_group promote n_batchs channels height width in_ptr scale_ptr bias_ptr
     epsilon).
Local Abbreviation batch_group :=
  (fwd_infer_pa_batch_group promote n_batchs channels height width in_ptr scale_ptr bias_ptr
     epsilon).
Local Abbreviation est_channel :=
  (fwd_infer_sp_est_channel promote n_batchs channels height width in_ptr scale_ptr bias_ptr
     epsilon).
Local Abbreviation batch_channel :=
  (fwd_infer_sp_batch_channel promote n_batchs channels height width in_ptr scale_ptr
     bias_ptr epsilon).
Local Abbreviation pa_members := (pa_members n_batchs channels height width).
Local Abbreviation sp_members := (sp_members n_batchs channels height width).
Local Abbreviation M := (n_batchs * (height * width)).

(** The estimates are only read. *)
Lemma fwd_infer_pa_est_group_estimates (adjIndex : Z) (m : Inf.mem F) :
  Inf.estimatedMean (est_group adjIndex m) = Inf.estimatedMean m /\
  Inf.estimatedVariance (est_group adjIndex m) = Inf.estimatedVariance m.
Proof.
  unfold fwd_infer_pa_est_group. split.
  - now rewrite (for_int_frame Inf.estimatedMean).
  - now rewrite (for_int_frame Inf.estimatedVariance).
Qed.

Lemma fwd_infer_pa_batch_group_estimates (adjIndex : Z) (m : Inf.mem F) :
  Inf.estimatedMean (batch_group adjIndex m) = Inf.estimatedMean m /\
  Inf.estimatedVariance (batch_group adjIndex m) = Inf.estimatedVariance m.
Proof.
  unfold fwd_infer_pa_batch_group. split.
  - now rewrite (for_int_frame Inf.estimatedMean).
  - now rewrite (for_int_frame Inf.estimatedVariance).
Qed.

Lemma fwd_infer_sp_est_channel_estimates (c : Z) (m : Inf.mem F) :
  Inf.estimatedMean (est_channel c m) = Inf.estimatedMean m /\
  Inf.estimatedVariance (est_channel c m) = Inf.estimatedVariance m.
Proof.
  unfold fwd_infer_sp_est_channel. split.
  - now rewrite (for3_frame Inf.estimatedMean).
  - now rewrite (for3_frame Inf.estimatedVariance).
Qed.

Lemma fwd_infer_sp_batch_channel_estimates (c : Z) (m : Inf.mem F) :
  Inf.estimatedMean (batch_channel c m) = Inf.estimatedMean m /\
  Inf.estimatedVariance (batch_channel c m) = Inf.estimatedVariance m.
Proof.
  unfold fwd_infer_sp_batch_channel. split.
  - now rewrite (for3_frame Inf.estimatedMean).
  - now rewrite (for3_frame Inf.estimatedVariance).
Qed.

Lemma fwd_infer_pa_estimates (estmeanvar : bool) (m : Inf.mem F) :
  Inf.estimatedMean (run_pa estmeanvar m) = Inf.estimatedMean m /\
  Inf.estimatedVariance (run_pa estmeanvar m) = Inf.estimatedVariance m.
Proof.
  unfold miopenBNFwdInferPerActivationRunHost.
  destruct estmeanvar; split.
  - apply (for3_frame Inf.estimatedMean). intros. apply fwd_infer_pa_est_group_estimates.
  - apply (for3_frame Inf.estimatedVariance). intros. apply fwd_infer_pa_est_group_estimates.
  - apply (for3_frame Inf.estimatedMean). intros. apply fwd_infer_pa_batch_group_estimates.
  - apply (for3_frame Inf.estimatedVariance). intros.
    apply fwd_infer_pa_batch_group_estimates.
Qed.

Lemma fwd_infer_sp_estimates (estmeanvar : bool) (m : Inf.mem F) :
  Inf.estimatedMean (run_sp estmeanvar m) = Inf.estimatedMean m /\
  Inf.estimatedVariance (run_sp estmeanvar m) = Inf.estimatedVariance m.
Proof.
  unfold miopenBNFwdInferSpatialRunHost.
  destruct estmeanvar; split.
  - apply (for_int_frame Inf.estimatedMean). intros.
    apply fwd_infer_sp_est_channel_estimates.
  - apply (for_int_frame Inf.estimatedVariance). intros.
    apply fwd_infer_sp_est_channel_estimates.
  - apply (for_int_frame Inf.estimatedMean). intros.
    apply fwd_infer_sp_batch_channel_estimates.
  - apply (for_int_frame Inf.estimatedVariance). intros.
    apply fwd_infer_sp_batch_channel_estimates.
Qed.

(** Per-activation, supplied estimates. *)
Lemma fwd_infer_pa_est_group_out_frame (adjIndex j : Z) (m : Inf.mem F) :
  (forall b, 0 <= b < n_batchs -> index b adjIndex <> j) ->
  Inf.out_ptr (est_group adjIndex m) j = Inf.out_ptr m j.
Proof.
  intros Hj. unfold fwd_infer_pa_est_group.
  rewrite (for_int_frame (fun t => Inf.out_ptr t j)); [reflexivity|].
  intros b t Hb. simpl. apply upd_other. intros Heq. now apply (Hj b Hb).
Qed.

Lemma fwd_infer_pa_est_group_out_hit (adjIndex b : Z) (m : Inf.mem F) :
  0 <= b < n_batchs ->
  (forall b', 0 <= b' < n_batchs -> b' <> b -> index b' adjIndex <> index b adjIndex) ->
  Inf.out_ptr (est_group adjIndex m) (index b adjIndex)
  = fwd_pa_y promote in_ptr scale_ptr bias_ptr (Inf.estimatedMean m adjIndex)
      (sdiv sone (ssqrt (sadd (Inf.estimatedVariance m adjIndex) epsilon)))
      adjIndex (index b adjIndex).
Proof.
  intros Hb Hinj. unfold fwd_infer_pa_est_group.
  rewrite (for_int_hit (fun t => Inf.out_ptr t (index b adjIndex))
             (fun _ => fwd_pa_y promote in_ptr scale_ptr bias_ptr
                         (Inf.estimatedMean m adjIndex)
                         (sdiv sone (ssqrt (sadd (Inf.estimatedVariance m adjIndex) epsilon)))
                         adjIndex (index b adjIndex)) b); auto.
  - intros b' t Hb' Hne. simpl. apply upd_other. intros Heq.
    now apply (Hinj b' Hb' Hne).
  - intros t. simpl. now rewrite upd_same.
Qed.

Lemma fwd_infer_pa_est_out (m : Inf.mem F) (n c h w : Z) :
  0 <= n < n_batchs -> 0 <= c < channels -> 0 <= h < height -> 0 <= w < width ->
  Inf.out_ptr (run_pa true m) (ix n c h w)
  = fwd_pa_y promote in_ptr scale_ptr bias_ptr (Inf.estimatedMean m (ix 0 c h w))
      (sdiv sone (ssqrt (sadd (Inf.estimatedVariance m (ix 0 c h w)) epsilon)))
      (ix 0 c h w) (ix n c h w).
Proof.
  intros Hn Hc Hh Hw. unfold miopenBNFwdInferPerActivationRunHost.
  pose (obs := fun t : Inf.mem F =>
                 (Inf.out_ptr t (ix n c h w), (Inf.estimatedMean t, Inf.estimatedVariance t))).
  pose (g := fun o : F * (buffer F * buffer F) =>
               (fwd_pa_y promote in_ptr scale_ptr bias_ptr (fst (snd o) (ix 0 c h w))
                  (sdiv sone (ssqrt (sadd (snd (snd o) (ix 0 c h w)) epsilon)))
                  (ix 0 c h w) (ix n c h w), snd o)).
  change (fst (obs (for3 channels height width
                      (fun cidx row column => est_group (adjIndex_at height width cidx row column))
                      m)) = fst (g (obs m))).
  f_equal. apply for3_hit with (i0 := c) (j0 := h) (k0 := w); auto.
  - intros c' h' w' t Hc' Hh' Hw' Hne. unfold obs.
    destruct (fwd_infer_pa_est_group_estimates (adjIndex_at height width c' h' w') t)
      as [-> ->].
    f_equal.
    rewrite (adjIndex_at_lin n_batchs channels height width Hdims) by assumption.
    apply fwd_infer_pa_est_group_out_frame. intros b Hb.
    now apply (index_ne_other_group n_batchs channels height width Hdims).
  - intros t. unfold obs, g. cbn [fst snd].
    destruct (fwd_infer_pa_est_group_estimates (adjIndex_at height width c h w) t)
      as [-> ->].
    f_equal.
    rewrite (adjIndex_at_lin n_batchs channels height width Hdims) by assumption.
    rewrite <- (index_at_lin n_batchs channels height width Hdims n c h w) by assumption.
    apply fwd_infer_pa_est_group_out_hit; [assumption|].
    intros b' Hb' Hne. now apply (index_ne_other_batch n_batchs channels height width Hdims).
Qed.

(** Per-activation, statistics of the batch. *)
Lemma fwd_infer_pa_batch_group_out_frame (adjIndex j : Z) (m : Inf.mem F) :
  (forall b, 0 <= b < n_batchs -> index b adjIndex <> j) ->
  Inf.out_ptr (batch_group adjIndex m) j = Inf.out_ptr m j.
Proof.
  intros Hj. unfold fwd_infer_pa_batch_group.
  rewrite (for_int_frame (fun t => Inf.out_ptr t j)); [reflexivity|].
  intros b t Hb. simpl. apply upd_other. intros Heq. now apply (Hj b Hb).
Qed.

Lemma fwd_infer_pa_batch_group_out_hit (adjIndex b : Z) (m : Inf.mem F) :
  0 <= b < n_batchs ->
  (forall b', 0 <= b' < n_batchs -> b' <> b -> index b' adjIndex <> index b adjIndex) ->
  Inf.out_ptr (batch_group adjIndex m) (index b adjIndex)
  = fwd_pa_y promote in_ptr scale_ptr bias_ptr
      (pa_mean promote n_batchs channels height width in_ptr adjIndex)
      (sdiv sone (ssqrt (sadd (pa_variance promote n_batchs channels height width in_ptr
                                 adjIndex) epsilon)))
      adjIndex (index b adjIndex).
Proof.
  intros Hb Hinj. unfold fwd_infer_pa_batch_group.
  rewrite (for_int_hit (fun t => Inf.out_ptr t (index b adjIndex))
             (fun _ => fwd_pa_y promote in_ptr scale_ptr bias_ptr
                         (pa_mean promote n_batchs channels height width in_ptr adjIndex)
                         (sdiv sone (ssqrt (sadd (pa_variance promote n_batchs channels height
                                                    width in_ptr adjIndex) epsilon)))
                         adjIndex (index b adjIndex)) b); auto.
  - intros b' t Hb' Hne. simpl. apply upd_other. intros Heq.
    now apply (Hinj b' Hb' Hne).
  - intros t. simpl. now rewrite upd_same.
Qed.

Lemma fwd_infer_pa_batch_out (m : Inf.mem F) (n c h w : Z) :
  0 <= n < n_batchs -> 0 <= c < channels -> 0 <= h < height -> 0 <= w < width ->
  Inf.out_ptr (run_pa false m) (ix n c h w)
  = fwd_pa_y promote in_ptr scale_ptr bias_ptr
      (group_mean promote in_ptr (pa_members c h w) n_batchs)
      (sdiv sone (ssqrt (sadd (group_variance promote in_ptr (pa_members c h w) n_batchs)
                              epsilon)))
      (ix 0 c h w) (ix n c h w).
Proof.
  intros Hn Hc Hh Hw. unfold miopenBNFwdInferPerActivationRunHost.
  rewrite <- (pa_mean_members promote n_batchs channels height width Hdims) by assumption.
  rewrite <- (pa_variance_members promote n_batchs channels height width Hdims)
    by assumption.
  rewrite (for3_hit (fun t => Inf.out_ptr t (ix n c h w))
             (fun _ => fwd_pa_y promote in_ptr scale_ptr bias_ptr
                         (pa_mean promote n_batchs channels height width in_ptr (ix 0 c h w))
                         (sdiv sone
                            (ssqrt (sadd (pa_variance promote n_batchs channels height width
                                            in_ptr (ix 0 c h w)) epsilon)))
                         (ix 0 c h w) (ix n c h w)) c h w); auto.
  - intros c' h' w' t Hc' Hh' Hw' Hne.
    rewrite (adjIndex_at_lin n_batchs channels height width Hdims) by assumption.
    apply fwd_infer_pa_batch_group_out_frame. intros b Hb.
    now apply (index_ne_other_group n_batchs channels height width Hdims).
  - intros t.
    rewrite (adjIndex_at_lin n_batchs channels height width Hdims) by assumption.
    rewrite <- (index_at_lin n_batchs channels height width Hdims n c h w) by assumption.
    apply fwd_infer_pa_batch_group_out_hit; [assumption|].
    intros b' Hb' Hne. now apply (index_ne_other_batch n_batchs channels height width Hdims).
Qed.

(** Spatial, supplied estimates. *)
Lemma fwd_infer_sp_est_channel_out_hit (c n h w : Z) (m : Inf.mem F) :
  0 <= n < n_batchs -> 0 <= c < channels -> 0 <= h < height -> 0 <= w < width ->
  Inf.out_ptr (est_channel c m) (ix n c h w)
  = fwd_pa_y promote in_ptr scale_ptr bias_ptr (Inf.estimatedMean m c)
      (sdiv sone (ssqrt (sadd (Inf.estimatedVariance m c) epsilon))) c (ix n c h w).
Proof.
  intros Hn Hc Hh Hw. unfold fwd_infer_sp_est_channel.
  rewrite (for3_hit (fun t => Inf.out_ptr t (ix n c h w))
             (fun _ => fwd_pa_y promote in_ptr scale_ptr bias_ptr (Inf.estimatedMean m c)
                         (sdiv sone (ssqrt (sadd (Inf.estimatedVariance m c) epsilon)))
                         c (ix n c h w)) h w n); auto.
  - intros h' w' n' t Hh' Hw' Hn' Hne. cbv zeta.
    rewrite (plain_nest_index n_batchs channels height width Hdims) by assumption.
    simpl. apply upd_other. intros Heq. symmetry in Heq. revert Heq.
    now apply member_ne.
  - intros t. cbv zeta.
    rewrite (plain_nest_index n_batchs channels height width Hdims) by assumption.
    simpl. now rewrite upd_same.
Qed.

Lemma fwd_infer_sp_est_channel_out_frame (c j : Z) (m : Inf.mem F) :
  0 <= c < channels ->
  (forall n h w, 0 <= n < n_batchs -> 0 <= h < height -> 0 <= w < width ->
                 ix n c h w <> j) ->
  Inf.out_ptr (est_channel c m) j = Inf.out_ptr m j.
Proof.
  intros Hc Hj. unfold fwd_infer_sp_est_channel.
  rewrite (for3_frame (fun t => Inf.out_ptr t j)); [reflexivity|].
  intros h w n t Hh Hw Hn. cbv zeta.
  rewrite (plain_nest_index n_batchs channels height width Hdims) by assumption.
  simpl. apply upd_other. intros Heq. now apply (Hj n h w).
Qed.

Lemma fwd_infer_sp_est_out (m : Inf.mem F) (n c h w : Z) :
  0 <= n < n_batchs -> 0 <= c < channels -> 0 <= h < height -> 0 <= w < width ->
  Inf.out_ptr (run_sp true m) (ix n c h w)
  = fwd_pa_y promote in_ptr scale_ptr bias_ptr (Inf.estimatedMean m c)
      (sdiv sone (ssqrt (sadd (Inf.estimatedVariance m c) epsilon))) c (ix n c h w).
Proof.
  intros Hn Hc Hh Hw. unfold miopenBNFwdInferSpatialRunHost.
  pose (obs := fun t : Inf.mem F =>
                 (Inf.out_ptr t (ix n c h w), (Inf.estimatedMean t, Inf.estimatedVariance t))).
  pose (g := fun o : F * (buffer F * buffer F) =>
               (fwd_pa_y promote in_ptr scale_ptr bias_ptr (fst (snd o) c)
                  (sdiv sone (ssqrt (sadd (snd (snd o) c) epsilon))) c (ix n c h w),
                snd o)).
  change (fst (obs (for_int channels est_channel m)) = fst (g (obs m))).
  f_equal. apply for_int_hit with (i0 := c); auto.
  - intros c' t Hc' Hne. unfold obs.
    destruct (fwd_infer_sp_est_channel_estimates c' t) as [-> ->].
    f_equal. apply fwd_infer_sp_est_channel_out_frame; [assumption|].
    intros n' h' w' Hn' Hh' Hw'. now apply channel_ne.
  - intros t. unfold obs, g. cbn [fst snd].
    destruct (fwd_infer_sp_est_channel_estimates c t) as [-> ->].
    f_equal. now apply fwd_infer_sp_est_channel_out_hit.
Qed.

(** Spatial, statistics of the batch. *)
Lemma fwd_infer_sp_mean_members (c : Z) :
  0 <= c < channels ->
  fwd_infer_sp_mean promote n_batchs channels height width in_ptr c
  = group_mean promote in_ptr (sp_members c) M.
Proof.
  intros Hc. unfold fwd_infer_sp_mean, group_mean, accum_from, inf_NHW.
  rewrite (NHW_eq n_batchs channels height width Hdims c Hc). f_equal.
  rewrite <- (for3_sp_members n_batchs channels height width
                (fun i acc => sadd acc (promote (in_ptr i)))).
  apply for3_ext. intros h w n t Hh Hw Hn. cbv zeta.
  now rewrite (plain_nest_index n_batchs channels height width Hdims).
Qed.

Lemma fwd_infer_sp_pass2_for3 (c : Z) (mu : F) (out : buffer F) :
  0 <= c < channels ->
  fwd_infer_sp_pass2 promote n_batchs channels height width in_ptr c mu out
  = for3 height width n_batchs
      (fun h w n (st : buffer F * F) =>
         (upd (fst st) (ix n c h w) (ssub (promote (in_ptr (ix n c h w))) mu),
          sadd (snd st) (smul (ssub (promote (in_ptr (ix n c h w))) mu)
                              (ssub (promote (in_ptr (ix n c h w))) mu))))
      (out, szero).
Proof.
  intros Hc. unfold fwd_infer_sp_pass2.
  apply for3_ext. intros h w n t Hh Hw Hn. cbv zeta.
  now rewrite (plain_nest_index n_batchs channels height width Hdims).
Qed.

Lemma fwd_infer_sp_variance_members (c : Z) (out : buffer F) :
  0 <= c < channels ->
  sdiv (snd (fwd_infer_sp_pass2 promote n_batchs channels height width in_ptr c
               (group_mean promote in_ptr (sp_members c) M) out))
       (inf_NHW n_batchs height width)
  = group_variance promote in_ptr (sp_members c) M.
Proof.
  intros Hc. rewrite fwd_infer_sp_pass2_for3 by assumption.
  unfold group_variance, inf_NHW.
  rewrite (NHW_eq n_batchs channels height width Hdims c Hc). f_equal.
  apply (scratch_pass_snd n_batchs channels height width c
           (fun i => ssub (promote (in_ptr i)) _)
           (fun i => smul (ssub (promote (in_ptr i)) _) (ssub (promote (in_ptr i)) _))).
Qed.

Lemma fwd_infer_sp_batch_channel_out (c : Z) (m : Inf.mem F) :
  0 <= c < channels ->
  Inf.out_ptr (batch_channel c m)
  = for3 height width n_batchs
      (fun h w n (o : buffer F) =>
         upd o (ix n c h w)
           (sadd (smul (promote (scale_ptr c))
                    (smul (o (ix n c h w))
                       (sdiv sone
                          (ssqrt (sadd (group_variance promote in_ptr (sp_members c) M)
                                       epsilon)))))
                 (promote (bias_ptr c))))
      (fst (fwd_infer_sp_pass2 promote n_batchs channels height width in_ptr c
              (group_mean promote in_ptr (sp_members c) M) (Inf.out_ptr m))).
Proof.
  intros Hc. unfold fwd_infer_sp_batch_channel. cbv zeta.
  rewrite (fwd_infer_sp_mean_members c Hc).
  rewrite (fwd_infer_sp_variance_members c (Inf.out_ptr m) Hc).
  rewrite (for3_proj Inf.out_ptr _ _ _ _
             (fun h w n (o : buffer F) =>
                upd o (ix n c h w)
                  (sadd (smul (promote (scale_ptr c))
                           (smul (o (ix n c h w))
                              (sdiv sone
                                 (ssqrt (sadd (group_variance promote in_ptr (sp_members c) M)
                                              epsilon)))))
                        (promote (bias_ptr c))))).
  - reflexivity.
  - intros h w n t Hh Hw Hn.
    rewrite (plain_nest_index n_batchs channels height width Hdims) by assumption.
    reflexivity.
Qed.

Lemma fwd_infer_sp_batch_channel_out_hit (c n h w : Z) (m : Inf.mem F) :
  0 <= n < n_batchs -> 0 <= c < channels -> 0 <= h < height -> 0 <= w < width ->
  Inf.out_ptr (batch_channel c m) (ix n c h w)
  = fwd_pa_y promote in_ptr scale_ptr bias_ptr (group_mean promote in_ptr (sp_members c) M)
      (sdiv sone (ssqrt (sadd (group_variance promote in_ptr (sp_members c) M) epsilon)))
      c (ix n c h w).
Proof.
  intros Hn Hc Hh Hw. rewrite fwd_infer_sp_batch_channel_out by assumption.
  rewrite (inplace_pass_hit n_batchs channels height width c
             (fun _ old => sadd (smul (promote (scale_ptr c)) (smul old _))
                                (promote (bias_ptr c)))) by assumption.
  rewrite fwd_infer_sp_pass2_for3 by assumption.
  now rewrite (scratch_pass_fst_hit n_batchs channels height width c
                 (fun i => ssub (promote (in_ptr i)) _)
                 (fun i => smul (ssub (promote (in_ptr i)) _) (ssub (promote (in_ptr i)) _)))
    by assumption.
Qed.

Lemma fwd_infer_sp_batch_channel_out_frame (c j : Z) (m : Inf.mem F) :
  0 <= c < channels ->
  (forall n h w, 0 <= n < n_batchs -> 0 <= h < height -> 0 <= w < width ->
                 ix n c h w <> j) ->
  Inf.out_ptr (batch_channel c m) j = Inf.out_ptr m j.
Proof.
  intros Hc Hj. rewrite fwd_infer_sp_batch_channel_out by assumption.
  rewrite (inplace_pass_frame n_batchs channels height width c
             (fun _ old => sadd (smul (promote (scale_ptr c)) (smul old _))
                                (promote (bias_ptr c)))) by assumption.
  rewrite fwd_infer_sp_pass2_for3 by assumption.
  now rewrite (scratch_pass_fst_frame n_batchs channels height width c
                 (fun i => ssub (promote (in_ptr i)) _)
                 (fun i => smul (ssub (promote (in_ptr i)) _) (ssub (promote (in_ptr i)) _)))
    by assumption.
Qed.

Lemma fwd_infer_sp_batch_out (m : Inf.mem F) (n c h w : Z) :
  0 <= n < n_batchs -> 0 <= c < channels -> 0 <= h < height -> 0 <= w < width ->
  Inf.out_ptr (run_sp false m) (ix n c h w)
  = fwd_pa_y promote in_ptr scale_ptr bias_ptr (group_mean promote in_ptr (sp_members c) M)
      (sdiv sone (ssqrt (sadd (group_variance promote in_ptr (sp_members c) M) epsilon)))
      c (ix n c h w).
Proof.
  intros Hn Hc Hh Hw. unfold miopenBNFwdInferSpatialRunHost.
  rewrite (for_int_hit (fun t => Inf.out_ptr t (ix n c h w))
             (fun _ => fwd_pa_y promote in_ptr scale_ptr bias_ptr
                         (group_mean promote in_ptr (sp_members c) M)
                         (sdiv sone
                            (ssqrt (sadd (group_variance promote in_ptr (sp_members c) M)
                                         epsilon)))
                         c (ix n c h w)) c); auto.
  - intros c' t Hc' Hne. apply fwd_infer_sp_batch_channel_out_frame; [assumption|].
    intros n' h' w' Hn' Hh' Hw'. now apply channel_ne.
  - intros t. now apply fwd_infer_sp_batch_channel_out_hit.
Qed.

Lemma fwd_infer_pa_out_frame (estmeanvar : bool) (m : Inf.mem F) (j : Z) :
  (forall n c h w, 0 <= n < n_batchs -> 0 <= c < channels -> 0 <= h < height ->
                   0 <= w < width -> ix n c h w <> j) ->
  Inf.out_ptr (run_pa estmeanvar m) j = Inf.out_ptr m j.
Proof.
  intros Hj. unfold miopenBNFwdInferPerActivationRunHost.
  destruct estmeanvar.
  - rewrite (for3_frame (fun t => Inf.out_ptr t j)); [reflexivity|].
    intros c h w t Hc Hh Hw. apply fwd_infer_pa_est_group_out_frame. intros b Hb.
    rewrite (plain_nest_index n_batchs channels height width Hdims) by assumption.
    now apply Hj.
  - rewrite (for3_frame (fun t => Inf.out_ptr t j)); [reflexivity|].
    intros c h w t Hc Hh Hw. apply fwd_infer_pa_batch_group_out_frame. intros b Hb.
    rewrite (plain_nest_index n_batchs channels height width Hdims) by assumption.
    now apply Hj.
Qed.

Lemma fwd_infer_sp_out_frame (estmeanvar : bool) (m : Inf.mem F) (j : Z) :
  (forall n c h w, 0 <= n < n_batchs -> 0 <= c < channels -> 0 <= h < height ->
                   0 <= w < width -> ix n c h w <> j) ->
  Inf.out_ptr (run_sp estmeanvar m) j = Inf.out_ptr m j.
Proof.
  intros Hj. unfold miopenBNFwdInferSpatialRunHost.
  destruct estmeanvar.
  - rewrite (for_int_frame (fun t => Inf.out_ptr t j)); [reflexivity|].
    intros c t Hc. apply fwd_infer_sp_est_channel_out_frame; [assumption|].
    intros n h w Hn Hh Hw. now apply Hj.
  - rewrite (for_int_frame (fun t => Inf.out_ptr t j)); [reflexivity|].
    intros c t Hc. apply fwd_infer_sp_batch_channel_out_frame; [assumption|].
    intros n h w Hn Hh Hw. now apply Hj.
Qed.
End FwdInferFacts.

(** * The kernel threads: what a thread stores *)

Lemma stride_count (start stop step j : Z) :
  0 < step ->
  (0 <= j < (stop - start + step - 1) / step <-> 0 <= j /\ start + j * step < stop).
Proof.
  intros Hs. split.
  - intros [Hj0 Hj]. split; [assumption|].
    assert (Hle : step * (j + 1) <= stop - start + step - 1).
    { apply Z.le_trans with (step * ((stop - start + step - 1) / step)).
      - apply Z.mul_le_mono_nonneg_l; lia.
      - apply Z.mul_div_le. lia. }
    lia.
  - intros [Hj0 Hj]. split; [assumption|].
    apply Z.lt_le_trans with (j + 1); [lia|].
    apply Z.div_le_lower_bound; lia.
Qed.

Section KernelFacts.
Context {F : Type} {SF : Scalar F} {TIO : Type}.
Variable to_prec : TIO -> F.
Variable to_io : F -> TIO.
Variable rsqrt : F -> F.
Variable fma : F -> F -> F -> F.
Variable in_ : buffer TIO.
Variables estimatedMean estimatedVariance scale bias : buffer F.
Variable epsilon : F.
Variables batchSize imageDims batchStride : Z.

Lemma for_stride_hit {S O : Type} (obs : S -> O) (g : O -> O) (start stop step j0 : Z)
    (body : Z -> S -> S) (s : S) :
  0 < step -> 0 <= j0 -> start + j0 * step < stop ->
  (forall j t, 0 <= j -> start + j * step < stop -> j <> j0 ->
               obs (body (start + j * step) t) = obs t) ->
  (forall t, obs (body (start + j0 * step) t) = g (obs t)) ->
  obs (for_stride start stop step body s) = g (obs s).
Proof.
  intros Hs Hj0 Hlt Hframe Hhit. unfold for_stride.
  apply for_int_hit with (i0 := j0).
  - now apply stride_count.
  - intros j t Hj Hne. apply stride_count in Hj; [|assumption].
    now apply Hframe.
  - exact Hhit.
Qed.

(** Per-activation kernel: element [n] of image offset [yidx + j*ystep]. *)
Lemma bn_fwd_infer_per_activation_out (grpid yidx ystep j n : Z) (out : buffer TIO) :
  0 < ystep -> 0 <= yidx -> 0 <= grpid -> 0 <= j -> yidx + j * ystep < imageDims ->
  0 <= n < batchSize ->
  (grpid + 1) * imageDims <= batchStride -> batchSize * batchStride < 2 ^ 64 ->
  let adjIndex := grpid * imageDims + (yidx + j * ystep) in
  let index := batchStride * n + adjIndex in
  bn_fwd_infer_per_activation to_prec to_io rsqrt fma in_ estimatedMean estimatedVariance
    scale bias epsilon batchSize imageDims batchStride grpid yidx ystep out index
  = to_io (kernel_y rsqrt fma (to_prec (in_ index)) (estimatedMean adjIndex)
             (estimatedVariance adjIndex) epsilon (scale adjIndex) (bias adjIndex)).
Proof.
  intros Hs Hy Hg Hj Hlt Hn Hfit Hall adjIndex index.
  assert (Hadj : forall j', 0 <= j' -> yidx + j' * ystep < imageDims ->
            0 <= grpid * imageDims + (yidx + j' * ystep) < batchStride) by (intros; nia).
  assert (Hbs : batchStride < 2 ^ 64) by nia.
  assert (Hidx : forall j' n', 0 <= j' -> yidx + j' * ystep < imageDims ->
            0 <= n' < batchSize ->
            0 <= batchStride * n' + (grpid * imageDims + (yidx + j' * ystep)) < 2 ^ 64).
  { intros j' n' Hj' Hlt' Hn'. pose proof (Hadj j' Hj' Hlt').
    assert (batchStride * n' + batchStride <= batchSize * batchStride) by nia.
    assert (0 <= batchStride * n') by nia. lia. }
  unfold bn_fwd_infer_per_activation.
  rewrite (for_stride_hit (fun o : buffer TIO => o index)
             (fun _ => to_io (kernel_y rsqrt fma (to_prec (in_ index)) (estimatedMean adjIndex)
                                (estimatedVariance adjIndex) epsilon (scale adjIndex)
                                (bias adjIndex))) yidx imageDims ystep j); auto.
  - intros j' t Hj' Hlt' Hne. cbv zeta.
    rewrite (for_int_frame (fun o : buffer TIO => o index)); [reflexivity|].
    intros n' u Hn'. apply upd_other.
    unfold u64. rewrite (Z.mod_small (grpid * imageDims + _)) by (pose proof (Hadj j' Hj' Hlt'); lia).
    rewrite Z.mod_small by (apply Hidx; assumption).
    pose proof (Hadj j' Hj' Hlt') as Ha'. pose proof (Hadj j Hj Hlt) as Ha.
    subst index adjIndex. intros Heq.
    assert (Hnn : n' = n) by nia. subst n'.
    assert (Hjj : j' * ystep = j * ystep) by lia.
    apply Z.mul_cancel_r in Hjj; lia.
  - intros t. cbv zeta.
    assert (Ha : u64 (grpid * imageDims + (yidx + j * ystep)) = adjIndex).
    { unfold u64. apply Z.mod_small. pose proof (Hadj j Hj Hlt). lia. }
    rewrite Ha.
    rewrite (for_int_hit (fun o : buffer TIO => o index)
               (fun _ => to_io (kernel_y rsqrt fma (to_prec (in_ index))
                                  (estimatedMean adjIndex) (estimatedVariance adjIndex)
                                  epsilon (scale adjIndex) (bias adjIndex))) n); auto.
    + intros n' u Hn' Hne. apply upd_other.
      unfold u64. rewrite Z.mod_small by (apply Hidx; assumption).
      pose proof (Hadj j Hj Hlt) as Hb. subst index. fold adjIndex. intros Heq.
      assert (Hnn : batchStride * n' = batchStride * n) by lia.
      apply Z.mul_cancel_l in Hnn; lia.
    + intros u.
      assert (Hi : u64 (batchStride * n + adjIndex) = index).
      { unfold u64. apply Z.mod_small. apply Hidx; assumption. }
      rewrite Hi. now rewrite upd_same.
Qed.

(** Spatial kernel: element [n] of image offset [yidx + j*ystep], channel [xidx]. *)
Lemma bn_fwd_infer_spatial_out (xidx yidx ystep j n : Z) (out : buffer TIO) :
  0 < ystep -> 0 <= yidx -> 0 <= xidx -> 0 <= j -> yidx + j * ystep < imageDims ->
  0 <= n < batchSize ->
  (xidx + 1) * imageDims <= batchStride -> batchSize * batchStride < 2 ^ 32 ->
  let index := n * batchStride + xidx * imageDims + (yidx + j * ystep) in
  bn_fwd_infer_spatial to_prec to_io rsqrt fma in_ estimatedMean estimatedVariance
    scale bias epsilon batchSize imageDims batchStride xidx yidx ystep out index
  = to_io (kernel_y rsqrt fma (to_prec (in_ index)) (estimatedMean xidx)
             (estimatedVariance xidx) epsilon (scale xidx) (bias xidx)).
Proof.
  intros Hs Hy Hg Hj Hlt Hn Hfit Hall index.
  assert (Hadj : forall j', 0 <= j' -> yidx + j' * ystep < imageDims ->
            0 <= xidx * imageDims + (yidx + j' * ystep) < batchStride) by (intros; nia).
  assert (Hidx : forall j' n', 0 <= j' -> yidx + j' * ystep < imageDims ->
            0 <= n' < batchSize ->
            0 <= n' * batchStride + xidx * imageDims + (yidx + j' * ystep) < 2 ^ 32).
  { intros j' n' Hj' Hlt' Hn'. pose proof (Hadj j' Hj' Hlt').
    assert (n' * batchStride + batchStride <= batchSize * batchStride) by nia.
    assert (0 <= n' * batchStride) by nia. lia. }
  unfold bn_fwd_infer_spatial. cbv zeta.
  rewrite (for_stride_hit (fun o : buffer TIO => o index)
             (fun _ => to_io (kernel_y rsqrt fma (to_prec (in_ index)) (estimatedMean xidx)
                                (estimatedVariance xidx) epsilon (scale xidx) (bias xidx)))
             yidx imageDims ystep j); auto.
  - intros j' t Hj' Hlt' Hne.
    rewrite (for_int_frame (fun o : buffer TIO => o index)); [reflexivity|].
    intros n' u Hn'. apply upd_other.
    rewrite u32_small by (apply Hidx; assumption).
    pose proof (Hadj j' Hj' Hlt') as Ha'. pose proof (Hadj j Hj Hlt) as Ha.
    subst index. intros Heq.
    assert (Hnn : n' = n) by nia. subst n'.
    assert (Hjj : j' * ystep = j * ystep) by lia.
    apply Z.mul_cancel_r in Hjj; lia.
  - intros t.
    rewrite (for_int_hit (fun o : buffer TIO => o index)
               (fun _ => to_io (kernel_y rsqrt fma (to_prec (in_ index)) (estimatedMean xidx)
                                  (estimatedVariance xidx) epsilon (scale xidx) (bias xidx)))
               n); auto.
    + intros n' u Hn' Hne. apply upd_other.
      rewrite u32_small by (apply Hidx; assumption).
      pose proof (Hadj j Hj Hlt) as Hb. subst index. intros Heq.
      assert (Hnn : n' * batchStride = n * batchStride) by lia.
      apply Z.mul_cancel_r in Hnn; lia.
    + intros u.
      assert (Hi : u32 (n * batchStride + xidx * imageDims + (yidx + j * ystep)) = index).
      { apply u32_small. apply Hidx; assumption. }
      rewrite Hi. now rewrite upd_same.
Qed.
End KernelFacts.

(** * Backward, per-activation: the gradient accumulators *)

Section BwdPerActivationFacts.
Context {F : Type} {SF : Scalar F} {T : Type}.
Variable promote : T -> F.
Variables n_batchs channels height width : Z.
Variables x_ptr dy_ptr scale_ptr : buffer T.
Variable epsilon : F.
Variables savedMean savedInvVariance : buffer F.
Hypothesis Hdims : dims_ok n_batchs channels height width.

Local Abbreviation ix := (lin channels height width).
Local Abbreviation index := (index_at channels height width).
Local Abbreviation pass1 :=
  (bwd_pa_pass1 promote n_batchs channels height width x_ptr dy_ptr scale_ptr).
Local Abbreviation pass2 := (bwd_pa_pass2 n_batchs channels height width).
Local Abbreviation grad :=
  (bwd_pa_grad promote n_batchs channels height width x_ptr dy_ptr scale_ptr).
Local Abbreviation run :=
  (miopenBNBwdPerActivationRunHost promote n_batchs channels height width x_ptr dy_ptr
     scale_ptr epsilon).
Local Abbreviation members := (pa_members n_batchs channels height width).
Local Abbreviation stats :=
  (fun b => bwd_pa_stats promote n_batchs channels height width x_ptr epsilon b savedMean
              savedInvVariance).

Lemma bwd_pa_pass1_dbias (c h w : Z) (mu iv : F) (m : Bwd.mem F) :
  0 <= c < channels -> 0 <= h < height -> 0 <= w < width ->
  Bwd.dbias_ptr (fst (pass1 (ix 0 c h w) h w mu iv m)) (ix 0 c h w)
  = accum_from (Bwd.dbias_ptr m (ix 0 c h w)) (fun i => promote (dy_ptr i)) (members c h w).
Proof.
  intros Hc Hh Hw. unfold bwd_pa_pass1, accum_from.
  rewrite (for_int_proj (fun st : Bwd.mem F * (F * F) => Bwd.dbias_ptr (fst st) (ix 0 c h w))
             _ _ (fun b acc => sadd acc (promote (dy_ptr (ix b c h w))))).
  - cbn [fst]. apply (for_int_pa_members n_batchs channels height width
                        (fun i acc => sadd acc (promote (dy_ptr i)))).
  - intros b st Hb. cbn.
    rewrite upd_same.
    now rewrite (index_at_lin n_batchs channels height width Hdims) by assumption.
Qed.

Lemma bwd_pa_pass1_dscale (c h w : Z) (mu iv : F) (m : Bwd.mem F) :
  0 <= c < channels -> 0 <= h < height -> 0 <= w < width ->
  Bwd.dscale_ptr (fst (pass1 (ix 0 c h w) h w mu iv m)) (ix 0 c h w)
  = accum_from (Bwd.dscale_ptr m (ix 0 c h w))
      (fun i => smul (xhat_contract (promote (x_ptr i)) mu iv) (promote (dy_ptr i)))
      (members c h w).
Proof.
  intros Hc Hh Hw. unfold bwd_pa_pass1, accum_from.
  rewrite (for_int_proj (fun st : Bwd.mem F * (F * F) => Bwd.dscale_ptr (fst st) (ix 0 c h w))
             _ _ (fun b acc => sadd acc (smul (xhat_contract (promote (x_ptr (ix b c h w))) mu iv)
                                              (promote (dy_ptr (ix b c h w)))))).
  - cbn [fst]. apply (for_int_pa_members n_batchs channels height width
                        (fun i acc => sadd acc (smul (xhat_contract (promote (x_ptr i)) mu iv)
                                                     (promote (dy_ptr i))))).
  - intros b st Hb. cbn.
    rewrite !upd_same.
    now rewrite (index_at_lin n_batchs channels height width Hdims) by assumption.
Qed.

Lemma bwd_pa_pass1_accumulators_frame (adjIndex row column j : Z) (mu iv : F) (m : Bwd.mem F) :
  j <> adjIndex ->
  Bwd.dbias_ptr (fst (pass1 adjIndex row column mu iv m)) j = Bwd.dbias_ptr m j /\
  Bwd.dscale_ptr (fst (pass1 adjIndex row column mu iv m)) j = Bwd.dscale_ptr m j.
Proof.
  intros Hne. unfold bwd_pa_pass1. split.
  - rewrite (for_int_frame (fun st : Bwd.mem F * (F * F) => Bwd.dbias_ptr (fst st) j));
      [reflexivity|].
    intros b st Hb. cbn. now apply upd_other.
  - rewrite (for_int_frame (fun st : Bwd.mem F * (F * F) => Bwd.dscale_ptr (fst st) j));
      [reflexivity|].
    intros b st Hb. cbn. now apply upd_other.
Qed.

Lemma bwd_pa_pass2_accumulators (adjIndex row column : Z) (iv a b : F) (m : Bwd.mem F) :
  Bwd.dbias_ptr (pass2 adjIndex row column iv a b m) = Bwd.dbias_ptr m /\
  Bwd.dscale_ptr (pass2 adjIndex row column iv a b m) = Bwd.dscale_ptr m.
Proof.
  unfold bwd_pa_pass2. split.
  - now rewrite (for_int_frame Bwd.dbias_ptr).
  - now rewrite (for_int_frame Bwd.dscale_ptr).
Qed.

Lemma bwd_pa_grad_dbias (c h w : Z) (mu iv : F) (m : Bwd.mem F) :
  0 <= c < channels -> 0 <= h < height -> 0 <= w < width ->
  Bwd.dbias_ptr (grad (ix 0 c h w) h w mu iv m) (ix 0 c h w)
  = accum_from (Bwd.dbias_ptr m (ix 0 c h w)) (fun i => promote (dy_ptr i)) (members c h w).
Proof.
  intros Hc Hh Hw. unfold bwd_pa_grad. cbv zeta.
  destruct (bwd_pa_pass2_accumulators (ix 0 c h w) h w iv
              (fst (snd (pass1 (ix 0 c h w) h w mu iv m)))
              (snd (snd (pass1 (ix 0 c h w) h w mu iv m)))
              (Bwd.set_dscale_ptr (fst (pass1 (ix 0 c h w) h w mu iv m))
                 (upd (Bwd.dscale_ptr (fst (pass1 (ix 0 c h w) h w mu iv m))) (ix 0 c h w)
                    (sdiv (Bwd.dscale_ptr (fst (pass1 (ix 0 c h w) h w mu iv m)) (ix 0 c h w))
                          (of_int n_batchs))))) as [-> _].
  cbn [Bwd.dbias_ptr Bwd.set_dscale_ptr]. now apply bwd_pa_pass1_dbias.
Qed.

Lemma bwd_pa_grad_dscale (c h w : Z) (mu iv : F) (m : Bwd.mem F) :
  0 <= c < channels -> 0 <= h < height -> 0 <= w < width ->
  Bwd.dscale_ptr (grad (ix 0 c h w) h w mu iv m) (ix 0 c h w)
  = sdiv (accum_from (Bwd.dscale_ptr m (ix 0 c h w))
            (fun i => smul (xhat_contract (promote (x_ptr i)) mu iv) (promote (dy_ptr i)))
            (members c h w))
         (of_int n_batchs).
Proof.
  intros Hc Hh Hw. unfold bwd_pa_grad. cbv zeta.
  destruct (bwd_pa_pass2_accumulators (ix 0 c h w) h w iv
              (fst (snd (pass1 (ix 0 c h w) h w mu iv m)))
              (snd (snd (pass1 (ix 0 c h w) h w mu iv m)))
              (Bwd.set_dscale_ptr (fst (pass1 (ix 0 c h w) h w mu iv m))
                 (upd (Bwd.dscale_ptr (fst (pass1 (ix 0 c h w) h w mu iv m))) (ix 0 c h w)
                    (sdiv (Bwd.dscale_ptr (fst (pass1 (ix 0 c h w) h w mu iv m)) (ix 0 c h w))
                          (of_int n_batchs))))) as [_ ->].
  cbn [Bwd.dscale_ptr Bwd.set_dscale_ptr]. rewrite upd_same.
  now rewrite bwd_pa_pass1_dscale.
Qed.

Lemma bwd_pa_grad_accumulators_frame (adjIndex row column j : Z) (mu iv : F) (m : Bwd.mem F) :
  j <> adjIndex ->
  Bwd.dbias_ptr (grad adjIndex row column mu iv m) j = Bwd.dbias_ptr m j /\
  Bwd.dscale_ptr (grad adjIndex row column mu iv m) j = Bwd.dscale_ptr m j.
Proof.
  intros Hne. unfold bwd_pa_grad. cbv zeta.
  destruct (bwd_pa_pass2_accumulators adjIndex row column iv
              (fst (snd (pass1 adjIndex row column mu iv m)))
              (snd (snd (pass1 adjIndex row column mu iv m)))
              (Bwd.set_dscale_ptr (fst (pass1 adjIndex row column mu iv m))
                 (upd (Bwd.dscale_ptr (fst (pass1 adjIndex row column mu iv m))) adjIndex
                    (sdiv (Bwd.dscale_ptr (fst (pass1 adjIndex row column mu iv m)) adjIndex)
                          (of_int n_batchs))))) as [-> ->].
  cbn [Bwd.dbias_ptr Bwd.dscale_ptr Bwd.set_dscale_ptr].
  rewrite upd_other by assumption.
  now apply bwd_pa_pass1_accumulators_frame.
Qed.

Lemma bwd_pa_run_groups (savedmeanvar : bool) (m : Bwd.mem F) :
  run savedmeanvar savedMean savedInvVariance m
  = for3 channels height width
      (fun cidx row column =>
         grad (adjIndex_at height width cidx row column) row column
           (fst (stats savedmeanvar (adjIndex_at height width cidx row column)))
           (snd (stats savedmeanvar (adjIndex_at height width cidx row column))))
      (Bwd.set_xhat m (fun _ => szero)).
Proof.
  unfold miopenBNBwdPerActivationRunHost, bwd_pa_stats. destruct savedmeanvar; reflexivity.
Qed.

Lemma bwd_pa_dbias (savedmeanvar : bool) (m : Bwd.mem F) (c h w : Z) :
  0 <= c < channels -> 0 <= h < height -> 0 <= w < width ->
  Bwd.dbias_ptr (run savedmeanvar savedMean savedInvVariance m) (ix 0 c h w)
  = accum_from (Bwd.dbias_ptr m (ix 0 c h w)) (fun i => promote (dy_ptr i)) (members c h w).
Proof.
  intros Hc Hh Hw. rewrite bwd_pa_run_groups.
  rewrite (for3_hit (fun t => Bwd.dbias_ptr t (ix 0 c h w))
             (fun old => accum_from old (fun i => promote (dy_ptr i)) (members c h w))
             c h w); auto.
  - intros c' h' w' t Hc' Hh' Hw' Hne.
    rewrite (adjIndex_at_lin n_batchs channels height width Hdims) by assumption.
    apply bwd_pa_grad_accumulators_frame.
    now apply group_ne.
  - intros t.
    rewrite (adjIndex_at_lin n_batchs channels height width Hdims) by assumption.
    now apply bwd_pa_grad_dbias.
Qed.

Lemma bwd_pa_dscale (savedmeanvar : bool) (m : Bwd.mem F) (c h w : Z) :
  0 <= c < channels -> 0 <= h < height -> 0 <= w < width ->
  Bwd.dscale_ptr (run savedmeanvar savedMean savedInvVariance m) (ix 0 c h w)
  = sdiv (accum_from (Bwd.dscale_ptr m (ix 0 c h w))
            (fun i => smul (xhat_contract (promote (x_ptr i))
                              (fst (stats savedmeanvar (ix 0 c h w)))
                              (snd (stats savedmeanvar (ix 0 c h w))))
                           (promote (dy_ptr i)))
            (members c h w))
         (of_int n_batchs).
Proof.
  intros Hc Hh Hw. rewrite bwd_pa_run_groups.
  rewrite (for3_hit (fun t => Bwd.dscale_ptr t (ix 0 c h w))
             (fun old =>
                sdiv (accum_from old
                        (fun i => smul (xhat_contract (promote (x_ptr i))
                                          (fst (stats savedmeanvar (ix 0 c h w)))
                                          (snd (stats savedmeanvar (ix 0 c h w))))
                                       (promote (dy_ptr i)))
                        (members c h w))
                     (of_int n_batchs))
             c h w); auto.
  - intros c' h' w' t Hc' Hh' Hw' Hne.
    rewrite (adjIndex_at_lin n_batchs channels height width Hdims) by assumption.
    apply bwd_pa_grad_accumulators_frame.
    now apply group_ne.
  - intros t.
    rewrite (adjIndex_at_lin n_batchs channels height width Hdims) by assumption.
    now apply bwd_pa_grad_dscale.
Qed.

Lemma bwd_pa_grad_dx_frame (adjIndex row column j : Z) (mu iv : F) (m : Bwd.mem F) :
  (forall b, 0 <= b < n_batchs -> index b adjIndex <> j) ->
  Bwd.dx_ptr (grad adjIndex row column mu iv m) j = Bwd.dx_ptr m j.
Proof.
  intros Hj. unfold bwd_pa_grad, bwd_pa_pass2. cbv zeta.
  rewrite (for_int_frame (fun t : Bwd.mem F => Bwd.dx_ptr t j)).
  - cbn [Bwd.dx_ptr Bwd.set_dscale_ptr]. unfold bwd_pa_pass1.
    now rewrite (for_int_frame (fun st : Bwd.mem F * (F * F) => Bwd.dx_ptr (fst st) j)).
  - intros b t Hb. cbn. apply upd_other. intros Heq. now apply (Hj b Hb).
Qed.

Lemma bwd_pa_dx_frame (savedmeanvar : bool) (m : Bwd.mem F) (j : Z) :
  (forall n c h w, 0 <= n < n_batchs -> 0 <= c < channels -> 0 <= h < height ->
                   0 <= w < width -> ix n c h w <> j) ->
  Bwd.dx_ptr (run savedmeanvar savedMean savedInvVariance m) j = Bwd.dx_ptr m j.
Proof.
  intros Hj. rewrite bwd_pa_run_groups.
  rewrite (for3_frame (fun t : Bwd.mem F => Bwd.dx_ptr t j)); [reflexivity|].
  intros c h w t Hc Hh Hw. apply bwd_pa_grad_dx_frame. intros b Hb.
  rewrite (plain_nest_index n_batchs channels height width Hdims) by assumption.
  now apply Hj.
Qed.
End BwdPerActivationFacts.

(** * Backward, spatial: the gradients *)

Section BwdSpatialFacts.
Context {F : Type} {SF : Scalar F} {T : Type}.
Variable promote : T -> F.
Variables n_batchs channels height width : Z.
Variables x_ptr dy_ptr scale_ptr : buffer T.
Variable epsilon : F.
Variables savedMean savedInvVariance : buffer F.
Hypothesis Hdims : dims_ok n_batchs channels height width.

Local Abbreviation ix := (lin channels height width).
Local Abbreviation index := (index_at channels height width).
Local Abbreviation saved_channel :=
  (bwd_sp_saved_channel promote n_batchs channels height width x_ptr dy_ptr scale_ptr
     savedMean savedInvVariance).
Local Abbreviation recompute_channel :=
  (bwd_sp_recompute_channel promote n_batchs channels height width x_ptr dy_ptr scale_ptr
     epsilon).
Local Abbreviation accumulate :=
  (bwd_sp_saved_accumulate promote n_batchs channels height width x_ptr dy_ptr).
Local Abbreviation gradient :=
  (bwd_sp_saved_gradient promote n_batchs channels height width x_ptr dy_ptr scale_ptr).
Local Abbreviation raccumulate :=
  (bwd_sp_recompute_accumulate promote n_batchs channels height width x_ptr dy_ptr).
Local Abbreviation rgradient :=
  (bwd_sp_recompute_gradient promote n_batchs channels height width dy_ptr scale_ptr).
Local Abbreviation run :=
  (miopenBNBwdSpatialRunHost promote n_batchs channels height width x_ptr dy_ptr
     scale_ptr epsilon).
Local Abbreviation members := (sp_members n_batchs channels height width).
Local Abbreviation M := (n_batchs * (height * width)).

(** The accumulation nest, on the two accumulators of a channel. *)
Lemma bwd_sp_saved_accumulate_spec (c : Z) (mu iv : F) (m : Bwd.mem F) :
  0 <= c < channels ->
  let m1 := accumulate c mu iv m in
  Bwd.dbias_ptr m1 c
  = accum_from (Bwd.dbias_ptr m c) (fun i => promote (dy_ptr i)) (members c) /\
  Bwd.dscale_ptr m1 c
  = accum_from (Bwd.dscale_ptr m c)
      (fun i => smul (xhat_contract (promote (x_ptr i)) mu iv) (promote (dy_ptr i)))
      (members c) /\
  (forall j, j <> c -> Bwd.dbias_ptr m1 j = Bwd.dbias_ptr m j /\
                       Bwd.dscale_ptr m1 j = Bwd.dscale_ptr m j) /\
  Bwd.dx_ptr m1 = Bwd.dx_ptr m /\ Bwd.xhat m1 = Bwd.xhat m.
Proof.
  intros Hc m1. subst m1. unfold bwd_sp_saved_accumulate, accum_from. repeat split.
  - rewrite (for3_proj (fun t : Bwd.mem F => Bwd.dbias_ptr t c) _ _ _ _
               (fun h w n acc => sadd acc (promote (dy_ptr (ix n c h w))))).
    + apply (for3_sp_members n_batchs channels height width
               (fun i acc => sadd acc (promote (dy_ptr i)))).
    + intros h w n t Hh Hw Hn. cbn. rewrite upd_same.
      now rewrite (bwd_nest_index n_batchs channels height width Hdims).
  - rewrite (for3_proj (fun t : Bwd.mem F => Bwd.dscale_ptr t c) _ _ _ _
               (fun h w n acc => sadd acc (smul (xhat_contract (promote (x_ptr (ix n c h w)))
                                                   mu iv)
                                                (promote (dy_ptr (ix n c h w)))))).
    + apply (for3_sp_members n_batchs channels height width
               (fun i acc => sadd acc (smul (xhat_contract (promote (x_ptr i)) mu iv)
                                            (promote (dy_ptr i))))).
    + intros h w n t Hh Hw Hn. cbn. rewrite upd_same.
      now rewrite (bwd_nest_index n_batchs channels height width Hdims).
  - apply (for3_frame (fun t : Bwd.mem F => Bwd.dbias_ptr t j)).
    intros h w n t Hh Hw Hn. cbn. now apply upd_other.
  - apply (for3_frame (fun t : Bwd.mem F => Bwd.dscale_ptr t j)).
    intros h w n t Hh Hw Hn. cbn. now apply upd_other.
  - now apply (for3_frame Bwd.dx_ptr).
  - now apply (for3_frame Bwd.xhat).
Qed.

(** The gradient nest. *)
Lemma bwd_sp_saved_gradient_spec (c : Z) (mu iv : F) (m : Bwd.mem F) :
  0 <= c < channels ->
  let m2 := gradient c mu iv m in
  Bwd.dbias_ptr m2 = Bwd.dbias_ptr m /\ Bwd.dscale_ptr m2 = Bwd.dscale_ptr m /\
  Bwd.xhat m2 = Bwd.xhat m /\
  (forall n h w, 0 <= n < n_batchs -> 0 <= h < height -> 0 <= w < width ->
     Bwd.dx_ptr m2 (ix n c h w)
     = bwd_sp_saved_dx (of_int M) (promote (scale_ptr c)) iv
         (ssub (promote (x_ptr (ix n c h w))) mu) (promote (dy_ptr (ix n c h w)))
         (Bwd.dbias_ptr m c) (Bwd.dscale_ptr m c)) /\
  (forall j, (forall n h w, 0 <= n < n_batchs -> 0 <= h < height -> 0 <= w < width ->
                            ix n c h w <> j) ->
     Bwd.dx_ptr m2 j = Bwd.dx_ptr m j).
Proof.
  intros Hc m2. subst m2. unfold bwd_sp_saved_gradient.
  split; [|split; [|split; [|split]]].
  - now apply (for3_frame Bwd.dbias_ptr).
  - now apply (for3_frame Bwd.dscale_ptr).
  - now apply (for3_frame Bwd.xhat).
  - intros n h w Hn Hh Hw.
    pose (obs := fun t : Bwd.mem F =>
                   (Bwd.dx_ptr t (ix n c h w), (Bwd.dbias_ptr t c, Bwd.dscale_ptr t c))).
    pose (g := fun o : F * (F * F) =>
                 (bwd_sp_saved_dx (of_int M) (promote (scale_ptr c)) iv
                    (ssub (promote (x_ptr (ix n c h w))) mu) (promote (dy_ptr (ix n c h w)))
                    (fst (snd o)) (snd (snd o)), snd o)).
    match goal with
    | |- Bwd.dx_ptr ?r _ = _ => change (fst (obs r) = fst (g (obs m)))
    end.
    f_equal. apply for3_hit with (i0 := h) (j0 := w) (k0 := n); auto.
    + intros h' w' n' t Hh' Hw' Hn' Hne. unfold obs. cbn. f_equal.
      rewrite (bwd_nest_index n_batchs channels height width Hdims) by assumption.
      apply upd_other. intros Heq. symmetry in Heq. revert Heq. now apply member_ne.
    + intros t. unfold obs, g. cbn. f_equal.
      rewrite (bwd_nest_index n_batchs channels height width Hdims) by assumption.
      rewrite upd_same. unfold bwd_sp_saved_dx, bwd_NHW.
      now rewrite (NHW_eq' n_batchs channels height width Hdims c Hc).
  - intros j Hj. apply (for3_frame (fun t : Bwd.mem F => Bwd.dx_ptr t j)).
    intros h w n t Hh Hw Hn. cbn.
    rewrite (bwd_nest_index n_batchs channels height width Hdims) by assumption.
    apply upd_other. intros Heq. now apply (Hj n h w).
Qed.

(** One channel with saved statistics. *)
Lemma bwd_sp_saved_channel_spec (c : Z) (m : Bwd.mem F) :
  0 <= c < channels ->
  let mu := savedMean c in
  let iv := savedInvVariance c in
  let db := accum_from (Bwd.dbias_ptr m c) (fun i => promote (dy_ptr i)) (members c) in
  let ds := sdiv (accum_from (Bwd.dscale_ptr m c)
                    (fun i => smul (xhat_contract (promote (x_ptr i)) mu iv)
                                   (promote (dy_ptr i)))
                    (members c))
                 (of_int M) in
  let m' := saved_channel c m in
  Bwd.dbias_ptr m' c = db /\ Bwd.dscale_ptr m' c = ds /\
  (forall j, j <> c -> Bwd.dbias_ptr m' j = Bwd.dbias_ptr m j /\
                       Bwd.dscale_ptr m' j = Bwd.dscale_ptr m j) /\
  (forall n h w, 0 <= n < n_batchs -> 0 <= h < height -> 0 <= w < width ->
     Bwd.dx_ptr m' (ix n c h w)
     = bwd_sp_saved_dx (of_int M) (promote (scale_ptr c)) iv
         (ssub (promote (x_ptr (ix n c h w))) mu) (promote (dy_ptr (ix n c h w))) db ds) /\
  (forall j, (forall n h w, 0 <= n < n_batchs -> 0 <= h < height -> 0 <= w < width ->
                            ix n c h w <> j) ->
     Bwd.dx_ptr m' j = Bwd.dx_ptr m j).
Proof.
  intros Hc mu iv db ds m'. subst m'. unfold bwd_sp_saved_channel. cbv zeta.
  fold mu iv.
  destruct (bwd_sp_saved_accumulate_spec c mu iv m Hc) as (H1 & H2 & H3 & H4 & H5).
  cbv zeta in H1, H2, H3, H4, H5.
  set (m1 := accumulate c mu iv m) in *.
  set (md := Bwd.set_dscale_ptr m1 _).
  destruct (bwd_sp_saved_gradient_spec c mu iv md Hc) as (G1 & G2 & G3 & G4 & G5).
  cbv zeta in G1, G2, G3, G4, G5.
  assert (Hds : Bwd.dscale_ptr md c = ds).
  { subst md. cbn [Bwd.dscale_ptr Bwd.set_dscale_ptr]. rewrite upd_same, H2.
    unfold bwd_NHW. now rewrite (NHW_eq' n_batchs channels height width Hdims c Hc). }
  assert (Hdb : Bwd.dbias_ptr md c = db) by (subst md; exact H1).
  rewrite G1, G2.
  split; [exact Hdb|]. split; [exact Hds|]. split; [|split].
  - intros j Hj. subst md. cbn [Bwd.dbias_ptr Bwd.dscale_ptr Bwd.set_dscale_ptr].
    rewrite upd_other by assumption. now apply H3.
  - intros n h w Hn Hh Hw. rewrite G4 by assumption. now rewrite Hdb, Hds.
  - intros j Hj. rewrite G5 by assumption.
    subst md. cbn [Bwd.dx_ptr Bwd.set_dscale_ptr]. now rewrite H4.
Qed.

(** Statistics recomputed by the backward call. *)
Lemma bwd_sp_mean_members (c : Z) :
  0 <= c < channels ->
  bwd_sp_mean promote n_batchs channels height width x_ptr c
  = group_mean promote x_ptr (members c) M.
Proof.
  intros Hc. unfold bwd_sp_mean, group_mean, accum_from, bwd_NHW.
  rewrite (NHW_eq' n_batchs channels height width Hdims c Hc). f_equal.
  rewrite <- (for3_sp_members n_batchs channels height width
                (fun i acc => sadd acc (promote (x_ptr i)))).
  apply for3_ext. intros h w n t Hh Hw Hn. cbv zeta.
  now rewrite (bwd_nest_index n_batchs channels height width Hdims).
Qed.

Lemma bwd_sp_variance_members (c : Z) :
  0 <= c < channels ->
  bwd_sp_variance promote n_batchs channels height width x_ptr c
  = group_variance promote x_ptr (members c) M.
Proof.
  intros Hc. unfold bwd_sp_variance, group_variance, accum_from, bwd_NHW. cbv zeta.
  rewrite (bwd_sp_mean_members c Hc).
  rewrite (NHW_eq' n_batchs channels height width Hdims c Hc). f_equal.
  rewrite <- (for3_sp_members n_batchs channels height width
                (fun i acc => sadd acc (smul (ssub (promote (x_ptr i)) _)
                                             (ssub (promote (x_ptr i)) _)))).
  apply for3_ext. intros h w n t Hh Hw Hn. cbv zeta.
  now rewrite (bwd_nest_index n_batchs channels height width Hdims).
Qed.

Lemma xhat_index_ne (c n h w n' h' w' : Z) :
  0 <= c < channels ->
  0 <= n < n_batchs -> 0 <= h < height -> 0 <= w < width ->
  0 <= n' < n_batchs -> 0 <= h' < height -> 0 <= w' < width ->
  h' <> h \/ w' <> w \/ n' <> n ->
  xhat_index_at height width n' h' w' <> xhat_index_at height width n h w.
Proof.
  intros Hc Hn Hh Hw Hn' Hh' Hw' Hne.
  rewrite !(xhat_index_at_eq n_batchs channels height width Hdims _ c) by assumption.
  intros Heq.
  assert (Hl : lin 1 height width n' 0 h' w' = lin 1 height width n 0 h w)
    by (unfold lin; lia).
  apply lin_inj in Hl; lia.
Qed.

Lemma bwd_sp_recompute_accumulate_spec (c : Z) (mu iv : F) (m : Bwd.mem F) :
  0 <= c < channels ->
  let m1 := raccumulate c mu iv m in
  Bwd.dbias_ptr m1 c
  = accum_from (Bwd.dbias_ptr m c) (fun i => promote (dy_ptr i)) (members c) /\
  Bwd.dscale_ptr m1 c
  = accum_from (Bwd.dscale_ptr m c)
      (fun i => smul (xhat_contract (promote (x_ptr i)) mu iv) (promote (dy_ptr i)))
      (members c) /\
  (forall j, j <> c -> Bwd.dbias_ptr m1 j = Bwd.dbias_ptr m j /\
                       Bwd.dscale_ptr m1 j = Bwd.dscale_ptr m j) /\
  Bwd.dx_ptr m1 = Bwd.dx_ptr m /\
  (forall n h w, 0 <= n < n_batchs -> 0 <= h < height -> 0 <= w < width ->
     Bwd.xhat m1 (xhat_index_at height width n h w)
     = xhat_contract (promote (x_ptr (ix n c h w))) mu iv).
Proof.
  intros Hc m1. subst m1. unfold bwd_sp_recompute_accumulate, accum_from.
  split; [|split; [|split; [|split]]].
  - rewrite (for3_proj (fun t : Bwd.mem F => Bwd.dbias_ptr t c) _ _ _ _
               (fun h w n acc => sadd acc (promote (dy_ptr (ix n c h w))))).
    + apply (for3_sp_members n_batchs channels height width
               (fun i acc => sadd acc (promote (dy_ptr i)))).
    + intros h w n t Hh Hw Hn. cbn. rewrite upd_same.
      now rewrite (bwd_nest_index n_batchs channels height width Hdims).
  - rewrite (for3_proj (fun t : Bwd.mem F => Bwd.dscale_ptr t c) _ _ _ _
               (fun h w n acc => sadd acc (smul (xhat_contract (promote (x_ptr (ix n c h w)))
                                                   mu iv)
                                                (promote (dy_ptr (ix n c h w)))))).
    + apply (for3_sp_members n_batchs channels height width
               (fun i acc => sadd acc (smul (xhat_contract (promote (x_ptr i)) mu iv)
                                            (promote (dy_ptr i))))).
    + intros h w n t Hh Hw Hn. cbn. rewrite !upd_same.
      now rewrite (bwd_nest_index n_batchs channels height width Hdims).
  - intros j Hj. split.
    + apply (for3_frame (fun t : Bwd.mem F => Bwd.dbias_ptr t j)).
      intros h w n t Hh Hw Hn. cbn. now apply upd_other.
    + apply (for3_frame (fun t : Bwd.mem F => Bwd.dscale_ptr t j)).
      intros h w n t Hh Hw Hn. cbn. now apply upd_other.
  - now apply (for3_frame Bwd.dx_ptr).
  - intros n h w Hn Hh Hw.
    rewrite (for3_hit (fun t : Bwd.mem F => Bwd.xhat t (xhat_index_at height width n h w))
               (fun _ => xhat_contract (promote (x_ptr (ix n c h w))) mu iv) h w n); auto.
    + intros h' w' n' t Hh' Hw' Hn' Hne. cbn. apply upd_other.
      intros Heq. symmetry in Heq. revert Heq. now apply (xhat_index_ne c).
    + intros t. cbn. rewrite upd_same.
      now rewrite (bwd_nest_index n_batchs channels height width Hdims).
Qed.

Lemma bwd_sp_recompute_gradient_spec (c : Z) (iv : F) (m : Bwd.mem F) :
  0 <= c < channels ->
  let m2 := rgradient c iv m in
  Bwd.dbias_ptr m2 = Bwd.dbias_ptr m /\ Bwd.dscale_ptr m2 = Bwd.dscale_ptr m /\
  Bwd.xhat m2 = Bwd.xhat m /\
  (forall n h w, 0 <= n < n_batchs -> 0 <= h < height -> 0 <= w < width ->
     Bwd.dx_ptr m2 (ix n c h w)
     = bwd_sp_recompute_dx (of_int M) (promote (scale_ptr c)) iv
         (Bwd.xhat m (xhat_index_at height width n h w)) (promote (dy_ptr (ix n c h w)))
         (Bwd.dbias_ptr m c) (Bwd.dscale_ptr m c)) /\
  (forall j, (forall n h w, 0 <= n < n_batchs -> 0 <= h < height -> 0 <= w < width ->
                            ix n c h w <> j) ->
     Bwd.dx_ptr m2 j = Bwd.dx_ptr m j).
Proof.
  intros Hc m2. subst m2. unfold bwd_sp_recompute_gradient.
  split; [|split; [|split; [|split]]].
  - now apply (for3_frame Bwd.dbias_ptr).
  - now apply (for3_frame Bwd.dscale_ptr).
  - now apply (for3_frame Bwd.xhat).
  - intros n h w Hn Hh Hw.
    pose (obs := fun t : Bwd.mem F =>
                   (Bwd.dx_ptr t (ix n c h w),
                    (Bwd.dbias_ptr t c, (Bwd.dscale_ptr t c, Bwd.xhat t)))).
    pose (g := fun o : F * (F * (F * buffer F)) =>
                 (bwd_sp_recompute_dx (of_int M) (promote (scale_ptr c)) iv
                    (snd (snd (snd o)) (xhat_index_at height width n h w))
                    (promote (dy_ptr (ix n c h w)))
                    (fst (snd o)) (fst (snd (snd o))), snd o)).
    match goal with
    | |- Bwd.dx_ptr ?r _ = _ => change (fst (obs r) = fst (g (obs m)))
    end.
    f_equal. apply for3_hit with (i0 := h) (j0 := w) (k0 := n); auto.
    + intros h' w' n' t Hh' Hw' Hn' Hne. unfold obs. cbn. f_equal.
      rewrite (bwd_nest_index n_batchs channels height width Hdims) by assumption.
      apply upd_other. intros Heq. symmetry in Heq. revert Heq. now apply member_ne.
    + intros t. unfold obs, g. cbn. f_equal.
      rewrite (bwd_nest_index n_batchs channels height width Hdims) by assumption.
      rewrite upd_same. unfold bwd_sp_recompute_dx, bwd_NHW.
      now rewrite (NHW_eq' n_batchs channels height width Hdims c Hc).
  - intros j Hj. apply (for3_frame (fun t : Bwd.mem F => Bwd.dx_ptr t j)).
    intros h w n t Hh Hw Hn. cbn.
    rewrite (bwd_nest_index n_batchs channels height width Hdims) by assumption.
    apply upd_other. intros Heq. now apply (Hj n h w).
Qed.

(** One channel with recomputed statistics: nothing depends on what the
    accumulators or [dx] held before. *)
Lemma bwd_sp_recompute_channel_spec (c : Z) (m : Bwd.mem F) :
  0 <= c < channels ->
  let mu := group_mean promote x_ptr (members c) M in
  let iv := sdiv sone (ssqrt (sadd (group_variance promote x_ptr (members c) M) epsilon)) in
  let db := accum_from szero (fun i => promote (dy_ptr i)) (members c) in
  let ds := sdiv (accum_from szero
                    (fun i => smul (xhat_contract (promote (x_ptr i)) mu iv)
                                   (promote (dy_ptr i)))
                    (members c))
                 (of_int M) in
  let m' := recompute_channel c m in
  Bwd.dbias_ptr m' c = db /\ Bwd.dscale_ptr m' c = ds /\
  (forall j, j <> c -> Bwd.dbias_ptr m' j = Bwd.dbias_ptr m j /\
                       Bwd.dscale_ptr m' j = Bwd.dscale_ptr m j) /\
  (forall n h w, 0 <= n < n_batchs -> 0 <= h < height -> 0 <= w < width ->
     Bwd.dx_ptr m' (ix n c h w)
     = bwd_sp_recompute_dx (of_int M) (promote (scale_ptr c)) iv
         (xhat_contract (promote (x_ptr (ix n c h w))) mu iv)
         (promote (dy_ptr (ix n c h w))) db ds) /\
  (forall j, (forall n h w, 0 <= n < n_batchs -> 0 <= h < height -> 0 <= w < width ->
                            ix n c h w <> j) ->
     Bwd.dx_ptr m' j = Bwd.dx_ptr m j).
Proof.
  intros Hc mu iv db ds m'. subst m'. unfold bwd_sp_recompute_channel. cbv zeta.
  rewrite (bwd_sp_variance_members c Hc), (bwd_sp_mean_members c Hc). fold mu iv.
  set (m0 := Bwd.set_dbias_ptr _ _).
  destruct (bwd_sp_recompute_accumulate_spec c mu iv m0 Hc) as (H1 & H2 & H3 & H4 & H5).
  cbv zeta in H1, H2, H3, H4, H5.
  set (m1 := raccumulate c mu iv m0) in *.
  set (md := Bwd.set_dscale_ptr m1 _).
  destruct (bwd_sp_recompute_gradient_spec c iv md Hc) as (G1 & G2 & G3 & G4 & G5).
  cbv zeta in G1, G2, G3, G4, G5.
  assert (Hdb0 : Bwd.dbias_ptr m0 c = szero) by (subst m0; cbn; apply upd_same).
  assert (Hds0 : Bwd.dscale_ptr m0 c = szero) by (subst m0; cbn; apply upd_same).
  assert (Hds : Bwd.dscale_ptr md c = ds).
  { subst md. cbn [Bwd.dscale_ptr Bwd.set_dscale_ptr]. rewrite upd_same, H2, Hds0.
    unfold bwd_NHW. now rewrite (NHW_eq' n_batchs channels height width Hdims c Hc). }
  assert (Hdb : Bwd.dbias_ptr md c = db).
  { subst md. cbn [Bwd.dbias_ptr Bwd.set_dscale_ptr]. now rewrite H1, Hdb0. }
  rewrite G1, G2.
  split; [exact Hdb|]. split; [exact Hds|]. split; [|split].
  - intros j Hj. subst md. cbn [Bwd.dbias_ptr Bwd.dscale_ptr Bwd.set_dscale_ptr].
    rewrite upd_other by assumption.
    destruct (H3 j Hj) as [-> ->]. subst m0. cbn.
    now rewrite upd_other by assumption; rewrite upd_other by assumption.
  - intros n h w Hn Hh Hw. rewrite G4 by assumption. rewrite Hdb, Hds.
    subst md. cbn [Bwd.xhat Bwd.set_dscale_ptr]. now rewrite H5 by assumption.
  - intros j Hj. rewrite G5 by assumption.
    subst md. cbn [Bwd.dx_ptr Bwd.set_dscale_ptr]. rewrite H4. reflexivity.
Qed.

(** The whole call, saved statistics. *)
Lemma bwd_sp_saved_run (m : Bwd.mem F) (c n h w : Z) :
  0 <= c < channels -> 0 <= n < n_batchs -> 0 <= h < height -> 0 <= w < width ->
  let mu := savedMean c in
  let iv := savedInvVariance c in
  let db := accum_from (Bwd.dbias_ptr m c) (fun i => promote (dy_ptr i)) (members c) in
  let ds := sdiv (accum_from (Bwd.dscale_ptr m c)
                    (fun i => smul (xhat_contract (promote (x_ptr i)) mu iv)
                                   (promote (dy_ptr i)))
                    (members c))
                 (of_int M) in
  let m' := run true savedMean savedInvVariance m in
  Bwd.dbias_ptr m' c = db /\ Bwd.dscale_ptr m' c = ds /\
  Bwd.dx_ptr m' (ix n c h w)
  = bwd_sp_saved_dx (of_int M) (promote (scale_ptr c)) iv
      (ssub (promote (x_ptr (ix n c h w))) mu) (promote (dy_ptr (ix n c h w))) db ds.
Proof.
  intros Hc Hn Hh Hw mu iv db ds m'. subst m'. unfold miopenBNBwdSpatialRunHost.
  pose (obs := fun t : Bwd.mem F =>
                 (Bwd.dbias_ptr t c, (Bwd.dscale_ptr t c, Bwd.dx_ptr t (ix n c h w)))).
  pose (g := fun o : F * (F * F) =>
               let db := accum_from (fst o) (fun i => promote (dy_ptr i)) (members c) in
               let ds := sdiv (accum_from (fst (snd o))
                                 (fun i => smul (xhat_contract (promote (x_ptr i)) mu iv)
                                                (promote (dy_ptr i)))
                                 (members c))
                              (of_int M) in
               (db, (ds, bwd_sp_saved_dx (of_int M) (promote (scale_ptr c)) iv
                           (ssub (promote (x_ptr (ix n c h w))) mu)
                           (promote (dy_ptr (ix n c h w))) db ds))).
  assert (Hobs : obs (for_int channels saved_channel m) = g (obs m)).
  { apply for_int_hit with (i0 := c); auto.
    - intros c' t Hc' Hne.
      destruct (bwd_sp_saved_channel_spec c' t Hc') as (_ & _ & Hfr & _ & Hdx).
      unfold obs. destruct (Hfr c) as [-> ->]; [lia|].
      rewrite Hdx; [reflexivity|].
      intros n' h' w' Hn' Hh' Hw'. now apply channel_ne.
    - intros t.
      destruct (bwd_sp_saved_channel_spec c t Hc) as (Hb & Hs & _ & Hdx & _).
      unfold obs, g. cbn [fst snd]. cbv zeta in Hb, Hs, Hdx.
      now rewrite Hb, Hs, Hdx by assumption. }
  unfold obs, g in Hobs. cbn [fst snd] in Hobs.
  injection Hobs as E1 E2 E3. now rewrite E1, E2, E3.
Qed.

(** The whole call, recomputed statistics. *)
Lemma bwd_sp_recompute_run (m : Bwd.mem F) (c n h w : Z) :
  0 <= c < channels -> 0 <= n < n_batchs -> 0 <= h < height -> 0 <= w < width ->
  let mu := group_mean promote x_ptr (members c) M in
  let iv := sdiv sone (ssqrt (sadd (group_variance promote x_ptr (members c) M) epsilon)) in
  let db := accum_from szero (fun i => promote (dy_ptr i)) (members c) in
  let ds := sdiv (accum_from szero
                    (fun i => smul (xhat_contract (promote (x_ptr i)) mu iv)
                                   (promote (dy_ptr i)))
                    (members c))
                 (of_int M) in
  let m' := run false savedMean savedInvVariance m in
  Bwd.dbias_ptr m' c = db /\ Bwd.dscale_ptr m' c = ds /\
  Bwd.dx_ptr m' (ix n c h w)
  = bwd_sp_recompute_dx (of_int M) (promote (scale_ptr c)) iv
      (xhat_contract (promote (x_ptr (ix n c h w))) mu iv)
      (promote (dy_ptr (ix n c h w))) db ds.
Proof.
  intros Hc Hn Hh Hw mu iv db ds m'. subst m'. unfold miopenBNBwdSpatialRunHost.
  pose (obs := fun t : Bwd.mem F =>
                 (Bwd.dbias_ptr t c, (Bwd.dscale_ptr t c, Bwd.dx_ptr t (ix n c h w)))).
  pose (g := fun _ : F * (F * F) =>
               (db, (ds, bwd_sp_recompute_dx (of_int M) (promote (scale_ptr c)) iv
                           (xhat_contract (promote (x_ptr (ix n c h w))) mu iv)
                           (promote (dy_ptr (ix n c h w))) db ds))).
  assert (Hobs : obs (for_int channels recompute_channel (Bwd.set_xhat m (fun _ => szero)))
                 = g (obs (Bwd.set_xhat m (fun _ => szero)))).
  { apply for_int_hit with (i0 := c); auto.
    - intros c' t Hc' Hne.
      destruct (bwd_sp_recompute_channel_spec c' t Hc') as (_ & _ & Hfr & _ & Hdx).
      unfold obs. destruct (Hfr c) as [-> ->]; [lia|].
      rewrite Hdx; [reflexivity|].
      intros n' h' w' Hn' Hh' Hw'. now apply channel_ne.
    - intros t.
      destruct (bwd_sp_recompute_channel_spec c t Hc) as (Hb & Hs & _ & Hdx & _).
      unfold obs, g. cbv zeta in Hb, Hs, Hdx.
      now rewrite Hb, Hs, Hdx by assumption. }
  unfold obs, g in Hobs.
  injection Hobs as E1 E2 E3. now rewrite E1, E2, E3.
Qed.

Lemma bwd_sp_saved_run_accumulators (m : Bwd.mem F) (c : Z) :
  0 <= c < channels ->
  let m' := run true savedMean savedInvVariance m in
  Bwd.dbias_ptr m' c
  = accum_from (Bwd.dbias_ptr m c) (fun i => promote (dy_ptr i)) (members c) /\
  Bwd.dscale_ptr m' c
  = sdiv (accum_from (Bwd.dscale_ptr m c)
            (fun i => smul (xhat_contract (promote (x_ptr i)) (savedMean c)
                              (savedInvVariance c)) (promote (dy_ptr i)))
            (members c))
         (of_int M).
Proof.
  intros Hc m'. subst m'. unfold miopenBNBwdSpatialRunHost.
  pose (obs := fun t : Bwd.mem F => (Bwd.dbias_ptr t c, Bwd.dscale_ptr t c)).
  pose (g := fun o : F * F =>
               (accum_from (fst o) (fun i => promote (dy_ptr i)) (members c),
                sdiv (accum_from (snd o)
                        (fun i => smul (xhat_contract (promote (x_ptr i)) (savedMean c)
                                          (savedInvVariance c)) (promote (dy_ptr i)))
                        (members c))
                     (of_int M))).
  assert (Hobs : obs (for_int channels saved_channel m) = g (obs m)).
  { apply for_int_hit with (i0 := c); auto.
    - intros c' t Hc' Hne.
      destruct (bwd_sp_saved_channel_spec c' t Hc') as (_ & _ & Hfr & _ & _).
      unfold obs. now destruct (Hfr c) as [-> ->]; [lia|].
    - intros t.
      destruct (bwd_sp_saved_channel_spec c t Hc) as (Hb & Hs & _ & _ & _).
      unfold obs, g. cbn [fst snd]. cbv zeta in Hb, Hs.
      now rewrite Hb, Hs. }
  unfold obs, g in Hobs. cbn [fst snd] in Hobs.
  injection Hobs as E1 E2. now rewrite E1, E2.
Qed.

Lemma bwd_sp_recompute_run_accumulators (m : Bwd.mem F) (c : Z) :
  0 <= c < channels ->
  let mu := group_mean promote x_ptr (members c) M in
  let iv := sdiv sone (ssqrt (sadd (group_variance promote x_ptr (members c) M) epsilon)) in
  let m' := run false savedMean savedInvVariance m in
  Bwd.dbias_ptr m' c = accum_from szero (fun i => promote (dy_ptr i)) (members c) /\
  Bwd.dscale_ptr m' c
  = sdiv (accum_from szero
            (fun i => smul (xhat_contract (promote (x_ptr i)) mu iv) (promote (dy_ptr i)))
            (members c))
         (of_int M).
Proof.
  intros Hc mu iv m'. subst m'. unfold miopenBNBwdSpatialRunHost.
  pose (obs := fun t : Bwd.mem F => (Bwd.dbias_ptr t c, Bwd.dscale_ptr t c)).
  pose (g := fun _ : F * F =>
               (accum_from szero (fun i => promote (dy_ptr i)) (members c),
                sdiv (accum_from szero
                        (fun i => smul (xhat_contract (promote (x_ptr i)) mu iv)
                                       (promote (dy_ptr i)))
                        (members c))
                     (of_int M))).
  assert (Hobs : obs (for_int channels recompute_channel (Bwd.set_xhat m (fun _ => szero)))
                 = g (obs (Bwd.set_xhat m (fun _ => szero)))).
  { apply for_int_hit with (i0 := c); auto.
    - intros c' t Hc' Hne.
      destruct (bwd_sp_recompute_channel_spec c' t Hc') as (_ & _ & Hfr & _ & _).
      unfold obs. now destruct (Hfr c) as [-> ->]; [lia|].
    - intros t.
      destruct (bwd_sp_recompute_channel_spec c t Hc) as (Hb & Hs & _ & _ & _).
      unfold obs, g. cbv zeta in Hb, Hs.
      now rewrite Hb, Hs. }
  unfold obs, g in Hobs.
  injection Hobs as E1 E2. now rewrite E1, E2.
Qed.

Lemma bwd_sp_dx_frame (savedmeanvar : bool) (m : Bwd.mem F) (j : Z) :
  (forall n c h w, 0 <= n < n_batchs -> 0 <= c < channels -> 0 <= h < height ->
                   0 <= w < width -> ix n c h w <> j) ->
  Bwd.dx_ptr (run savedmeanvar savedMean savedInvVariance m) j = Bwd.dx_ptr m j.
Proof.
  intros Hj. unfold miopenBNBwdSpatialRunHost. destruct savedmeanvar.
  - rewrite (for_int_frame (fun t : Bwd.mem F => Bwd.dx_ptr t j)); [reflexivity|].
    intros c t Hc.
    destruct (bwd_sp_saved_channel_spec c t Hc) as (_ & _ & _ & _ & Hdx).
    apply Hdx. intros n h w Hn Hh Hw. now apply Hj.
  - rewrite (for_int_frame (fun t : Bwd.mem F => Bwd.dx_ptr t j)); [reflexivity|].
    intros c t Hc.
    destruct (bwd_sp_recompute_channel_spec c t Hc) as (_ & _ & _ & _ & Hdx).
    apply Hdx. intros n h w Hn Hh Hw. now apply Hj.
Qed.
End BwdSpatialFacts.

(** * The accumulations in the field of real numbers *)

Lemma accum_from_R (a : R) (f : Z -> R) (l : list Z) :
  accum_from a f l = (a + Rsum (map f l))%R.
Proof.
  unfold accum_from. revert a. induction l as [|i l IH]; intros a; simpl.
  - unfold Rsum. simpl. ring.
  - rewrite IH. simpl. unfold Rsum. simpl. ring.
Qed.

Section RealStatistics.
Context {T : Type}.
Variable promote : T -> R.

Lemma group_mean_R (x_ptr : buffer T) (l : list Z) (M : Z) :
  group_mean promote x_ptr l M
  = (1 / IZR M * Rsum (map (fun i => promote (x_ptr i)) l))%R.
Proof.
  unfold group_mean. rewrite accum_from_R. simpl. unfold Rdiv. ring.
Qed.

Lemma group_variance_R (x_ptr : buffer T) (l : list Z) (M : Z) :
  group_variance promote x_ptr l M
  = (1 / IZR M
     * Rsum (map (fun x => (x - 1 / IZR M * Rsum (map (fun i => promote (x_ptr i)) l)) ^ 2)
               (map (fun i => promote (x_ptr i)) l)))%R.
Proof.
  unfold group_variance. cbv zeta. rewrite accum_from_R, group_mean_R.
  rewrite map_map. simpl. unfold Rdiv.
  replace (map (fun i => (promote (x_ptr i)
                           - 1 * / IZR M * Rsum (map (fun i0 => promote (x_ptr i0)) l))
                          * (promote (x_ptr i)
                             - 1 * / IZR M * Rsum (map (fun i0 => promote (x_ptr i0)) l)))%R l)
    with (map (fun i => (promote (x_ptr i)
                          - 1 * / IZR M * Rsum (map (fun i0 => promote (x_ptr i0)) l))
                         * ((promote (x_ptr i)
                             - 1 * / IZR M * Rsum (map (fun i0 => promote (x_ptr i0)) l)) * 1))%R l).
  - ring.
  - apply map_ext. intros i. ring.
Qed.
End RealStatistics.

Lemma sp_members_empty_batch (channels height width c : Z) :
  sp_members 0 channels height width c = [].
Proof.
  unfold sp_members.
  assert (Hrow : forall l h,
             flat_map (fun w => map (fun n => lin channels height width n c h w) (zrange 0)) l
             = []).
  { intros l h. induction l as [|a l IH]; [reflexivity|]. simpl. exact IH. }
  induction (zrange height) as [|a l IH]; [reflexivity|].
  cbn [flat_map]. rewrite Hrow. exact IH.
Qed.

(** * The claims of the specification *)

(** C1: the per-activation backward at the failing input.  With [x = [0, 2]],
    [dy = [1, 0]], [scale = 1], mean [1] and inverse deviation [1], the call
    leaves [dbias = 1], [dscale = -1/2] and [dx = [0, 1]] on either
    statistics path, while the contract's
    [(invVar/M)*(M*scale*dy_1 - scale*dbias - xhat_1*scale*dscale)] for the
    second element is [-1/4] with the emitted [dscale] and [0] with the raw
    sum [-1]: line 660 multiplies [n_batchs] by the group sum [dxhat], not by
    [scale*dy_i]. *)
Theorem C1_per_activation_dx_at_failing_input :
  (Bwd.dx_ptr (bwd_example_pa true [] [] []) 0 = 0%float /\
   Bwd.dx_ptr (bwd_example_pa true [] [] []) 1 = 1%float /\
   Bwd.dbias_ptr (bwd_example_pa true [] [] []) 0 = 1%float /\
   Bwd.dscale_ptr (bwd_example_pa true [] [] []) 0 = (-0.5)%float) /\
  (Bwd.dx_ptr (bwd_example_pa false [] [] []) 0 = 0%float /\
   Bwd.dx_ptr (bwd_example_pa false [] [] []) 1 = 1%float /\
   Bwd.dbias_ptr (bwd_example_pa false [] [] []) 0 = 1%float /\
   Bwd.dscale_ptr (bwd_example_pa false [] [] []) 0 = (-0.5)%float) /\
  dx_contract 1%float (of_int 2) 1%float 0%float 1%float (-0.5)%float
    (xhat_contract 2%float 1%float 1%float) = (-0.25)%float /\
  dx_contract 1%float (of_int 2) 1%float 0%float 1%float (-1)%float
    (xhat_contract 2%float 1%float 1%float) = 0%float.
Proof. vm_compute. repeat split; reflexivity. Qed.

Section StatisticsClaim.
Context {F : Type} {SF : Scalar F} {T : Type}.
Variable promote : T -> F.
Variables n_batchs channels height width : Z.
Variables x_ptr dy_ptr scale_ptr bias_ptr : buffer T.
Variable epsilon : F.
Variable runningmeanvar : bool.
Variable expAvgFactor : F.

(** C2.  Two-pass statistics, for every arithmetic [F] of the accumulators
    and every element type [T], promoted at each read.  For the
    per-activation group [(c, h, w)] of [N] values and for the spatial group
    [c] of [N*H*W] values, [mean] is the sum of the group divided by [M] and
    [variance] the sum of [(x_i - mean)*(x_i - mean)] divided by [M], the
    deviations being taken from the mean of the first pass.  The training
    forward stores [mean] and [1/sqrt(variance + epsilon)]; the backward
    entry points called without saved statistics normalize with the same
    two values: the [dscale] they emit is the sum of
    [((x_i - mean)*invVar)*dy_i] divided by [M].  In the real numbers the
    two values are [(1/M)*sum x_i] and [(1/M)*sum (x_i - mean)^2].  On
    binary64 the second pass is visible: for [x = [100000000, 100000001]]
    the call saves the mean [100000000.5] and the inverse deviation [2],
    where [sum x_i^2 / M - mean^2] evaluates to [0]. *)
Theorem C2_two_pass_statistics (m : Fwd.mem F) (mb : Bwd.mem F)
    (savedMean savedInvVariance : buffer F) (c h w : Z) :
  dims_ok n_batchs channels height width ->
  0 <= c < channels -> 0 <= h < height -> 0 <= w < width ->
  let x i := promote (x_ptr i) in
  let pa := pa_members n_batchs channels height width c h w in
  let sp := sp_members n_batchs channels height width c in
  let M := n_batchs * (height * width) in
  let mean_pa := group_mean promote x_ptr pa n_batchs in
  let variance_pa := group_variance promote x_ptr pa n_batchs in
  let mean_sp := group_mean promote x_ptr sp M in
  let variance_sp := group_variance promote x_ptr sp M in
  let inv variance := sdiv sone (ssqrt (sadd variance epsilon)) in
  let g := lin channels height width 0 c h w in
  let train_pa :=
    miopenBNFwdTrainPerActivationRunHost promote n_batchs channels height width x_ptr
      scale_ptr bias_ptr epsilon true runningmeanvar expAvgFactor m in
  let train_sp :=
    miopenBNFwdTrainSpatialRunHost promote n_batchs channels height width x_ptr
      scale_ptr bias_ptr epsilon true runningmeanvar expAvgFactor m in
  let back_pa :=
    miopenBNBwdPerActivationRunHost promote n_batchs channels height width x_ptr dy_ptr
      scale_ptr epsilon false savedMean savedInvVariance mb in
  let back_sp :=
    miopenBNBwdSpatialRunHost promote n_batchs channels height width x_ptr dy_ptr
      scale_ptr epsilon false savedMean savedInvVariance mb in
  (mean_pa = sdiv (accum_from szero x pa) (of_int n_batchs) /\
   variance_pa
   = sdiv (accum_from szero (fun i => smul (ssub (x i) mean_pa) (ssub (x i) mean_pa)) pa)
       (of_int n_batchs) /\
   mean_sp = sdiv (accum_from szero x sp) (of_int M) /\
   variance_sp
   = sdiv (accum_from szero (fun i => smul (ssub (x i) mean_sp) (ssub (x i) mean_sp)) sp)
       (of_int M)) /\
  (Fwd.saveMean train_pa g = mean_pa /\ Fwd.saveInvVariance train_pa g = inv variance_pa) /\
  (Fwd.saveMean train_sp c = mean_sp /\ Fwd.saveInvVariance train_sp c = inv variance_sp) /\
  Bwd.dscale_ptr back_pa g
  = sdiv (accum_from (Bwd.dscale_ptr mb g)
            (fun i => smul (xhat_contract (x i) mean_pa (inv variance_pa)) (promote (dy_ptr i)))
            pa)
         (of_int n_batchs) /\
  Bwd.dscale_ptr back_sp c
  = sdiv (accum_from szero
            (fun i => smul (xhat_contract (x i) mean_sp (inv variance_sp)) (promote (dy_ptr i)))
            sp)
         (of_int M) /\
  (forall (xr : buffer R) (l : list Z) (K : Z),
   let mean := (1 / IZR K * Rsum (map xr l))%R in
   group_mean (fun v : R => v) xr l K = mean /\
   group_variance (fun v : R => v) xr l K
   = (1 / IZR K * Rsum (map (fun v => (v - mean) ^ 2) (map xr l)))%R) /\
  (Fwd.saveMean fwd_example_two_pass 0 = 100000000.5%float /\
   Fwd.saveInvVariance fwd_example_two_pass 0 = 2%float /\
   PrimFloat.sub
     (PrimFloat.div
        (PrimFloat.add (PrimFloat.mul 100000000 100000000)
           (PrimFloat.mul 100000001 100000001))
        2)
     (PrimFloat.mul 100000000.5 100000000.5)
   = 0%float).
Proof.
  intros Hdims Hc Hh Hw x pa sp M mean_pa variance_pa mean_sp variance_sp inv g
    train_pa train_sp back_pa back_sp.
  split; [repeat split|].
  split; [split|].
  - unfold train_pa, g.
    rewrite (fwd_train_pa_saveMean promote n_batchs channels height width x_ptr scale_ptr
               bias_ptr epsilon true runningmeanvar expAvgFactor Hdims) by assumption.
    now apply pa_mean_members.
  - unfold train_pa, g.
    rewrite (fwd_train_pa_saveInvVariance promote n_batchs channels height width x_ptr
               scale_ptr bias_ptr epsilon true runningmeanvar expAvgFactor Hdims)
      by assumption.
    unfold inv. now rewrite (pa_variance_members promote n_batchs channels height width Hdims).
  - split; [split|].
    + unfold train_sp.
      now rewrite (fwd_train_sp_saveMean promote n_batchs channels height width x_ptr
                     scale_ptr bias_ptr epsilon true runningmeanvar expAvgFactor Hdims).
    + unfold train_sp.
      now rewrite (fwd_train_sp_saveInvVariance promote n_batchs channels height width x_ptr
                     scale_ptr bias_ptr epsilon true runningmeanvar expAvgFactor Hdims).
    + split; [|split; [|split]].
      * unfold back_pa, g.
        rewrite (bwd_pa_dscale promote n_batchs channels height width x_ptr dy_ptr scale_ptr
                   epsilon savedMean savedInvVariance Hdims) by assumption.
        unfold bwd_pa_stats. cbn [fst snd].
        rewrite (pa_mean_members promote n_batchs channels height width Hdims)
          by assumption.
        rewrite (pa_variance_members promote n_batchs channels height width Hdims)
          by assumption.
        reflexivity.
      * unfold back_sp.
        now apply (bwd_sp_recompute_run_accumulators promote n_batchs channels height width
                     x_ptr dy_ptr scale_ptr epsilon savedMean savedInvVariance Hdims).
      * intros xr l K mean. split; [apply group_mean_R|].
        unfold mean. rewrite group_variance_R. reflexivity.
      * vm_compute. repeat split; reflexivity.
Qed.
End StatisticsClaim.

(** A run of C2 in the real numbers: two samples [0, 2] in one group. *)
Lemma C2_two_pass_statistics_witness :
  dims_ok 2 1 1 1 /\
  Fwd.saveMean
    (miopenBNFwdTrainPerActivationRunHost (fun x : R => x) 2 1 1 1 (fun i => IZR (2 * i))
       (fun _ => 1%R) (fun _ => 0%R) 0%R true false 0%R
       (Fwd.Mem (fun _ => 0%R) (fun _ => 0%R) (fun _ => 0%R) (fun _ => 0%R) (fun _ => 0%R)))
    (lin 1 1 1 0 0 0 0)
  = group_mean (fun x : R => x) (fun i => IZR (2 * i)) (pa_members 2 1 1 1 0 0 0) 2.
Proof.
  assert (Hd : dims_ok 2 1 1 1) by (unfold dims_ok; lia).
  split; [exact Hd|].
  exact (proj1 (proj1 (proj2 (C2_two_pass_statistics (fun x : R => x) 2 1 1 1
                                (fun i => IZR (2 * i)) (fun _ => 0%R) (fun _ => 1%R)
                                (fun _ => 0%R) 0%R false 0%R
                                (Fwd.Mem (fun _ => 0%R) (fun _ => 0%R) (fun _ => 0%R)
                                   (fun _ => 0%R) (fun _ => 0%R))
                                (Bwd.Mem (fun _ => 0%R) (fun _ => 0%R) (fun _ => 0%R)
                                   (fun _ => 0%R))
                                (fun _ => 0%R) (fun _ => 0%R)
                                0 0 0 Hd ltac:(lia) ltac:(lia) ltac:(lia))))).
Defined.

Section RunningStatisticsClaim.
Context {F : Type} {SF : Scalar F} {T : Type}.
Variable promote : T -> F.
Variables n_batchs channels height width : Z.
Variables x_ptr scale_ptr bias_ptr : buffer T.
Variable epsilon : F.
Variable savemeanvar : bool.
Variable expAvgFactor : F.

(** C3.  Running statistics, for every arithmetic.  With tracking enabled,
    each training forward call replaces the running mean of a group by
    [mean*momentum + runningMean*(1-momentum)] (the claim's sum, the
    summands in the order of the code) and its running variance by
    [momentum*runningVariance + (1-momentum)*adjustedVariance], where
    [adjustedVariance] is [variance] when [M = 1] and [(M/(M-1))*variance]
    otherwise; [mean] and [variance] are the statistics of C2 ([M = N]
    per-activation, [M = N*H*W] spatial).  Where addition commutes the
    running mean is [runningMean*(1-momentum) + mean*momentum] as the claim
    writes it.  On binary64 the branch is visible: a call on a single sample
    ([M = 1], variance 0) with momentum 1/2 and running variance 4 stores 2
    in both modes, where [(M/(M-1))*variance] is not a number. *)
Theorem C3_running_statistics (m : Fwd.mem F) (c h w : Z) :
  dims_ok n_batchs channels height width ->
  0 <= c < channels -> 0 <= h < height -> 0 <= w < width ->
  let M := n_batchs * (height * width) in
  let mean_pa :=
    group_mean promote x_ptr (pa_members n_batchs channels height width c h w) n_batchs in
  let variance_pa :=
    group_variance promote x_ptr (pa_members n_batchs channels height width c h w) n_batchs in
  let mean_sp := group_mean promote x_ptr (sp_members n_batchs channels height width c) M in
  let variance_sp :=
    group_variance promote x_ptr (sp_members n_batchs channels height width c) M in
  let adjusted_pa :=
    if n_batchs =? 1 then variance_pa
    else smul (sdiv (of_int n_batchs) (of_int (n_batchs - 1))) variance_pa in
  let adjusted_sp :=
    if M =? 1 then variance_sp
    else smul (sdiv (of_int M) (ssub (of_int M) sone)) variance_sp in
  let g := lin channels height width 0 c h w in
  let train_pa :=
    miopenBNFwdTrainPerActivationRunHost promote n_batchs channels height width x_ptr
      scale_ptr bias_ptr epsilon savemeanvar true expAvgFactor m in
  let train_sp :=
    miopenBNFwdTrainSpatialRunHost promote n_batchs channels height width x_ptr
      scale_ptr bias_ptr epsilon savemeanvar true expAvgFactor m in
  (Fwd.runningMean train_pa g
   = sadd (smul mean_pa expAvgFactor) (smul (Fwd.runningMean m g) (ssub sone expAvgFactor)) /\
   Fwd.runningVariance train_pa g
   = running_variance_contract (Fwd.runningVariance m g) expAvgFactor adjusted_pa) /\
  (Fwd.runningMean train_sp c
   = sadd (smul mean_sp expAvgFactor) (smul (Fwd.runningMean m c) (ssub sone expAvgFactor)) /\
   Fwd.runningVariance train_sp c
   = running_variance_contract (Fwd.runningVariance m c) expAvgFactor adjusted_sp) /\
  ((forall a b : F, sadd a b = sadd b a) ->
   Fwd.runningMean train_pa g
   = running_mean_contract (Fwd.runningMean m g) expAvgFactor mean_pa /\
   Fwd.runningMean train_sp c
   = running_mean_contract (Fwd.runningMean m c) expAvgFactor mean_sp) /\
  (Fwd.runningMean (fwd_example_single_sample false) 0 = 3.5%float /\
   Fwd.runningVariance (fwd_example_single_sample false) 0 = 2%float /\
   Fwd.runningMean (fwd_example_single_sample true) 0 = 3.5%float /\
   Fwd.runningVariance (fwd_example_single_sample true) 0 = 2%float /\
   PrimFloat.mul (PrimFloat.div (of_int 1) (of_int (1 - 1))) 0%float = nan).
Proof.
  intros Hdims Hc Hh Hw M mean_pa variance_pa mean_sp variance_sp adjusted_pa adjusted_sp g
    train_pa train_sp.
  assert (Hmpa : Fwd.runningMean train_pa g
                 = sadd (smul mean_pa expAvgFactor)
                        (smul (Fwd.runningMean m g) (ssub sone expAvgFactor))).
  { unfold train_pa, g.
    rewrite (fwd_train_pa_runningMean promote n_batchs channels height width x_ptr scale_ptr
               bias_ptr epsilon savemeanvar true expAvgFactor Hdims) by assumption.
    now rewrite (pa_mean_members promote n_batchs channels height width Hdims). }
  assert (Hmsp : Fwd.runningMean train_sp c
                 = sadd (smul mean_sp expAvgFactor)
                        (smul (Fwd.runningMean m c) (ssub sone expAvgFactor))).
  { unfold train_sp.
    now rewrite (fwd_train_sp_runningMean promote n_batchs channels height width x_ptr
                   scale_ptr bias_ptr epsilon savemeanvar true expAvgFactor Hdims). }
  split; [split; [exact Hmpa|]|split; [split; [exact Hmsp|]|split]].
  - unfold train_pa, g, running_variance_contract, adjusted_pa.
    rewrite (fwd_train_pa_runningVariance promote n_batchs channels height width x_ptr
               scale_ptr bias_ptr epsilon savemeanvar true expAvgFactor Hdims) by assumption.
    now rewrite (pa_variance_members promote n_batchs channels height width Hdims).
  - unfold train_sp, running_variance_contract, adjusted_sp.
    now rewrite (fwd_train_sp_runningVariance promote n_batchs channels height width x_ptr
                   scale_ptr bias_ptr epsilon savemeanvar true expAvgFactor Hdims).
  - intros Hadd. unfold running_mean_contract.
    rewrite Hmpa, Hmsp. split; apply Hadd.
  - vm_compute. repeat split; reflexivity.
Qed.
End RunningStatisticsClaim.

(** A run of C3 in the real numbers: two samples [0, 2], momentum 1/2,
    running mean 4. *)
Lemma C3_running_statistics_witness :
  dims_ok 2 1 1 1 /\
  Fwd.runningMean
    (miopenBNFwdTrainPerActivationRunHost (fun x : R => x) 2 1 1 1 (fun i => IZR (2 * i))
       (fun _ => 1%R) (fun _ => 0%R) 0%R false true (1 / 2)%R
       (Fwd.Mem (fun _ => 0%R) (fun _ => 0%R) (fun _ => 0%R) (fun _ => 4%R) (fun _ => 4%R)))
    (lin 1 1 1 0 0 0 0)
  = running_mean_contract 4%R (1 / 2)%R
      (group_mean (fun x : R => x) (fun i => IZR (2 * i)) (pa_members 2 1 1 1 0 0 0) 2).
Proof.
  assert (Hd : dims_ok 2 1 1 1) by (unfold dims_ok; lia).
  split; [exact Hd|].
  exact (proj1 (proj1 (proj2 (proj2 (C3_running_statistics (fun x : R => x) 2 1 1 1
                                       (fun i => IZR (2 * i)) (fun _ => 1%R) (fun _ => 0%R)
                                       0%R false (1 / 2)%R
                                       (Fwd.Mem (fun _ => 0%R) (fun _ => 0%R) (fun _ => 0%R)
                                          (fun _ => 4%R) (fun _ => 4%R))
                                       0 0 0 Hd ltac:(lia) ltac:(lia) ltac:(lia))))
                      Rplus_comm)).
Defined.

(** C4, the claim as stated, fails on the kernel: with estimated variance
    [-2] and [epsilon = 1] the thread stores [2], while
    [scale*(x - mean)*(1/sqrt(variance + epsilon)) + bias] is not a number. *)
Lemma C4_normalization_counterexample :
  infer_example_kernel 0 = 2%float /\
  y_contract 1%float 3%float 1%float (invVariance_contract (-2)%float 1%float) 0%float
  = nan /\
  PrimFloat.eqb (infer_example_kernel 0)
    (y_contract 1%float 3%float 1%float (invVariance_contract (-2)%float 1%float) 0%float)
  = false.
Proof. vm_compute. repeat split; reflexivity. Qed.

Section NormalizationClaim.
Context {T TIO : Type}.
Variable promote : T -> R.
Variables n_batchs channels height width : Z.
Variables x_ptr scale_ptr bias_ptr : buffer T.
Variable epsilon : R.
Variables savemeanvar runningmeanvar : bool.
Variable expAvgFactor : R.
(** The kernel's side: its own buffers, casts and launch geometry;
    [rsqrt r = 1/sqrt r] and [fma a b c = a*b + c] in the real numbers. *)
Variable to_prec : TIO -> R.
Variable to_io : R -> TIO.
Variable in_ : buffer TIO.
Variables estimatedMean estimatedVariance scale bias : buffer R.
Variables batchSize imageDims batchStride : Z.

(** C4 (as amended).  Normalization.  Every output element of the four host
    forward functions (training and inference, per-activation and spatial,
    inference with and without supplied estimates) is
    [scale_g * (x - mean_g) * invVariance_g + bias_g] with
    [invVariance_g = 1/sqrt(variance_g + epsilon)], epsilon added; the spatial
    training path included, which stages [(x - mean)] in the output buffer.
    A thread of either HIP inference kernel stores the same expression with
    [invVariance_g = 1/sqrt(|variance_g + epsilon|)], which is the former
    whenever [variance_g + epsilon >= 0].  Real-number reading. *)
Theorem C4_normalization (m : Fwd.mem R) (mi : Inf.mem R) (out : buffer TIO)
    (n c h w grpid yidx ystep j nk : Z) :
  dims_ok n_batchs channels height width ->
  0 <= n < n_batchs -> 0 <= c < channels -> 0 <= h < height -> 0 <= w < width ->
  0 < ystep -> 0 <= yidx -> 0 <= grpid -> 0 <= j -> yidx + j * ystep < imageDims ->
  0 <= nk < batchSize ->
  (grpid + 1) * imageDims <= batchStride -> batchSize * batchStride < 2 ^ 32 ->
  let xs_pa := map (fun i => promote (x_ptr i))
                 (pa_members n_batchs channels height width c h w) in
  let mean_pa := (1 / IZR n_batchs * Rsum xs_pa)%R in
  let variance_pa := (1 / IZR n_batchs * Rsum (map (fun x => (x - mean_pa) ^ 2) xs_pa))%R in
  let xs_sp := map (fun i => promote (x_ptr i)) (sp_members n_batchs channels height width c) in
  let M := n_batchs * (height * width) in
  let mean_sp := (1 / IZR M * Rsum xs_sp)%R in
  let variance_sp := (1 / IZR M * Rsum (map (fun x => (x - mean_sp) ^ 2) xs_sp))%R in
  let g := lin channels height width 0 c h w in
  let idx := lin channels height width n c h w in
  let x := promote (x_ptr idx) in
  let adjIndex := grpid * imageDims + (yidx + j * ystep) in
  let kidx := batchStride * nk + adjIndex in
  let kidx_sp := nk * batchStride + grpid * imageDims + (yidx + j * ystep) in
  let rsqrt := fun r : R => (1 / R_sqrt.sqrt r)%R in
  let fma := fun a b c : R => (a * b + c)%R in
  (* host, training *)
  (Fwd.out_ptr
     (miopenBNFwdTrainPerActivationRunHost promote n_batchs channels height width x_ptr
        scale_ptr bias_ptr epsilon savemeanvar runningmeanvar expAvgFactor m) idx
   = y_contract (promote (scale_ptr g)) x mean_pa
       (invVariance_contract variance_pa epsilon) (promote (bias_ptr g)) /\
   Fwd.out_ptr
     (miopenBNFwdTrainSpatialRunHost promote n_batchs channels height width x_ptr
        scale_ptr bias_ptr epsilon savemeanvar runningmeanvar expAvgFactor m) idx
   = y_contract (promote (scale_ptr c)) x mean_sp
       (invVariance_contract variance_sp epsilon) (promote (bias_ptr c))) /\
  (* host, inference with supplied estimates *)
  (Inf.out_ptr
     (miopenBNFwdInferPerActivationRunHost promote n_batchs channels height width x_ptr
        scale_ptr bias_ptr epsilon true mi) idx
   = y_contract (promote (scale_ptr g)) x (Inf.estimatedMean mi g)
       (invVariance_contract (Inf.estimatedVariance mi g) epsilon) (promote (bias_ptr g)) /\
   Inf.out_ptr
     (miopenBNFwdInferSpatialRunHost promote n_batchs channels height width x_ptr
        scale_ptr bias_ptr epsilon true mi) idx
   = y_contract (promote (scale_ptr c)) x (Inf.estimatedMean mi c)
       (invVariance_contract (Inf.estimatedVariance mi c) epsilon) (promote (bias_ptr c))) /\
  (* host, inference from the batch *)
  (Inf.out_ptr
     (miopenBNFwdInferPerActivationRunHost promote n_batchs channels height width x_ptr
        scale_ptr bias_ptr epsilon false mi) idx
   = y_contract (promote (scale_ptr g)) x mean_pa
       (invVariance_contract variance_pa epsilon) (promote (bias_ptr g)) /\
   Inf.out_ptr
     (miopenBNFwdInferSpatialRunHost promote n_batchs channels height width x_ptr
        scale_ptr bias_ptr epsilon false mi) idx
   = y_contract (promote (scale_ptr c)) x mean_sp
       (invVariance_contract variance_sp epsilon) (promote (bias_ptr c))) /\
  (* the kernels *)
  (bn_fwd_infer_per_activation to_prec to_io rsqrt fma in_ estimatedMean estimatedVariance
     scale bias epsilon batchSize imageDims batchStride grpid yidx ystep out kidx
   = to_io (y_contract (scale adjIndex) (to_prec (in_ kidx)) (estimatedMean adjIndex)
              (1 / R_sqrt.sqrt (Rabs (estimatedVariance adjIndex + epsilon)))%R
              (bias adjIndex)) /\
   bn_fwd_infer_spatial to_prec to_io rsqrt fma in_ estimatedMean estimatedVariance
     scale bias epsilon batchSize imageDims batchStride grpid yidx ystep out kidx_sp
   = to_io (y_contract (scale grpid) (to_prec (in_ kidx_sp)) (estimatedMean grpid)
              (1 / R_sqrt.sqrt (Rabs (estimatedVariance grpid + epsilon)))%R
              (bias grpid))) /\
  (forall variance : R,
     (0 <= variance + epsilon)%R ->
     (1 / R_sqrt.sqrt (Rabs (variance + epsilon)))%R = invVariance_contract variance epsilon).
Proof.
  intros Hdims Hn Hc Hh Hw Hs Hy Hg Hj Hlt Hnk Hfit Hall
    xs_pa mean_pa variance_pa xs_sp M mean_sp variance_sp g idx x adjIndex kidx kidx_sp
    rsqrt fma.
  assert (Hmpa : group_mean promote x_ptr (pa_members n_batchs channels height width c h w)
                   n_batchs = mean_pa) by apply group_mean_R.
  assert (Hvpa : group_variance promote x_ptr
                   (pa_members n_batchs channels height width c h w) n_batchs
                 = variance_pa) by apply group_variance_R.
  assert (Hmsp : group_mean promote x_ptr (sp_members n_batchs channels height width c) M
                 = mean_sp) by apply group_mean_R.
  assert (Hvsp : group_variance promote x_ptr (sp_members n_batchs channels height width c) M
                 = variance_sp) by apply group_variance_R.
  unfold y_contract, invVariance_contract.
  split; [split|split; [split|split; [split|split; [split|]]]].
  - unfold idx.
    rewrite (fwd_train_pa_out promote n_batchs channels height width x_ptr scale_ptr bias_ptr
               epsilon savemeanvar runningmeanvar expAvgFactor Hdims) by assumption.
    rewrite (pa_mean_members promote n_batchs channels height width Hdims) by assumption.
    rewrite (pa_variance_members promote n_batchs channels height width Hdims) by assumption.
    rewrite Hmpa, Hvpa. unfold fwd_pa_y. simpl. fold idx x g. ring.
  - unfold idx.
    rewrite (fwd_train_sp_out promote n_batchs channels height width x_ptr scale_ptr bias_ptr
               epsilon savemeanvar runningmeanvar expAvgFactor Hdims) by assumption.
    fold M. rewrite Hmsp, Hvsp. unfold fwd_sp_train_y. simpl. fold idx x. ring.
  - unfold idx.
    rewrite (fwd_infer_pa_est_out promote n_batchs channels height width x_ptr scale_ptr
               bias_ptr epsilon Hdims) by assumption.
    unfold fwd_pa_y. simpl. fold idx x g. ring.
  - unfold idx.
    rewrite (fwd_infer_sp_est_out promote n_batchs channels height width x_ptr scale_ptr
               bias_ptr epsilon Hdims) by assumption.
    unfold fwd_pa_y. simpl. fold idx x. ring.
  - unfold idx.
    rewrite (fwd_infer_pa_batch_out promote n_batchs channels height width x_ptr scale_ptr
               bias_ptr epsilon Hdims) by assumption.
    rewrite Hmpa, Hvpa. unfold fwd_pa_y. simpl. fold idx x g. ring.
  - unfold idx.
    rewrite (fwd_infer_sp_batch_out promote n_batchs channels height width x_ptr scale_ptr
               bias_ptr epsilon Hdims) by assumption.
    fold M. rewrite Hmsp, Hvsp. unfold fwd_pa_y. simpl. fold idx x. ring.
  - unfold kidx, adjIndex.
    rewrite bn_fwd_infer_per_activation_out; try assumption.
    + f_equal. unfold kernel_y, fma, rsqrt. simpl. ring.
    + apply Z.lt_trans with (2 ^ 32); [assumption|reflexivity].
  - unfold kidx_sp.
    rewrite bn_fwd_infer_spatial_out; try assumption.
    f_equal. unfold kernel_y, fma, rsqrt. simpl. ring.
  - intros variance Hv. simpl. now rewrite Rabs_pos_eq.
Qed.
End NormalizationClaim.

(** A run of C4: two samples [0, 2] in one group, one kernel thread. *)
Lemma C4_normalization_witness :
  dims_ok 2 1 1 1 /\
  Fwd.out_ptr
    (miopenBNFwdTrainSpatialRunHost (fun x : R => x) 2 1 1 1 (fun i => IZR (2 * i))
       (fun _ => 1%R) (fun _ => 0%R) 1%R false false 0%R
       (Fwd.Mem (fun _ => 0%R) (fun _ => 0%R) (fun _ => 0%R) (fun _ => 0%R) (fun _ => 0%R)))
    (lin 1 1 1 1 0 0 0)
  = y_contract 1%R (IZR (2 * lin 1 1 1 1 0 0 0))
      (1 / IZR (2 * (1 * 1))
       * Rsum (map (fun i => IZR (2 * i)) (sp_members 2 1 1 1 0)))%R
      (invVariance_contract
         (1 / IZR (2 * (1 * 1))
          * Rsum (map (fun x => (x - 1 / IZR (2 * (1 * 1))
                                     * Rsum (map (fun i => IZR (2 * i))
                                               (sp_members 2 1 1 1 0))) ^ 2)
                    (map (fun i => IZR (2 * i)) (sp_members 2 1 1 1 0))))%R
         1%R)
      0%R.
Proof.
  assert (Hd : dims_ok 2 1 1 1) by (unfold dims_ok; lia).
  split; [exact Hd|].
  exact (proj2 (proj1 (C4_normalization (T := R) (TIO := R) (fun x : R => x) 2 1 1 1
                         (fun i => IZR (2 * i)) (fun _ => 1%R) (fun _ => 0%R) 1%R
                         false false 0%R
                         (fun x : R => x) (fun x : R => x) (fun _ => 3%R)
                         (fun _ => 1%R) (fun _ => 2%R) (fun _ => 1%R) (fun _ => 0%R)
                         1 1 1
                         (Fwd.Mem (fun _ => 0%R) (fun _ => 0%R) (fun _ => 0%R) (fun _ => 0%R)
                            (fun _ => 0%R))
                         (Inf.Mem (fun _ => 0%R) (fun _ => 1%R) (fun _ => 2%R))
                         (fun _ => 0%R)
                         1 0 0 0 0 0 1 0 0
                         Hd ltac:(lia) ltac:(lia) ltac:(lia) ltac:(lia)
                         ltac:(lia) ltac:(lia) ltac:(lia) ltac:(lia) ltac:(lia)
                         ltac:(lia) ltac:(lia) ltac:(lia)))).
Defined.

(** C5, the claim as stated, fails: on the same call the emitted [dscale] is
    [-1/2], while the raw sum of [xhat_i * dy_i] over the group is [-1]
    (line 654 divides the accumulator by the group size). *)
Lemma C5_gradient_accumulators_counterexample :
  Bwd.dscale_ptr (bwd_example_pa true [] [] []) 0 = (-0.5)%float /\
  accum_from 0%float
    (fun i => PrimFloat.mul (xhat_contract (dbuf [0; 2]%float i) 1%float 1%float)
                (dbuf [1; 0]%float i))
    (pa_members 2 1 1 1 0 0 0)
  = (-1)%float /\
  Bwd.dscale_ptr (bwd_example_sp true [] [] []) 0 = (-0.5)%float /\
  Bwd.dscale_ptr (bwd_example_sp false [] [] []) 0 = (-0.5)%float.
Proof. vm_compute. repeat split; reflexivity. Qed.

Section GradientAccumulatorsClaim.
Context {T : Type}.
Variable promote : T -> R.
Variables n_batchs channels height width : Z.
Variables x_ptr dy_ptr scale_ptr : buffer T.
Variable epsilon : R.
Variables savedMean savedInvVariance : buffer R.

(** C5 (as amended).  Gradient accumulators.  When the caller hands in
    [dbias] and [dscale] holding zero for the group, a backward call in either
    mode and on either statistics path leaves in [dbias[g]] the sum of the
    [dy_i] of the group and in [dscale[g]] the sum of [xhat_i * dy_i] divided
    by the group size [M], with [xhat_i = (x_i - mean)*invVar] and [mean],
    [invVar] the saved or recomputed statistics.  Real-number reading. *)
Theorem C5_gradient_accumulators (savedmeanvar : bool) (m : Bwd.mem R) (c h w : Z) :
  dims_ok n_batchs channels height width ->
  0 <= c < channels -> 0 <= h < height -> 0 <= w < width ->
  let g := lin channels height width 0 c h w in
  Bwd.dbias_ptr m g = 0%R -> Bwd.dscale_ptr m g = 0%R ->
  Bwd.dbias_ptr m c = 0%R -> Bwd.dscale_ptr m c = 0%R ->
  let members_pa := pa_members n_batchs channels height width c h w in
  let members_sp := sp_members n_batchs channels height width c in
  let M := n_batchs * (height * width) in
  let x := fun i => promote (x_ptr i) in
  let dy := fun i => promote (dy_ptr i) in
  let mean_pa := (1 / IZR n_batchs * Rsum (map x members_pa))%R in
  let variance_pa :=
    (1 / IZR n_batchs * Rsum (map (fun v => (v - mean_pa) ^ 2) (map x members_pa)))%R in
  let mean_sp := (1 / IZR M * Rsum (map x members_sp))%R in
  let variance_sp := (1 / IZR M * Rsum (map (fun v => (v - mean_sp) ^ 2) (map x members_sp)))%R in
  let mu_pa := if savedmeanvar then savedMean g else mean_pa in
  let iv_pa := if savedmeanvar then savedInvVariance g
               else invVariance_contract variance_pa epsilon in
  let mu_sp := if savedmeanvar then savedMean c else mean_sp in
  let iv_sp := if savedmeanvar then savedInvVariance c
               else invVariance_contract variance_sp epsilon in
  let bwd_pa :=
    miopenBNBwdPerActivationRunHost promote n_batchs channels height width x_ptr dy_ptr
      scale_ptr epsilon savedmeanvar savedMean savedInvVariance m in
  let bwd_sp :=
    miopenBNBwdSpatialRunHost promote n_batchs channels height width x_ptr dy_ptr
      scale_ptr epsilon savedmeanvar savedMean savedInvVariance m in
  (Bwd.dbias_ptr bwd_pa g = Rsum (map dy members_pa) /\
   Bwd.dscale_ptr bwd_pa g
   = (Rsum (map (fun i => xhat_contract (x i) mu_pa iv_pa * dy i) members_pa)
      / IZR n_batchs)%R) /\
  (Bwd.dbias_ptr bwd_sp c = Rsum (map dy members_sp) /\
   Bwd.dscale_ptr bwd_sp c
   = (Rsum (map (fun i => xhat_contract (x i) mu_sp iv_sp * dy i) members_sp) / IZR M)%R).
Proof.
  intros Hdims Hc Hh Hw g Hb0 Hs0 Hb0' Hs0' members_pa members_sp M x dy
    mean_pa variance_pa mean_sp variance_sp mu_pa iv_pa mu_sp iv_sp bwd_pa bwd_sp.
  assert (Hmpa : pa_mean promote n_batchs channels height width x_ptr g = mean_pa).
  { unfold g. rewrite (pa_mean_members promote n_batchs channels height width Hdims)
      by assumption.
    apply group_mean_R. }
  assert (Hvpa : pa_variance promote n_batchs channels height width x_ptr g = variance_pa).
  { unfold g. rewrite (pa_variance_members promote n_batchs channels height width Hdims)
      by assumption.
    apply group_variance_R. }
  assert (Hmsp : group_mean promote x_ptr members_sp M = mean_sp) by apply group_mean_R.
  assert (Hvsp : group_variance promote x_ptr members_sp M = variance_sp)
    by apply group_variance_R.
  split; split.
  - unfold bwd_pa, g.
    rewrite (bwd_pa_dbias promote n_batchs channels height width x_ptr dy_ptr scale_ptr
               epsilon savedMean savedInvVariance Hdims) by assumption.
    fold g. rewrite Hb0, accum_from_R. fold members_pa. fold dy. ring.
  - unfold bwd_pa, g.
    rewrite (bwd_pa_dscale promote n_batchs channels height width x_ptr dy_ptr scale_ptr
               epsilon savedMean savedInvVariance Hdims) by assumption.
    fold g. rewrite Hs0, accum_from_R. fold members_pa.
    unfold bwd_pa_stats, mu_pa, iv_pa, invVariance_contract.
    destruct savedmeanvar; cbn [fst snd]; [|rewrite Hmpa, Hvpa];
      cbn [sdiv szero of_int Scalar_R]; rewrite Rplus_0_l; reflexivity.
  - unfold bwd_sp. destruct savedmeanvar.
    + destruct (bwd_sp_saved_run_accumulators promote n_batchs channels height width
                  x_ptr dy_ptr scale_ptr epsilon savedMean savedInvVariance Hdims m c Hc)
        as [-> _].
      rewrite Hb0', accum_from_R. fold members_sp. fold dy. ring.
    + destruct (bwd_sp_recompute_run_accumulators promote n_batchs channels height width
                  x_ptr dy_ptr scale_ptr epsilon savedMean savedInvVariance Hdims m c Hc)
        as [-> _].
      rewrite accum_from_R. fold members_sp. fold dy. simpl. ring.
  - unfold bwd_sp, mu_sp, iv_sp, invVariance_contract. destruct savedmeanvar.
    + destruct (bwd_sp_saved_run_accumulators promote n_batchs channels height width
                  x_ptr dy_ptr scale_ptr epsilon savedMean savedInvVariance Hdims m c Hc)
        as [_ ->].
      rewrite Hs0', accum_from_R. fold members_sp M.
      cbn [sdiv szero of_int Scalar_R]. rewrite Rplus_0_l. reflexivity.
    + destruct (bwd_sp_recompute_run_accumulators promote n_batchs channels height width
                  x_ptr dy_ptr scale_ptr epsilon savedMean savedInvVariance Hdims m c Hc)
        as [_ ->].
      rewrite accum_from_R. fold members_sp M. rewrite Hmsp, Hvsp.
      cbn [sdiv szero of_int Scalar_R]. rewrite Rplus_0_l. reflexivity.
Qed.
End GradientAccumulatorsClaim.

(** A run of C5: the call of C1 read in the real numbers. *)
Lemma C5_gradient_accumulators_witness :
  dims_ok 2 1 1 1 /\
  Bwd.dbias_ptr
    (miopenBNBwdPerActivationRunHost (fun x : R => x) 2 1 1 1 (fun i => IZR (2 * i))
       (fun i => IZR (1 - i)) (fun _ => 1%R) 0%R true (fun _ => 1%R) (fun _ => 1%R)
       (Bwd.Mem (fun _ => 0%R) (fun _ => 0%R) (fun _ => 0%R) (fun _ => 0%R)))
    (lin 1 1 1 0 0 0 0)
  = Rsum (map (fun i => IZR (1 - i)) (pa_members 2 1 1 1 0 0 0)).
Proof.
  assert (Hd : dims_ok 2 1 1 1) by (unfold dims_ok; lia).
  split; [exact Hd|].
  exact (proj1 (proj1 (C5_gradient_accumulators (fun x : R => x) 2 1 1 1
                         (fun i => IZR (2 * i)) (fun i => IZR (1 - i)) (fun _ => 1%R) 0%R
                         (fun _ => 1%R) (fun _ => 1%R) true
                         (Bwd.Mem (fun _ => 0%R) (fun _ => 0%R) (fun _ => 0%R) (fun _ => 0%R))
                         0 0 0 Hd ltac:(lia) ltac:(lia) ltac:(lia)
                         eq_refl eq_refl eq_refl eq_refl))).
Defined.

(** C6: the accumulators keep what the caller left in them.  The same
    per-activation call started with [dbias = 0] and with [dbias = 1] ends
    with [dbias = 1] and [dbias = 2]; likewise [dscale]; and in the spatial
    call with saved statistics [dx], computed from the [dbias] array, differs
    too.  Only the spatial call that recomputes the statistics clears the two
    accumulators first (lines 918-919). *)
Theorem C6_initial_contents_at_failing_input :
  (Bwd.dbias_ptr (bwd_example_pa true [] [] [0%float]) 0 = 1%float /\
   Bwd.dbias_ptr (bwd_example_pa true [] [] [1%float]) 0 = 2%float) /\
  (Bwd.dbias_ptr (bwd_example_pa false [] [] [0%float]) 0 = 1%float /\
   Bwd.dbias_ptr (bwd_example_pa false [] [] [1%float]) 0 = 2%float) /\
  (Bwd.dscale_ptr (bwd_example_pa true [] [0%float] []) 0 = (-0.5)%float /\
   Bwd.dscale_ptr (bwd_example_pa true [] [1%float] []) 0 = 0%float) /\
  (Bwd.dbias_ptr (bwd_example_sp true [] [] [0%float]) 0 = 1%float /\
   Bwd.dbias_ptr (bwd_example_sp true [] [] [1%float]) 0 = 2%float /\
   Bwd.dx_ptr (bwd_example_sp true [] [] [0%float]) 0 = 0.25%float /\
   Bwd.dx_ptr (bwd_example_sp true [] [] [1%float]) 0 = (-0.25)%float) /\
  (Bwd.dbias_ptr (bwd_example_sp false [] [] [0%float]) 0 = 1%float /\
   Bwd.dbias_ptr (bwd_example_sp false [] [] [1%float]) 0 = 1%float).
Proof. vm_compute. repeat split; reflexivity. Qed.

Section InferenceAsTrainingClaim.
Context {F : Type} {SF : Scalar F} {T : Type}.
Variable promote : T -> F.
Variables n_batchs channels height width : Z.
Variables in_ptr scale_ptr bias_ptr : buffer T.
Variable epsilon : F.
Variable expAvgFactor : F.

Local Abbreviation train_pa :=
  (miopenBNFwdTrainPerActivationRunHost promote n_batchs channels height width in_ptr
     scale_ptr bias_ptr epsilon false false expAvgFactor).
Local Abbreviation train_sp :=
  (miopenBNFwdTrainSpatialRunHost promote n_batchs channels height width in_ptr
     scale_ptr bias_ptr epsilon false false expAvgFactor).
Local Abbreviation infer_pa :=
  (miopenBNFwdInferPerActivationRunHost promote n_batchs channels height width in_ptr
     scale_ptr bias_ptr epsilon false).
Local Abbreviation infer_sp :=
  (miopenBNFwdInferSpatialRunHost promote n_batchs channels height width in_ptr
     scale_ptr bias_ptr epsilon false).

(** Training with both flags off leaves the four statistics arrays alone. *)
Lemma fwd_train_flags_off_statistics (m : Fwd.mem F) :
  (Fwd.saveMean (train_pa m) = Fwd.saveMean m /\
   Fwd.saveInvVariance (train_pa m) = Fwd.saveInvVariance m /\
   Fwd.runningMean (train_pa m) = Fwd.runningMean m /\
   Fwd.runningVariance (train_pa m) = Fwd.runningVariance m) /\
  (Fwd.saveMean (train_sp m) = Fwd.saveMean m /\
   Fwd.saveInvVariance (train_sp m) = Fwd.saveInvVariance m /\
   Fwd.runningMean (train_sp m) = Fwd.runningMean m /\
   Fwd.runningVariance (train_sp m) = Fwd.runningVariance m).
Proof.
  split.
  - unfold miopenBNFwdTrainPerActivationRunHost. repeat split.
    + apply (for3_frame Fwd.saveMean). intros.
      now rewrite fwd_train_pa_group_saveMean.
    + apply (for3_frame Fwd.saveInvVariance). intros.
      now rewrite fwd_train_pa_group_saveInvVariance.
    + apply (for3_frame Fwd.runningMean). intros.
      now rewrite fwd_train_pa_group_runningMean.
    + apply (for3_frame Fwd.runningVariance). intros.
      now rewrite fwd_train_pa_group_runningVariance.
  - unfold miopenBNFwdTrainSpatialRunHost, fwd_train_sp_channel. repeat split.
    + now apply (for_int_frame Fwd.saveMean).
    + now apply (for_int_frame Fwd.saveInvVariance).
    + now apply (for_int_frame Fwd.runningMean).
    + now apply (for_int_frame Fwd.runningVariance).
Qed.

(** C7.  Inference without estimates against training with both flags off,
    for arbitrary initial contents of the two output buffers.  At every
    element [(n, c, h, w)] of the tensor the inference call that computes
    the statistics from the batch ([estmeanvar = false]) and the training
    call with [savemeanvar = false] and [runningmeanvar = false] store the
    same value, in both modes; outside the tensor each call leaves its
    output buffer as it was; neither call changes a statistics array (the
    training call its four, the inference call the two estimate arrays it
    receives).  For every arithmetic whose multiplication commutes (the
    spatial training loop multiplies [invertVar*out], the inference loop
    [out*invertVar]). *)
Theorem C7_inference_as_training (m : Fwd.mem F) (mi : Inf.mem F) (n c h w j : Z) :
  (forall a b : F, smul a b = smul b a) ->
  dims_ok n_batchs channels height width ->
  (0 <= n < n_batchs -> 0 <= c < channels -> 0 <= h < height -> 0 <= w < width ->
   Fwd.out_ptr (train_pa m) (lin channels height width n c h w)
   = Inf.out_ptr (infer_pa mi) (lin channels height width n c h w) /\
   Fwd.out_ptr (train_sp m) (lin channels height width n c h w)
   = Inf.out_ptr (infer_sp mi) (lin channels height width n c h w)) /\
  ((forall n c h w, 0 <= n < n_batchs -> 0 <= c < channels -> 0 <= h < height ->
                    0 <= w < width -> lin channels height width n c h w <> j) ->
   Fwd.out_ptr (train_pa m) j = Fwd.out_ptr m j /\
   Fwd.out_ptr (train_sp m) j = Fwd.out_ptr m j /\
   Inf.out_ptr (infer_pa mi) j = Inf.out_ptr mi j /\
   Inf.out_ptr (infer_sp mi) j = Inf.out_ptr mi j) /\
  (Inf.estimatedMean (infer_pa mi) = Inf.estimatedMean mi /\
   Inf.estimatedVariance (infer_pa mi) = Inf.estimatedVariance mi /\
   Inf.estimatedMean (infer_sp mi) = Inf.estimatedMean mi /\
   Inf.estimatedVariance (infer_sp mi) = Inf.estimatedVariance mi) /\
  (Fwd.saveMean (train_pa m) = Fwd.saveMean m /\
   Fwd.saveInvVariance (train_pa m) = Fwd.saveInvVariance m /\
   Fwd.runningMean (train_pa m) = Fwd.runningMean m /\
   Fwd.runningVariance (train_pa m) = Fwd.runningVariance m) /\
  (Fwd.saveMean (train_sp m) = Fwd.saveMean m /\
   Fwd.saveInvVariance (train_sp m) = Fwd.saveInvVariance m /\
   Fwd.runningMean (train_sp m) = Fwd.runningMean m /\
   Fwd.runningVariance (train_sp m) = Fwd.runningVariance m).
Proof.
  intros Hcomm Hdims.
  split; [|split; [|split]].
  - intros Hn Hc Hh Hw. split.
    + rewrite (fwd_train_pa_out promote n_batchs channels height width in_ptr scale_ptr
                 bias_ptr epsilon false false expAvgFactor Hdims) by assumption.
      rewrite (fwd_infer_pa_batch_out promote n_batchs channels height width in_ptr
                 scale_ptr bias_ptr epsilon Hdims) by assumption.
      rewrite (pa_mean_members promote n_batchs channels height width Hdims)
        by assumption.
      rewrite (pa_variance_members promote n_batchs channels height width Hdims)
        by assumption.
      reflexivity.
    + rewrite (fwd_train_sp_out promote n_batchs channels height width in_ptr scale_ptr
                 bias_ptr epsilon false false expAvgFactor Hdims) by assumption.
      rewrite (fwd_infer_sp_batch_out promote n_batchs channels height width in_ptr
                 scale_ptr bias_ptr epsilon Hdims) by assumption.
      unfold fwd_sp_train_y, fwd_pa_y. cbv beta. f_equal. f_equal. apply Hcomm.
  - intros Hj. repeat split.
    + now apply (fwd_train_pa_out_frame promote n_batchs channels height width in_ptr
                   scale_ptr bias_ptr epsilon false false expAvgFactor Hdims).
    + now apply (fwd_train_sp_out_frame promote n_batchs channels height width in_ptr
                   scale_ptr bias_ptr epsilon false false expAvgFactor Hdims).
    + now apply (fwd_infer_pa_out_frame promote n_batchs channels height width in_ptr
                   scale_ptr bias_ptr epsilon Hdims).
    + now apply (fwd_infer_sp_out_frame promote n_batchs channels height width in_ptr
                   scale_ptr bias_ptr epsilon Hdims).
  - destruct (fwd_infer_pa_estimates promote n_batchs channels height width in_ptr scale_ptr
                bias_ptr epsilon false mi) as [E1 E2].
    destruct (fwd_infer_sp_estimates promote n_batchs channels height width in_ptr scale_ptr
                bias_ptr epsilon false mi) as [E3 E4].
    now rewrite E1, E2, E3, E4.
  - apply fwd_train_flags_off_statistics.
Qed.
End InferenceAsTrainingClaim.

(** A run of C7 in the real numbers: two samples in one group; the
    training call starts on an output buffer holding 7, the inference call
    on one holding 9. *)
Lemma C7_inference_as_training_witness :
  dims_ok 2 1 1 1 /\
  Fwd.out_ptr
    (miopenBNFwdTrainSpatialRunHost (fun x : R => x) 2 1 1 1 (fun i => IZR (2 * i))
       (fun _ => 1%R) (fun _ => 0%R) 1%R false false 0%R
       (Fwd.Mem (fun _ => 7%R) (fun _ => 0%R) (fun _ => 0%R) (fun _ => 0%R) (fun _ => 0%R)))
    (lin 1 1 1 1 0 0 0)
  = Inf.out_ptr
      (miopenBNFwdInferSpatialRunHost (fun x : R => x) 2 1 1 1 (fun i => IZR (2 * i))
         (fun _ => 1%R) (fun _ => 0%R) 1%R false
         (Inf.Mem (fun _ => 9%R) (fun _ => 0%R) (fun _ => 0%R)))
      (lin 1 1 1 1 0 0 0).
Proof.
  assert (Hd : dims_ok 2 1 1 1) by (unfold dims_ok; lia).
  split; [exact Hd|].
  exact (proj2 (proj1 (C7_inference_as_training (fun x : R => x) 2 1 1 1
                         (fun i => IZR (2 * i)) (fun _ => 1%R) (fun _ => 0%R) 1%R 0%R
                         (Fwd.Mem (fun _ => 7%R) (fun _ => 0%R) (fun _ => 0%R) (fun _ => 0%R)
                            (fun _ => 0%R))
                         (Inf.Mem (fun _ => 9%R) (fun _ => 0%R) (fun _ => 0%R))
                         1 0 0 0 0 Rmult_comm Hd)
                      ltac:(lia) ltac:(lia) ltac:(lia) ltac:(lia))).
Defined.

(** C8: with [C = H = W = 1] and the same inputs the two modes emit the same
    [dbias] and [dscale], but the per-activation call writes [dx = [0, 1]]
    and the spatial call [dx = [1/4, -1/4]]. *)
Theorem C8_mode_equivalence_at_failing_input :
  (Bwd.dx_ptr (bwd_example_pa true [] [] []) 0 = 0%float /\
   Bwd.dx_ptr (bwd_example_pa true [] [] []) 1 = 1%float) /\
  (Bwd.dx_ptr (bwd_example_sp true [] [] []) 0 = 0.25%float /\
   Bwd.dx_ptr (bwd_example_sp true [] [] []) 1 = (-0.25)%float) /\
  (Bwd.dx_ptr (bwd_example_pa false [] [] []) 1 = 1%float /\
   Bwd.dx_ptr (bwd_example_sp false [] [] []) 1 = (-0.25)%float) /\
  (Bwd.dbias_ptr (bwd_example_pa true [] [] []) 0
   = Bwd.dbias_ptr (bwd_example_sp true [] [] []) 0 /\
   Bwd.dscale_ptr (bwd_example_pa true [] [] []) 0
   = Bwd.dscale_ptr (bwd_example_sp true [] [] []) 0).
Proof. vm_compute. repeat split; reflexivity. Qed.

(** C9, the claim as stated, fails: a training forward call with
    [n_batchs = 0] is not rejected; it divides the empty sum by the group
    size [0] and overwrites the saved and running statistics, which held [5],
    with the result. *)
Lemma C9_zero_batch_counterexample :
  Fwd.saveMean fwd_example_empty_batch 0 = nan /\
  Fwd.saveInvVariance fwd_example_empty_batch 0 = nan /\
  Fwd.runningMean fwd_example_empty_batch 0 = nan /\
  Fwd.runningVariance fwd_example_empty_batch 0 = nan /\
  PrimFloat.div 0%float (of_int 0) = nan /\
  Fwd.out_ptr fwd_example_empty_batch 0 = 7%float.
Proof. vm_compute. repeat split; reflexivity. Qed.

Section ZeroBatchClaim.
Context {F : Type} {SF : Scalar F} {T : Type}.
Variable promote : T -> F.
Variables channels height width : Z.
Variables x_ptr dy_ptr scale_ptr bias_ptr : buffer T.
Variable epsilon : F.
Variables savemeanvar runningmeanvar estmeanvar savedmeanvar : bool.
Variable expAvgFactor : F.
Variables savedMean savedInvVariance : buffer F.

(** C9 (as amended).  Zero-sized batch.  No entry point checks its
    configuration.  Called with [n_batchs = 0], each of the six host functions
    still runs its group loops: no element of [y] (forward) or [dx]
    (backward) is written, since the batch loops are empty, but for every
    group the empty sums are divided by the zero group size, and a training
    forward call with saving enabled stores [mean = 0/0] and
    [invVariance = 1/sqrt(0/0 + epsilon)].  For every interpretation of the
    arithmetic. *)
Theorem C9_zero_batch (m : Fwd.mem F) (mi : Inf.mem F) (mb : Bwd.mem F) (j c h w : Z) :
  dims_ok 0 channels height width ->
  0 <= c < channels -> 0 <= h < height -> 0 <= w < width ->
  let g := lin channels height width 0 c h w in
  let zero_by_zero := sdiv szero (of_int 0) in
  (Fwd.out_ptr
     (miopenBNFwdTrainPerActivationRunHost promote 0 channels height width x_ptr scale_ptr
        bias_ptr epsilon savemeanvar runningmeanvar expAvgFactor m) j
   = Fwd.out_ptr m j /\
   Fwd.out_ptr
     (miopenBNFwdTrainSpatialRunHost promote 0 channels height width x_ptr scale_ptr
        bias_ptr epsilon savemeanvar runningmeanvar expAvgFactor m) j
   = Fwd.out_ptr m j /\
   Inf.out_ptr
     (miopenBNFwdInferPerActivationRunHost promote 0 channels height width x_ptr scale_ptr
        bias_ptr epsilon estmeanvar mi) j
   = Inf.out_ptr mi j /\
   Inf.out_ptr
     (miopenBNFwdInferSpatialRunHost promote 0 channels height width x_ptr scale_ptr
        bias_ptr epsilon estmeanvar mi) j
   = Inf.out_ptr mi j /\
   Bwd.dx_ptr
     (miopenBNBwdPerActivationRunHost promote 0 channels height width x_ptr dy_ptr
        scale_ptr epsilon savedmeanvar savedMean savedInvVariance mb) j
   = Bwd.dx_ptr mb j /\
   Bwd.dx_ptr
     (miopenBNBwdSpatialRunHost promote 0 channels height width x_ptr dy_ptr
        scale_ptr epsilon savedmeanvar savedMean savedInvVariance mb) j
   = Bwd.dx_ptr mb j) /\
  (Fwd.saveMean
     (miopenBNFwdTrainPerActivationRunHost promote 0 channels height width x_ptr scale_ptr
        bias_ptr epsilon true runningmeanvar expAvgFactor m) g
   = zero_by_zero /\
   Fwd.saveInvVariance
     (miopenBNFwdTrainPerActivationRunHost promote 0 channels height width x_ptr scale_ptr
        bias_ptr epsilon true runningmeanvar expAvgFactor m) g
   = sdiv sone (ssqrt (sadd zero_by_zero epsilon))) /\
  (Fwd.saveMean
     (miopenBNFwdTrainSpatialRunHost promote 0 channels height width x_ptr scale_ptr
        bias_ptr epsilon true runningmeanvar expAvgFactor m) c
   = zero_by_zero /\
   Fwd.saveInvVariance
     (miopenBNFwdTrainSpatialRunHost promote 0 channels height width x_ptr scale_ptr
        bias_ptr epsilon true runningmeanvar expAvgFactor m) c
   = sdiv sone (ssqrt (sadd zero_by_zero epsilon))).
Proof.
  intros Hdims Hc Hh Hw g zero_by_zero.
  assert (Hnone : forall n c' h' w', 0 <= n < 0 -> 0 <= c' < channels -> 0 <= h' < height ->
                    0 <= w' < width -> lin channels height width n c' h' w' <> j)
    by (intros; lia).
  split; [|split].
  - repeat split.
    + now apply fwd_train_pa_out_frame.
    + now apply fwd_train_sp_out_frame.
    + now apply fwd_infer_pa_out_frame.
    + now apply fwd_infer_sp_out_frame.
    + now apply bwd_pa_dx_frame.
    + now apply bwd_sp_dx_frame.
  - unfold g. split.
    + rewrite (fwd_train_pa_saveMean promote 0 channels height width x_ptr scale_ptr
                 bias_ptr epsilon true runningmeanvar expAvgFactor Hdims) by assumption.
      reflexivity.
    + rewrite (fwd_train_pa_saveInvVariance promote 0 channels height width x_ptr scale_ptr
                 bias_ptr epsilon true runningmeanvar expAvgFactor Hdims) by assumption.
      reflexivity.
  - split.
    + rewrite (fwd_train_sp_saveMean promote 0 channels height width x_ptr scale_ptr
                 bias_ptr epsilon true runningmeanvar expAvgFactor Hdims) by assumption.
      unfold group_mean. now rewrite sp_members_empty_batch.
    + rewrite (fwd_train_sp_saveInvVariance promote 0 channels height width x_ptr scale_ptr
                 bias_ptr epsilon true runningmeanvar expAvgFactor Hdims) by assumption.
      unfold group_variance, group_mean. now rewrite sp_members_empty_batch.
Qed.
End ZeroBatchClaim.

(** A run of C9: one group, read in the real numbers. *)
Lemma C9_zero_batch_witness :
  dims_ok 0 1 1 1 /\
  Fwd.saveMean
    (miopenBNFwdTrainPerActivationRunHost (fun x : R => x) 0 1 1 1 (fun _ => 0%R)
       (fun _ => 1%R) (fun _ => 0%R) 1%R true false 0%R
       (Fwd.Mem (fun _ => 0%R) (fun _ => 5%R) (fun _ => 5%R) (fun _ => 5%R) (fun _ => 5%R)))
    (lin 1 1 1 0 0 0 0)
  = sdiv szero (of_int 0).
Proof.
  assert (Hd : dims_ok 0 1 1 1) by (unfold dims_ok; lia).
  split; [exact Hd|].
  exact (proj1 (proj1 (proj2 (C9_zero_batch (fun x : R => x) 1 1 1 (fun _ => 0%R)
                                (fun _ => 0%R) (fun _ => 1%R) (fun _ => 0%R) 1%R
                                false false false false 0%R (fun _ => 0%R) (fun _ => 0%R)
                                (Fwd.Mem (fun _ => 0%R) (fun _ => 5%R) (fun _ => 5%R)
                                   (fun _ => 5%R) (fun _ => 5%R))
                                (Inf.Mem (fun _ => 0%R) (fun _ => 0%R) (fun _ => 0%R))
                                (Bwd.Mem (fun _ => 0%R) (fun _ => 0%R) (fun _ => 0%R)
                                   (fun _ => 0%R))
                                0 0 0 0 Hd ltac:(lia) ltac:(lia) ltac:(lia))))).
Defined.

Section HostKernelClaim.
Context {T : Type}.
Variable promote : T -> R.
Variable to_io : R -> T.
Variables n_batchs channels height width : Z.
Variables x_ptr scale_ptr bias_ptr : buffer T.
Variable epsilon : R.

End HostKernelClaim.


(** * Further properties of the backward and forward calls *)

Section SpatialGradientFormula.
Context {T : Type}.
Variable promote : T -> R.
Variables n_batchs channels height width : Z.
Variables x_ptr dy_ptr scale_ptr : buffer T.
Variable epsilon : R.
Variables savedMean savedInvVariance : buffer R.

(** X1.  The spatial backward call, on either statistics path, writes
    [dx_i = (invVar/M)*(M*scale*dy_i - scale*dbias[c] - xhat_i*scale*dscale[c])]
    where [dbias[c]] and [dscale[c]] are the values the call leaves in the two
    accumulator arrays ([dscale[c]] already divided by [M]).  Real-number
    reading. *)
Theorem X1_spatial_dx_formula (savedmeanvar : bool) (m : Bwd.mem R) (n c h w : Z) :
  dims_ok n_batchs channels height width ->
  0 <= n < n_batchs -> 0 <= c < channels -> 0 <= h < height -> 0 <= w < width ->
  let members := sp_members n_batchs channels height width c in
  let M := n_batchs * (height * width) in
  let x := fun i => promote (x_ptr i) in
  let mean_sp := (1 / IZR M * Rsum (map x members))%R in
  let variance_sp := (1 / IZR M * Rsum (map (fun v => (v - mean_sp) ^ 2) (map x members)))%R in
  let mu := if savedmeanvar then savedMean c else mean_sp in
  let iv := if savedmeanvar then savedInvVariance c
            else invVariance_contract variance_sp epsilon in
  let idx := lin channels height width n c h w in
  let bwd_sp :=
    miopenBNBwdSpatialRunHost promote n_batchs channels height width x_ptr dy_ptr
      scale_ptr epsilon savedmeanvar savedMean savedInvVariance m in
  Bwd.dx_ptr bwd_sp idx
  = dx_contract iv (IZR M) (promote (scale_ptr c)) (promote (dy_ptr idx))
      (Bwd.dbias_ptr bwd_sp c) (Bwd.dscale_ptr bwd_sp c) (xhat_contract (x idx) mu iv).
Proof.
  intros Hdims Hn Hc Hh Hw members M x mean_sp variance_sp mu iv idx bwd_sp.
  assert (Hmsp : group_mean promote x_ptr members M = mean_sp) by apply group_mean_R.
  assert (Hvsp : group_variance promote x_ptr members M = variance_sp)
    by apply group_variance_R.
  unfold bwd_sp, mu, iv, idx, invVariance_contract. destruct savedmeanvar.
  - destruct (bwd_sp_saved_run promote n_batchs channels height width x_ptr dy_ptr
                scale_ptr epsilon savedMean savedInvVariance Hdims m c n h w Hc Hn Hh Hw)
      as (E1 & E2 & E3).
    rewrite E3, E1, E2.
    unfold bwd_sp_saved_dx, dx_contract, xhat_contract. simpl. unfold Rdiv.
    subst x M. cbv beta. ring.
  - destruct (bwd_sp_recompute_run promote n_batchs channels height width x_ptr dy_ptr
                scale_ptr epsilon savedMean savedInvVariance Hdims m c n h w Hc Hn Hh Hw)
      as (E1 & E2 & E3).
    rewrite E3, E1, E2. fold members M. rewrite Hmsp, Hvsp.
    unfold bwd_sp_recompute_dx, dx_contract, xhat_contract. simpl. unfold Rdiv.
    subst x M. cbv beta. ring.
Qed.
End SpatialGradientFormula.

(** A run of X1: the call of C1 in spatial mode, read in the real numbers. *)
Lemma X1_spatial_dx_formula_witness :
  dims_ok 2 1 1 1 /\
  Bwd.dx_ptr
    (miopenBNBwdSpatialRunHost (fun x : R => x) 2 1 1 1 (fun i => IZR (2 * i))
       (fun i => IZR (1 - i)) (fun _ => 1%R) 0%R true (fun _ => 1%R) (fun _ => 1%R)
       (Bwd.Mem (fun _ => 0%R) (fun _ => 0%R) (fun _ => 0%R) (fun _ => 0%R)))
    (lin 1 1 1 1 0 0 0)
  = dx_contract 1%R (IZR (2 * (1 * 1))) 1%R (IZR (1 - lin 1 1 1 1 0 0 0))
      (Bwd.dbias_ptr
         (miopenBNBwdSpatialRunHost (fun x : R => x) 2 1 1 1 (fun i => IZR (2 * i))
            (fun i => IZR (1 - i)) (fun _ => 1%R) 0%R true (fun _ => 1%R) (fun _ => 1%R)
            (Bwd.Mem (fun _ => 0%R) (fun _ => 0%R) (fun _ => 0%R) (fun _ => 0%R))) 0)
      (Bwd.dscale_ptr
         (miopenBNBwdSpatialRunHost (fun x : R => x) 2 1 1 1 (fun i => IZR (2 * i))
            (fun i => IZR (1 - i)) (fun _ => 1%R) 0%R true (fun _ => 1%R) (fun _ => 1%R)
            (Bwd.Mem (fun _ => 0%R) (fun _ => 0%R) (fun _ => 0%R) (fun _ => 0%R))) 0)
      (xhat_contract (IZR (2 * lin 1 1 1 1 0 0 0)) 1%R 1%R).
Proof.
  assert (Hd : dims_ok 2 1 1 1) by (unfold dims_ok; lia).
  split; [exact Hd|].
  exact (X1_spatial_dx_formula (fun x : R => x) 2 1 1 1 (fun i => IZR (2 * i))
           (fun i => IZR (1 - i)) (fun _ => 1%R) 0%R (fun _ => 1%R) (fun _ => 1%R) true
           (Bwd.Mem (fun _ => 0%R) (fun _ => 0%R) (fun _ => 0%R) (fun _ => 0%R))
           1 0 0 0 Hd ltac:(lia) ltac:(lia) ltac:(lia) ltac:(lia)).
Defined.

Section SpatialRecomputeInitialContents.
Context {F : Type} {SF : Scalar F} {T : Type}.
Variable promote : T -> F.
Variables n_batchs channels height width : Z.
Variables x_ptr dy_ptr scale_ptr : buffer T.
Variable epsilon : F.
Variables savedMean savedInvVariance : buffer F.

(** X2.  The spatial backward call that recomputes the statistics
    ([savedmeanvar = false]) clears its accumulators first: two runs on the
    same inputs end with the same [dbias[c]], [dscale[c]] and [dx] element,
    whatever the three arrays held on entry.  For every arithmetic. *)
Theorem X2_spatial_recompute_ignores_initial_contents (m1 m2 : Bwd.mem F) (n c h w : Z) :
  dims_ok n_batchs channels height width ->
  0 <= n < n_batchs -> 0 <= c < channels -> 0 <= h < height -> 0 <= w < width ->
  let run m :=
    miopenBNBwdSpatialRunHost promote n_batchs channels height width x_ptr dy_ptr
      scale_ptr epsilon false savedMean savedInvVariance m in
  Bwd.dbias_ptr (run m1) c = Bwd.dbias_ptr (run m2) c /\
  Bwd.dscale_ptr (run m1) c = Bwd.dscale_ptr (run m2) c /\
  Bwd.dx_ptr (run m1) (lin channels height width n c h w)
  = Bwd.dx_ptr (run m2) (lin channels height width n c h w).
Proof.
  intros Hdims Hn Hc Hh Hw run.
  destruct (bwd_sp_recompute_run promote n_batchs channels height width x_ptr dy_ptr
              scale_ptr epsilon savedMean savedInvVariance Hdims m1 c n h w Hc Hn Hh Hw)
    as (E1 & E2 & E3).
  destruct (bwd_sp_recompute_run promote n_batchs channels height width x_ptr dy_ptr
              scale_ptr epsilon savedMean savedInvVariance Hdims m2 c n h w Hc Hn Hh Hw)
    as (G1 & G2 & G3).
  unfold run. now rewrite E1, E2, E3, G1, G2, G3.
Qed.
End SpatialRecomputeInitialContents.

(** A run of X2 on binary64: the call of C6 with [savedmeanvar = false]. *)
Lemma X2_spatial_recompute_ignores_initial_contents_witness :
  dims_ok 2 1 1 1 /\
  Bwd.dbias_ptr (bwd_example_sp false [] [] [0%float]) 0
  = Bwd.dbias_ptr (bwd_example_sp false [] [] [1%float]) 0.
Proof.
  assert (Hd : dims_ok 2 1 1 1) by (unfold dims_ok; lia).
  split; [exact Hd|].
  exact (proj1 (X2_spatial_recompute_ignores_initial_contents did 2 1 1 1
                  (dbuf [0; 2]%float) (dbuf [1; 0]%float) (dbuf [1]%float) 0%float
                  (dbuf [1]%float) (dbuf [1]%float)
                  (Bwd.Mem (dbuf []) (dbuf []) (dbuf [0%float]) (dbuf []))
                  (Bwd.Mem (dbuf []) (dbuf []) (dbuf [1%float]) (dbuf []))
                  0 0 0 0 Hd ltac:(lia) ltac:(lia) ltac:(lia) ltac:(lia))).
Defined.

Lemma members_single_point (n_batchs : Z) :
  sp_members n_batchs 1 1 1 0 = pa_members n_batchs 1 1 1 0 0 0.
Proof.
  unfold sp_members, pa_members. change (zrange 1) with [0].
  cbn [flat_map]. now rewrite !app_nil_r.
Qed.

Section ModeEquivalence.
Context {T : Type}.
Variable promote : T -> R.
Variable n_batchs : Z.
Variables x_ptr dy_ptr scale_ptr bias_ptr : buffer T.
Variable epsilon : R.
Variables savemeanvar runningmeanvar savedmeanvar : bool.
Variable expAvgFactor : R.
Variables savedMean savedInvVariance : buffer R.

(** X3.  Mode equivalence at [C = H = W = 1], the part that holds.  On the
    same inputs the per-activation and the spatial training forward write the
    same [y], saved mean, saved inverse deviation, running mean and running
    variance; and, started on accumulators that hold zero, the two backward
    calls leave the same [dbias] and [dscale].  ([dx] differs, see C8.)
    Real-number reading. *)
Theorem X3_mode_equivalence_forward (m : Fwd.mem R) (mb : Bwd.mem R) (n : Z) :
  dims_ok n_batchs 1 1 1 ->
  0 <= n < n_batchs ->
  Bwd.dbias_ptr mb 0 = 0%R -> Bwd.dscale_ptr mb 0 = 0%R ->
  let train_pa :=
    miopenBNFwdTrainPerActivationRunHost promote n_batchs 1 1 1 x_ptr scale_ptr bias_ptr
      epsilon savemeanvar runningmeanvar expAvgFactor m in
  let train_sp :=
    miopenBNFwdTrainSpatialRunHost promote n_batchs 1 1 1 x_ptr scale_ptr bias_ptr
      epsilon savemeanvar runningmeanvar expAvgFactor m in
  let bwd_pa :=
    miopenBNBwdPerActivationRunHost promote n_batchs 1 1 1 x_ptr dy_ptr scale_ptr epsilon
      savedmeanvar savedMean savedInvVariance mb in
  let bwd_sp :=
    miopenBNBwdSpatialRunHost promote n_batchs 1 1 1 x_ptr dy_ptr scale_ptr epsilon
      savedmeanvar savedMean savedInvVariance mb in
  (Fwd.out_ptr train_pa n = Fwd.out_ptr train_sp n /\
   Fwd.saveMean train_pa 0 = Fwd.saveMean train_sp 0 /\
   Fwd.saveInvVariance train_pa 0 = Fwd.saveInvVariance train_sp 0 /\
   Fwd.runningMean train_pa 0 = Fwd.runningMean train_sp 0 /\
   Fwd.runningVariance train_pa 0 = Fwd.runningVariance train_sp 0) /\
  (Bwd.dbias_ptr bwd_pa 0 = Bwd.dbias_ptr bwd_sp 0 /\
   Bwd.dscale_ptr bwd_pa 0 = Bwd.dscale_ptr bwd_sp 0).
Proof.
  intros Hdims Hn Hb0 Hs0 train_pa train_sp bwd_pa bwd_sp.
  assert (H0 : 0 <= 0 < 1) by lia.
  assert (Hl0 : lin 1 1 1 0 0 0 0 = 0) by reflexivity.
  assert (Hln : lin 1 1 1 n 0 0 0 = n) by (unfold lin; lia).
  assert (HM : n_batchs * (1 * 1) = n_batchs) by lia.
  pose proof (pa_mean_members promote n_batchs 1 1 1 Hdims x_ptr 0 0 0 H0 H0 H0) as Hm.
  pose proof (pa_variance_members promote n_batchs 1 1 1 Hdims x_ptr 0 0 0 H0 H0 H0) as Hv.
  rewrite Hl0 in Hm, Hv.
  split.
  - pose proof (fwd_train_pa_out promote n_batchs 1 1 1 x_ptr scale_ptr bias_ptr epsilon
                  savemeanvar runningmeanvar expAvgFactor Hdims m n 0 0 0 Hn H0 H0 H0) as P1.
    pose proof (fwd_train_sp_out promote n_batchs 1 1 1 x_ptr scale_ptr bias_ptr epsilon
                  savemeanvar runningmeanvar expAvgFactor Hdims m n 0 0 0 Hn H0 H0 H0) as S1.
    pose proof (fwd_train_pa_saveMean promote n_batchs 1 1 1 x_ptr scale_ptr bias_ptr epsilon
                  savemeanvar runningmeanvar expAvgFactor Hdims m 0 0 0 H0 H0 H0) as P2.
    pose proof (fwd_train_sp_saveMean promote n_batchs 1 1 1 x_ptr scale_ptr bias_ptr epsilon
                  savemeanvar runningmeanvar expAvgFactor Hdims m 0 H0) as S2.
    pose proof (fwd_train_pa_saveInvVariance promote n_batchs 1 1 1 x_ptr scale_ptr bias_ptr
                  epsilon savemeanvar runningmeanvar expAvgFactor Hdims m 0 0 0 H0 H0 H0)
      as P3.
    pose proof (fwd_train_sp_saveInvVariance promote n_batchs 1 1 1 x_ptr scale_ptr bias_ptr
                  epsilon savemeanvar runningmeanvar expAvgFactor Hdims m 0 H0) as S3.
    pose proof (fwd_train_pa_runningMean promote n_batchs 1 1 1 x_ptr scale_ptr bias_ptr
                  epsilon savemeanvar runningmeanvar expAvgFactor Hdims m 0 0 0 H0 H0 H0)
      as P4.
    pose proof (fwd_train_sp_runningMean promote n_batchs 1 1 1 x_ptr scale_ptr bias_ptr
                  epsilon savemeanvar runningmeanvar expAvgFactor Hdims m 0 H0) as S4.
    pose proof (fwd_train_pa_runningVariance promote n_batchs 1 1 1 x_ptr scale_ptr bias_ptr
                  epsilon savemeanvar runningmeanvar expAvgFactor Hdims m 0 0 0 H0 H0 H0)
      as P5.
    pose proof (fwd_train_sp_runningVariance promote n_batchs 1 1 1 x_ptr scale_ptr bias_ptr
                  epsilon savemeanvar runningmeanvar expAvgFactor Hdims m 0 H0) as S5.
    rewrite Hl0 in *. rewrite Hln in *. rewrite Hm, Hv in *.
    unfold train_pa, train_sp.
    rewrite P1, S1, P2, S2, P3, S3, P4, S4, P5, S5.
    rewrite !members_single_point, !HM.
    unfold fwd_pa_y, fwd_sp_train_y.
    split; [simpl; ring|].
    split; [reflexivity|]. split; [reflexivity|]. split; [reflexivity|].
    destruct runningmeanvar; [|reflexivity].
    destruct (n_batchs =? 1); [reflexivity|]. simpl. now rewrite minus_IZR.
  - pose proof (bwd_pa_dbias promote n_batchs 1 1 1 x_ptr dy_ptr scale_ptr epsilon
                  savedMean savedInvVariance Hdims savedmeanvar mb 0 0 0 H0 H0 H0) as P1.
    pose proof (bwd_pa_dscale promote n_batchs 1 1 1 x_ptr dy_ptr scale_ptr epsilon
                  savedMean savedInvVariance Hdims savedmeanvar mb 0 0 0 H0 H0 H0) as P2.
    rewrite Hl0 in *. unfold bwd_pa_stats in P2. rewrite Hm, Hv in P2.
    unfold bwd_pa, bwd_sp. rewrite P1, P2, Hb0, Hs0. destruct savedmeanvar.
    + destruct (bwd_sp_saved_run_accumulators promote n_batchs 1 1 1 x_ptr dy_ptr scale_ptr
                  epsilon savedMean savedInvVariance Hdims mb 0 H0) as [-> ->].
      now rewrite members_single_point, HM, Hb0, Hs0.
    + destruct (bwd_sp_recompute_run_accumulators promote n_batchs 1 1 1 x_ptr dy_ptr
                  scale_ptr epsilon savedMean savedInvVariance Hdims mb 0 H0) as [-> ->].
      now rewrite members_single_point, HM.
Qed.
End ModeEquivalence.

(** A run of X3: two samples [0, 2], read in the real numbers. *)
Lemma X3_mode_equivalence_forward_witness :
  dims_ok 2 1 1 1 /\
  Fwd.out_ptr
    (miopenBNFwdTrainPerActivationRunHost (fun x : R => x) 2 1 1 1 (fun i => IZR (2 * i))
       (fun _ => 1%R) (fun _ => 0%R) 1%R true true (1 / 2)%R
       (Fwd.Mem (fun _ => 0%R) (fun _ => 0%R) (fun _ => 0%R) (fun _ => 0%R) (fun _ => 0%R)))
    1
  = Fwd.out_ptr
      (miopenBNFwdTrainSpatialRunHost (fun x : R => x) 2 1 1 1 (fun i => IZR (2 * i))
         (fun _ => 1%R) (fun _ => 0%R) 1%R true true (1 / 2)%R
         (Fwd.Mem (fun _ => 0%R) (fun _ => 0%R) (fun _ => 0%R) (fun _ => 0%R)
            (fun _ => 0%R)))
      1.
Proof.
  assert (Hd : dims_ok 2 1 1 1) by (unfold dims_ok; lia).
  split; [exact Hd|].
  exact (proj1 (proj1 (X3_mode_equivalence_forward (fun x : R => x) 2 (fun i => IZR (2 * i))
                         (fun i => IZR (1 - i)) (fun _ => 1%R) (fun _ => 0%R) 1%R
                         true true true (1 / 2)%R (fun _ => 1%R) (fun _ => 1%R)
                         (Fwd.Mem (fun _ => 0%R) (fun _ => 0%R) (fun _ => 0%R) (fun _ => 0%R)
                            (fun _ => 0%R))
                         (Bwd.Mem (fun _ => 0%R) (fun _ => 0%R) (fun _ => 0%R) (fun _ => 0%R))
                         1 Hd ltac:(lia) eq_refl eq_refl))).
Defined.

(** * Further properties: where the entry points write *)

Section OutsideTheTensor.
Variables n_batchs channels height width : Z.
Hypothesis Hdims : dims_ok n_batchs channels height width.

Lemma lin_outside (j n c h w : Z) :
  j < 0 \/ n_batchs * (channels * height * width) <= j ->
  0 <= n < n_batchs -> 0 <= c < channels -> 0 <= h < height -> 0 <= w < width ->
  lin channels height width n c h w <> j.
Proof.
  intros Hj Hn Hc Hh Hw.
  pose proof (lin_bound n_batchs channels height width n c h w Hn Hc Hh Hw). lia.
Qed.

Lemma group_index_outside (j c h w : Z) :
  j < 0 \/ channels * height * width <= j ->
  0 <= c < channels -> 0 <= h < height -> 0 <= w < width ->
  j <> adjIndex_at height width c h w.
Proof.
  intros Hj Hc Hh Hw.
  rewrite (adjIndex_at_lin n_batchs channels height width Hdims) by assumption.
  pose proof (image_bound channels height width c h w Hc Hh Hw). unfold lin. lia.
Qed.

Lemma xhat_index_inside (n c h w : Z) :
  0 <= n < n_batchs -> 0 <= c < channels -> 0 <= h < height -> 0 <= w < width ->
  0 <= xhat_index_at height width n h w < n_batchs * (height * width).
Proof.
  intros Hn Hc Hh Hw.
  rewrite (xhat_index_at_eq n_batchs channels height width Hdims n c) by assumption.
  pose proof (plane_bound height width h w Hh Hw).
  assert (n * (height * width) + height * width <= n_batchs * (height * width)) by nia.
  nia.
Qed.
End OutsideTheTensor.

Section ForwardWritesInBounds.
Context {F : Type} {SF : Scalar F} {T : Type}.
Variable promote : T -> F.
Variables n_batchs channels height width : Z.
Variables in_ptr scale_ptr bias_ptr : buffer T.
Variable epsilon : F.
Variables savemeanvar runningmeanvar estmeanvar : bool.
Variable expAvgFactor : F.
Hypothesis Hdims : dims_ok n_batchs channels height width.

Local Abbreviation train_pa :=
  (miopenBNFwdTrainPerActivationRunHost promote n_batchs channels height width in_ptr
     scale_ptr bias_ptr epsilon savemeanvar runningmeanvar expAvgFactor).
Local Abbreviation train_sp :=
  (miopenBNFwdTrainSpatialRunHost promote n_batchs channels height width in_ptr
     scale_ptr bias_ptr epsilon savemeanvar runningmeanvar expAvgFactor).

(** A per-activation training call leaves the four statistics arrays alone
    at every index that is not a group index. *)
Lemma fwd_train_pa_statistics_frame (m : Fwd.mem F) (j : Z) :
  (forall c h w, 0 <= c < channels -> 0 <= h < height -> 0 <= w < width ->
                 j <> adjIndex_at height width c h w) ->
  Fwd.saveMean (train_pa m) j = Fwd.saveMean m j /\
  Fwd.saveInvVariance (train_pa m) j = Fwd.saveInvVariance m j /\
  Fwd.runningMean (train_pa m) j = Fwd.runningMean m j /\
  Fwd.runningVariance (train_pa m) j = Fwd.runningVariance m j.
Proof.
  intros Hj. unfold miopenBNFwdTrainPerActivationRunHost. repeat split.
  - apply (for3_frame (fun t : Fwd.mem F => Fwd.saveMean t j)).
    intros c h w t Hc Hh Hw. rewrite fwd_train_pa_group_saveMean.
    destruct savemeanvar; [|reflexivity]. apply upd_other. now apply Hj.
  - apply (for3_frame (fun t : Fwd.mem F => Fwd.saveInvVariance t j)).
    intros c h w t Hc Hh Hw. rewrite fwd_train_pa_group_saveInvVariance.
    destruct savemeanvar; [|reflexivity]. apply upd_other. now apply Hj.
  - apply (for3_frame (fun t : Fwd.mem F => Fwd.runningMean t j)).
    intros c h w t Hc Hh Hw. rewrite fwd_train_pa_group_runningMean.
    destruct runningmeanvar; [|reflexivity]. apply upd_other. now apply Hj.
  - apply (for3_frame (fun t : Fwd.mem F => Fwd.runningVariance t j)).
    intros c h w t Hc Hh Hw. rewrite fwd_train_pa_group_runningVariance.
    destruct runningmeanvar; [|reflexivity]. apply upd_other. now apply Hj.
Qed.

(** A spatial training call leaves them alone at every index that is not a
    channel. *)
Lemma fwd_train_sp_statistics_frame (m : Fwd.mem F) (j : Z) :
  j < 0 \/ channels <= j ->
  Fwd.saveMean (train_sp m) j = Fwd.saveMean m j /\
  Fwd.saveInvVariance (train_sp m) j = Fwd.saveInvVariance m j /\
  Fwd.runningMean (train_sp m) j = Fwd.runningMean m j /\
  Fwd.runningVariance (train_sp m) j = Fwd.runningVariance m j.
Proof.
  intros Hj. unfold miopenBNFwdTrainSpatialRunHost. repeat split.
  - apply (for_int_frame (fun t : Fwd.mem F => Fwd.saveMean t j)).
    intros c t Hc.
    rewrite (fwd_train_sp_channel_saveMean promote n_batchs channels height width in_ptr
               scale_ptr bias_ptr epsilon savemeanvar runningmeanvar expAvgFactor Hdims)
      by assumption.
    destruct savemeanvar; [|reflexivity]. apply upd_other. lia.
  - apply (for_int_frame (fun t : Fwd.mem F => Fwd.saveInvVariance t j)).
    intros c t Hc.
    rewrite (fwd_train_sp_channel_saveInvVariance promote n_batchs channels height width
               in_ptr scale_ptr bias_ptr epsilon savemeanvar runningmeanvar expAvgFactor
               Hdims) by assumption.
    destruct savemeanvar; [|reflexivity]. apply upd_other. lia.
  - apply (for_int_frame (fun t : Fwd.mem F => Fwd.runningMean t j)).
    intros c t Hc.
    rewrite (fwd_train_sp_channel_runningMean promote n_batchs channels height width in_ptr
               scale_ptr bias_ptr epsilon savemeanvar runningmeanvar expAvgFactor Hdims)
      by assumption.
    destruct runningmeanvar; [|reflexivity]. apply upd_other. lia.
  - apply (for_int_frame (fun t : Fwd.mem F => Fwd.runningVariance t j)).
    intros c t Hc.
    rewrite (fwd_train_sp_channel_runningVariance promote n_batchs channels height width
               in_ptr scale_ptr bias_ptr epsilon savemeanvar runningmeanvar expAvgFactor
               Hdims) by assumption.
    destruct runningmeanvar; [|reflexivity]. apply upd_other. lia.
Qed.
End ForwardWritesInBounds.

Section ForwardInBoundsStatement.
Context {F : Type} {SF : Scalar F} {T : Type}.
Variable promote : T -> F.
Variables n_batchs channels height width : Z.
Variables in_ptr scale_ptr bias_ptr : buffer T.
Variable epsilon : F.
Variables savemeanvar runningmeanvar estmeanvar : bool.
Variable expAvgFactor : F.

(** X4.  No forward entry point writes outside its arrays.  Whatever the
    flags, the output array keeps its contents at every index outside
    [0, N*C*H*W) (training and inference, both modes); a per-activation
    training call keeps the four statistics arrays at every index outside
    [0, C*H*W), a spatial one at every index outside [0, C).  For every
    arithmetic. *)
Theorem X4_forward_writes_in_bounds (m : Fwd.mem F) (mi : Inf.mem F) (j : Z) :
  dims_ok n_batchs channels height width ->
  let train_pa :=
    miopenBNFwdTrainPerActivationRunHost promote n_batchs channels height width in_ptr
      scale_ptr bias_ptr epsilon savemeanvar runningmeanvar expAvgFactor m in
  let train_sp :=
    miopenBNFwdTrainSpatialRunHost promote n_batchs channels height width in_ptr
      scale_ptr bias_ptr epsilon savemeanvar runningmeanvar expAvgFactor m in
  let infer_pa :=
    miopenBNFwdInferPerActivationRunHost promote n_batchs channels height width in_ptr
      scale_ptr bias_ptr epsilon estmeanvar mi in
  let infer_sp :=
    miopenBNFwdInferSpatialRunHost promote n_batchs channels height width in_ptr
      scale_ptr bias_ptr epsilon estmeanvar mi in
  (j < 0 \/ n_batchs * (channels * height * width) <= j ->
   Fwd.out_ptr train_pa j = Fwd.out_ptr m j /\
   Fwd.out_ptr train_sp j = Fwd.out_ptr m j /\
   Inf.out_ptr infer_pa j = Inf.out_ptr mi j /\
   Inf.out_ptr infer_sp j = Inf.out_ptr mi j) /\
  (j < 0 \/ channels * height * width <= j ->
   Fwd.saveMean train_pa j = Fwd.saveMean m j /\
   Fwd.saveInvVariance train_pa j = Fwd.saveInvVariance m j /\
   Fwd.runningMean train_pa j = Fwd.runningMean m j /\
   Fwd.runningVariance train_pa j = Fwd.runningVariance m j) /\
  (j < 0 \/ channels <= j ->
   Fwd.saveMean train_sp j = Fwd.saveMean m j /\
   Fwd.saveInvVariance train_sp j = Fwd.saveInvVariance m j /\
   Fwd.runningMean train_sp j = Fwd.runningMean m j /\
   Fwd.runningVariance train_sp j = Fwd.runningVariance m j).
Proof.
  intros Hdims train_pa train_sp infer_pa infer_sp.
  split; [|split].
  - intros Hj.
    assert (Hout : forall n c h w, 0 <= n < n_batchs -> 0 <= c < channels ->
                     0 <= h < height -> 0 <= w < width ->
                     lin channels height width n c h w <> j)
      by (intros; eapply lin_outside; eassumption).
    repeat split.
    + now apply fwd_train_pa_out_frame.
    + now apply fwd_train_sp_out_frame.
    + now apply fwd_infer_pa_out_frame.
    + now apply fwd_infer_sp_out_frame.
  - intros Hj. apply fwd_train_pa_statistics_frame.
    intros c h w Hc Hh Hw.
    eapply group_index_outside; eassumption.
  - intros Hj. now apply fwd_train_sp_statistics_frame.
Qed.
End ForwardInBoundsStatement.

(** A run of X4: index [2] of the arrays of a two-sample call. *)
Lemma X4_forward_writes_in_bounds_witness :
  dims_ok 2 1 1 1 /\
  Fwd.out_ptr
    (miopenBNFwdTrainPerActivationRunHost (fun x : R => x) 2 1 1 1 (fun i => IZR (2 * i))
       (fun _ => 1%R) (fun _ => 0%R) 1%R true true (1 / 2)%R
       (Fwd.Mem (fun _ => 7%R) (fun _ => 0%R) (fun _ => 0%R) (fun _ => 0%R) (fun _ => 0%R)))
    2
  = 7%R.
Proof.
  assert (Hd : dims_ok 2 1 1 1) by (unfold dims_ok; lia).
  split; [exact Hd|].
  exact (proj1 (proj1 (X4_forward_writes_in_bounds (fun x : R => x) 2 1 1 1
                         (fun i => IZR (2 * i)) (fun _ => 1%R) (fun _ => 0%R) 1%R
                         true true true (1 / 2)%R
                         (Fwd.Mem (fun _ => 7%R) (fun _ => 0%R) (fun _ => 0%R) (fun _ => 0%R)
                            (fun _ => 0%R))
                         (Inf.Mem (fun _ => 0%R) (fun _ => 0%R) (fun _ => 0%R))
                         2 Hd)
                      ltac:(lia))).
Defined.

Section BackwardWritesInBounds.
Context {F : Type} {SF : Scalar F} {T : Type}.
Variable promote : T -> F.
Variables n_batchs channels height width : Z.
Variables x_ptr dy_ptr scale_ptr : buffer T.
Variable epsilon : F.
Variables savedMean savedInvVariance : buffer F.
Hypothesis Hdims : dims_ok n_batchs channels height width.

Local Abbreviation grad :=
  (bwd_pa_grad promote n_batchs channels height width x_ptr dy_ptr scale_ptr).
Local Abbreviation run_pa :=
  (miopenBNBwdPerActivationRunHost promote n_batchs channels height width x_ptr dy_ptr
     scale_ptr epsilon).
Local Abbreviation run_sp :=
  (miopenBNBwdSpatialRunHost promote n_batchs channels height width x_ptr dy_ptr
     scale_ptr epsilon).

(** The gradient block of a per-activation group writes [xhat] only at the
    indices [xhat_index] of its batch loop. *)
Lemma bwd_pa_grad_xhat_frame (adjIndex row column j : Z) (mu iv : F) (m : Bwd.mem F) :
  (forall b, 0 <= b < n_batchs -> xhat_index_at height width b row column <> j) ->
  Bwd.xhat (grad adjIndex row column mu iv m) j = Bwd.xhat m j.
Proof.
  intros Hj. unfold bwd_pa_grad, bwd_pa_pass2.
  rewrite (for_int_frame (fun t : Bwd.mem F => Bwd.xhat t j)) by (intros; reflexivity).
  cbn [Bwd.set_dscale_ptr Bwd.xhat]. unfold bwd_pa_pass1.
  apply (for_int_frame (fun st : Bwd.mem F * (F * F) => Bwd.xhat (fst st) j)).
  intros b st Hb. cbn. apply upd_other. intros Heq. now apply (Hj b Hb).
Qed.

Lemma bwd_pa_accumulators_frame (savedmeanvar : bool) (m : Bwd.mem F) (j : Z) :
  (forall c h w, 0 <= c < channels -> 0 <= h < height -> 0 <= w < width ->
                 j <> adjIndex_at height width c h w) ->
  Bwd.dbias_ptr (run_pa savedmeanvar savedMean savedInvVariance m) j = Bwd.dbias_ptr m j /\
  Bwd.dscale_ptr (run_pa savedmeanvar savedMean savedInvVariance m) j = Bwd.dscale_ptr m j.
Proof.
  intros Hj. rewrite bwd_pa_run_groups. split.
  - rewrite (for3_frame (fun t : Bwd.mem F => Bwd.dbias_ptr t j)); [reflexivity|].
    intros c h w t Hc Hh Hw. now apply bwd_pa_grad_accumulators_frame, Hj.
  - rewrite (for3_frame (fun t : Bwd.mem F => Bwd.dscale_ptr t j)); [reflexivity|].
    intros c h w t Hc Hh Hw. now apply bwd_pa_grad_accumulators_frame, Hj.
Qed.

Lemma bwd_pa_xhat_frame (savedmeanvar : bool) (m : Bwd.mem F) (j : Z) :
  j < 0 \/ n_batchs * (height * width) <= j ->
  Bwd.xhat (run_pa savedmeanvar savedMean savedInvVariance m) j = szero.
Proof.
  intros Hj. rewrite bwd_pa_run_groups.
  rewrite (for3_frame (fun t : Bwd.mem F => Bwd.xhat t j)); [reflexivity|].
  intros c h w t Hc Hh Hw. apply bwd_pa_grad_xhat_frame.
  intros b Hb.
  pose proof (xhat_index_inside n_batchs channels height width Hdims b c h w Hb Hc Hh Hw).
  lia.
Qed.

Lemma bwd_sp_accumulators_frame (savedmeanvar : bool) (m : Bwd.mem F) (j : Z) :
  j < 0 \/ channels <= j ->
  Bwd.dbias_ptr (run_sp savedmeanvar savedMean savedInvVariance m) j = Bwd.dbias_ptr m j /\
  Bwd.dscale_ptr (run_sp savedmeanvar savedMean savedInvVariance m) j = Bwd.dscale_ptr m j.
Proof.
  intros Hj. unfold miopenBNBwdSpatialRunHost. destruct savedmeanvar.
  - split.
    + apply (for_int_frame (fun t : Bwd.mem F => Bwd.dbias_ptr t j)).
      intros c t Hc.
      destruct (bwd_sp_saved_channel_spec promote n_batchs channels height width x_ptr
                  dy_ptr scale_ptr savedMean savedInvVariance Hdims c t Hc)
        as (_ & _ & Hfr & _).
      apply Hfr. lia.
    + apply (for_int_frame (fun t : Bwd.mem F => Bwd.dscale_ptr t j)).
      intros c t Hc.
      destruct (bwd_sp_saved_channel_spec promote n_batchs channels height width x_ptr
                  dy_ptr scale_ptr savedMean savedInvVariance Hdims c t Hc)
        as (_ & _ & Hfr & _).
      apply Hfr. lia.
  - split.
    + rewrite (for_int_frame (fun t : Bwd.mem F => Bwd.dbias_ptr t j)); [reflexivity|].
      intros c t Hc.
      destruct (bwd_sp_recompute_channel_spec promote n_batchs channels height width x_ptr
                  dy_ptr scale_ptr epsilon Hdims c t Hc) as (_ & _ & Hfr & _).
      apply Hfr. lia.
    + rewrite (for_int_frame (fun t : Bwd.mem F => Bwd.dscale_ptr t j)); [reflexivity|].
      intros c t Hc.
      destruct (bwd_sp_recompute_channel_spec promote n_batchs channels height width x_ptr
                  dy_ptr scale_ptr epsilon Hdims c t Hc) as (_ & _ & Hfr & _).
      apply Hfr. lia.
Qed.

Lemma bwd_sp_recompute_xhat_frame (m : Bwd.mem F) (j : Z) :
  j < 0 \/ n_batchs * (height * width) <= j ->
  Bwd.xhat (run_sp false savedMean savedInvVariance m) j = szero.
Proof.
  intros Hj. unfold miopenBNBwdSpatialRunHost.
  rewrite (for_int_frame (fun t : Bwd.mem F => Bwd.xhat t j)); [reflexivity|].
  intros c t Hc. unfold bwd_sp_recompute_channel, bwd_sp_recompute_gradient.
  rewrite (for3_frame (fun t : Bwd.mem F => Bwd.xhat t j)) by (intros; reflexivity).
  cbn [Bwd.set_dscale_ptr Bwd.xhat]. unfold bwd_sp_recompute_accumulate.
  rewrite (for3_frame (fun t : Bwd.mem F => Bwd.xhat t j)); [reflexivity|].
  intros h w b u Hh Hw Hb. cbn. apply upd_other.
  pose proof (xhat_index_inside n_batchs channels height width Hdims b c h w Hb Hc Hh Hw).
  lia.
Qed.
End BackwardWritesInBounds.

Section BackwardInBoundsStatement.
Context {F : Type} {SF : Scalar F} {T : Type}.
Variable promote : T -> F.
Variables n_batchs channels height width : Z.
Variables x_ptr dy_ptr scale_ptr : buffer T.
Variable epsilon : F.
Variable savedmeanvar : bool.
Variables savedMean savedInvVariance : buffer F.

(** X5.  No backward entry point writes outside its arrays.  On either
    statistics path, [dx] keeps its contents at every index outside
    [0, N*C*H*W); [dscale] and [dbias] keep theirs outside [0, C*H*W) in
    per-activation mode and outside [0, C) in spatial mode; and the local
    [xhat] vector of [N*H*W] elements is never written past its end (it
    still holds its initial zero at every index outside [0, N*H*W)).  For
    every arithmetic. *)
Theorem X5_backward_writes_in_bounds (m : Bwd.mem F) (j : Z) :
  dims_ok n_batchs channels height width ->
  let bwd_pa :=
    miopenBNBwdPerActivationRunHost promote n_batchs channels height width x_ptr dy_ptr
      scale_ptr epsilon savedmeanvar savedMean savedInvVariance m in
  let bwd_sp :=
    miopenBNBwdSpatialRunHost promote n_batchs channels height width x_ptr dy_ptr
      scale_ptr epsilon savedmeanvar savedMean savedInvVariance m in
  let bwd_sp_recompute :=
    miopenBNBwdSpatialRunHost promote n_batchs channels height width x_ptr dy_ptr
      scale_ptr epsilon false savedMean savedInvVariance m in
  (j < 0 \/ n_batchs * (channels * height * width) <= j ->
   Bwd.dx_ptr bwd_pa j = Bwd.dx_ptr m j /\ Bwd.dx_ptr bwd_sp j = Bwd.dx_ptr m j) /\
  (j < 0 \/ channels * height * width <= j ->
   Bwd.dbias_ptr bwd_pa j = Bwd.dbias_ptr m j /\
   Bwd.dscale_ptr bwd_pa j = Bwd.dscale_ptr m j) /\
  (j < 0 \/ channels <= j ->
   Bwd.dbias_ptr bwd_sp j = Bwd.dbias_ptr m j /\
   Bwd.dscale_ptr bwd_sp j = Bwd.dscale_ptr m j) /\
  (j < 0 \/ n_batchs * (height * width) <= j ->
   Bwd.xhat bwd_pa j = szero /\ Bwd.xhat bwd_sp_recompute j = szero).
Proof.
  intros Hdims bwd_pa bwd_sp bwd_sp_recompute.
  split; [|split; [|split]].
  - intros Hj.
    assert (Hout : forall n c h w, 0 <= n < n_batchs -> 0 <= c < channels ->
                     0 <= h < height -> 0 <= w < width ->
                     lin channels height width n c h w <> j)
      by (intros; eapply lin_outside; eassumption).
    split.
    + now apply bwd_pa_dx_frame.
    + now apply bwd_sp_dx_frame.
  - intros Hj. apply bwd_pa_accumulators_frame.
    intros c h w Hc Hh Hw. eapply group_index_outside; eassumption.
  - intros Hj. now apply bwd_sp_accumulators_frame.
  - intros Hj. split.
    + now apply bwd_pa_xhat_frame.
    + now apply bwd_sp_recompute_xhat_frame.
Qed.
End BackwardInBoundsStatement.

(** A run of X5: index [2] of [dx] in the two-sample call of C1. *)
Lemma X5_backward_writes_in_bounds_witness :
  dims_ok 2 1 1 1 /\
  Bwd.dx_ptr
    (miopenBNBwdPerActivationRunHost (fun x : R => x) 2 1 1 1 (fun i => IZR (2 * i))
       (fun i => IZR (1 - i)) (fun _ => 1%R) 0%R true (fun _ => 1%R) (fun _ => 1%R)
       (Bwd.Mem (fun _ => 7%R) (fun _ => 0%R) (fun _ => 0%R) (fun _ => 0%R)))
    2
  = 7%R.
Proof.
  assert (Hd : dims_ok 2 1 1 1) by (unfold dims_ok; lia).
  split; [exact Hd|].
  exact (proj1 (proj1 (X5_backward_writes_in_bounds (fun x : R => x) 2 1 1 1
                         (fun i => IZR (2 * i)) (fun i => IZR (1 - i)) (fun _ => 1%R) 0%R
                         true (fun _ => 1%R) (fun _ => 1%R)
                         (Bwd.Mem (fun _ => 7%R) (fun _ => 0%R) (fun _ => 0%R) (fun _ => 0%R))
                         2 Hd)
                      ltac:(lia))).
Defined.

(** * Further properties: a group depends on its own inputs only *)

Section GroupExtensionality.
Context {F : Type} {SF : Scalar F} {T : Type}.
Variable promote : T -> F.
Variables n_batchs channels height width : Z.

Local Abbreviation ix := (lin channels height width).

Lemma accum_from_pa_ext (a : F) (f g : Z -> F) (c h w : Z) :
  (forall n, 0 <= n < n_batchs -> f (ix n c h w) = g (ix n c h w)) ->
  accum_from a f (pa_members n_batchs channels height width c h w)
  = accum_from a g (pa_members n_batchs channels height width c h w).
Proof.
  intros Hfg. unfold accum_from.
  rewrite <- (for_int_pa_members n_batchs channels height width
                (fun i acc => sadd acc (f i))).
  rewrite <- (for_int_pa_members n_batchs channels height width
                (fun i acc => sadd acc (g i))).
  apply for_int_ext. intros n t Hn. now rewrite Hfg.
Qed.

Lemma accum_from_sp_ext (a : F) (f g : Z -> F) (c : Z) :
  (forall n h w, 0 <= n < n_batchs -> 0 <= h < height -> 0 <= w < width ->
                 f (ix n c h w) = g (ix n c h w)) ->
  accum_from a f (sp_members n_batchs channels height width c)
  = accum_from a g (sp_members n_batchs channels height width c).
Proof.
  intros Hfg. unfold accum_from.
  rewrite <- (for3_sp_members n_batchs channels height width
                (fun i acc => sadd acc (f i))).
  rewrite <- (for3_sp_members n_batchs channels height width
                (fun i acc => sadd acc (g i))).
  apply for3_ext. intros h w n t Hh Hw Hn. now rewrite Hfg.
Qed.

Lemma group_statistics_pa_ext (x x' : buffer T) (c h w : Z) :
  (forall n, 0 <= n < n_batchs -> promote (x (ix n c h w)) = promote (x' (ix n c h w))) ->
  group_mean promote x (pa_members n_batchs channels height width c h w) n_batchs
  = group_mean promote x' (pa_members n_batchs channels height width c h w) n_batchs /\
  group_variance promote x (pa_members n_batchs channels height width c h w) n_batchs
  = group_variance promote x' (pa_members n_batchs channels height width c h w) n_batchs.
Proof.
  intros Hx.
  assert (Hm : group_mean promote x (pa_members n_batchs channels height width c h w) n_batchs
               = group_mean promote x' (pa_members n_batchs channels height width c h w)
                   n_batchs).
  { unfold group_mean. f_equal. now apply accum_from_pa_ext. }
  split; [exact Hm|].
  unfold group_variance. rewrite Hm. f_equal. apply accum_from_pa_ext.
  intros n Hn. now rewrite Hx.
Qed.

Lemma group_statistics_sp_ext (x x' : buffer T) (c M : Z) :
  (forall n h w, 0 <= n < n_batchs -> 0 <= h < height -> 0 <= w < width ->
                 promote (x (ix n c h w)) = promote (x' (ix n c h w))) ->
  group_mean promote x (sp_members n_batchs channels height width c) M
  = group_mean promote x' (sp_members n_batchs channels height width c) M /\
  group_variance promote x (sp_members n_batchs channels height width c) M
  = group_variance promote x' (sp_members n_batchs channels height width c) M.
Proof.
  intros Hx.
  assert (Hm : group_mean promote x (sp_members n_batchs channels height width c) M
               = group_mean promote x' (sp_members n_batchs channels height width c) M).
  { unfold group_mean. f_equal. now apply accum_from_sp_ext. }
  split; [exact Hm|].
  unfold group_variance. rewrite Hm. f_equal. apply accum_from_sp_ext.
  intros n h w Hn Hh Hw. now rewrite Hx.
Qed.
End GroupExtensionality.

(** * Further properties: the training forward in one statement *)

Section TrainingResult.
Context {F : Type} {SF : Scalar F} {T : Type}.
Variable promote : T -> F.
Variables n_batchs channels height width : Z.
Variables in_ptr scale_ptr bias_ptr : buffer T.
Variable epsilon : F.
Variables savemeanvar runningmeanvar : bool.
Variable expAvgFactor : F.
Hypothesis Hdims : dims_ok n_batchs channels height width.

Local Abbreviation ix := (lin channels height width).

(** Everything a per-activation training call leaves for the group
    [(c, h, w)], in terms of the group's two-pass statistics. *)
Lemma fwd_train_pa_result (m : Fwd.mem F) (n c h w : Z) :
  0 <= n < n_batchs -> 0 <= c < channels -> 0 <= h < height -> 0 <= w < width ->
  let g := ix 0 c h w in
  let mu := group_mean promote in_ptr (pa_members n_batchs channels height width c h w)
              n_batchs in
  let var := group_variance promote in_ptr (pa_members n_batchs channels height width c h w)
               n_batchs in
  let iv := sdiv sone (ssqrt (sadd var epsilon)) in
  let m' := miopenBNFwdTrainPerActivationRunHost promote n_batchs channels height width
              in_ptr scale_ptr bias_ptr epsilon savemeanvar runningmeanvar expAvgFactor m in
  Fwd.out_ptr m' (ix n c h w) = fwd_pa_y promote in_ptr scale_ptr bias_ptr mu iv g (ix n c h w) /\
  Fwd.saveMean m' g = (if savemeanvar then mu else Fwd.saveMean m g) /\
  Fwd.saveInvVariance m' g = (if savemeanvar then iv else Fwd.saveInvVariance m g) /\
  Fwd.runningMean m' g
  = (if runningmeanvar
     then sadd (smul mu expAvgFactor) (smul (Fwd.runningMean m g) (ssub sone expAvgFactor))
     else Fwd.runningMean m g) /\
  Fwd.runningVariance m' g
  = (if runningmeanvar
     then sadd (smul expAvgFactor (Fwd.runningVariance m g))
               (smul (ssub sone expAvgFactor)
                     (if n_batchs =? 1 then var
                      else smul (sdiv (of_int n_batchs) (of_int (n_batchs - 1))) var))
     else Fwd.runningVariance m g).
Proof.
  intros Hn Hc Hh Hw. cbv zeta.
  rewrite <- (pa_mean_members promote n_batchs channels height width Hdims in_ptr c h w
                Hc Hh Hw).
  rewrite <- (pa_variance_members promote n_batchs channels height width Hdims in_ptr c h w
                Hc Hh Hw).
  repeat split.
  - now apply fwd_train_pa_out.
  - now apply fwd_train_pa_saveMean.
  - now apply fwd_train_pa_saveInvVariance.
  - now apply fwd_train_pa_runningMean.
  - now apply fwd_train_pa_runningVariance.
Qed.

(** The same for the channel [c] of a spatial training call. *)
Lemma fwd_train_sp_result (m : Fwd.mem F) (n c h w : Z) :
  0 <= n < n_batchs -> 0 <= c < channels -> 0 <= h < height -> 0 <= w < width ->
  let M := n_batchs * (height * width) in
  let mu := group_mean promote in_ptr (sp_members n_batchs channels height width c) M in
  let var := group_variance promote in_ptr (sp_members n_batchs channels height width c) M in
  let iv := sdiv sone (ssqrt (sadd var epsilon)) in
  let m' := miopenBNFwdTrainSpatialRunHost promote n_batchs channels height width
              in_ptr scale_ptr bias_ptr epsilon savemeanvar runningmeanvar expAvgFactor m in
  Fwd.out_ptr m' (ix n c h w)
  = fwd_sp_train_y promote in_ptr scale_ptr bias_ptr mu iv c (ix n c h w) /\
  Fwd.saveMean m' c = (if savemeanvar then mu else Fwd.saveMean m c) /\
  Fwd.saveInvVariance m' c = (if savemeanvar then iv else Fwd.saveInvVariance m c) /\
  Fwd.runningMean m' c
  = (if runningmeanvar
     then sadd (smul mu expAvgFactor) (smul (Fwd.runningMean m c) (ssub sone expAvgFactor))
     else Fwd.runningMean m c) /\
  Fwd.runningVariance m' c
  = (if runningmeanvar
     then sadd (smul expAvgFactor (Fwd.runningVariance m c))
               (smul (ssub sone expAvgFactor)
                     (if M =? 1 then var
                      else smul (sdiv (of_int M) (ssub (of_int M) sone)) var))
     else Fwd.runningVariance m c).
Proof.
  intros Hn Hc Hh Hw. cbv zeta. repeat split.
  - now apply fwd_train_sp_out.
  - now apply fwd_train_sp_saveMean.
  - now apply fwd_train_sp_saveInvVariance.
  - now apply fwd_train_sp_runningMean.
  - now apply fwd_train_sp_runningVariance.
Qed.
End TrainingResult.

Section GroupIndependence.
Context {F : Type} {SF : Scalar F} {T : Type}.
Variable promote : T -> F.
Variables n_batchs channels height width : Z.
Variables in_ptr scale_ptr bias_ptr : buffer T.
Variables in_ptr' scale_ptr' bias_ptr' : buffer T.
Variable epsilon : F.
Variables savemeanvar runningmeanvar : bool.
Variable expAvgFactor : F.

(** X6.  What a training forward call leaves for a reduction group depends
    on that group's inputs only.  Two calls whose input tensors agree on the
    members of the group [(c, h, w)] (per-activation) or of the channel [c]
    (spatial), and whose scale and bias agree at the group's index, write the
    same output elements of the group and the same saved and running
    statistics for it, whatever the rest of the tensors holds.  For every
    arithmetic. *)
Theorem X6_groups_are_independent (m : Fwd.mem F) (n c h w : Z) :
  dims_ok n_batchs channels height width ->
  0 <= n < n_batchs -> 0 <= c < channels -> 0 <= h < height -> 0 <= w < width ->
  let ix := lin channels height width in
  let train_pa x s b :=
    miopenBNFwdTrainPerActivationRunHost promote n_batchs channels height width x s b
      epsilon savemeanvar runningmeanvar expAvgFactor m in
  let train_sp x s b :=
    miopenBNFwdTrainSpatialRunHost promote n_batchs channels height width x s b
      epsilon savemeanvar runningmeanvar expAvgFactor m in
  ((forall n', 0 <= n' < n_batchs ->
               promote (in_ptr (ix n' c h w)) = promote (in_ptr' (ix n' c h w))) ->
   promote (scale_ptr (ix 0 c h w)) = promote (scale_ptr' (ix 0 c h w)) ->
   promote (bias_ptr (ix 0 c h w)) = promote (bias_ptr' (ix 0 c h w)) ->
   Fwd.out_ptr (train_pa in_ptr scale_ptr bias_ptr) (ix n c h w)
   = Fwd.out_ptr (train_pa in_ptr' scale_ptr' bias_ptr') (ix n c h w) /\
   Fwd.saveMean (train_pa in_ptr scale_ptr bias_ptr) (ix 0 c h w)
   = Fwd.saveMean (train_pa in_ptr' scale_ptr' bias_ptr') (ix 0 c h w) /\
   Fwd.saveInvVariance (train_pa in_ptr scale_ptr bias_ptr) (ix 0 c h w)
   = Fwd.saveInvVariance (train_pa in_ptr' scale_ptr' bias_ptr') (ix 0 c h w) /\
   Fwd.runningMean (train_pa in_ptr scale_ptr bias_ptr) (ix 0 c h w)
   = Fwd.runningMean (train_pa in_ptr' scale_ptr' bias_ptr') (ix 0 c h w) /\
   Fwd.runningVariance (train_pa in_ptr scale_ptr bias_ptr) (ix 0 c h w)
   = Fwd.runningVariance (train_pa in_ptr' scale_ptr' bias_ptr') (ix 0 c h w)) /\
  ((forall n' h' w', 0 <= n' < n_batchs -> 0 <= h' < height -> 0 <= w' < width ->
                     promote (in_ptr (ix n' c h' w')) = promote (in_ptr' (ix n' c h' w'))) ->
   promote (scale_ptr c) = promote (scale_ptr' c) ->
   promote (bias_ptr c) = promote (bias_ptr' c) ->
   Fwd.out_ptr (train_sp in_ptr scale_ptr bias_ptr) (ix n c h w)
   = Fwd.out_ptr (train_sp in_ptr' scale_ptr' bias_ptr') (ix n c h w) /\
   Fwd.saveMean (train_sp in_ptr scale_ptr bias_ptr) c
   = Fwd.saveMean (train_sp in_ptr' scale_ptr' bias_ptr') c /\
   Fwd.saveInvVariance (train_sp in_ptr scale_ptr bias_ptr) c
   = Fwd.saveInvVariance (train_sp in_ptr' scale_ptr' bias_ptr') c /\
   Fwd.runningMean (train_sp in_ptr scale_ptr bias_ptr) c
   = Fwd.runningMean (train_sp in_ptr' scale_ptr' bias_ptr') c /\
   Fwd.runningVariance (train_sp in_ptr scale_ptr bias_ptr) c
   = Fwd.runningVariance (train_sp in_ptr' scale_ptr' bias_ptr') c).
Proof.
  intros Hdims Hn Hc Hh Hw ix train_pa train_sp. split.
  - intros Hx Hs Hb.
    destruct (fwd_train_pa_result promote n_batchs channels height width in_ptr scale_ptr
                bias_ptr epsilon savemeanvar runningmeanvar expAvgFactor Hdims m n c h w
                Hn Hc Hh Hw) as (E1 & E2 & E3 & E4 & E5).
    destruct (fwd_train_pa_result promote n_batchs channels height width in_ptr' scale_ptr'
                bias_ptr' epsilon savemeanvar runningmeanvar expAvgFactor Hdims m n c h w
                Hn Hc Hh Hw) as (G1 & G2 & G3 & G4 & G5).
    destruct (group_statistics_pa_ext promote n_batchs channels height width in_ptr in_ptr'
                c h w Hx) as (Hmu & Hvar).
    unfold train_pa, ix. rewrite E1, E2, E3, E4, E5, G1, G2, G3, G4, G5, Hmu, Hvar.
    unfold fwd_pa_y. fold ix. rewrite Hs, Hb, (Hx n Hn). repeat split; reflexivity.
  - intros Hx Hs Hb.
    destruct (fwd_train_sp_result promote n_batchs channels height width in_ptr scale_ptr
                bias_ptr epsilon savemeanvar runningmeanvar expAvgFactor Hdims m n c h w
                Hn Hc Hh Hw) as (E1 & E2 & E3 & E4 & E5).
    destruct (fwd_train_sp_result promote n_batchs channels height width in_ptr' scale_ptr'
                bias_ptr' epsilon savemeanvar runningmeanvar expAvgFactor Hdims m n c h w
                Hn Hc Hh Hw) as (G1 & G2 & G3 & G4 & G5).
    destruct (group_statistics_sp_ext promote n_batchs channels height width in_ptr in_ptr'
                c (n_batchs * (height * width)) Hx) as (Hmu & Hvar).
    unfold train_sp, ix. rewrite E1, E2, E3, E4, E5, G1, G2, G3, G4, G5, Hmu, Hvar.
    unfold fwd_sp_train_y. fold ix. rewrite Hs, Hb, (Hx n h w Hn Hh Hw).
    repeat split; reflexivity.
Qed.
End GroupIndependence.

(** A run of X6: two channels of two samples; the second call changes the
    input of channel 1 only, and the output of channel 0 is the same. *)
Lemma X6_groups_are_independent_witness :
  dims_ok 2 2 1 1 /\
  Fwd.out_ptr
    (miopenBNFwdTrainPerActivationRunHost (fun x : R => x) 2 2 1 1 (fun i => IZR i)
       (fun _ => 1%R) (fun _ => 0%R) 1%R true true (1 / 2)%R
       (Fwd.Mem (fun _ => 0%R) (fun _ => 0%R) (fun _ => 0%R) (fun _ => 0%R) (fun _ => 0%R)))
    (lin 2 1 1 1 0 0 0)
  = Fwd.out_ptr
      (miopenBNFwdTrainPerActivationRunHost (fun x : R => x) 2 2 1 1
         (fun i => if Z.even i then IZR i else 5%R)
         (fun _ => 1%R) (fun _ => 0%R) 1%R true true (1 / 2)%R
         (Fwd.Mem (fun _ => 0%R) (fun _ => 0%R) (fun _ => 0%R) (fun _ => 0%R)
            (fun _ => 0%R)))
      (lin 2 1 1 1 0 0 0).
Proof.
  assert (Hd : dims_ok 2 2 1 1) by (unfold dims_ok; lia).
  split; [exact Hd|].
  refine (proj1 (proj1 (X6_groups_are_independent (fun x : R => x) 2 2 1 1
                          (fun i => IZR i) (fun _ => 1%R) (fun _ => 0%R)
                          (fun i => if Z.even i then IZR i else 5%R)
                          (fun _ => 1%R) (fun _ => 0%R) 1%R true true (1 / 2)%R
                          (Fwd.Mem (fun _ => 0%R) (fun _ => 0%R) (fun _ => 0%R)
                             (fun _ => 0%R) (fun _ => 0%R))
                          1 0 0 0 Hd ltac:(lia) ltac:(lia) ltac:(lia) ltac:(lia))
                       _ eq_refl eq_refl)).
  intros n' Hn'. unfold lin.
  replace (n' * (2 * 1 * 1) + 0 * (1 * 1) + 0 * 1 + 0) with (2 * n') by ring.
  now rewrite Z.even_mul.
Defined.

(** * Further properties: the input gradient of the per-activation backward *)

Section BwdPerActivationGradient.
Context {F : Type} {SF : Scalar F} {T : Type}.
Variable promote : T -> F.
Variables n_batchs channels height width : Z.
Variables x_ptr dy_ptr scale_ptr : buffer T.
Variable epsilon : F.
Variables savedMean savedInvVariance : buffer F.
Hypothesis Hdims : dims_ok n_batchs channels height width.

Local Abbreviation ix := (lin channels height width).
Local Abbreviation index := (index_at channels height width).
Local Abbreviation pass1 :=
  (bwd_pa_pass1 promote n_batchs channels height width x_ptr dy_ptr scale_ptr).
Local Abbreviation pass2 := (bwd_pa_pass2 n_batchs channels height width).
Local Abbreviation grad :=
  (bwd_pa_grad promote n_batchs channels height width x_ptr dy_ptr scale_ptr).
Local Abbreviation run :=
  (miopenBNBwdPerActivationRunHost promote n_batchs channels height width x_ptr dy_ptr
     scale_ptr epsilon).
Local Abbreviation members := (pa_members n_batchs channels height width).
Local Abbreviation stats :=
  (fun b => bwd_pa_stats promote n_batchs channels height width x_ptr epsilon b savedMean
              savedInvVariance).

Lemma bwd_pa_pass1_dxhat (c h w : Z) (mu iv : F) (m : Bwd.mem F) :
  0 <= c < channels -> 0 <= h < height -> 0 <= w < width ->
  fst (snd (pass1 (ix 0 c h w) h w mu iv m))
  = bwd_pa_dxhat promote dy_ptr scale_ptr (ix 0 c h w) (members c h w).
Proof.
  intros Hc Hh Hw. unfold bwd_pa_pass1, bwd_pa_dxhat, accum_from.
  rewrite (for_int_proj (fun st : Bwd.mem F * (F * F) => fst (snd st))
             _ _ (fun b acc => sadd acc (smul (promote (scale_ptr (ix 0 c h w)))
                                              (promote (dy_ptr (ix b c h w)))))).
  - cbn [fst snd].
    apply (for_int_pa_members n_batchs channels height width
             (fun i acc => sadd acc (smul (promote (scale_ptr (ix 0 c h w)))
                                          (promote (dy_ptr i))))).
  - intros b st Hb. cbn.
    now rewrite (index_at_lin n_batchs channels height width Hdims) by assumption.
Qed.

Lemma bwd_pa_pass1_dxhathat (c h w : Z) (mu iv : F) (m : Bwd.mem F) :
  0 <= c < channels -> 0 <= h < height -> 0 <= w < width ->
  snd (snd (pass1 (ix 0 c h w) h w mu iv m))
  = bwd_pa_dxhathat promote x_ptr dy_ptr scale_ptr (ix 0 c h w) mu iv (members c h w).
Proof.
  intros Hc Hh Hw. unfold bwd_pa_pass1, bwd_pa_dxhathat, accum_from.
  rewrite (for_int_proj (fun st : Bwd.mem F * (F * F) => snd (snd st))
             _ _ (fun b acc =>
                    sadd acc (smul (smul (promote (scale_ptr (ix 0 c h w)))
                                         (promote (dy_ptr (ix b c h w))))
                                   (xhat_contract (promote (x_ptr (ix b c h w))) mu iv)))).
  - cbn [fst snd].
    apply (for_int_pa_members n_batchs channels height width
             (fun i acc =>
                sadd acc (smul (smul (promote (scale_ptr (ix 0 c h w))) (promote (dy_ptr i)))
                               (xhat_contract (promote (x_ptr i)) mu iv)))).
  - intros b st Hb. cbn. rewrite !upd_same.
    now rewrite (index_at_lin n_batchs channels height width Hdims) by assumption.
Qed.

Lemma bwd_pa_pass1_xhat (c h w b : Z) (mu iv : F) (m : Bwd.mem F) :
  0 <= b < n_batchs -> 0 <= c < channels -> 0 <= h < height -> 0 <= w < width ->
  Bwd.xhat (fst (pass1 (ix 0 c h w) h w mu iv m)) (xhat_index_at height width b h w)
  = xhat_contract (promote (x_ptr (ix b c h w))) mu iv.
Proof.
  intros Hb Hc Hh Hw. unfold bwd_pa_pass1.
  apply (for_int_hit
           (fun st : Bwd.mem F * (F * F) =>
              Bwd.xhat (fst st) (xhat_index_at height width b h w))
           (fun _ => xhat_contract (promote (x_ptr (ix b c h w))) mu iv) b);
    [exact Hb| |].
  - intros b' st Hb' Hne. cbn. apply upd_other.
    intros Heq. symmetry in Heq. revert Heq.
    apply (xhat_index_ne n_batchs channels height width Hdims c); auto.
  - intros st. cbn. rewrite upd_same.
    now rewrite (index_at_lin n_batchs channels height width Hdims) by assumption.
Qed.

Lemma bwd_pa_pass2_dx (c h w b : Z) (iv D DD : F) (m : Bwd.mem F) :
  0 <= b < n_batchs -> 0 <= c < channels -> 0 <= h < height -> 0 <= w < width ->
  Bwd.dx_ptr (pass2 (ix 0 c h w) h w iv D DD m) (ix b c h w)
  = bwd_pa_dx n_batchs iv (Bwd.xhat m (xhat_index_at height width b h w)) D DD.
Proof.
  intros Hb Hc Hh Hw. unfold bwd_pa_pass2.
  pose (obs := fun t : Bwd.mem F => (Bwd.dx_ptr t (ix b c h w), Bwd.xhat t)).
  pose (g := fun o : F * buffer F =>
               (bwd_pa_dx n_batchs iv (snd o (xhat_index_at height width b h w)) D DD,
                snd o)).
  match goal with
  | |- Bwd.dx_ptr ?r _ = _ => change (fst (obs r) = fst (g (obs m)))
  end.
  f_equal. apply for_int_hit with (i0 := b); [exact Hb| |].
  - intros b' t Hb' Hne. unfold obs. cbn. f_equal.
    rewrite (index_at_lin n_batchs channels height width Hdims) by assumption.
    apply upd_other. intros Heq. apply lin_inj in Heq; lia.
  - intros t. unfold obs, g. cbn. f_equal.
    rewrite (index_at_lin n_batchs channels height width Hdims) by assumption.
    now rewrite upd_same.
Qed.

(** The gradient block of the group [(c, h, w)], lines 639-663. *)
Lemma bwd_pa_grad_dx (c h w b : Z) (mu iv : F) (m : Bwd.mem F) :
  0 <= b < n_batchs -> 0 <= c < channels -> 0 <= h < height -> 0 <= w < width ->
  Bwd.dx_ptr (grad (ix 0 c h w) h w mu iv m) (ix b c h w)
  = bwd_pa_dx n_batchs iv (xhat_contract (promote (x_ptr (ix b c h w))) mu iv)
      (bwd_pa_dxhat promote dy_ptr scale_ptr (ix 0 c h w) (members c h w))
      (bwd_pa_dxhathat promote x_ptr dy_ptr scale_ptr (ix 0 c h w) mu iv (members c h w)).
Proof.
  intros Hb Hc Hh Hw. unfold bwd_pa_grad. cbv zeta.
  rewrite bwd_pa_pass2_dx by assumption.
  cbn [Bwd.set_dscale_ptr Bwd.xhat].
  rewrite bwd_pa_pass1_xhat, bwd_pa_pass1_dxhat, bwd_pa_pass1_dxhathat by assumption.
  reflexivity.
Qed.

(** The whole call: element [b] of the group [(c, h, w)]. *)
Lemma bwd_pa_dx_hit (savedmeanvar : bool) (m : Bwd.mem F) (b c h w : Z) :
  0 <= b < n_batchs -> 0 <= c < channels -> 0 <= h < height -> 0 <= w < width ->
  let g := ix 0 c h w in
  let mu := fst (stats savedmeanvar g) in
  let iv := snd (stats savedmeanvar g) in
  Bwd.dx_ptr (run savedmeanvar savedMean savedInvVariance m) (ix b c h w)
  = bwd_pa_dx n_batchs iv (xhat_contract (promote (x_ptr (ix b c h w))) mu iv)
      (bwd_pa_dxhat promote dy_ptr scale_ptr g (members c h w))
      (bwd_pa_dxhathat promote x_ptr dy_ptr scale_ptr g mu iv (members c h w)).
Proof.
  intros Hb Hc Hh Hw. cbv zeta. rewrite bwd_pa_run_groups.
  apply (for3_hit (fun t : Bwd.mem F => Bwd.dx_ptr t (ix b c h w))
           (fun _ => bwd_pa_dx n_batchs (snd (stats savedmeanvar (ix 0 c h w)))
                       (xhat_contract (promote (x_ptr (ix b c h w)))
                          (fst (stats savedmeanvar (ix 0 c h w)))
                          (snd (stats savedmeanvar (ix 0 c h w))))
                       (bwd_pa_dxhat promote dy_ptr scale_ptr (ix 0 c h w) (members c h w))
                       (bwd_pa_dxhathat promote x_ptr dy_ptr scale_ptr (ix 0 c h w)
                          (fst (stats savedmeanvar (ix 0 c h w)))
                          (snd (stats savedmeanvar (ix 0 c h w))) (members c h w)))
           c h w); try assumption.
  - intros c' h' w' t Hc' Hh' Hw' Hne.
    apply bwd_pa_grad_dx_frame. intros b' Hb'.
    rewrite (plain_nest_index n_batchs channels height width Hdims) by assumption.
    intros Heq. apply lin_inj in Heq; lia.
  - intros t.
    rewrite (adjIndex_at_lin n_batchs channels height width Hdims) by assumption.
    now apply bwd_pa_grad_dx.
Qed.
End BwdPerActivationGradient.

Section PerActivationGradientStatement.
Context {F : Type} {SF : Scalar F} {T : Type}.
Variable promote : T -> F.
Variables n_batchs channels height width : Z.
Variables x_ptr dy_ptr scale_ptr : buffer T.
Variable epsilon : F.
Variable savedmeanvar : bool.
Variables savedMean savedInvVariance : buffer F.

(** X11.  The input gradient the per-activation backward call writes, on
    either statistics path: for element [b] of the group [(c, h, w)],
    [dx = (invVar/N) * (N*dxhat - (xhat_b*dxhathat + dxhat))] where [dxhat]
    is the group sum of [scale*dy] and [dxhathat] the group sum of
    [(scale*dy)*xhat], both accumulated from zero in batch order.  The
    element's own [dy] enters through the two sums only, so two elements of
    a group with the same input value receive the same gradient.  For every
    arithmetic. *)
Theorem X11_per_activation_dx (m : Bwd.mem F) (b b' c h w : Z) :
  dims_ok n_batchs channels height width ->
  0 <= b < n_batchs -> 0 <= b' < n_batchs ->
  0 <= c < channels -> 0 <= h < height -> 0 <= w < width ->
  let ix := lin channels height width in
  let g := ix 0 c h w in
  let members := pa_members n_batchs channels height width c h w in
  let mu := if savedmeanvar then savedMean g
            else group_mean promote x_ptr members n_batchs in
  let iv := if savedmeanvar then savedInvVariance g
            else sdiv sone (ssqrt (sadd (group_variance promote x_ptr members n_batchs)
                                        epsilon)) in
  let dx :=
    Bwd.dx_ptr
      (miopenBNBwdPerActivationRunHost promote n_batchs channels height width x_ptr dy_ptr
         scale_ptr epsilon savedmeanvar savedMean savedInvVariance m) in
  dx (ix b c h w)
  = bwd_pa_dx n_batchs iv (xhat_contract (promote (x_ptr (ix b c h w))) mu iv)
      (bwd_pa_dxhat promote dy_ptr scale_ptr g members)
      (bwd_pa_dxhathat promote x_ptr dy_ptr scale_ptr g mu iv members) /\
  (promote (x_ptr (ix b c h w)) = promote (x_ptr (ix b' c h w)) ->
   dx (ix b c h w) = dx (ix b' c h w)).
Proof.
  intros Hdims Hb Hb' Hc Hh Hw ix g members mu iv dx.
  assert (Hst : bwd_pa_stats promote n_batchs channels height width x_ptr epsilon
                  savedmeanvar savedMean savedInvVariance g = (mu, iv)).
  { unfold bwd_pa_stats, mu, iv, g, ix. destruct savedmeanvar; [reflexivity|].
    now rewrite (pa_mean_members promote n_batchs channels height width Hdims),
                (pa_variance_members promote n_batchs channels height width Hdims)
      by assumption. }
  assert (Hdx : forall k, 0 <= k < n_batchs ->
            dx (ix k c h w)
            = bwd_pa_dx n_batchs iv (xhat_contract (promote (x_ptr (ix k c h w))) mu iv)
                (bwd_pa_dxhat promote dy_ptr scale_ptr g members)
                (bwd_pa_dxhathat promote x_ptr dy_ptr scale_ptr g mu iv members)).
  { intros k Hk. unfold dx, ix.
    rewrite (bwd_pa_dx_hit promote n_batchs channels height width x_ptr dy_ptr scale_ptr
               epsilon savedMean savedInvVariance Hdims) by assumption.
    fold ix g. now rewrite Hst. }
  split.
  - now apply Hdx.
  - intros Hx. rewrite (Hdx b Hb), (Hdx b' Hb'). now rewrite Hx.
Qed.
End PerActivationGradientStatement.

(** A run of X11: in the call of C1 the two samples [0, 2] are replaced by
    [2, 2]; both elements receive the same gradient although their [dy]
    differ. *)
Lemma X11_per_activation_dx_witness :
  dims_ok 2 1 1 1 /\
  Bwd.dx_ptr
    (miopenBNBwdPerActivationRunHost (fun x : R => x) 2 1 1 1 (fun _ => 2%R)
       (fun i => IZR (1 - i)) (fun _ => 1%R) 0%R true (fun _ => 1%R) (fun _ => 1%R)
       (Bwd.Mem (fun _ => 0%R) (fun _ => 0%R) (fun _ => 0%R) (fun _ => 0%R)))
    (lin 1 1 1 0 0 0 0)
  = Bwd.dx_ptr
      (miopenBNBwdPerActivationRunHost (fun x : R => x) 2 1 1 1 (fun _ => 2%R)
         (fun i => IZR (1 - i)) (fun _ => 1%R) 0%R true (fun _ => 1%R) (fun _ => 1%R)
         (Bwd.Mem (fun _ => 0%R) (fun _ => 0%R) (fun _ => 0%R) (fun _ => 0%R)))
      (lin 1 1 1 1 0 0 0).
Proof.
  assert (Hd : dims_ok 2 1 1 1) by (unfold dims_ok; lia).
  split; [exact Hd|].
  exact (proj2 (X11_per_activation_dx (fun x : R => x) 2 1 1 1 (fun _ => 2%R)
                  (fun i => IZR (1 - i)) (fun _ => 1%R) 0%R true (fun _ => 1%R)
                  (fun _ => 1%R)
                  (Bwd.Mem (fun _ => 0%R) (fun _ => 0%R) (fun _ => 0%R) (fun _ => 0%R))
                  0 1 0 0 0 Hd ltac:(lia) ltac:(lia) ltac:(lia) ltac:(lia) ltac:(lia))
               eq_refl).
Defined.

(** * Further properties: the statistics saved by the forward, reused by the backward *)

Section SavedStatisticsRoundTrip.
Context {F : Type} {SF : Scalar F} {T : Type}.
Variable promote : T -> F.
Variables n_batchs channels height width : Z.
Variables x_ptr dy_ptr scale_ptr bias_ptr : buffer T.
Variable epsilon : F.
Variable runningmeanvar : bool.
Variable expAvgFactor : F.

(** X12.  Backward on the statistics the training forward saved is backward
    on recomputed statistics.  Let the training forward run on [x] with
    saving enabled, and hand its [saveMean] and [saveInvVariance] to the
    backward call with [savedmeanvar = true].  Per-activation: the call
    leaves exactly the memory the call with [savedmeanvar = false] leaves.
    Spatial: when [dbias[c]] and [dscale[c]] hold zero on entry (the
    recomputing branch clears them, the other does not) the two calls leave
    the same [dbias[c]], [dscale[c]] and [dx] elements of the channel.  For
    every arithmetic in which [(-a)*b = -(a*b)]. *)
Theorem X12_saved_statistics_round_trip (mf : Fwd.mem F) (mb : Bwd.mem F) (n c h w : Z) :
  dims_ok n_batchs channels height width ->
  0 <= n < n_batchs -> 0 <= c < channels -> 0 <= h < height -> 0 <= w < width ->
  (forall a b : F, smul (sopp a) b = sopp (smul a b)) ->
  let saved_pa :=
    miopenBNFwdTrainPerActivationRunHost promote n_batchs channels height width x_ptr
      scale_ptr bias_ptr epsilon true runningmeanvar expAvgFactor mf in
  let saved_sp :=
    miopenBNFwdTrainSpatialRunHost promote n_batchs channels height width x_ptr
      scale_ptr bias_ptr epsilon true runningmeanvar expAvgFactor mf in
  let bwd_pa savedmeanvar :=
    miopenBNBwdPerActivationRunHost promote n_batchs channels height width x_ptr dy_ptr
      scale_ptr epsilon savedmeanvar (Fwd.saveMean saved_pa) (Fwd.saveInvVariance saved_pa)
      mb in
  let bwd_sp savedmeanvar :=
    miopenBNBwdSpatialRunHost promote n_batchs channels height width x_ptr dy_ptr
      scale_ptr epsilon savedmeanvar (Fwd.saveMean saved_sp) (Fwd.saveInvVariance saved_sp)
      mb in
  bwd_pa true = bwd_pa false /\
  (Bwd.dbias_ptr mb c = szero -> Bwd.dscale_ptr mb c = szero ->
   Bwd.dbias_ptr (bwd_sp true) c = Bwd.dbias_ptr (bwd_sp false) c /\
   Bwd.dscale_ptr (bwd_sp true) c = Bwd.dscale_ptr (bwd_sp false) c /\
   Bwd.dx_ptr (bwd_sp true) (lin channels height width n c h w)
   = Bwd.dx_ptr (bwd_sp false) (lin channels height width n c h w)).
Proof.
  intros Hdims Hn Hc Hh Hw Hopp saved_pa saved_sp bwd_pa bwd_sp. split.
  - unfold bwd_pa. rewrite !bwd_pa_run_groups. apply for3_ext.
    intros c' h' w' t Hc' Hh' Hw'.
    rewrite (adjIndex_at_lin n_batchs channels height width Hdims) by assumption.
    unfold bwd_pa_stats, saved_pa.
    rewrite (fwd_train_pa_saveMean promote n_batchs channels height width x_ptr scale_ptr
               bias_ptr epsilon true runningmeanvar expAvgFactor Hdims) by assumption.
    rewrite (fwd_train_pa_saveInvVariance promote n_batchs channels height width x_ptr
               scale_ptr bias_ptr epsilon true runningmeanvar expAvgFactor Hdims)
      by assumption.
    reflexivity.
  - intros Hb0 Hs0.
    destruct (bwd_sp_saved_run promote n_batchs channels height width x_ptr dy_ptr
                scale_ptr epsilon (Fwd.saveMean saved_sp) (Fwd.saveInvVariance saved_sp)
                Hdims mb c n h w Hc Hn Hh Hw) as (E1 & E2 & E3).
    destruct (bwd_sp_recompute_run promote n_batchs channels height width x_ptr dy_ptr
                scale_ptr epsilon (Fwd.saveMean saved_sp) (Fwd.saveInvVariance saved_sp)
                Hdims mb c n h w Hc Hn Hh Hw) as (G1 & G2 & G3).
    unfold bwd_sp. rewrite E1, E2, E3, G1, G2, G3, Hb0, Hs0.
    unfold saved_sp.
    rewrite (fwd_train_sp_saveMean promote n_batchs channels height width x_ptr scale_ptr
               bias_ptr epsilon true runningmeanvar expAvgFactor Hdims) by assumption.
    rewrite (fwd_train_sp_saveInvVariance promote n_batchs channels height width x_ptr
               scale_ptr bias_ptr epsilon true runningmeanvar expAvgFactor Hdims)
      by assumption.
    repeat split; try reflexivity.
    unfold bwd_sp_saved_dx, bwd_sp_recompute_dx, xhat_contract.
    now rewrite Hopp.
Qed.
End SavedStatisticsRoundTrip.

(** A run of X12 in the real numbers: the two samples of C1. *)
Lemma X12_saved_statistics_round_trip_witness :
  dims_ok 2 1 1 1 /\
  miopenBNBwdPerActivationRunHost (fun x : R => x) 2 1 1 1 (fun i => IZR (2 * i))
    (fun i => IZR (1 - i)) (fun _ => 1%R) 1%R true
    (Fwd.saveMean
       (miopenBNFwdTrainPerActivationRunHost (fun x : R => x) 2 1 1 1
          (fun i => IZR (2 * i)) (fun _ => 1%R) (fun _ => 0%R) 1%R true false 0%R
          (Fwd.Mem (fun _ => 0%R) (fun _ => 0%R) (fun _ => 0%R) (fun _ => 0%R)
             (fun _ => 0%R))))
    (Fwd.saveInvVariance
       (miopenBNFwdTrainPerActivationRunHost (fun x : R => x) 2 1 1 1
          (fun i => IZR (2 * i)) (fun _ => 1%R) (fun _ => 0%R) 1%R true false 0%R
          (Fwd.Mem (fun _ => 0%R) (fun _ => 0%R) (fun _ => 0%R) (fun _ => 0%R)
             (fun _ => 0%R))))
    (Bwd.Mem (fun _ => 0%R) (fun _ => 0%R) (fun _ => 0%R) (fun _ => 0%R))
  = miopenBNBwdPerActivationRunHost (fun x : R => x) 2 1 1 1 (fun i => IZR (2 * i))
      (fun i => IZR (1 - i)) (fun _ => 1%R) 1%R false
      (Fwd.saveMean
         (miopenBNFwdTrainPerActivationRunHost (fun x : R => x) 2 1 1 1
            (fun i => IZR (2 * i)) (fun _ => 1%R) (fun _ => 0%R) 1%R true false 0%R
            (Fwd.Mem (fun _ => 0%R) (fun _ => 0%R) (fun _ => 0%R) (fun _ => 0%R)
               (fun _ => 0%R))))
      (Fwd.saveInvVariance
         (miopenBNFwdTrainPerActivationRunHost (fun x : R => x) 2 1 1 1
            (fun i => IZR (2 * i)) (fun _ => 1%R) (fun _ => 0%R) 1%R true false 0%R
            (Fwd.Mem (fun _ => 0%R) (fun _ => 0%R) (fun _ => 0%R) (fun _ => 0%R)
               (fun _ => 0%R))))
      (Bwd.Mem (fun _ => 0%R) (fun _ => 0%R) (fun _ => 0%R) (fun _ => 0%R)).
Proof.
  assert (Hd : dims_ok 2 1 1 1) by (unfold dims_ok; lia).
  split; [exact Hd|].
  exact (proj1 (X12_saved_statistics_round_trip (fun x : R => x) 2 1 1 1
                  (fun i => IZR (2 * i)) (fun i => IZR (1 - i)) (fun _ => 1%R)
                  (fun _ => 0%R) 1%R false 0%R
                  (Fwd.Mem (fun _ => 0%R) (fun _ => 0%R) (fun _ => 0%R) (fun _ => 0%R)
                     (fun _ => 0%R))
                  (Bwd.Mem (fun _ => 0%R) (fun _ => 0%R) (fun _ => 0%R) (fun _ => 0%R))
                  0 0 0 0 Hd ltac:(lia) ltac:(lia) ltac:(lia) ltac:(lia)
                  Ropp_mult_distr_l_reverse)).
Defined.

(** * Further properties: inference with estimates, sample by sample *)

Section InferenceBySample.
Context {F : Type} {SF : Scalar F} {T : Type}.
Variable promote : T -> F.
Variables n_batchs channels height width : Z.
Variables in_ptr scale_ptr bias_ptr : buffer T.
Variable epsilon : F.

(** X13.  Inference with supplied estimates treats every sample on its own.
    The output elements of sample [n] in a call on the whole batch are the
    ones a call on that sample alone writes ([n_batchs = 1], the input
    pointer advanced by [n*C*H*W] elements), whatever the output array held
    before either call.  Both modes, for every arithmetic. *)
Theorem X13_inference_by_sample (mi mi' : Inf.mem F) (n c h w : Z) :
  dims_ok n_batchs channels height width ->
  0 <= n < n_batchs -> 0 <= c < channels -> 0 <= h < height -> 0 <= w < width ->
  Inf.estimatedMean mi' = Inf.estimatedMean mi ->
  Inf.estimatedVariance mi' = Inf.estimatedVariance mi ->
  let sample := fun i => in_ptr (n * (channels * height * width) + i) in
  Inf.out_ptr
    (miopenBNFwdInferPerActivationRunHost promote n_batchs channels height width in_ptr
       scale_ptr bias_ptr epsilon true mi)
    (lin channels height width n c h w)
  = Inf.out_ptr
      (miopenBNFwdInferPerActivationRunHost promote 1 channels height width sample
         scale_ptr bias_ptr epsilon true mi')
      (lin channels height width 0 c h w) /\
  Inf.out_ptr
    (miopenBNFwdInferSpatialRunHost promote n_batchs channels height width in_ptr
       scale_ptr bias_ptr epsilon true mi)
    (lin channels height width n c h w)
  = Inf.out_ptr
      (miopenBNFwdInferSpatialRunHost promote 1 channels height width sample
         scale_ptr bias_ptr epsilon true mi')
      (lin channels height width 0 c h w).
Proof.
  intros Hdims Hn Hc Hh Hw Hem Hev sample.
  assert (Hd1 : dims_ok 1 channels height width).
  { destruct Hdims as (H1 & H2 & H3 & H4 & H5 & H6). unfold dims_ok. repeat split; lia. }
  assert (H0 : 0 <= 0 < 1) by lia.
  assert (Hs : sample (lin channels height width 0 c h w)
               = in_ptr (lin channels height width n c h w)).
  { unfold sample, lin. f_equal. ring. }
  split.
  - rewrite (fwd_infer_pa_est_out promote n_batchs channels height width in_ptr scale_ptr
               bias_ptr epsilon Hdims) by assumption.
    rewrite (fwd_infer_pa_est_out promote 1 channels height width sample scale_ptr
               bias_ptr epsilon Hd1) by assumption.
    unfold fwd_pa_y. now rewrite Hs, Hem, Hev.
  - rewrite (fwd_infer_sp_est_out promote n_batchs channels height width in_ptr scale_ptr
               bias_ptr epsilon Hdims) by assumption.
    rewrite (fwd_infer_sp_est_out promote 1 channels height width sample scale_ptr
               bias_ptr epsilon Hd1) by assumption.
    unfold fwd_pa_y. now rewrite Hs, Hem, Hev.
Qed.
End InferenceBySample.

(** A run of X13 on binary64: the second of two samples. *)
Lemma X13_inference_by_sample_witness :
  dims_ok 2 1 1 1 /\
  Inf.out_ptr
    (miopenBNFwdInferPerActivationRunHost did 2 1 1 1 (dbuf [3%float; 5%float])
       (dbuf [2%float]) (dbuf [1%float]) 1%float true
       (Inf.Mem (dbuf []) (dbuf [1%float]) (dbuf [3%float])))
    (lin 1 1 1 1 0 0 0)
  = Inf.out_ptr
      (miopenBNFwdInferPerActivationRunHost did 1 1 1 1
         (fun i => dbuf [3%float; 5%float] (1 * (1 * 1 * 1) + i))
         (dbuf [2%float]) (dbuf [1%float]) 1%float true
         (Inf.Mem (dbuf [7%float]) (dbuf [1%float]) (dbuf [3%float])))
      (lin 1 1 1 0 0 0 0).
Proof.
  assert (Hd : dims_ok 2 1 1 1) by (unfold dims_ok; lia).
  split; [exact Hd|].
  exact (proj1 (X13_inference_by_sample did 2 1 1 1 (dbuf [3%float; 5%float])
                  (dbuf [2%float]) (dbuf [1%float]) 1%float
                  (Inf.Mem (dbuf []) (dbuf [1%float]) (dbuf [3%float]))
                  (Inf.Mem (dbuf [7%float]) (dbuf [1%float]) (dbuf [3%float]))
                  1 0 0 0 Hd ltac:(lia) ltac:(lia) ltac:(lia) ltac:(lia)
                  eq_refl eq_refl)).
Defined.

(** * Further properties: the threads of the inference kernels *)

Lemma for_stride_frame {S O : Type} (obs : S -> O) (start stop step : Z)
    (body : Z -> S -> S) (s : S) :
  0 < step ->
  (forall j t, 0 <= j -> start + j * step < stop -> obs (body (start + j * step) t) = obs t) ->
  obs (for_stride start stop step body s) = obs s.
Proof.
  intros Hs Hframe. unfold for_stride. apply for_int_frame.
  intros j t Hj. apply stride_count in Hj; [|assumption]. now apply Hframe.
Qed.

(** Two elements [(n, x, y + j*ystep)] of a launch are the same index only
    if they are the same element of the same thread. *)
Lemma thread_element_inj (imageDims batchStride ystep n x y j n' x' y' j' : Z) :
  0 < ystep -> 0 <= y < ystep -> 0 <= y' < ystep -> 0 <= j -> 0 <= j' ->
  0 <= x -> 0 <= x' -> 0 <= n -> 0 <= n' ->
  y + j * ystep < imageDims -> y' + j' * ystep < imageDims ->
  (x + 1) * imageDims <= batchStride -> (x' + 1) * imageDims <= batchStride ->
  batchStride * n + (x * imageDims + (y + j * ystep))
  = batchStride * n' + (x' * imageDims + (y' + j' * ystep)) ->
  n = n' /\ x = x' /\ y = y' /\ j = j'.
Proof.
  intros Hs Hy Hy' Hj Hj' Hx Hx' Hn Hn' Ho Ho' Hf Hf' Heq.
  assert (Hjs : 0 <= j * ystep) by nia.
  assert (Hjs' : 0 <= j' * ystep) by nia.
  assert (Ha : 0 <= x * imageDims + (y + j * ystep) < batchStride) by nia.
  assert (Ha' : 0 <= x' * imageDims + (y' + j' * ystep) < batchStride) by nia.
  assert (En : n = n') by nia. subst n'.
  assert (Ex : x = x') by nia. subst x'.
  assert (Eo : y + j * ystep = y' + j' * ystep) by lia.
  assert (Ej : j = j') by nia. subst j'.
  repeat split; lia.
Qed.

Section KernelThreads.
Context {F : Type} {SF : Scalar F} {TIO : Type}.
Variable to_prec : TIO -> F.
Variable to_io : F -> TIO.
Variable rsqrt : F -> F.
Variable fma : F -> F -> F -> F.
Variable in_ : buffer TIO.
Variables estimatedMean estimatedVariance scale bias : buffer F.
Variable epsilon : F.
Variables batchSize imageDims batchStride : Z.

Local Abbreviation thread_pa :=
  (bn_fwd_infer_per_activation to_prec to_io rsqrt fma in_ estimatedMean estimatedVariance
     scale bias epsilon batchSize imageDims batchStride).
Local Abbreviation thread_sp :=
  (bn_fwd_infer_spatial to_prec to_io rsqrt fma in_ estimatedMean estimatedVariance
     scale bias epsilon batchSize imageDims batchStride).

Lemma thread_index_fits (x off n : Z) :
  0 <= x -> 0 <= off < imageDims -> 0 <= n < batchSize ->
  (x + 1) * imageDims <= batchStride ->
  0 <= x * imageDims + off < batchStride /\
  0 <= batchStride * n + (x * imageDims + off) < batchSize * batchStride /\
  batchStride <= batchSize * batchStride.
Proof.
  intros Hx Ho Hn Hf.
  assert (Ha : 0 <= x * imageDims + off < batchStride) by nia.
  split; [exact Ha|].
  assert (batchStride * n + batchStride <= batchSize * batchStride) by nia.
  assert (0 <= batchStride * n) by nia. lia.
Qed.

(** A thread of the per-activation kernel writes its own elements only. *)
Lemma bn_fwd_infer_per_activation_frame (grpid yidx ystep i : Z) (out : buffer TIO) :
  0 < ystep -> 0 <= yidx -> 0 <= grpid ->
  (grpid + 1) * imageDims <= batchStride -> batchSize * batchStride < 2 ^ 64 ->
  (forall j n, 0 <= j -> yidx + j * ystep < imageDims -> 0 <= n < batchSize ->
               batchStride * n + (grpid * imageDims + (yidx + j * ystep)) <> i) ->
  thread_pa grpid yidx ystep out i = out i.
Proof.
  intros Hs Hy Hg Hf Hall Hi. unfold bn_fwd_infer_per_activation.
  apply (for_stride_frame (fun o : buffer TIO => o i)); [exact Hs|].
  intros j t Hj Hlt. cbv zeta.
  apply (for_int_frame (fun o : buffer TIO => o i)).
  intros n u Hn. apply upd_other.
  assert (Ho : 0 <= yidx + j * ystep < imageDims) by nia.
  destruct (thread_index_fits grpid (yidx + j * ystep) n Hg Ho Hn Hf) as (Ha & Hb & Hc).
  unfold u64. rewrite (Z.mod_small (grpid * imageDims + _)) by lia.
  rewrite Z.mod_small by lia.
  intros Heq. symmetry in Heq. revert Heq. now apply Hi.
Qed.

(** A thread of the spatial kernel writes its own elements only. *)
Lemma bn_fwd_infer_spatial_frame (xidx yidx ystep i : Z) (out : buffer TIO) :
  0 < ystep -> 0 <= yidx -> 0 <= xidx ->
  (xidx + 1) * imageDims <= batchStride -> batchSize * batchStride < 2 ^ 32 ->
  (forall j n, 0 <= j -> yidx + j * ystep < imageDims -> 0 <= n < batchSize ->
               n * batchStride + xidx * imageDims + (yidx + j * ystep) <> i) ->
  thread_sp xidx yidx ystep out i = out i.
Proof.
  intros Hs Hy Hg Hf Hall Hi. unfold bn_fwd_infer_spatial. cbv zeta.
  apply (for_stride_frame (fun o : buffer TIO => o i)); [exact Hs|].
  intros j t Hj Hlt.
  apply (for_int_frame (fun o : buffer TIO => o i)).
  intros n u Hn. apply upd_other.
  assert (Ho : 0 <= yidx + j * ystep < imageDims) by nia.
  destruct (thread_index_fits xidx (yidx + j * ystep) n Hg Ho Hn Hf) as (Ha & Hb & Hc).
  rewrite u32_small by lia.
  intros Heq. symmetry in Heq. revert Heq. now apply Hi.
Qed.
End KernelThreads.

Section KernelThreadsStatement.
Context {F : Type} {SF : Scalar F} {TIO : Type}.
Variable to_prec : TIO -> F.
Variable to_io : F -> TIO.
Variable rsqrt : F -> F.
Variable fma : F -> F -> F -> F.
Variable in_ : buffer TIO.
Variables estimatedMean estimatedVariance scale bias : buffer F.
Variable epsilon : F.
Variables batchSize imageDims batchStride : Z.

(** X14.  The threads of an inference kernel do not interfere.  Take two
    different threads [(x, y)] and [(x', y')] of a launch of either kernel
    with stride [ystep = gridDim.y*blockDim.y] ([y, y' < ystep]), channels
    that fit an image ([(x+1)*imageDims <= batchStride]) and a tensor that
    fits [unsigned int]; for the spatial kernel, whose loop counter is an
    [unsigned int], also [imageDims + ystep <= 2^32], so that the counter
    does not wrap.  At every element the first thread stores, the second
    thread leaves the output array alone, and the value found after both
    threads ran, in either order, is the one the first thread stores:
    [fma(scale, (x - mean)*rsqrt(fabs(variance + epsilon)), bias)].  No two
    threads write the same element.  For every arithmetic. *)
Theorem X14_kernel_threads_do_not_interfere (out : buffer TIO)
    (x y x' y' ystep j n : Z) :
  0 < ystep -> 0 <= x -> 0 <= x' -> 0 <= y < ystep -> 0 <= y' < ystep ->
  0 <= j -> y + j * ystep < imageDims -> 0 <= n < batchSize ->
  (x + 1) * imageDims <= batchStride -> (x' + 1) * imageDims <= batchStride ->
  batchSize * batchStride < 2 ^ 32 ->
  x' <> x \/ y' <> y ->
  let thread_pa :=
    bn_fwd_infer_per_activation to_prec to_io rsqrt fma in_ estimatedMean
      estimatedVariance scale bias epsilon batchSize imageDims batchStride in
  let thread_sp :=
    bn_fwd_infer_spatial to_prec to_io rsqrt fma in_ estimatedMean estimatedVariance
      scale bias epsilon batchSize imageDims batchStride in
  let g := x * imageDims + (y + j * ystep) in
  let idx := batchStride * n + g in
  let v_pa := to_io (kernel_y rsqrt fma (to_prec (in_ idx)) (estimatedMean g)
                       (estimatedVariance g) epsilon (scale g) (bias g)) in
  let v_sp := to_io (kernel_y rsqrt fma (to_prec (in_ idx)) (estimatedMean x)
                       (estimatedVariance x) epsilon (scale x) (bias x)) in
  (thread_pa x' y' ystep out idx = out idx /\
   thread_pa x y ystep (thread_pa x' y' ystep out) idx = v_pa /\
   thread_pa x' y' ystep (thread_pa x y ystep out) idx = v_pa) /\
  (imageDims + ystep <= 2 ^ 32 ->
   thread_sp x' y' ystep out idx = out idx /\
   thread_sp x y ystep (thread_sp x' y' ystep out) idx = v_sp /\
   thread_sp x' y' ystep (thread_sp x y ystep out) idx = v_sp).
Proof.
  intros Hs Hx Hx' Hy Hy' Hj Hlt Hn Hf Hf' Hall Hne thread_pa thread_sp g idx v_pa v_sp.
  assert (Hall64 : batchSize * batchStride < 2 ^ 64) by lia.
  assert (Hother : forall j' n', 0 <= j' -> y' + j' * ystep < imageDims ->
            0 <= n' < batchSize ->
            batchStride * n' + (x' * imageDims + (y' + j' * ystep)) <> idx).
  { intros j' n' Hj' Hlt' Hn' Heq. unfold idx, g in Heq.
    apply thread_element_inj in Heq; lia. }
  assert (Hother_sp : forall j' n', 0 <= j' -> y' + j' * ystep < imageDims ->
            0 <= n' < batchSize ->
            n' * batchStride + x' * imageDims + (y' + j' * ystep) <> idx).
  { intros j' n' Hj' Hlt' Hn' Heq. apply (Hother j' n' Hj' Hlt' Hn'). lia. }
  assert (Hpa : forall o, thread_pa x y ystep o idx = v_pa).
  { intros o. unfold thread_pa, idx, g, v_pa.
    apply bn_fwd_infer_per_activation_out; lia. }
  assert (Hsp : forall o, thread_sp x y ystep o idx = v_sp).
  { intros o. unfold thread_sp, v_sp.
    replace idx with (n * batchStride + x * imageDims + (y + j * ystep))
      by (unfold idx, g; ring).
    apply bn_fwd_infer_spatial_out; lia. }
  assert (Fpa : forall o, thread_pa x' y' ystep o idx = o idx).
  { intros o. apply bn_fwd_infer_per_activation_frame; try lia. exact Hother. }
  assert (Fsp : forall o, thread_sp x' y' ystep o idx = o idx).
  { intros o. apply bn_fwd_infer_spatial_frame; try lia. exact Hother_sp. }
  split; [|intros _]; (split; [|split]).
  - apply Fpa.
  - apply Hpa.
  - rewrite Fpa. apply Hpa.
  - apply Fsp.
  - apply Hsp.
  - rewrite Fsp. apply Hsp.
Qed.
End KernelThreadsStatement.

(** A run of X14 on binary64: two threads of a launch of the spatial kernel
    over an image of two elements; element 0 after both threads ran. *)
Lemma X14_kernel_threads_do_not_interfere_witness :
  bn_fwd_infer_spatial did did rsqrt_double fma_double
    (dbuf [3; 5]%float) (dbuf [1]%float) (dbuf [3]%float) (dbuf [1]%float)
    (dbuf [0]%float) 1%float 1 2 2 0 1 2
    (bn_fwd_infer_spatial did did rsqrt_double fma_double
       (dbuf [3; 5]%float) (dbuf [1]%float) (dbuf [3]%float) (dbuf [1]%float)
       (dbuf [0]%float) 1%float 1 2 2 0 0 2 (dbuf [7; 7]%float))
    (2 * 0 + (0 * 2 + (0 + 0 * 2)))
  = did (kernel_y rsqrt_double fma_double (did (dbuf [3; 5]%float 0)) (dbuf [1]%float 0)
           (dbuf [3]%float 0) 1%float (dbuf [1]%float 0) (dbuf [0]%float 0)).
Proof.
  exact (proj2 (proj2 (proj2 (X14_kernel_threads_do_not_interfere did did rsqrt_double
                                fma_double (dbuf [3; 5]%float) (dbuf [1]%float)
                                (dbuf [3]%float) (dbuf [1]%float) (dbuf [0]%float)
                                1%float 1 2 2 (dbuf [7; 7]%float) 0 0 0 1 2 0 0
                                ltac:(lia) ltac:(lia) ltac:(lia) ltac:(lia) ltac:(lia)
                                ltac:(lia) ltac:(lia) ltac:(lia) ltac:(lia) ltac:(lia)
                                ltac:(lia) ltac:(lia))
                             ltac:(lia)))).
Defined.

(** * Further properties: the launch of the inference kernels *)

Lemma ygridsize_eq (s : Z) :
  0 <= s < 2 ^ 32 -> ygridsize s = 256 * ((s + 255) / 256).
Proof.
  intros Hs. unfold ygridsize, ylocalsize, u64.
  rewrite (Z.mod_small (s + 256)) by lia.
  rewrite (Z.mod_small (s + 256 - 1)) by lia.
  replace (s + 256 - 1) with (s + 255) by ring.
  apply Z.mod_small.
  assert (0 <= (s + 255) / 256) by (apply Z.div_pos; lia).
  assert ((s + 255) / 256 <= s + 255) by (apply Z.div_le_upper_bound; lia).
  lia.
Qed.

Lemma ygridsize_bounds (s : Z) :
  0 <= s < 2 ^ 32 -> s <= ygridsize s < s + 256 /\ ygridsize s mod 256 = 0.
Proof.
  intros Hs. rewrite ygridsize_eq by assumption.
  pose proof (Z.div_mod (s + 255) 256 ltac:(lia)) as Hd.
  pose proof (Z.mod_pos_bound (s + 255) 256 ltac:(lia)) as Hm.
  split; [lia|].
  rewrite Z.mul_comm. apply Z.mod_mul. lia.
Qed.

(** X16.  Work sizes of the launch.  For an image of [s] elements
    ([s] an [unsigned int]) the second global size [ygridsize] is [s]
    rounded up to a multiple of the local size 256: it is a multiple of 256
    with [s <= ygridsize < s + 256].  So every image offset is the id of a
    work-item, fewer than 256 work-items per channel are idle, and, the
    stride of the kernels' loop being [ygridsize], no work-item runs that
    loop twice. *)
Theorem X16_launch_work_sizes (s yidx j : Z) :
  0 <= s < 2 ^ 32 ->
  (s <= ygridsize s < s + ylocalsize /\ ygridsize s mod ylocalsize = 0) /\
  (0 <= yidx -> 0 <= j -> yidx + j * ygridsize s < s -> j = 0).
Proof.
  intros Hs. pose proof (ygridsize_bounds s Hs) as (Hb & Hm).
  split; [split; [exact Hb|exact Hm]|].
  intros Hy Hj Hlt. nia.
Qed.

(** A run of X16: an image of 300 elements gets 512 work-items. *)
Lemma X16_launch_work_sizes_witness :
  300 <= ygridsize 300 < 300 + ylocalsize /\ ygridsize 300 mod ylocalsize = 0.
Proof.
  exact (proj1 (X16_launch_work_sizes 300 0 0 ltac:(lia))).
Defined.

Section LaunchFacts.
Context {F : Type} {SF : Scalar F} {TIO : Type}.
Variable to_prec : TIO -> F.
Variable to_io : F -> TIO.
Variable rsqrt : F -> F.
Variable fma : F -> F -> F -> F.
Variables n c h w : Z.
Variable x : buffer TIO.
Variables bnScale bnBias estimatedMean estimatedVariance : buffer F.
Variable epsilon : F.
Hypothesis Hdims : dims_ok n c h w.

Lemma launch_strides :
  launch_in_cstride h w * c = c * h * w /\
  launch_in_nstride c h w = c * h * w.
Proof.
  destruct Hdims as (Hn & Hc & Hh & Hw & Hchw & Hall).
  unfold launch_in_nstride, launch_in_cstride.
  assert (Hc0 : c = 0 \/ 0 < c) by lia. destruct Hc0 as [-> | Hpos].
  - split; [ring|]. rewrite Z.mul_0_l. reflexivity.
  - assert (0 <= h * w) by nia.
    assert (h * w <= c * h * w) by nia.
    rewrite (u32_small (h * w)) by lia.
    split; [ring|]. rewrite u32_small by lia. ring.
Qed.

Lemma launch_image (ch : Z) :
  0 <= ch < c -> launch_in_cstride h w = h * w /\ 0 <= h * w < 2 ^ 31.
Proof.
  intros Hch. destruct Hdims as (Hn & Hc & Hh & Hw & Hchw & Hall).
  assert (0 <= h * w) by nia.
  assert (h * w <= c * h * w) by nia.
  unfold launch_in_cstride. rewrite u32_small by lia. lia.
Qed.
End LaunchFacts.

Section LaunchStatement.
Context {F : Type} {SF : Scalar F} {TIO : Type}.
Variable to_prec : TIO -> F.
Variable to_io : F -> TIO.
Variable rsqrt : F -> F.
Variable fma : F -> F -> F -> F.
Variables n c h w : Z.
Variable x : buffer TIO.
Variables bnScale bnBias estimatedMean estimatedVariance : buffer F.
Variable epsilon : F.

(** X15.  The launch of the test covers the tensor, each element once.
    With the work sizes [BatchNormForwardInferencGPU] computes, for a tensor
    whose element indices fit [unsigned int]: after the launch of either HIP
    kernel every element [(b, ch, r, col)] of [y] holds
    [fma(scale, (x - mean)*rsqrt(fabs(variance + epsilon)), bias)] with the
    statistics, scale and bias of the element's group (index
    [ch*H*W + r*W + col] per-activation, [ch] spatial), and [y] is unchanged
    at every index outside [0, N*C*H*W).  For every arithmetic. *)
Theorem X15_launch_covers_tensor (y : buffer TIO) (b ch r col i : Z) :
  dims_ok n c h w ->
  0 <= b < n -> 0 <= ch < c -> 0 <= r < h -> 0 <= col < w ->
  let idx := lin c h w b ch r col in
  let g := lin c h w 0 ch r col in
  let launch spatial :=
    BatchNormForwardInferencGPU to_prec to_io rsqrt fma spatial n c h w x bnScale bnBias
      estimatedMean estimatedVariance epsilon y in
  launch false idx
  = to_io (kernel_y rsqrt fma (to_prec (x idx)) (estimatedMean g) (estimatedVariance g)
             epsilon (bnScale g) (bnBias g)) /\
  launch true idx
  = to_io (kernel_y rsqrt fma (to_prec (x idx)) (estimatedMean ch) (estimatedVariance ch)
             epsilon (bnScale ch) (bnBias ch)) /\
  (i < 0 \/ n * (c * h * w) <= i -> launch false i = y i /\ launch true i = y i).
Proof.
  intros Hdims Hb Hch Hr Hcol idx g launch.
  destruct (launch_strides n c h w Hdims) as (_ & Hns).
  destruct (launch_image n c h w Hdims ch Hch) as (Hcs & Hhw).
  pose proof (ygridsize_bounds (h * w) ltac:(lia)) as ((Hy1 & Hy2) & _).
  pose proof (plane_bound h w r col Hr Hcol) as Hp.
  destruct Hdims as (Hn0 & Hc0 & Hh0 & Hw0 & Hchw & Hall).
  set (off := r * w + col) in *.
  assert (Hfit : forall gx, 0 <= gx < c -> (gx + 1) * (h * w) <= c * h * w) by (intros; nia).
  assert (Hall' : n * (c * h * w) < 2 ^ 64) by lia.
  assert (Eidx : idx = c * h * w * b + (ch * (h * w) + (off + 0 * ygridsize (h * w))))
    by (unfold idx, lin, off; ring).
  assert (Eg : g = ch * (h * w) + (off + 0 * ygridsize (h * w)))
    by (unfold g, lin, off; ring).
  assert (Hys : 0 < ygridsize (h * w)) by lia.
  assert (Hother : forall gx gy j' n', 0 <= gx < c -> 0 <= gy < ygridsize (h * w) ->
            gx <> ch \/ gy <> off -> 0 <= j' -> gy + j' * ygridsize (h * w) < h * w ->
            0 <= n' < n ->
            c * h * w * n' + (gx * (h * w) + (gy + j' * ygridsize (h * w))) <> idx).
  { intros gx gy j' n' Hgx Hgy Hne Hj' Hlt' Hn' Heq. rewrite Eidx in Heq.
    pose proof (Hfit gx Hgx). pose proof (Hfit ch Hch).
    apply thread_element_inj in Heq; lia. }
  unfold launch, BatchNormForwardInferencGPU. cbv zeta. rewrite Hns, Hcs.
  split; [|split].
  - apply (for3_hit (fun o : buffer TIO => o idx)
             (fun _ => to_io (kernel_y rsqrt fma (to_prec (x idx)) (estimatedMean g)
                                (estimatedVariance g) epsilon (bnScale g) (bnBias g)))
             ch off 0); try lia.
    + intros gx gy gz t Hgx Hgy Hgz Hne.
      apply bn_fwd_infer_per_activation_frame; try lia.
      * now apply Hfit.
      * intros j' n' Hj' Hlt' Hn'. apply Hother; try assumption. lia.
    + intros t. rewrite Eidx, Eg.
      apply bn_fwd_infer_per_activation_out; try lia. now apply Hfit.
  - apply (for3_hit (fun o : buffer TIO => o idx)
             (fun _ => to_io (kernel_y rsqrt fma (to_prec (x idx)) (estimatedMean ch)
                                (estimatedVariance ch) epsilon (bnScale ch) (bnBias ch)))
             ch off 0); try lia.
    + intros gx gy gz t Hgx Hgy Hgz Hne.
      apply bn_fwd_infer_spatial_frame; try lia.
      * now apply Hfit.
      * intros j' n' Hj' Hlt' Hn' Heq.
        apply (Hother gx gy j' n'); try assumption; lia.
    + intros t.
      replace idx with (b * (c * h * w) + ch * (h * w) + (off + 0 * ygridsize (h * w)))
        by (rewrite Eidx; ring).
      apply bn_fwd_infer_spatial_out; try lia. now apply Hfit.
  - intros Hi.
    assert (Hout : forall gx gy j' n', 0 <= gx < c -> 0 <= gy -> 0 <= j' ->
              gy + j' * ygridsize (h * w) < h * w -> 0 <= n' < n ->
              c * h * w * n' + (gx * (h * w) + (gy + j' * ygridsize (h * w))) <> i).
    { intros gx gy j' n' Hgx Hgy Hj' Hlt' Hn'.
      pose proof (Hfit gx Hgx).
      assert (0 <= j' * ygridsize (h * w)) by nia.
      assert (0 <= gx * (h * w)) by nia.
      assert (c * h * w * n' + c * h * w <= n * (c * h * w)) by nia.
      assert (0 <= c * h * w * n') by nia.
      lia. }
    split.
    + apply (for3_frame (fun o : buffer TIO => o i)).
      intros gx gy gz t Hgx Hgy Hgz.
      apply bn_fwd_infer_per_activation_frame; try lia.
      * now apply Hfit.
      * intros j' n' Hj' Hlt' Hn'. apply Hout; lia.
    + apply (for3_frame (fun o : buffer TIO => o i)).
      intros gx gy gz t Hgx Hgy Hgz.
      apply bn_fwd_infer_spatial_frame; try lia.
      * now apply Hfit.
      * intros j' n' Hj' Hlt' Hn' Heq. apply (Hout gx gy j' n'); lia.
Qed.
End LaunchStatement.

(** A run of X15 on binary64: a tensor of two samples of one element. *)
Lemma X15_launch_covers_tensor_witness :
  dims_ok 2 1 1 1 /\
  BatchNormForwardInferencGPU did did rsqrt_double fma_double false 2 1 1 1
    (dbuf [3; 5]%float) (dbuf [1]%float) (dbuf [0]%float) (dbuf [1]%float) (dbuf [3]%float)
    1%float (dbuf [7; 7]%float) (lin 1 1 1 1 0 0 0)
  = did (kernel_y rsqrt_double fma_double (did (dbuf [3; 5]%float (lin 1 1 1 1 0 0 0)))
           (dbuf [1]%float (lin 1 1 1 0 0 0 0)) (dbuf [3]%float (lin 1 1 1 0 0 0 0))
           1%float (dbuf [1]%float (lin 1 1 1 0 0 0 0)) (dbuf [0]%float (lin 1 1 1 0 0 0 0))).
Proof.
  assert (Hd : dims_ok 2 1 1 1) by (unfold dims_ok; lia).
  split; [exact Hd|].
  exact (proj1 (X15_launch_covers_tensor did did rsqrt_double fma_double 2 1 1 1
                  (dbuf [3; 5]%float) (dbuf [1]%float) (dbuf [0]%float) (dbuf [1]%float)
                  (dbuf [3]%float) 1%float (dbuf [7; 7]%float) 1 0 0 0 0
                  Hd ltac:(lia) ltac:(lia) ltac:(lia) ltac:(lia))).
Defined.

(** * Further properties: the where operation *)

Section WhereForwardFacts.
Context {TI TO : Type}.
Variable to_out : TI -> TO.
Variable condition : buffer Z.
Variables input other : buffer TI.
Variables size condition_off input_off other_off output_off : Z.
Variables condition_size input_size other_size : Z.

Hypothesis Hcs : 0 < condition_size.
Hypothesis His : 0 < input_size.
Hypothesis Hos : 0 < other_size.
Hypothesis Hoffs : 0 <= condition_off /\ 0 <= input_off /\ 0 <= other_off /\ 0 <= output_off.
Hypothesis Hfit :
  condition_size + condition_off <= 2 ^ 64 /\ input_size + input_off <= 2 ^ 64 /\
  other_size + other_off <= 2 ^ 64 /\ size + output_off <= 2 ^ 64.

Local Abbreviation select :=
  (where_select to_out condition input other condition_off input_off other_off condition_size
     input_size other_size).
Local Abbreviation thread1 :=
  (WhereBroadcastedContiguousForward_Kernel to_out condition input other size condition_off
     input_off other_off output_off condition_size input_size other_size).
Local Abbreviation thread2 :=
  (WhereConditionBroadcastedContiguousForward_Kernel to_out condition input other size
     condition_off input_off other_off output_off condition_size input_size other_size).

Lemma where_index_small (a m off : Z) :
  0 <= a -> 0 < m -> 0 <= off -> m + off <= 2 ^ 64 -> u64 (a mod m + off) = a mod m + off.
Proof.
  intros Ha Hm Ho Hf. unfold u64. apply Z.mod_small.
  pose proof (Z.mod_pos_bound a m Hm). lia.
Qed.

Lemma where_thread1_hit (o : Z) (output : buffer TO) :
  0 <= o < size -> thread1 o output (o + output_off) = select o.
Proof.
  intros Ho. unfold WhereBroadcastedContiguousForward_Kernel, where_select.
  destruct (Z.geb_spec o size) as [Hge|Hlt]; [lia|].
  rewrite !where_index_small by lia.
  assert (Hu : u64 (o + output_off) = o + output_off)
    by (unfold u64; apply Z.mod_small; lia).
  rewrite Hu.
  destruct (negb _); now rewrite upd_same.
Qed.

Lemma where_thread1_frame (gid i : Z) (output : buffer TO) :
  0 <= gid -> i <> gid + output_off -> thread1 gid output i = output i.
Proof.
  intros Hg Hi. unfold WhereBroadcastedContiguousForward_Kernel.
  destruct (Z.geb_spec gid size) as [Hge|Hlt]; [reflexivity|].
  assert (Hu : u64 (gid + output_off) = gid + output_off)
    by (unfold u64; apply Z.mod_small; lia).
  rewrite Hu. destruct (negb _); now apply upd_other.
Qed.

Lemma where_thread2_hit (o : Z) (output : buffer TO) :
  0 <= o < size ->
  thread2 (o mod condition_size) output (o + output_off) = select o.
Proof.
  intros Ho. unfold WhereConditionBroadcastedContiguousForward_Kernel, where_select.
  pose proof (Z.mod_pos_bound o condition_size Hcs) as Hm.
  pose proof (Z.div_mod o condition_size ltac:(lia)) as Hd.
  assert (Hq : 0 <= o / condition_size) by (apply Z.div_pos; lia).
  assert (Eo : o = o mod condition_size + o / condition_size * condition_size) by lia.
  destruct (Z.geb_spec (o mod condition_size) condition_size) as [Hge|Hlt]; [lia|].
  cbv zeta. rewrite Z.mod_mod by lia.
  rewrite (where_index_small o condition_size condition_off) by lia.
  assert (Hidx : forall j, 0 <= j ->
            o mod condition_size + j * condition_size < size ->
            u64 (o mod condition_size + j * condition_size + output_off)
            = o mod condition_size + j * condition_size + output_off).
  { intros j Hj Hlt'. unfold u64. apply Z.mod_small. nia. }
  destruct (negb (condition (o mod condition_size + condition_off) =? 0)).
  - rewrite (for_stride_hit (fun out : buffer TO => out (o + output_off))
               (fun _ => to_out (input (o mod input_size + input_off)))
               (o mod condition_size) size condition_size (o / condition_size));
      try lia; auto.
    + intros j t Hj Hlt' Hne. apply upd_other. rewrite Hidx by assumption. nia.
    + intros t. rewrite <- Eo.
      assert (Hu : u64 (o + output_off) = o + output_off)
        by (unfold u64; apply Z.mod_small; lia).
      rewrite Hu, upd_same. now rewrite where_index_small by lia.
  - rewrite (for_stride_hit (fun out : buffer TO => out (o + output_off))
               (fun _ => to_out (other (o mod other_size + other_off)))
               (o mod condition_size) size condition_size (o / condition_size));
      try lia; auto.
    + intros j t Hj Hlt' Hne. apply upd_other. rewrite Hidx by assumption. nia.
    + intros t. rewrite <- Eo.
      assert (Hu : u64 (o + output_off) = o + output_off)
        by (unfold u64; apply Z.mod_small; lia).
      rewrite Hu, upd_same. now rewrite where_index_small by lia.
Qed.

Lemma where_thread2_frame (gid o : Z) (output : buffer TO) :
  0 <= gid -> 0 <= o -> gid <> o mod condition_size ->
  thread2 gid output (o + output_off) = output (o + output_off).
Proof.
  intros Hg Ho Hne. unfold WhereConditionBroadcastedContiguousForward_Kernel.
  destruct (Z.geb_spec gid condition_size) as [Hge|Hlt]; [reflexivity|].
  cbv zeta.
  assert (Hidx : forall j, 0 <= j -> gid + j * condition_size < size ->
            u64 (gid + j * condition_size + output_off)
            <> o + output_off).
  { intros j Hj Hlt'. unfold u64. rewrite Z.mod_small by nia.
    intros Heq. apply Hne.
    assert (Eo : o = gid + j * condition_size) by lia.
    rewrite Eo, Z.mod_add by lia. symmetry. apply Z.mod_small. lia. }
  destruct (negb _).
  - apply (for_stride_frame (fun out : buffer TO => out (o + output_off))); [lia|].
    intros j t Hj Hlt'. apply upd_other. intros Heq. symmetry in Heq. revert Heq.
    now apply Hidx.
  - apply (for_stride_frame (fun out : buffer TO => out (o + output_off))); [lia|].
    intros j t Hj Hlt'. apply upd_other. intros Heq. symmetry in Heq. revert Heq.
    now apply Hidx.
Qed.
End WhereForwardFacts.

Section WhereForwardHostFacts.
Context {TI TO : Type}.
Variable to_out : TI -> TO.
Variable nonzero : TI -> bool.

Lemma mloWhereForwardRunHost_out (inputDesc otherDesc conditionDesc outputDesc : tensor_desc)
    (input other condition : buffer TI) (outputHost : buffer TO) (o : Z) :
  0 <= o < GetElementSize outputDesc ->
  mloWhereForwardRunHost to_out nonzero inputDesc input otherDesc other conditionDesc
    condition outputDesc outputHost o
  = if nonzero (condition (o mod check_broadcasted_contiguous conditionDesc))
    then to_out (input (o mod check_broadcasted_contiguous inputDesc))
    else to_out (other (o mod check_broadcasted_contiguous otherDesc)).
Proof.
  intros Ho. unfold mloWhereForwardRunHost. cbv zeta.
  apply (for_int_hit (fun out : buffer TO => out o)
           (fun _ => if nonzero (condition (o mod check_broadcasted_contiguous conditionDesc))
                     then to_out (input (o mod check_broadcasted_contiguous inputDesc))
                     else to_out (other (o mod check_broadcasted_contiguous otherDesc)))
           o); [exact Ho| |].
  - intros i t Hi Hne. destruct (nonzero _); now apply upd_other.
  - intros t. destruct (nonzero _); now rewrite upd_same.
Qed.
End WhereForwardHostFacts.

Section WhereForwardStatement.
Context {TI TO : Type}.
Variable to_out : TI -> TO.
Variable nonzero : TI -> bool.
Variable condition : buffer Z.
Variables input other host_condition : buffer TI.
Variables size condition_off input_off other_off output_off : Z.
Variables condition_size input_size other_size : Z.
Variables inputDesc otherDesc conditionDesc outputDesc : tensor_desc.

End WhereForwardStatement.


(** The last iteration that touches an observation decides it. *)
Lemma for_loop_last {S O : Type} (obs : S -> O) (g : O -> O) (i0 : Z) (n : nat)
    (body : Z -> S -> S) (s : S) :
  0 <= i0 < Z.of_nat n ->
  (forall i t, 0 <= i < i0 -> g (obs (body i t)) = g (obs t)) ->
  (forall t, obs (body i0 t) = g (obs t)) ->
  (forall i t, i0 < i < Z.of_nat n -> obs (body i t) = obs t) ->
  obs (for_loop n body s) = g (obs s).
Proof.
  intros Hi Hbefore Hhit Hafter.
  assert (Hpre : forall k, Z.of_nat k <= i0 -> g (obs (for_loop k body s)) = g (obs s)).
  { induction k as [|k IH]; intros Hk; [reflexivity|].
    cbn [for_loop]. rewrite Hbefore by lia. apply IH. lia. }
  induction n as [|k IH]; [lia|].
  cbn [for_loop]. destruct (Z.eq_dec i0 (Z.of_nat k)) as [Heq|Hne].
  - rewrite <- Heq, Hhit. apply Hpre. lia.
  - rewrite Hafter by lia. apply IH; [lia|].
    intros i t Hlt. apply Hafter. lia.
Qed.

Lemma for_int_last {S O : Type} (obs : S -> O) (g : O -> O) (i0 n : Z)
    (body : Z -> S -> S) (s : S) :
  0 <= i0 < n ->
  (forall i t, 0 <= i < i0 -> g (obs (body i t)) = g (obs t)) ->
  (forall t, obs (body i0 t) = g (obs t)) ->
  (forall i t, i0 < i < n -> obs (body i t) = obs t) ->
  obs (for_int n body s) = g (obs s).
Proof.
  intros Hi Hbefore Hhit Hafter. unfold for_int.
  apply for_loop_last with (i0 := i0); [lia|exact Hbefore|exact Hhit|].
  intros i t Hlt. apply Hafter. lia.
Qed.

Section WhereBackwardFacts.
Context {F : Type} {SF : Scalar F} {TI TO : Type}.
Variable to_prec : TI -> F.
Variable to_out : F -> TO.
Variable condition : buffer Z.
Variable output_grad : buffer TI.
Variable size : Z.

Local Abbreviation thread :=
  (WhereContiguousBackward_Kernel to_prec to_out condition output_grad size).

Lemma where_contiguous_backward_launch (threads o : Z)
    (grads : option (buffer TO) * option (buffer TO)) :
  0 <= o < size -> size <= threads ->
  let r := for_int threads thread grads in
  at_index (fst r) o
  = match fst grads with
    | Some _ => Some (to_out (smul (to_prec (output_grad o)) (of_int (condition o))))
    | None => None
    end /\
  at_index (snd r) o
  = match snd grads with
    | Some _ => Some (to_out (smul (to_prec (output_grad o)) (of_int (1 - condition o))))
    | None => None
    end.
Proof.
  intros Ho Ht r. subst r. split.
  - pose (g := fun p : option TO =>
                 match p with
                 | Some _ => Some (to_out (smul (to_prec (output_grad o))
                                             (of_int (condition o))))
                 | None => None
                 end).
    transitivity (g (at_index (fst grads) o)).
    + apply (for_int_hit (fun s : option (buffer TO) * option (buffer TO) =>
                            at_index (fst s) o) g o); [lia| |].
      * intros gid t Hg Hne. unfold WhereContiguousBackward_Kernel.
        destruct (gid >=? size); [reflexivity|].
        cbn [fst]. destruct (fst t) as [b|]; [|reflexivity].
        cbn [at_index]. now rewrite upd_other.
      * intros t. unfold WhereContiguousBackward_Kernel.
        destruct (Z.geb_spec o size) as [Hge|Hlt]; [lia|].
        cbn [fst]. destruct (fst t) as [b|]; [|reflexivity].
        cbn [at_index g]. now rewrite upd_same.
    + unfold g. now destruct (fst grads).
  - pose (g := fun p : option TO =>
                 match p with
                 | Some _ => Some (to_out (smul (to_prec (output_grad o))
                                             (of_int (1 - condition o))))
                 | None => None
                 end).
    transitivity (g (at_index (snd grads) o)).
    + apply (for_int_hit (fun s : option (buffer TO) * option (buffer TO) =>
                            at_index (snd s) o) g o); [lia| |].
      * intros gid t Hg Hne. unfold WhereContiguousBackward_Kernel.
        destruct (gid >=? size); [reflexivity|].
        cbn [snd]. destruct (snd t) as [b|]; [|reflexivity].
        cbn [at_index]. now rewrite upd_other.
      * intros t. unfold WhereContiguousBackward_Kernel.
        destruct (Z.geb_spec o size) as [Hge|Hlt]; [lia|].
        cbn [snd]. destruct (snd t) as [b|]; [|reflexivity].
        cbn [at_index g]. now rewrite upd_same.
    + unfold g. now destruct (snd grads).
Qed.
End WhereBackwardFacts.

Section WhereBackwardStatement.
Context {F : Type} {SF : Scalar F} {TI TO : Type}.
Variable to_prec : TI -> F.
Variable to_out : F -> TO.
Variable condition : buffer Z.
Variable output_grad : buffer TI.
Variable size : Z.

End WhereBackwardStatement.


Section WhereBroadcastBackwardStatement.
Context {F : Type} {SF : Scalar F} {T TO : Type}.
Variable to_prec : T -> F.
Variable to_out : F -> TO.

(** X20.  The broadcast backward of where keeps the last product, it does
    not add.  Host: when the input gradient has [r] elements
    ([check_broadcasted_contiguous] of its descriptor), the output gradient
    [numel >= 1] elements and the contiguous sizes the loop divides by are
    positive (the one of the condition, and the one of the other gradient
    unless its pointer is null), element [k] of [inputGrad] ends as
    [outputGrad[o] * condition[o mod cond_contig_size]] for the last index
    [o < numel] with [o mod r = k], the products of the earlier such indices
    being overwritten.  Kernel, for positive sizes: two threads [gid],
    [gid'] of [WhereBroadcastedContiguousBackward] with [gid mod input_size =
    gid' mod input_size] store to the same element of [input_grad], which
    holds the product of whichever thread ran last.  For every arithmetic. *)
Theorem X20_where_broadcast_backward
    (outputGradDesc conditionDesc inputGradDesc otherGradDesc : tensor_desc)
    (outputGrad host_condition : buffer T) (inputGrad : buffer TO)
    (otherGrad : option (buffer TO)) (k : Z)
    (condition : buffer Z) (output_grad : buffer T)
    (size output_grad_off condition_off input_grad_off other_grad_off
     condition_size input_size other_size gid gid' : Z)
    (grads : option (buffer TO) * option (buffer TO)) (input_grad : buffer TO) :
  let r := check_broadcasted_contiguous inputGradDesc in
  let numel := GetElementSize outputGradDesc in
  let last := k + r * ((numel - 1 - k) / r) in
  let host :=
    mloWhereBackwardRunHost to_prec to_out outputGradDesc outputGrad conditionDesc
      host_condition inputGradDesc otherGradDesc (Some inputGrad, otherGrad) in
  let thread :=
    WhereBroadcastedContiguousBackward_Kernel to_prec to_out condition output_grad size
      output_grad_off condition_off input_grad_off other_grad_off condition_size input_size
      other_size in
  let product g :=
    to_out (smul (to_prec (output_grad (u64 (g + output_grad_off))))
                 (of_int (condition (u64 (g mod condition_size + condition_off))))) in
  (0 <= k < r -> k < numel ->
   0 < check_broadcasted_contiguous conditionDesc ->
   (otherGrad <> None -> 0 < check_broadcasted_contiguous otherGradDesc) ->
   k <= last < numel /\ last mod r = k /\
   at_index (fst host) k
   = Some (to_out (smul (to_prec (outputGrad last))
                        (to_prec (host_condition
                                    (last mod check_broadcasted_contiguous conditionDesc)))))) /\
  (0 < condition_size -> 0 < input_size -> (snd grads <> None -> 0 < other_size) ->
   0 <= gid < size -> 0 <= gid' < size -> gid mod input_size = gid' mod input_size ->
   fst grads = Some input_grad ->
   at_index (fst (thread gid' (thread gid grads))) (u64 (gid mod input_size + input_grad_off))
   = Some (product gid') /\
   at_index (fst (thread gid (thread gid' grads))) (u64 (gid mod input_size + input_grad_off))
   = Some (product gid)).
Proof.
  intros r numel last host thread product. split.
  - intros Hk Hn _ _.
    assert (Hr : 0 < r) by lia.
    pose proof (Z.div_mod (numel - 1 - k) r ltac:(lia)) as Hd.
    pose proof (Z.mod_pos_bound (numel - 1 - k) r Hr) as Hm.
    assert (Hq : 0 <= (numel - 1 - k) / r) by (apply Z.div_pos; lia).
    assert (Hlast : k <= last < numel) by (unfold last; nia).
    assert (Hmod : last mod r = k).
    { unfold last. rewrite Z.mul_comm, Z.mod_add by lia. apply Z.mod_small. lia. }
    split; [exact Hlast|]. split; [exact Hmod|].
    unfold host, mloWhereBackwardRunHost. cbv zeta. fold r numel.
    pose (g := fun p : option TO =>
                 match p with
                 | Some _ =>
                     Some (to_out (smul (to_prec (outputGrad last))
                                     (to_prec (host_condition
                                                 (last mod check_broadcasted_contiguous
                                                             conditionDesc)))))
                 | None => None
                 end).
    change (Some (to_out (smul (to_prec (outputGrad last))
                            (to_prec (host_condition
                                        (last mod check_broadcasted_contiguous
                                                    conditionDesc))))))
      with (g (at_index (fst (Some inputGrad, otherGrad)) k)).
    apply (for_int_last (fun s : option (buffer TO) * option (buffer TO) =>
                           at_index (fst s) k) g last); [lia| | |].
    + intros i t Hi. cbn [fst]. now destruct (fst t).
    + intros t. cbn [fst]. destruct (fst t) as [b|]; [|reflexivity].
      cbn [at_index g]. rewrite <- Hmod at 1. now rewrite upd_same.
    + intros i t Hi. cbn [fst]. destruct (fst t) as [b|]; [|reflexivity].
      cbn [at_index]. rewrite upd_other; [reflexivity|].
      intros Heq.
      pose proof (Z.div_mod i r ltac:(lia)) as Hdi. rewrite <- Heq in Hdi.
      assert (Hlt : (numel - 1 - k) / r < i / r) by (unfold last in Hi; nia).
      nia.
  - intros _ _ _ Hg Hg' Hmod Hsome.
    assert (Hstep : forall a t b, 0 <= a < size -> fst t = Some b ->
              exists b', fst (thread a t) = Some b' /\
                         b' (u64 (a mod input_size + input_grad_off)) = product a).
    { intros a t b Ha Ht. unfold thread, WhereBroadcastedContiguousBackward_Kernel.
      destruct (Z.geb_spec a size) as [Hge|Hlt]; [lia|].
      cbv zeta. cbn [fst]. rewrite Ht. eexists. split; [reflexivity|].
      now rewrite upd_same. }
    split.
    + destruct (Hstep gid grads input_grad Hg Hsome) as (b1 & E1 & _).
      destruct (Hstep gid' (thread gid grads) b1 Hg' E1) as (b2 & E2 & V2).
      rewrite E2. cbn [at_index]. now rewrite Hmod, V2.
    + destruct (Hstep gid' grads input_grad Hg' Hsome) as (b1 & E1 & _).
      destruct (Hstep gid (thread gid' grads) b1 Hg E1) as (b2 & E2 & V2).
      rewrite E2. cbn [at_index]. now rewrite V2.
Qed.
End WhereBroadcastBackwardStatement.

(** A run of X20 in the real numbers: an input gradient of two elements
    under an output gradient of four; element 1 ends with the product of
    index 3. *)
Lemma X20_where_broadcast_backward_witness :
  at_index
    (fst (mloWhereBackwardRunHost (fun v : R => v) (fun v : R => v)
            (TensorDesc 2 (fun _ => 2) (fun i => 2 - i)) (fun i => IZR (10 + i))
            (TensorDesc 1 (fun _ => 2) (fun _ => 1)) (fun _ => 1%R)
            (TensorDesc 1 (fun _ => 2) (fun _ => 1))
            (TensorDesc 1 (fun _ => 2) (fun _ => 1))
            (Some (fun _ => 0%R), None)))
    1
  = Some (IZR (10 + 3) * 1)%R.
Proof.
  exact (proj2 (proj2 (proj1 (X20_where_broadcast_backward (fun v : R => v) (fun v : R => v)
                                (TensorDesc 2 (fun _ => 2) (fun i => 2 - i))
                                (TensorDesc 1 (fun _ => 2) (fun _ => 1))
                                (TensorDesc 1 (fun _ => 2) (fun _ => 1))
                                (TensorDesc 1 (fun _ => 2) (fun _ => 1))
                                (fun i => IZR (10 + i)) (fun _ => 1%R) (fun _ => 0%R) None 1
                                (fun _ => 1) (fun i => IZR (10 + i))
                                4 0 0 0 0 2 2 2 1 3 (Some (fun _ => 0%R), None)
                                (fun _ => 0%R))
                             ltac:(vm_compute; split; [discriminate|reflexivity])
                             ltac:(vm_compute; reflexivity)
                             ltac:(vm_compute; reflexivity)
                             ltac:(intros H; now contradiction H)))).
Defined.

(** * Further properties: descriptors the where reference accepts *)

Lemma u64_small (z : Z) : 0 <= z < 2 ^ 64 -> u64 z = z.
Proof. intros Hz. unfold u64. now apply Z.mod_small. Qed.

Lemma s64_small (z : Z) : - 2 ^ 63 <= z < 2 ^ 63 -> s64 z = z.
Proof. intros Hz. unfold s64. rewrite Z.mod_small by lia. ring. Qed.

Lemma forallb_zero_strides (f : Z -> Z) (n j : Z) :
  forallb (fun i => f i =? 0) (zrange n) = true -> 0 <= j < n -> f j = 0.
Proof.
  intros Hall Hj. rewrite forallb_forall in Hall.
  apply Z.eqb_eq, Hall. unfold zrange. apply in_map_iff.
  exists (Z.to_nat j). split; [lia|]. apply in_seq. lia.
Qed.

Section BroadcastContiguous.
Variable d : tensor_desc.
Variable idx : buffer Z.
Hypothesis Hlen : forall i, 0 <= i < ndim d -> 0 < lengths d i.
Hypothesis Hidx : valid_index d idx.

(** Elements, offset and row-major position over the first [k] dimensions. *)
Local Abbreviation elems k := (for_loop k (fun i acc => acc * lengths d i) 1).
Local Abbreviation offset k := (for_loop k (fun i acc => acc + idx i * strides d i) 0).
Local Abbreviation position k := (for_loop k (fun i acc => acc * lengths d i + idx i) 0).

Lemma elems_pos (k : nat) : Z.of_nat k <= ndim d -> 0 < elems k.
Proof.
  induction k as [|k IH]; intros Hk; cbn [for_loop]; [lia|].
  apply Z.mul_pos_pos; [apply IH; lia|apply Hlen; lia].
Qed.

Lemma offset_zero_strides (k : nat) :
  (forall j, 0 <= j < Z.of_nat k -> strides d j = 0) -> offset k = 0.
Proof.
  induction k as [|k IH]; intros Hz; cbn [for_loop]; [reflexivity|].
  rewrite IH by (intros; apply Hz; lia). rewrite Hz by lia. ring.
Qed.

Lemma check_broadcasted_contiguous_from_sound (k : nat) :
  forall num r,
  Z.of_nat k <= ndim d -> 0 < num -> num * elems k < 2 ^ 63 ->
  check_broadcasted_contiguous_from d k num = r -> r <> 0 ->
  0 < r /\ (num | r) /\ (r | num * elems k) /\
  offset k = (num * position k) mod r.
Proof.
  induction k as [|k IH]; intros num r Hk Hnum Hfit Hr Hne.
  - cbn in Hr. subst r. cbn [for_loop]. split; [lia|].
    split; [apply Z.divide_refl|]. split; [exists 1; ring|].
    rewrite Z.mul_0_r. symmetry. apply Z.mod_0_l. lia.
  - cbn [check_broadcasted_contiguous_from] in Hr. cbv zeta in Hr.
    cbn [for_loop] in Hfit |- *.
    pose proof (elems_pos k ltac:(lia)) as Hek.
    pose proof (Hlen (Z.of_nat k) ltac:(lia)) as Hlk.
    pose proof (Hidx (Z.of_nat k) ltac:(lia)) as Hik.
    assert (Hu : u64 num = num) by (apply u64_small; nia).
    rewrite Hu in Hr.
    destruct (Z.eqb_spec (strides d (Z.of_nat k)) 0) as [Hz|Hnz].
    + cbn [negb andb] in Hr.
      destruct (forallb (fun j => strides d j =? 0) (zrange (Z.of_nat k + 1))) eqn:Hall;
        [|congruence].
      subst r. split; [lia|]. split; [apply Z.divide_refl|].
      split; [apply Z.divide_factor_l|].
      rewrite (offset_zero_strides k)
        by (intros j Hj; apply (forallb_zero_strides _ _ _ Hall); lia).
      rewrite Hz, (Z.mul_comm num), Z.mod_mul by lia. ring.
    + cbn [negb andb] in Hr.
      destruct (Z.eqb_spec (strides d (Z.of_nat k)) num) as [Hs|Hns];
        cbn [negb] in Hr; [|congruence].
      assert (Hmul : num * lengths d (Z.of_nat k) <= num * (elems k * lengths d (Z.of_nat k)))
        by nia.
      rewrite s64_small in Hr by nia.
      destruct (IH (num * lengths d (Z.of_nat k)) r ltac:(lia) ltac:(nia) ltac:(nia) Hr Hne)
        as (Hpos & Hdiv & Hdiv' & Hoff).
      split; [exact Hpos|].
      split; [apply Z.divide_trans with (num * lengths d (Z.of_nat k));
              [apply Z.divide_factor_l|exact Hdiv]|].
      split.
      { replace (num * (elems k * lengths d (Z.of_nat k)))
          with (num * lengths d (Z.of_nat k) * elems k) by ring.
        exact Hdiv'. }
      rewrite Hoff, Hs.
      set (num' := num * lengths d (Z.of_nat k)) in *.
      set (A := (num' * position k) mod r).
      assert (HA : 0 <= A < r) by (apply Z.mod_pos_bound; lia).
      destruct Hdiv as (q & Hq).
      assert (HdA : (num' | A)).
      { unfold A. rewrite Z.mod_eq by lia.
        exists (position k - q * (num' * position k / r)). rewrite Hq at 1. ring. }
      destruct HdA as (a & Ha).
      assert (Hn' : 0 < num') by (unfold num'; nia).
      assert (Haq : a < q) by (apply Z.mul_lt_mono_pos_r with num'; lia).
      assert (Hle : A + num' <= r) by nia.
      replace (num * (position k * lengths d (Z.of_nat k) + idx (Z.of_nat k)))
        with (num' * position k + idx (Z.of_nat k) * num) by (unfold num'; ring).
      rewrite <- Zplus_mod_idemp_l. fold A.
      symmetry. apply Z.mod_small. nia.
Qed.
End BroadcastContiguous.

(** X21.  What [check_broadcasted_contiguous] promises the reference.  For
    a descriptor with positive lengths and fewer than [2^63] elements: when
    the function returns a non-zero [r], [r] is positive and divides the
    number of elements, and the element with multi-index [idx] is stored at
    offset [o mod r], [o] being its position in row-major order.  So the
    host reference, which reads [input[o % input_contig_size]] for the
    output position [o], reads the element the strides address. *)
Theorem X21_broadcast_contiguous_addressing (d : tensor_desc) (idx : buffer Z) :
  (forall i, 0 <= i < ndim d -> 0 < lengths d i) ->
  GetElementSize d < 2 ^ 63 ->
  valid_index d idx ->
  check_broadcasted_contiguous d <> 0 ->
  0 < check_broadcasted_contiguous d /\
  (check_broadcasted_contiguous d | GetElementSize d) /\
  tensor_offset d idx = row_major_index d idx mod check_broadcasted_contiguous d.
Proof.
  intros Hlen Hfit Hidx Hne.
  unfold GetElementSize, tensor_offset, row_major_index, for_int in *.
  destruct (Z.le_gt_cases 0 (ndim d)) as [Hn|Hn].
  2:{ unfold check_broadcasted_contiguous.
      replace (Z.to_nat (ndim d)) with 0%nat by lia. cbn.
      repeat split; try lia. exists 1; ring. }
  destruct (check_broadcasted_contiguous_from_sound d idx Hlen Hidx (Z.to_nat (ndim d)) 1
              (check_broadcasted_contiguous d) ltac:(lia) ltac:(lia) ltac:(lia)
              eq_refl Hne) as (Hpos & _ & Hdiv & Hoff).
  rewrite Z.mul_1_l in Hdiv, Hoff. auto.
Qed.

(** A run of X21: lengths [(3, 2)] with strides [(0, 1)], a row of two
    elements broadcast three times; the element [(2, 1)], fifth in row-major
    order, is stored at offset 1. *)
Lemma X21_broadcast_contiguous_addressing_witness :
  check_broadcasted_contiguous (TensorDesc 2 (fun i => 3 - i) (fun i => i)) = 2 /\
  tensor_offset (TensorDesc 2 (fun i => 3 - i) (fun i => i)) (fun i => 2 - i)
  = row_major_index (TensorDesc 2 (fun i => 3 - i) (fun i => i)) (fun i => 2 - i)
    mod check_broadcasted_contiguous (TensorDesc 2 (fun i => 3 - i) (fun i => i)).
Proof.
  split; [reflexivity|].
  refine (proj2 (proj2 (X21_broadcast_contiguous_addressing
                          (TensorDesc 2 (fun i => 3 - i) (fun i => i)) (fun i => 2 - i)
                          _ _ _ _))).
  - cbn [ndim lengths]. intros i Hi. lia.
  - vm_compute. reflexivity.
  - unfold valid_index. cbn [ndim lengths]. intros i Hi. lia.
  - vm_compute. discriminate.
Defined.

(** * Further properties: the Adam reference *)

Section AdamFacts.
Context {F : Type} {SF : Scalar F} {T2 : Type}.
Variable to_prec : T2 -> F.
Variable spow : F -> Z -> F.
Variable sgt : F -> F -> bool.
Variable sne : F -> F -> bool.

(** The steps of one element, from its locals. *)
Lemma cpu_adam_element (size : Z) (params : buffer F) (grads : buffer T2)
    (exp_avgs exp_avg_sqs max_exp_avg_sqs : buffer F)
    (lr beta1 beta2 weight_decay eps : F) (amsgrad maximize is_amp : bool)
    (grad_scale : Z) (found_inf : bool) (step_count i : Z) :
  0 <= i < size -> is_amp && found_inf = false ->
  cpu_adam to_prec spow sgt sne size params grads exp_avgs exp_avg_sqs max_exp_avg_sqs lr beta1
    beta2 weight_decay eps amsgrad maximize is_amp grad_scale found_inf step_count i
  = param (for_stride 1 (step_count + 1) 1
             (adam_step to_prec spow sgt sne (grads i) lr beta1 beta2 weight_decay eps amsgrad
                maximize is_amp grad_scale)
             (AdamLocals (params i) (exp_avgs i) (exp_avg_sqs i)
                (if amsgrad then max_exp_avg_sqs i else of_int 0))).
Proof.
  intros Hi Hrun. unfold cpu_adam. rewrite Hrun. cbv zeta.
  apply (for_int_hit (fun p : buffer F => p i)
           (fun v => param (for_stride 1 (step_count + 1) 1
                              (adam_step to_prec spow sgt sne (grads i) lr beta1 beta2
                                 weight_decay eps amsgrad maximize is_amp grad_scale)
                              (AdamLocals v (exp_avgs i) (exp_avg_sqs i)
                                 (if amsgrad then max_exp_avg_sqs i else of_int 0))))
           i); [exact Hi| |].
  - intros j t Hj Hne. apply upd_other. congruence.
  - intros t. apply upd_same.
Qed.

Lemma cpu_adam_outside (size : Z) (params : buffer F) (grads : buffer T2)
    (exp_avgs exp_avg_sqs max_exp_avg_sqs : buffer F)
    (lr beta1 beta2 weight_decay eps : F) (amsgrad maximize is_amp : bool)
    (grad_scale : Z) (found_inf : bool) (step_count j : Z) :
  ~ 0 <= j < size ->
  cpu_adam to_prec spow sgt sne size params grads exp_avgs exp_avg_sqs max_exp_avg_sqs lr beta1
    beta2 weight_decay eps amsgrad maximize is_amp grad_scale found_inf step_count j
  = params j.
Proof.
  intros Hj. unfold cpu_adam. destruct (is_amp && found_inf); [reflexivity|].
  apply (for_int_frame (fun p : buffer F => p j)).
  intros i t Hi. apply upd_other. lia.
Qed.

Lemma adam_no_steps {S : Type} (step_count : Z) (body : Z -> S -> S) (s : S) :
  step_count <= 0 -> for_stride 1 (step_count + 1) 1 body s = s.
Proof.
  intros Hs. unfold for_stride, for_int.
  replace (Z.to_nat ((step_count + 1 - 1 + 1 - 1) / 1)) with 0%nat; [reflexivity|].
  rewrite Z.div_1_r. lia.
Qed.

(** X22.  What [cpu_adam] leaves alone, for every arithmetic.  It returns
    [params] unchanged when [is_amp] and [found_inf] are both set and when
    [step_count] is not positive; it changes no element outside
    [0 .. size-1]; and the new [params[i]] is determined by the [i]-th
    elements of the five tensors: two calls whose tensors agree at [i] (and
    whose other arguments are the same) store the same value there. *)
Theorem X22_adam_unchanged_and_local (size : Z) (params params' : buffer F)
    (grads grads' : buffer T2)
    (exp_avgs exp_avg_sqs max_exp_avg_sqs exp_avgs' exp_avg_sqs' max_exp_avg_sqs' : buffer F)
    (lr beta1 beta2 weight_decay eps : F) (amsgrad maximize is_amp : bool)
    (grad_scale : Z) (found_inf : bool) (step_count : Z) :
  let run params grads exp_avgs exp_avg_sqs max_exp_avg_sqs :=
    cpu_adam to_prec spow sgt sne size params grads exp_avgs exp_avg_sqs max_exp_avg_sqs lr
      beta1 beta2 weight_decay eps amsgrad maximize is_amp grad_scale found_inf step_count in
  (is_amp && found_inf = true \/ step_count <= 0 ->
   forall j, run params grads exp_avgs exp_avg_sqs max_exp_avg_sqs j = params j) /\
  (forall j, ~ 0 <= j < size ->
   run params grads exp_avgs exp_avg_sqs max_exp_avg_sqs j = params j) /\
  (forall i,
   params i = params' i -> to_prec (grads i) = to_prec (grads' i) ->
   exp_avgs i = exp_avgs' i -> exp_avg_sqs i = exp_avg_sqs' i ->
   max_exp_avg_sqs i = max_exp_avg_sqs' i ->
   run params grads exp_avgs exp_avg_sqs max_exp_avg_sqs i
   = run params' grads' exp_avgs' exp_avg_sqs' max_exp_avg_sqs' i).
Proof.
  intros run. split; [|split].
  - intros Hcase j. unfold run.
    destruct (is_amp && found_inf) eqn:Hamp.
    + unfold cpu_adam. now rewrite Hamp.
    + destruct Hcase as [Hcase|Hsteps]; [discriminate|].
      destruct (Z_le_gt_dec 0 j) as [Hj0|Hj0]; [destruct (Z_lt_le_dec j size) as [Hj|Hj]|].
      * rewrite cpu_adam_element by (try assumption; lia).
        now rewrite adam_no_steps.
      * apply cpu_adam_outside. lia.
      * apply cpu_adam_outside. lia.
  - intros j Hj. apply cpu_adam_outside. exact Hj.
  - intros i Hp Hg Ha Hs Hm. unfold run.
    destruct (is_amp && found_inf) eqn:Hamp.
    + unfold cpu_adam. now rewrite Hamp.
    + destruct (Z_le_gt_dec 0 i) as [Hi0|Hi0]; [destruct (Z_lt_le_dec i size) as [Hi|Hi]|].
      * rewrite !cpu_adam_element by (try assumption; lia).
        rewrite Hp, Ha, Hs, Hm. f_equal.
        apply (for_int_ext _ _ _ _). intros j t Hj.
        unfold adam_step. now rewrite Hg.
      * rewrite !cpu_adam_outside by lia. exact Hp.
      * rewrite !cpu_adam_outside by lia. exact Hp.
Qed.
End AdamFacts.

(** A run of X22: no step is taken. *)
Lemma X22_adam_unchanged_and_local_witness :
  cpu_adam (fun v : R => v) powerRZ Rgtb Rneb 1 (fun _ => 3%R) (fun _ => 1%R) (fun _ => 0%R)
    (fun _ => 0%R) (fun _ => 0%R) 1%R 0%R 0%R 0%R 1%R false false false 1 false 0 0
  = 3%R.
Proof.
  refine (proj1 (X22_adam_unchanged_and_local (fun v : R => v) powerRZ Rgtb Rneb 1
                   (fun _ => 3%R) (fun _ => 3%R) (fun _ => 1%R) (fun _ => 1%R)
                   (fun _ => 0%R) (fun _ => 0%R) (fun _ => 0%R)
                   (fun _ => 0%R) (fun _ => 0%R) (fun _ => 0%R)
                   1%R 0%R 0%R 0%R 1%R false false false 1 false 0)
                _ 0).
  right. lia.
Defined.

Section AdamPreprocessing.
Context {F : Type} {SF : Scalar F} {T2 : Type}.
Variable to_prec : T2 -> F.
Variable spow : F -> Z -> F.
Variable sgt : F -> F -> bool.
Variable sne : F -> F -> bool.

(** X24.  [maximize] and [is_amp] only pre-process the gradient, for every
    arithmetic: a call with [maximize] and [is_amp] (and [found_inf] clear)
    stores what a call with both flags clear stores on gradients already
    multiplied by [-1] (if [maximize]) and then divided by [grad_scale] (if
    [is_amp]).  The weight decay added afterwards is neither negated nor
    scaled. *)
Theorem X24_adam_gradient_preprocessing (size : Z) (params : buffer F) (grads grads' : buffer T2)
    (exp_avgs exp_avg_sqs max_exp_avg_sqs : buffer F)
    (lr beta1 beta2 weight_decay eps : F) (amsgrad maximize is_amp : bool)
    (grad_scale grad_scale' : Z) (found_inf' : bool) (step_count : Z) :
  (forall i, 0 <= i < size ->
   to_prec (grads' i)
   = let grad := to_prec (grads i) in
     let grad := if maximize then smul grad (of_int (-1)) else grad in
     if is_amp then sdiv grad (of_int grad_scale) else grad) ->
  forall j,
  cpu_adam to_prec spow sgt sne size params grads exp_avgs exp_avg_sqs max_exp_avg_sqs lr beta1
    beta2 weight_decay eps amsgrad maximize is_amp grad_scale false step_count j
  = cpu_adam to_prec spow sgt sne size params grads' exp_avgs exp_avg_sqs max_exp_avg_sqs lr
      beta1 beta2 weight_decay eps amsgrad false false grad_scale' found_inf' step_count j.
Proof.
  intros Hpre j.
  destruct (Z_le_gt_dec 0 j) as [Hj0|Hj0]; [destruct (Z_lt_le_dec j size) as [Hj|Hj]|].
  - rewrite !cpu_adam_element by (try lia; try reflexivity; apply andb_false_r).
    f_equal. apply (for_int_ext _ _ _ _). intros k t Hk.
    unfold adam_step. rewrite Hpre by lia. reflexivity.
  - rewrite !cpu_adam_outside by lia. reflexivity.
  - rewrite !cpu_adam_outside by lia. reflexivity.
Qed.
End AdamPreprocessing.

(** A run of X24 in the real numbers: maximizing on the gradient [2] is
    minimizing on the gradient [2 * -1]. *)
Lemma X24_adam_gradient_preprocessing_witness :
  cpu_adam (fun v : R => v) powerRZ Rgtb Rneb 1 (fun _ => 3%R) (fun _ => 2%R) (fun _ => 0%R)
    (fun _ => 0%R) (fun _ => 0%R) 1%R 0%R 0%R 0%R 1%R false true false 1 false 1 0
  = cpu_adam (fun v : R => v) powerRZ Rgtb Rneb 1 (fun _ => 3%R) (fun _ => (2 * -1)%R)
      (fun _ => 0%R) (fun _ => 0%R) (fun _ => 0%R) 1%R 0%R 0%R 0%R 1%R false false false 1
      false 1 0.
Proof.
  exact (X24_adam_gradient_preprocessing (fun v : R => v) powerRZ Rgtb Rneb 1 (fun _ => 3%R)
           (fun _ => 2%R) (fun _ => (2 * -1)%R) (fun _ => 0%R) (fun _ => 0%R) (fun _ => 0%R)
           1%R 0%R 0%R 0%R 1%R false true false 1 1 false 1
           (fun i _ => eq_refl) 0).
Defined.

(** * Further properties: the strides of the drivers *)

(** A descending loop that stores to [strides[i]] from [strides[i+1]]. *)
Lemma for_down_frame {S O : Type} (obs : S -> O) (n : nat) (body : Z -> S -> S) (s : S) :
  (forall i t, 0 <= i < Z.of_nat n -> obs (body i t) = obs t) ->
  obs (for_down n body s) = obs s.
Proof.
  revert s. induction n as [|k IH]; intros s Hstep; [reflexivity|].
  cbn [for_down]. rewrite IH by (intros i t Hi; apply Hstep; lia).
  apply Hstep. lia.
Qed.

Section PackedStrides.
Variable wrap : Z -> Z.
Variable n : Z.
Variable lengths : buffer Z.

Local Abbreviation body :=
  (fun i (strides : buffer Z) => upd strides i (wrap (strides (i + 1) * lengths (i + 1)))).

Lemma packed_strides_rec (k : nat) (s : buffer Z) :
  Z.of_nat k <= n - 1 ->
  (forall j, Z.of_nat k <= j < n - 1 -> s j = wrap (s (j + 1) * lengths (j + 1))) ->
  let r := for_down k body s in
  r (n - 1) = s (n - 1) /\
  forall j, 0 <= j < n - 1 -> r j = wrap (r (j + 1) * lengths (j + 1)).
Proof.
  revert s. induction k as [|k IH]; intros s Hk Hs r.
  - split; [reflexivity|]. intros j Hj. apply Hs. lia.
  - unfold r. cbn [for_down].
    destruct (IH (upd s (Z.of_nat k) (wrap (s (Z.of_nat k + 1) * lengths (Z.of_nat k + 1)))))
      as (Hlast & Hrec); [lia| |].
    + intros j Hj. destruct (Z.eq_dec j (Z.of_nat k)) as [->|Hne].
      * rewrite upd_same, upd_other by lia. reflexivity.
      * rewrite !upd_other by lia. apply Hs. lia.
    + split; [|exact Hrec]. rewrite Hlast. apply upd_other. lia.
Qed.

Lemma packed_strides (s : buffer Z) :
  1 <= n ->
  let r := for_down (Z.to_nat (n - 1)) body (upd s (n - 1) 1) in
  r (n - 1) = 1 /\
  forall j, 0 <= j < n - 1 -> r j = wrap (r (j + 1) * lengths (j + 1)).
Proof.
  intros Hn r.
  destruct (packed_strides_rec (Z.to_nat (n - 1)) (upd s (n - 1) 1)) as (Hlast & Hrec);
    [lia|intros j Hj; lia|].
  split; [|exact Hrec]. unfold r. rewrite Hlast. apply upd_same.
Qed.
End PackedStrides.

(** With strides that obey the recurrence of a packed tensor, the offset of
    an element is its position in row-major order. *)
Lemma packed_offset (n : Z) (lens strs idx : buffer Z) :
  1 <= n ->
  strs (n - 1) = 1 ->
  (forall j, 0 <= j < n - 1 -> strs j = strs (j + 1) * lens (j + 1)) ->
  tensor_offset (TensorDesc n lens strs) idx
  = row_major_index (TensorDesc n lens strs) idx.
Proof.
  intros Hn Hlast Hrec. unfold tensor_offset, row_major_index, for_int.
  cbn [ndim lengths strides].
  assert (H : forall k : nat, (1 <= k)%nat -> Z.of_nat k <= n ->
              for_loop k (fun i acc => acc + idx i * strs i) 0
              = for_loop k (fun i acc => acc * lens i + idx i) 0
                * strs (Z.of_nat k - 1)).
  { induction k as [|k IH]; intros Hk1 Hkn; [lia|].
    destruct k as [|k'].
    - cbn [for_loop]. change (Z.of_nat 1 - 1) with 0. change (Z.of_nat 0) with 0. ring.
    - remember (Datatypes.S k') as k eqn:Ek.
      cbn [for_loop]. rewrite IH by lia.
      replace (Z.of_nat (Datatypes.S k) - 1) with (Z.of_nat k) by lia.
      rewrite (Hrec (Z.of_nat k - 1)) by lia.
      replace (Z.of_nat k - 1 + 1) with (Z.of_nat k) by lia. ring. }
  rewrite (H (Z.to_nat n)) by lia.
  replace (Z.of_nat (Z.to_nat n) - 1) with (n - 1) by lia.
  rewrite Hlast. ring.
Qed.

Lemma lengths_product_pos (n : Z) (lens : buffer Z) (k : nat) :
  (forall i, 0 <= i < n -> 0 < lens i) -> Z.of_nat k <= n ->
  0 < for_loop k (fun i acc => acc * lens i) 1.
Proof.
  intros Hlen. induction k as [|k IH]; intros Hk; cbn [for_loop]; [lia|].
  apply Z.mul_pos_pos; [apply IH; lia|apply Hlen; lia].
Qed.

Lemma s32_small (z : Z) : - 2 ^ 31 <= z < 2 ^ 31 -> s32 z = z.
Proof. intros Hz. unfold s32. rewrite Z.mod_small by lia. ring. Qed.

(** With positive lengths and fewer than [B] elements, products that wrap
    from [B] on do not wrap. *)
Lemma packed_strides_no_wrap (wrap : Z -> Z) (B n : Z) (lens strs : buffer Z) :
  (forall z, 0 <= z < B -> wrap z = z) ->
  1 <= n ->
  (forall i, 0 <= i < n -> 0 < lens i) ->
  for_loop (Z.to_nat n) (fun i acc => acc * lens i) 1 < B ->
  strs (n - 1) = 1 ->
  (forall j, 0 <= j < n - 1 -> strs j = wrap (strs (j + 1) * lens (j + 1))) ->
  forall j, 0 <= j < n - 1 -> strs j = strs (j + 1) * lens (j + 1).
Proof.
  intros Hwrap Hn Hlen Hfit Hlast Hrec.
  set (E := fun k : nat => for_loop k (fun i acc => acc * lens i) 1) in *.
  assert (HE : forall k : nat, E (Datatypes.S k) = E k * lens (Z.of_nat k)) by reflexivity.
  assert (Hfit' : E (Z.to_nat n) < B) by exact Hfit.
  assert (HEpos : forall k : nat, Z.of_nat k <= n -> 0 < E k).
  { intros k Hk. now apply (lengths_product_pos n). }
  assert (H : forall m : nat, Z.of_nat m <= n - 1 ->
              0 < strs (n - 1 - Z.of_nat m) /\
              strs (n - 1 - Z.of_nat m) * E (Z.to_nat (n - Z.of_nat m)) = E (Z.to_nat n) /\
              (1 <= Z.of_nat m ->
               strs (n - 1 - Z.of_nat m)
               = strs (n - 1 - Z.of_nat m + 1) * lens (n - 1 - Z.of_nat m + 1))).
  { induction m as [|m IH]; intros Hm.
    - replace (n - 1 - Z.of_nat 0) with (n - 1) by lia.
      replace (n - Z.of_nat 0) with n by lia.
      rewrite Hlast. split; [lia|]. split; [ring|]. cbn. lia.
    - destruct IH as (Hpos & Hprod & _); [lia|].
      set (j := n - 1 - Z.of_nat (Datatypes.S m)).
      replace (n - 1 - Z.of_nat m) with (j + 1) in * by (unfold j; lia).
      replace (Z.to_nat (n - Z.of_nat m)) with (Datatypes.S (Z.to_nat (j + 1))) in Hprod
        by (unfold j; lia).
      rewrite HE in Hprod.
      replace (Z.of_nat (Z.to_nat (j + 1))) with (j + 1) in Hprod by (unfold j; lia).
      replace (Z.to_nat (n - Z.of_nat (Datatypes.S m))) with (Z.to_nat (j + 1))
        by (unfold j; lia).
      pose proof (HEpos (Z.to_nat (j + 1)) ltac:(unfold j; lia)) as He.
      pose proof (Hlen (j + 1) ltac:(unfold j; lia)) as Hl.
      assert (Hp : 0 < strs (j + 1) * lens (j + 1)) by now apply Z.mul_pos_pos.
      assert (Hle : strs (j + 1) * lens (j + 1) <= E (Z.to_nat n)) by nia.
      assert (Hj : strs j = strs (j + 1) * lens (j + 1)).
      { rewrite (Hrec j) by (unfold j; lia). apply Hwrap. lia. }
      split; [lia|]. split; [rewrite Hj; lia|]. intros _. exact Hj. }
  intros j Hj.
  destruct (H (Z.to_nat (n - 1 - j)) ltac:(lia)) as (_ & _ & Hr).
  replace (n - 1 - Z.of_nat (Z.to_nat (n - 1 - j))) with j in Hr by lia.
  apply Hr. lia.
Qed.

(** X25.  [GetStrides] with [contiguous] set returns the strides of a
    packed tensor: for a vector of [n >= 1] positive lengths, the offset
    [sum idx[i] * strides[i]] of every multi-index is its position in
    row-major order, provided no product wraps: for the driver's function,
    on [int], when the tensor has fewer than [2^31] elements (and for every
    non-zero [contiguous], not only [1]); for the test's function, on
    [size_t], when it has fewer than [2^64]. *)
Theorem X25_contiguous_strides_are_packed (n : Z) (lens idx : buffer Z) (contiguous : Z) :
  1 <= n ->
  (forall i, 0 <= i < n -> 0 < lens i) ->
  (contiguous <> 0 ->
   GetElementSize (TensorDesc n lens (NLLLossDriver.GetStrides n lens contiguous)) < 2 ^ 31 ->
   tensor_offset (TensorDesc n lens (NLLLossDriver.GetStrides n lens contiguous)) idx
   = row_major_index (TensorDesc n lens (NLLLossDriver.GetStrides n lens contiguous)) idx) /\
  (GetElementSize (TensorDesc n lens (KLDivLossTest.GetStrides n lens true)) < 2 ^ 64 ->
   tensor_offset (TensorDesc n lens (KLDivLossTest.GetStrides n lens true)) idx
   = row_major_index (TensorDesc n lens (KLDivLossTest.GetStrides n lens true)) idx).
Proof.
  intros Hn Hlen. split.
  - intros Hc Hfit. unfold NLLLossDriver.GetStrides. cbv zeta.
    destruct (Z.eqb_spec contiguous 0) as [|_]; [contradiction|].
    destruct (packed_strides s32 n lens (fun _ => 0) Hn) as (Hlast & Hrec).
    apply packed_offset; [exact Hn|exact Hlast|].
    apply (packed_strides_no_wrap s32 (2 ^ 31) n lens); try assumption.
    intros z Hz. apply s32_small. lia.
  - intros Hfit. unfold KLDivLossTest.GetStrides. cbv zeta. cbn [negb].
    destruct (packed_strides u64 n lens (fun _ => 0) Hn) as (Hlast & Hrec).
    apply packed_offset; [exact Hn|exact Hlast|].
    apply (packed_strides_no_wrap u64 (2 ^ 64) n lens); try assumption.
    intros z Hz. now apply u64_small.
Qed.

(** A run of X25: lengths [(2, 3)], the element [(1, 2)] at offset 5. *)
Lemma X25_contiguous_strides_are_packed_witness :
  tensor_offset (TensorDesc 2 (fun i => 2 + i) (NLLLossDriver.GetStrides 2 (fun i => 2 + i) 1))
    (fun i => 1 + i)
  = row_major_index
      (TensorDesc 2 (fun i => 2 + i) (NLLLossDriver.GetStrides 2 (fun i => 2 + i) 1))
      (fun i => 1 + i).
Proof.
  refine (proj1 (X25_contiguous_strides_are_packed 2 (fun i => 2 + i) (fun i => 1 + i) 1
                   ltac:(lia) _) _ _).
  - intros i Hi. lia.
  - discriminate.
  - vm_compute. reflexivity.
Defined.

Lemma swap_front_back_front (n : Z) (v : buffer Z) : swap_front_back n v 0 = v (n - 1).
Proof.
  unfold swap_front_back. destruct (Z.eq_dec 0 (n - 1)) as [E|E].
  - rewrite <- E. now rewrite upd_same.
  - rewrite upd_other by exact E. apply upd_same.
Qed.

Lemma swap_front_back_back (n : Z) (v : buffer Z) : swap_front_back n v (n - 1) = v 0.
Proof. unfold swap_front_back. apply upd_same. Qed.

Lemma swap_front_back_middle (n : Z) (v : buffer Z) (i : Z) :
  i <> 0 -> i <> n - 1 -> swap_front_back n v i = v i.
Proof. intros H0 Hn. unfold swap_front_back. now rewrite !upd_other. Qed.

Lemma swap_front_back_positive (n : Z) (v : buffer Z) :
  1 <= n -> (forall i, 0 <= i < n -> 0 < v i) ->
  forall i, 0 <= i < n -> 0 < swap_front_back n v i.
Proof.
  intros Hn Hv i Hi.
  destruct (Z.eq_dec i 0) as [->|H0]; [rewrite swap_front_back_front; apply Hv; lia|].
  destruct (Z.eq_dec i (n - 1)) as [->|H1]; [rewrite swap_front_back_back; apply Hv; lia|].
  rewrite swap_front_back_middle by assumption. now apply Hv.
Qed.

(** Two sums that differ in their first term only. *)
Lemma sum_agree_after_first (k : nat) (f h : Z -> Z) :
  (1 <= k)%nat ->
  (forall i, 0 < i < Z.of_nat k -> f i = h i) ->
  for_loop k (fun i acc => acc + f i) 0 - for_loop k (fun i acc => acc + h i) 0 = f 0 - h 0.
Proof.
  induction k as [|k IH]; intros Hk Hfh; [lia|].
  destruct k as [|k'].
  - cbn [for_loop]. change (Z.of_nat 0) with 0. ring.
  - remember (Datatypes.S k') as k eqn:Ek. cbn [for_loop].
    rewrite (Hfh (Z.of_nat k)) by lia.
    specialize (IH ltac:(lia) ltac:(intros i Hi; apply Hfh; lia)). lia.
Qed.

(** Two products that differ in their first factor only. *)
Lemma product_agree_after_first (k : nat) (f h : Z -> Z) :
  (1 <= k)%nat ->
  (forall i, 0 < i < Z.of_nat k -> f i = h i) ->
  for_loop k (fun i acc => acc * f i) 1 * h 0 = for_loop k (fun i acc => acc * h i) 1 * f 0.
Proof.
  induction k as [|k IH]; intros Hk Hfh; [lia|].
  destruct k as [|k'].
  - cbn [for_loop]. change (Z.of_nat 0) with 0. ring.
  - remember (Datatypes.S k') as k eqn:Ek. cbn [for_loop].
    rewrite (Hfh (Z.of_nat k)) by lia.
    specialize (IH ltac:(lia) ltac:(intros i Hi; apply Hfh; lia)).
    replace (for_loop k (fun i acc => acc * f i) 1 * h (Z.of_nat k) * h 0)
      with (for_loop k (fun i acc => acc * f i) 1 * h 0 * h (Z.of_nat k)) by ring.
    rewrite IH. ring.
Qed.

(** Exchanging the first and the last entry of one factor of a sum of
    products, or of the other. *)
Lemma sum_swap_front_back (n : Z) (a b : buffer Z) :
  1 <= n ->
  for_int n (fun i acc => acc + a i * swap_front_back n b i) 0
  = for_int n (fun i acc => acc + swap_front_back n a i * b i) 0.
Proof.
  intros Hn. unfold for_int.
  destruct (Z.to_nat n) as [|k] eqn:Ek; [reflexivity|].
  assert (Hk : Z.of_nat k = n - 1) by lia.
  destruct k as [|k'].
  - cbn [for_loop]. change (Z.of_nat 0) with 0.
    rewrite !swap_front_back_front. replace (n - 1) with 0 by lia. reflexivity.
  - remember (Datatypes.S k') as k eqn:Ek'. cbn [for_loop].
    pose proof (sum_agree_after_first k
                  (fun i => a i * swap_front_back n b i)
                  (fun i => swap_front_back n a i * b i) ltac:(lia)) as Hsum.
    cbv beta in Hsum. rewrite !swap_front_back_front in Hsum.
    rewrite Hk, !swap_front_back_back.
    specialize (Hsum ltac:(intros i Hi; rewrite !swap_front_back_middle by lia; reflexivity)).
    lia.
Qed.

(** The number of elements does not change when the first and the last
    length are exchanged. *)
Lemma product_swap_front_back (n : Z) (lens : buffer Z) :
  1 <= n ->
  for_int n (fun i acc => acc * swap_front_back n lens i) 1
  = for_int n (fun i acc => acc * lens i) 1.
Proof.
  intros Hn. unfold for_int.
  destruct (Z.to_nat n) as [|k] eqn:Ek; [reflexivity|].
  assert (Hk : Z.of_nat k = n - 1) by lia.
  destruct k as [|k'].
  - cbn [for_loop]. change (Z.of_nat 0) with 0.
    rewrite swap_front_back_front. replace (n - 1) with 0 by lia. reflexivity.
  - remember (Datatypes.S k') as k eqn:Ek'. cbn [for_loop].
    pose proof (product_agree_after_first k (swap_front_back n lens) lens ltac:(lia)) as Hp.
    rewrite swap_front_back_front in Hp.
    rewrite Hk, swap_front_back_back.
    specialize (Hp ltac:(intros i Hi; rewrite swap_front_back_middle by lia; reflexivity)).
    exact Hp.
Qed.

(** X26.  [GetStrides] of the driver with [contiguous = 0] lays the tensor
    out as the packed tensor whose first and last axes are exchanged: for a
    vector of [n >= 1] positive lengths of a tensor with fewer than [2^31]
    elements (no [int] product wraps), the offset of the multi-index [idx]
    is the row-major position of [idx] with its first and last entries
    exchanged, in the lengths with their first and last entries exchanged.
    The first axis then has stride 1. *)
Theorem X26_non_contiguous_strides (n : Z) (lens idx : buffer Z) :
  1 <= n ->
  (forall i, 0 <= i < n -> 0 < lens i) ->
  let strs := NLLLossDriver.GetStrides n lens 0 in
  GetElementSize (TensorDesc n lens strs) < 2 ^ 31 ->
  tensor_offset (TensorDesc n lens strs) idx
  = row_major_index (TensorDesc n (swap_front_back n lens) strs) (swap_front_back n idx) /\
  strs 0 = 1.
Proof.
  intros Hn Hlen strs Hfit. unfold strs, NLLLossDriver.GetStrides. cbv zeta.
  change (0 =? 0) with true. cbv iota.
  set (packed :=
         for_down (Z.to_nat (n - 1))
           (fun i strides =>
              upd strides i (s32 (strides (i + 1) * swap_front_back n lens (i + 1))))
           (upd (fun _ => 0) (n - 1) 1)).
  destruct (packed_strides s32 n (swap_front_back n lens) (fun _ => 0) Hn)
    as (Hlast & Hrec).
  fold packed in Hlast, Hrec.
  split; [|rewrite swap_front_back_front; exact Hlast].
  assert (Hrec' : forall j, 0 <= j < n - 1 ->
            packed j = packed (j + 1) * swap_front_back n lens (j + 1)).
  { apply (packed_strides_no_wrap s32 (2 ^ 31) n (swap_front_back n lens)).
    - intros z Hz. apply s32_small. lia.
    - exact Hn.
    - now apply swap_front_back_positive.
    - unfold GetElementSize in Hfit. cbn [ndim lengths] in Hfit.
      pose proof (product_swap_front_back n lens Hn) as Hp. unfold for_int in Hp, Hfit.
      rewrite Hp. exact Hfit.
    - exact Hlast.
    - exact Hrec. }
  unfold tensor_offset. cbn [ndim strides].
  rewrite sum_swap_front_back by exact Hn.
  change (for_int n (fun i acc => acc + swap_front_back n idx i * packed i) 0)
    with (tensor_offset (TensorDesc n (swap_front_back n lens) packed) (swap_front_back n idx)).
  rewrite packed_offset by assumption. reflexivity.
Qed.

(** A run of X26: lengths [(2, 3)]; the element [(1, 2)] is at the
    row-major position of [(2, 1)] in lengths [(3, 2)]. *)
Lemma X26_non_contiguous_strides_witness :
  tensor_offset (TensorDesc 2 (fun i => 2 + i) (NLLLossDriver.GetStrides 2 (fun i => 2 + i) 0))
    (fun i => 1 + i)
  = row_major_index
      (TensorDesc 2 (swap_front_back 2 (fun i => 2 + i))
         (NLLLossDriver.GetStrides 2 (fun i => 2 + i) 0))
      (swap_front_back 2 (fun i => 1 + i)).
Proof.
  refine (proj1 (X26_non_contiguous_strides 2 (fun i => 2 + i) (fun i => 1 + i)
                   ltac:(lia) _ _)).
  - intros i Hi. lia.
  - vm_compute. reflexivity.
Defined.

(** * Further properties: the where backward with a broadcast condition *)

(** A loop that stores [val idx] at [idx + off] for the indices
    [gid, gid + step, ...] below [bound]. *)
Section StridedStores.
Context {A : Type}.
Variables (step bound off : Z) (val : Z -> A).
Hypothesis Hstep : 0 < step.
Hypothesis Hoff : 0 <= off.
Hypothesis Hfit : bound + off <= 2 ^ 64.

Local Abbreviation stores gid :=
  (for_stride gid bound step (fun idx (b : buffer A) => upd b (u64 (idx + off)) (val idx))).

Lemma strided_stores_hit (i : Z) (b : buffer A) :
  0 <= i < bound -> stores (i mod step) b (i + off) = val i.
Proof.
  intros Hi.
  pose proof (Z.mod_pos_bound i step Hstep) as Hm.
  pose proof (Z.div_mod i step ltac:(lia)) as Hd.
  assert (Hq : 0 <= i / step) by (apply Z.div_pos; lia).
  assert (Ei : i = i mod step + i / step * step) by lia.
  apply (for_stride_hit (fun t : buffer A => t (i + off)) (fun _ => val i)
           (i mod step) bound step (i / step)); try lia.
  - intros j t Hj Hlt Hne. apply upd_other.
    unfold u64. rewrite Z.mod_small by nia. nia.
  - intros t. rewrite <- Ei.
    unfold u64. rewrite Z.mod_small by lia. apply upd_same.
Qed.

Lemma strided_stores_frame (gid k : Z) (b : buffer A) :
  0 <= gid ->
  (forall i, 0 <= i < bound -> i mod step = gid mod step -> k <> i + off) ->
  stores gid b k = b k.
Proof.
  intros Hg Hk.
  apply (for_stride_frame (fun t : buffer A => t k)); [exact Hstep|].
  intros j t Hj Hlt. apply upd_other.
  unfold u64. rewrite Z.mod_small by nia.
  apply Hk; [nia|]. now rewrite Z.mod_add by lia.
Qed.
End StridedStores.

Section WhereConditionBackwardFacts.
Context {F : Type} {SF : Scalar F} {TI TO : Type}.
Variable to_prec : TI -> F.
Variable to_out : F -> TO.
Variable condition : buffer Z.
Variable output_grad : buffer TI.
Variables size output_grad_off condition_off input_grad_off other_grad_off : Z.
Variables condition_size input_size other_size : Z.

Hypothesis Hcs : 0 < condition_size.
Hypothesis Hsize : 0 < size.
Hypothesis Hoffs :
  0 <= output_grad_off /\ 0 <= condition_off /\ 0 <= input_grad_off /\ 0 <= other_grad_off.
Hypothesis Hfit :
  size + output_grad_off <= 2 ^ 64 /\ condition_size + condition_off <= 2 ^ 64 /\
  input_size + input_grad_off <= 2 ^ 64 /\ other_size + other_grad_off <= 2 ^ 64.

Local Abbreviation thread :=
  (WhereConditionBroadcastedContiguousBackward_Kernel to_prec to_out condition output_grad
     size output_grad_off condition_off input_grad_off other_grad_off condition_size
     input_size other_size).
Local Abbreviation pair := (option (buffer TO) * option (buffer TO))%type.

Lemma where_condition_backward_input_hit (i : Z) (t : pair) :
  0 <= i < input_size ->
  at_index (fst (thread (i mod condition_size) t)) (i + input_grad_off)
  = match at_index (fst t) (i + input_grad_off) with
    | Some _ =>
        Some (to_out (smul (to_prec (output_grad (i mod size + output_grad_off)))
                           (of_int (condition (i mod condition_size + condition_off)))))
    | None => None
    end.
Proof.
  intros Hi. unfold WhereConditionBroadcastedContiguousBackward_Kernel.
  pose proof (Z.mod_pos_bound i condition_size Hcs) as Hm.
  pose proof (Z.mod_pos_bound i size Hsize) as Hms.
  destruct (Z.geb_spec (i mod condition_size) condition_size) as [Hge|Hlt]; [lia|].
  cbv zeta. cbn [fst]. destruct (fst t) as [b|]; [|reflexivity].
  cbn [at_index]. f_equal.
  rewrite strided_stores_hit by lia.
  rewrite Z.mod_mod by lia.
  rewrite !where_index_small by lia. reflexivity.
Qed.

Lemma where_condition_backward_other_hit (i : Z) (t : pair) :
  0 <= i < other_size ->
  at_index (snd (thread (i mod condition_size) t)) (i + other_grad_off)
  = match at_index (snd t) (i + other_grad_off) with
    | Some _ =>
        Some (to_out (smul (to_prec (output_grad (i mod size + output_grad_off)))
                           (of_int (1 - condition (i mod condition_size + condition_off)))))
    | None => None
    end.
Proof.
  intros Hi. unfold WhereConditionBroadcastedContiguousBackward_Kernel.
  pose proof (Z.mod_pos_bound i condition_size Hcs) as Hm.
  pose proof (Z.mod_pos_bound i size Hsize) as Hms.
  destruct (Z.geb_spec (i mod condition_size) condition_size) as [Hge|Hlt]; [lia|].
  cbv zeta. cbn [snd]. destruct (snd t) as [b|]; [|reflexivity].
  cbn [at_index]. f_equal.
  rewrite strided_stores_hit by lia.
  rewrite Z.mod_mod by lia.
  rewrite !where_index_small by lia. reflexivity.
Qed.

Lemma where_condition_backward_input_frame (gid k : Z) (t : pair) :
  0 <= gid ->
  (forall i, 0 <= i < input_size -> i mod condition_size = gid -> k <> i + input_grad_off) ->
  at_index (fst (thread gid t)) k = at_index (fst t) k.
Proof.
  intros Hg Hk. unfold WhereConditionBroadcastedContiguousBackward_Kernel.
  destruct (Z.geb_spec gid condition_size) as [Hge|Hlt]; [reflexivity|].
  cbv zeta. cbn [fst]. destruct (fst t) as [b|]; [|reflexivity].
  cbn [at_index]. f_equal.
  apply strided_stores_frame; try lia.
  intros i Hi Hmod. apply Hk; [exact Hi|].
  rewrite Hmod. apply Z.mod_small. lia.
Qed.

Lemma where_condition_backward_other_frame (gid k : Z) (t : pair) :
  0 <= gid ->
  (forall i, 0 <= i < other_size -> i mod condition_size = gid -> k <> i + other_grad_off) ->
  at_index (snd (thread gid t)) k = at_index (snd t) k.
Proof.
  intros Hg Hk. unfold WhereConditionBroadcastedContiguousBackward_Kernel.
  destruct (Z.geb_spec gid condition_size) as [Hge|Hlt]; [reflexivity|].
  cbv zeta. cbn [snd]. destruct (snd t) as [b|]; [|reflexivity].
  cbn [at_index]. f_equal.
  apply strided_stores_frame; try lia.
  intros i Hi Hmod. apply Hk; [exact Hi|].
  rewrite Hmod. apply Z.mod_small. lia.
Qed.
End WhereConditionBackwardFacts.

Section WhereConditionBackwardStatement.
Context {F : Type} {SF : Scalar F} {TI TO : Type}.
Variable to_prec : TI -> F.
Variable to_out : F -> TO.
Variable condition : buffer Z.
Variable output_grad : buffer TI.
Variables size output_grad_off condition_off input_grad_off other_grad_off : Z.
Variables condition_size input_size other_size : Z.

(** X27.  Backward of where with a broadcast condition, for every
    arithmetic.  For positive [size] and [condition_size], offsets that
    keep every index below [2^64] and, for each gradient whose pointer is
    not null, a size with [size + condition_size <= 2^31] (the [int]
    counter of its loop does not overflow): after a launch of at least
    [condition_size] threads of [WhereConditionBroadcastedContiguousBackward],
    element [i] of the input gradient ([i < input_size]) holds
    [output_grad[i mod size] * condition[i mod condition_size]] and element
    [i] of the other gradient ([i < other_size]) holds
    [output_grad[i mod size] * (1 - condition[i mod condition_size])]
    (offsets added); the elements outside these ranges are unchanged, and a
    null gradient pointer is still null. *)
Theorem X27_where_condition_backward (threads i k : Z)
    (grads : option (buffer TO) * option (buffer TO)) :
  0 < condition_size -> 0 < size ->
  0 <= output_grad_off /\ 0 <= condition_off /\ 0 <= input_grad_off /\ 0 <= other_grad_off ->
  size + output_grad_off <= 2 ^ 64 /\ condition_size + condition_off <= 2 ^ 64 /\
  input_size + input_grad_off <= 2 ^ 64 /\ other_size + other_grad_off <= 2 ^ 64 ->
  (fst grads <> None -> input_size + condition_size <= 2 ^ 31) ->
  (snd grads <> None -> other_size + condition_size <= 2 ^ 31) ->
  condition_size <= threads ->
  let r :=
    for_int threads
      (WhereConditionBroadcastedContiguousBackward_Kernel to_prec to_out condition output_grad
         size output_grad_off condition_off input_grad_off other_grad_off condition_size
         input_size other_size)
      grads in
  let og := to_prec (output_grad (i mod size + output_grad_off)) in
  let cond := condition (i mod condition_size + condition_off) in
  (0 <= i < input_size ->
   at_index (fst r) (i + input_grad_off)
   = match fst grads with
     | Some _ => Some (to_out (smul og (of_int cond)))
     | None => None
     end) /\
  (0 <= i < other_size ->
   at_index (snd r) (i + other_grad_off)
   = match snd grads with
     | Some _ => Some (to_out (smul og (of_int (1 - cond))))
     | None => None
     end) /\
  (~ input_grad_off <= k < input_grad_off + input_size ->
   at_index (fst r) k = at_index (fst grads) k) /\
  (~ other_grad_off <= k < other_grad_off + other_size ->
   at_index (snd r) k = at_index (snd grads) k).
Proof.
  intros Hcs Hsize Hoffs Hfit _ _ Ht r og cond.
  pose proof (Z.mod_pos_bound i condition_size Hcs) as Hm.
  split; [|split; [|split]].
  - intros Hi.
    pose (g := fun p : option TO =>
                 match p with
                 | Some _ => Some (to_out (smul og (of_int cond)))
                 | None => None
                 end).
    transitivity (g (at_index (fst grads) (i + input_grad_off))).
    + apply (for_int_hit (fun s : option (buffer TO) * option (buffer TO) =>
                            at_index (fst s) (i + input_grad_off)) g (i mod condition_size));
        [lia| |].
      * intros gid t Hg Hne.
        eapply where_condition_backward_input_frame; try eassumption; [lia|].
        intros i' Hi' Hmod Heq. apply Hne.
        assert (i = i') by lia. subst i'. now symmetry.
      * intros t.
        eapply where_condition_backward_input_hit; eassumption.
    + unfold g. now destruct (fst grads).
  - intros Hi.
    pose (g := fun p : option TO =>
                 match p with
                 | Some _ => Some (to_out (smul og (of_int (1 - cond))))
                 | None => None
                 end).
    transitivity (g (at_index (snd grads) (i + other_grad_off))).
    + apply (for_int_hit (fun s : option (buffer TO) * option (buffer TO) =>
                            at_index (snd s) (i + other_grad_off)) g (i mod condition_size));
        [lia| |].
      * intros gid t Hg Hne.
        eapply where_condition_backward_other_frame; try eassumption; [lia|].
        intros i' Hi' Hmod Heq. apply Hne.
        assert (i = i') by lia. subst i'. now symmetry.
      * intros t.
        eapply where_condition_backward_other_hit; eassumption.
    + unfold g. now destruct (snd grads).
  - intros Hk.
    apply (for_int_frame (fun s : option (buffer TO) * option (buffer TO) =>
                            at_index (fst s) k)).
    intros gid t Hg.
    eapply where_condition_backward_input_frame; try eassumption; [lia|].
    intros i' Hi' _. lia.
  - intros Hk.
    apply (for_int_frame (fun s : option (buffer TO) * option (buffer TO) =>
                            at_index (snd s) k)).
    intros gid t Hg.
    eapply where_condition_backward_other_frame; try eassumption; [lia|].
    intros i' Hi' _. lia.
Qed.
End WhereConditionBackwardStatement.

(** A run of X27 in the real numbers: a condition of one element, set,
    under two output gradients; element 1 of the input gradient receives
    the second. *)
Lemma X27_where_condition_backward_witness :
  at_index
    (fst (for_int 1
            (WhereConditionBroadcastedContiguousBackward_Kernel (fun v : R => v)
               (fun v : R => v) (fun _ => 1) (fun i => IZR (10 + i)) 2 0 0 0 0 1 2 2)
            (Some (fun _ => 0%R), None)))
    (1 + 0)
  = Some (IZR (10 + (1 mod 2 + 0)) * IZR 1)%R.
Proof.
  refine (proj1 (X27_where_condition_backward (fun v : R => v) (fun v : R => v) (fun _ => 1)
                   (fun i => IZR (10 + i)) 2 0 0 0 0 1 2 2 1 1 0 (Some (fun _ => 0%R), None)
                   ltac:(lia) ltac:(lia) ltac:(lia) ltac:(lia) ltac:(intros _; lia)
                   ltac:(intros H; now contradiction H) ltac:(lia)) _).
  lia.
Defined.

(** * Further properties: the output shape of the where driver *)

Lemma findMax_max (a b c : Z) : findMax a b c = Z.max a (Z.max b c).
Proof.
  unfold findMax.
  destruct (Z.geb_spec a b); destruct (Z.geb_spec a c); destruct (Z.geb_spec b c); lia.
Qed.

(** X28.  The output shape of the where driver is the broadcast of the
    three input shapes.  The rank is the largest rank; axis [j] of the
    output has the largest of the three lengths aligned with it (the axes
    of an input are the last ones of the output, a missing axis counts as
    1).  When the aligned lengths are positive and pairwise compatible
    (equal, or one of them 1), every input length is 1 or the output
    length, so each input can be broadcast to the output. *)
Theorem X28_where_output_shape (in_sz : Z) (in_len : buffer Z) (other_sz : Z)
    (other_len : buffer Z) (cond_sz : Z) (cond_len : buffer Z) (j : Z) :
  let out_sz := fst (GetandSetData_out_len in_sz in_len other_sz other_len cond_sz cond_len) in
  let out_len := snd (GetandSetData_out_len in_sz in_len other_sz other_len cond_sz cond_len) in
  let a := aligned_length out_sz in_sz in_len j in
  let b := aligned_length out_sz other_sz other_len j in
  let c := aligned_length out_sz cond_sz cond_len j in
  out_sz = Z.max in_sz (Z.max other_sz cond_sz) /\
  (0 <= j < out_sz ->
   out_len j = Z.max a (Z.max b c) /\
   (0 < a /\ 0 < b /\ 0 < c ->
    (a = b \/ a = 1 \/ b = 1) -> (b = c \/ b = 1 \/ c = 1) -> (a = c \/ a = 1 \/ c = 1) ->
    (a = 1 \/ a = out_len j) /\ (b = 1 \/ b = out_len j) /\ (c = 1 \/ c = out_len j))).
Proof.
  intros out_sz out_len a b c.
  assert (Hsz : out_sz = findMax in_sz other_sz cond_sz) by reflexivity.
  split; [rewrite Hsz; apply findMax_max|].
  intros Hj.
  assert (Hout : out_len j = Z.max a (Z.max b c)).
  { unfold out_len, GetandSetData_out_len. cbv zeta. cbn [snd]. fold out_sz.
    rewrite <- Hsz.
    rewrite (for_int_hit (fun t : buffer Z => t j)
               (fun _ => Z.max a (Z.max b c)) (out_sz - 1 - j)); [reflexivity|lia| |].
    - intros i t Hi Hne. apply upd_other. lia.
    - intros t. replace (out_sz - 1 - (out_sz - 1 - j)) with j by lia.
      rewrite upd_same, findMax_max. unfold a, b, c, aligned_length.
      replace (in_sz - 1 - (out_sz - 1 - j)) with (in_sz - out_sz + j) by lia.
      replace (other_sz - 1 - (out_sz - 1 - j)) with (other_sz - out_sz + j) by lia.
      replace (cond_sz - 1 - (out_sz - 1 - j)) with (cond_sz - out_sz + j) by lia.
      reflexivity. }
  split; [exact Hout|]. rewrite Hout. lia.
Qed.

(** A run of X28: the shapes [(2, 3)], [(3)] and [(1)]. *)
Lemma X28_where_output_shape_witness :
  snd (GetandSetData_out_len 2 (fun i => 2 + i) 1 (fun _ => 3) 1 (fun _ => 1)) 0
  = Z.max (aligned_length 2 2 (fun i => 2 + i) 0)
      (Z.max (aligned_length 2 1 (fun _ => 3) 0) (aligned_length 2 1 (fun _ => 1) 0)).
Proof.
  refine (proj1 (proj2 (X28_where_output_shape 2 (fun i => 2 + i) 1 (fun _ => 3) 1
                          (fun _ => 1) 0) _)).
  vm_compute. split; [discriminate|reflexivity].
Defined.

(** * Further properties: descriptors [check_broadcasted_contiguous] accepts *)

Lemma forallb_zero_strides_intro (f : Z -> Z) (n : Z) :
  (forall j, 0 <= j < n -> f j = 0) -> forallb (fun i => f i =? 0) (zrange n) = true.
Proof.
  intros Hz. apply forallb_forall. intros i Hi. apply Z.eqb_eq, Hz.
  unfold zrange in Hi. apply in_map_iff in Hi. destruct Hi as (m & <- & Hm).
  apply in_seq in Hm. lia.
Qed.

Section BroadcastContiguousAccepts.
Variable d : tensor_desc.
Variable k : Z.
Hypothesis Hk : 0 <= k <= ndim d.
Hypothesis Hlen : forall i, 0 <= i < ndim d -> 0 < lengths d i.
Hypothesis Hfit : GetElementSize d < 2 ^ 63.
Hypothesis Hzero : forall i, 0 <= i < k -> strides d i = 0.
Hypothesis Hlast : k < ndim d -> strides d (ndim d - 1) = 1.
Hypothesis Hrec :
  forall i, k <= i < ndim d - 1 -> strides d i = strides d (i + 1) * lengths d (i + 1).

Local Abbreviation elems m := (for_loop m (fun i acc => acc * lengths d i) 1).

Lemma elems_fit : elems (Z.to_nat (ndim d)) < 2 ^ 63.
Proof. exact Hfit. Qed.

(** The stride of a packed axis times the lengths up to it is the number
    of elements. *)
Lemma packed_axis_product (m : nat) :
  Z.of_nat m <= ndim d - 1 - k ->
  let j := ndim d - 1 - Z.of_nat m in
  0 < strides d j /\ strides d j * elems (Z.to_nat (j + 1)) = elems (Z.to_nat (ndim d)).
Proof.
  induction m as [|m IH]; intros Hm j.
  - unfold j. replace (ndim d - 1 - Z.of_nat 0) with (ndim d - 1) by lia.
    rewrite Hlast by lia. replace (ndim d - 1 + 1) with (ndim d) by lia. lia.
  - destruct IH as (Hpos & Hprod); [lia|].
    replace (ndim d - 1 - Z.of_nat m) with (j + 1) in * by (unfold j; lia).
    replace (Z.to_nat (j + 1 + 1)) with (Datatypes.S (Z.to_nat (j + 1))) in Hprod
      by (unfold j; lia).
    cbn [for_loop] in Hprod.
    replace (Z.of_nat (Z.to_nat (j + 1))) with (j + 1) in Hprod by (unfold j; lia).
    rewrite (Hrec j) by (unfold j; lia).
    pose proof (Hlen (j + 1) ltac:(unfold j; lia)) as Hl.
    split; [now apply Z.mul_pos_pos|]. rewrite <- Hprod. ring.
Qed.

Lemma check_broadcasted_contiguous_from_accepts (m : nat) :
  forall num,
  k <= Z.of_nat m <= ndim d -> 0 < num ->
  num * elems m = elems (Z.to_nat (ndim d)) ->
  check_broadcasted_contiguous_from d m num * elems (Z.to_nat k)
  = elems (Z.to_nat (ndim d)).
Proof.
  pose proof elems_fit as Hf.
  induction m as [|m IH]; intros num Hm Hnum Hprod.
  - cbn [check_broadcasted_contiguous_from]. replace (Z.to_nat k) with 0%nat by lia.
    exact Hprod.
  - cbn [check_broadcasted_contiguous_from]. cbv zeta.
    destruct (Z_lt_le_dec (Z.of_nat m) k) as [Hlt|Hge].
    + rewrite (Hzero (Z.of_nat m)) by lia. cbn [Z.eqb negb andb].
      rewrite forallb_zero_strides_intro by (intros j Hj; apply Hzero; lia).
      replace (Z.to_nat k) with (Datatypes.S m) by lia. exact Hprod.
    + destruct (packed_axis_product (Z.to_nat (ndim d - 1 - Z.of_nat m)) ltac:(lia))
        as (Hpos & Hax).
      replace (ndim d - 1 - Z.of_nat (Z.to_nat (ndim d - 1 - Z.of_nat m)))
        with (Z.of_nat m) in Hpos, Hax by lia.
      replace (Z.to_nat (Z.of_nat m + 1)) with (Datatypes.S m) in Hax by lia.
      assert (Hepos : 0 < elems (Datatypes.S m)).
      { apply (lengths_product_pos (ndim d)); [exact Hlen|lia]. }
      assert (Hs : strides d (Z.of_nat m) = num).
      { apply (Z.mul_cancel_r _ _ (elems (Datatypes.S m))); lia. }
      assert (Hle : num <= elems (Z.to_nat (ndim d))) by nia.
      rewrite Hs, u64_small by lia.
      rewrite Z.eqb_refl. cbn [negb andb].
      destruct (Z.eqb_spec num 0) as [E|_]; [lia|].
      cbn [for_loop] in Hprod.
      pose proof (Hlen (Z.of_nat m) ltac:(lia)) as Hl.
      assert (Hem : 0 < elems m).
      { apply (lengths_product_pos (ndim d)); [exact Hlen|lia]. }
      assert (Hnl : 0 < num * lengths d (Z.of_nat m)) by now apply Z.mul_pos_pos.
      assert (Hnle : num * lengths d (Z.of_nat m) <= elems (Z.to_nat (ndim d))) by nia.
      rewrite s64_small by lia.
      apply IH; [lia|exact Hnl|]. rewrite <- Hprod. ring.
Qed.
End BroadcastContiguousAccepts.

(** X30.  The descriptors [check_broadcasted_contiguous] accepts.  Let the
    lengths be positive and the tensor have fewer than [2^63] elements.  If
    the first [k] strides are zero and the other axes are packed (the last
    stride is 1, each stride is the next stride times the next length), the
    function returns the number of elements of the packed axes: the result
    times the lengths of the first [k] axes is the number of elements of the
    tensor.  With [k = 0] (a packed tensor) the result is the number of
    elements, with [k = ndim] it is 1. *)
Theorem X30_broadcast_contiguous_accepts (d : tensor_desc) (k : Z) :
  0 <= k <= ndim d ->
  (forall i, 0 <= i < ndim d -> 0 < lengths d i) ->
  GetElementSize d < 2 ^ 63 ->
  (forall i, 0 <= i < k -> strides d i = 0) ->
  (k < ndim d -> strides d (ndim d - 1) = 1) ->
  (forall i, k <= i < ndim d - 1 -> strides d i = strides d (i + 1) * lengths d (i + 1)) ->
  check_broadcasted_contiguous d * for_int k (fun i acc => acc * lengths d i) 1
  = GetElementSize d /\
  0 < check_broadcasted_contiguous d.
Proof.
  intros Hk Hlen Hfit Hzero Hlast Hrec.
  assert (Hprod : check_broadcasted_contiguous d * for_int k (fun i acc => acc * lengths d i) 1
                  = GetElementSize d).
  { unfold check_broadcasted_contiguous, GetElementSize, for_int.
    apply check_broadcasted_contiguous_from_accepts; try assumption; lia. }
  split; [exact Hprod|].
  assert (Hn : 0 < GetElementSize d).
  { unfold GetElementSize, for_int. apply (lengths_product_pos (ndim d)); [exact Hlen|lia]. }
  assert (Hkpos : 0 < for_int k (fun i acc => acc * lengths d i) 1).
  { unfold for_int. apply (lengths_product_pos (ndim d)); [exact Hlen|lia]. }
  nia.
Qed.

(** A run of X30: lengths [(3, 2)] with strides [(0, 1)], a row of two
    elements broadcast three times. *)
Lemma X30_broadcast_contiguous_accepts_witness :
  check_broadcasted_contiguous (TensorDesc 2 (fun i => 3 - i) (fun i => i))
  * for_int 1 (fun i acc => acc * (3 - i)) 1
  = GetElementSize (TensorDesc 2 (fun i => 3 - i) (fun i => i)).
Proof.
  refine (proj1 (X30_broadcast_contiguous_accepts (TensorDesc 2 (fun i => 3 - i) (fun i => i))
                   1 _ _ _ _ _ _)); cbn [ndim lengths strides].
  - lia.
  - intros i Hi. lia.
  - vm_compute. reflexivity.
  - intros i Hi. lia.
  - intros _. reflexivity.
  - intros i Hi. lia.
Defined.

(** * Further properties: the output lengths of the unfold driver *)

Lemma product_snoc (ls : list Z) (l : Z) :
  fold_right Z.mul 1 (ls ++ [l]) = fold_right Z.mul 1 ls * l.
Proof.
  induction ls as [|a ls IH]; cbn [app fold_right]; [ring|]. rewrite IH. ring.
Qed.

Lemma nth_map_seq (f : Z -> Z) (n i : nat) :
  (i < n)%nat -> nth i (map f (map Z.of_nat (seq 0 n))) 0 = f (Z.of_nat i).
Proof.
  intros Hi. rewrite map_map.
  rewrite (nth_indep _ 0 (f (Z.of_nat 0))) by (rewrite length_map, length_seq; exact Hi).
  rewrite (map_nth (fun k => f (Z.of_nat k)) (seq 0 n) 0%nat i).
  now rewrite seq_nth.
Qed.

Lemma map_seq_ext (f h : Z -> Z) (n : nat) :
  (forall i, 0 <= i < Z.of_nat n -> f i = h i) ->
  map f (map Z.of_nat (seq 0 n)) = map h (map Z.of_nat (seq 0 n)).
Proof.
  intros Hfh. rewrite !map_map. apply map_ext_in. intros k Hk.
  apply in_seq in Hk. apply Hfh. lia.
Qed.

(** The loop over the spatial axes: [ls] collects the lengths [l], [L] is
    their [int64_t] product and [P] the one of the kernel sizes. *)
Lemma unfold_lengths_loop (l : Z -> Z) (kernel_size : buffer Z) (n : nat) :
  for_loop n
    (fun i '(P, L, ls) => (s64 (P * kernel_size i), s64 (L * l i), ls ++ [l i]))
    (1, 1, [])
  = (for_loop n (fun i acc => s64 (acc * kernel_size i)) 1,
     for_loop n (fun i acc => s64 (acc * l i)) 1,
     map l (map Z.of_nat (seq 0 n))).
Proof.
  induction n as [|n IH]; [reflexivity|].
  cbn [for_loop]. rewrite IH.
  rewrite seq_S, !map_app. reflexivity.
Qed.

Lemma product_ge_1 (f : Z -> Z) (n : nat) :
  (forall i, 0 <= i < Z.of_nat n -> 1 <= f i) ->
  1 <= for_loop n (fun i acc => acc * f i) 1.
Proof.
  induction n as [|n IH]; intros Hf; [cbn; lia|]. cbn [for_loop].
  pose proof (Hf (Z.of_nat n) ltac:(lia)).
  assert (1 <= for_loop n (fun i acc => acc * f i) 1) by (apply IH; intros; apply Hf; lia).
  nia.
Qed.

(** A product of factors from 1 on that stays below [2^63] does not wrap. *)
Lemma product_no_wrap (f : Z -> Z) (n : nat) :
  (forall i, 0 <= i < Z.of_nat n -> 1 <= f i) ->
  for_loop n (fun i acc => acc * f i) 1 < 2 ^ 63 ->
  for_loop n (fun i acc => s64 (acc * f i)) 1 = for_loop n (fun i acc => acc * f i) 1.
Proof.
  induction n as [|n IH]; intros Hf Hfit; [reflexivity|].
  cbn [for_loop] in *.
  pose proof (Hf (Z.of_nat n) ltac:(lia)) as Hn.
  pose proof (product_ge_1 f n ltac:(intros i Hi; apply Hf; lia)) as Hpos.
  rewrite IH by (try (intros i Hi; apply Hf; lia); nia).
  apply s64_small. nia.
Qed.

Lemma product_as_fold (f : Z -> Z) (n : nat) :
  for_loop n (fun i acc => acc * f i) 1 = fold_right Z.mul 1 (map f (map Z.of_nat (seq 0 n))).
Proof.
  induction n as [|n IH]; [reflexivity|].
  cbn [for_loop]. rewrite IH, seq_S, !map_app. cbn [map plus]. now rewrite product_snoc.
Qed.

(** Truncating division counts the window positions when the first window
    fits. *)
Lemma window_count (room step p : Z) :
  0 < step -> 0 <= room -> 0 <= p -> (p < room ÷ step + 1 <-> p * step <= room).
Proof.
  intros Hs Hr Hp. rewrite Z.quot_div_nonneg by lia.
  pose proof (Z.div_mod room step ltac:(lia)) as Hd.
  pose proof (Z.mod_pos_bound room step Hs) as Hm.
  split; intros H; nia.
Qed.

(** For [int] arguments and a positive stride the [int64_t] expression of
    [l] does not wrap. *)
Lemma window_length_no_wrap (len k s p d : Z) :
  is_int len -> is_int k -> is_int p -> is_int d -> 0 < s ->
  s64 (s64 (len + 2 * p - d * (k - 1) - 1) ÷ s + 1) = (len + 2 * p - d * (k - 1) - 1) ÷ s + 1.
Proof.
  unfold is_int. intros Hl Hk Hp Hd Hs.
  assert (Hdk : - 2 ^ 62 - 2 ^ 31 <= d * (k - 1) <= 2 ^ 62 + 2 ^ 31) by nia.
  set (a := len + 2 * p - d * (k - 1) - 1) in *.
  assert (Ha : - 2 ^ 63 + 2 <= a < 2 ^ 63 - 1) by (unfold a; lia).
  rewrite (s64_small a) by lia.
  apply s64_small.
  assert (Hq : Z.abs (a ÷ s) <= Z.abs a).
  { rewrite <- Z.quot_abs by lia. rewrite Z.quot_div_nonneg by lia.
    pose proof (Z.div_mod (Z.abs a) (Z.abs s) ltac:(lia)) as Hd'.
    pose proof (Z.mod_pos_bound (Z.abs a) (Z.abs s) ltac:(lia)) as Hm'.
    assert (0 <= Z.abs a / Z.abs s) by (apply Z.div_pos; lia).
    nia. }
  lia.
Qed.


